(** * xmalloc: a shallow embedding of the allocator core

    The development follows [allocator.cpp], [allocator_list.h],
    [allocator_header.h] and [allocator_internal.h].  Machine integers are
    [Z] with the wrap-around written out, page-block headers are records,
    payload memory is a byte store, and the functions thread one [state]
    through an outcome monad. *)

From Stdlib Require Import ZArith Lia List Bool String.
From stdpp Require Import base option list gmap fin_maps.

Local Open Scope Z_scope.

(** ** Machine integers *)

Definition u8 (x : Z) : Z := x mod 2 ^ 8.
Definition u16 (x : Z) : Z := x mod 2 ^ 16.
Definition u32 (x : Z) : Z := x mod 2 ^ 32.
Definition u64 (x : Z) : Z := x mod 2 ^ 64.

(** ** Constants of [allocator_internal.h] *)

Definition CLASS_SMALL : Z := 0.
Definition CLASS_LARGE : Z := 1.
Definition CLASS_NUM : Z := 64.
Definition CLASS_PAGES_NUM : Z := 3.
Definition PAGE_BITS : Z := 12.
Definition PAGE_SZ : Z := Z.shiftl 1 PAGE_BITS.
Definition PAGE_MULTIPLIER : Z := 3.
Definition SMALL_ALLOCATION_LIMIT : Z := PAGE_SZ / 2.
Definition DEFAULT_ALLIGN : Z := 16.

Definition REMOTELY_FREED_OFFSET_BITS : Z := 24.
Definition REMOTELY_FREED_COUNT_BITS : Z := 16.
Definition THREAD_ID_BITS : Z := 24.
Definition ORPHAN_ID : Z := Z.shiftl 1 THREAD_ID_BITS - 1.

(** [sizeof(page_t)]: two pointers, two shorts, three ints and the
    64-bit sync word. *)
Definition SIZEOF_PAGE_T : Z := 8 + 8 + 2 + 2 + 4 + 4 + 4 + 8.
Definition SIZEOF_HEADER_T : Z := 1.

Definition ALIGN_MASK (x : Z) : Z := x - 1.
Definition GET_PAGE_BOUNDARY (x : Z) : Z :=
  Z.land (u64 x) (u64 (Z.lnot (ALIGN_MASK PAGE_SZ))).
Definition GET_PAGE_START (x off : Z) : Z :=
  u64 (GET_PAGE_BOUNDARY x - off * PAGE_SZ).
Definition GET_PAGE_NUM (x : Z) : Z :=
  Z.shiftr x PAGE_BITS
  + (if Z.land x (ALIGN_MASK PAGE_SZ) =? 0 then 0 else 1).

(** [LOG2] takes an [unsigned int]: the argument is cut to 32 bits, and
    [31 - clz] of a non-zero word is the position of its top bit. *)
Definition LOG2 (x : Z) : Z := Z.log2 (u32 x).

Definition PAGE_SZ_BY_IDX (x : Z) : Z := Z.shiftl 1 (x + PAGE_MULTIPLIER).
Definition IDX_BY_PAGE_SZ (x : Z) : Z := LOG2 (Z.shiftr x PAGE_MULTIPLIER).

(** ** The size-class table and its decoder *)

Definition class_sizes : list Z :=
  [ 16; 32; 48; 64; 80; 96; 112; 128;
    144; 160; 176; 192; 208; 224; 240; 256;
    272; 288; 304; 320; 336; 352; 368; 384;
    400; 416; 432; 448; 464; 480; 496; 512;
    544; 576; 608; 640; 672; 704; 736; 768;
    800; 832; 864; 896; 928; 960; 992; 1024;
    1088; 1152; 1216; 1280; 1344; 1408; 1472; 1536;
    1600; 1664; 1728; 1792; 1856; 1920; 1984; 2048 ].

Definition range_shift : Z := 8.
Definition range_mult : Z := 512.
Definition base_shift : Z := 4.
Definition range_offset : list Z := [0; 32; 48].

Definition range_idx_of (size : Z) : Z :=
  LOG2 (Z.lor (Z.shiftr size range_shift) 1).

Definition subrange_idx_of (size : Z) : Z :=
  let range_idx := range_idx_of size in
  u32 (Z.shiftr (u64 (size - u32 (range_mult * range_idx)))
                (base_shift + range_idx)).

(** [class_size_decode size] returns the class index and the value stored
    through [pageblock_size].  Reading [range_offset] past its three
    entries is undefined in the source; here it yields [None]. *)
Definition class_size_decode (size : Z) : option (Z * Z) :=
  let range_idx := range_idx_of size in
  let subrange_idx := subrange_idx_of size in
  let pageblock_size := Z.shiftl 1 (range_idx + PAGE_MULTIPLIER) in
  match range_offset !! Z.to_nat range_idx with
  | Some off => Some (u32 (off + subrange_idx), pageblock_size)
  | None => None
  end.

(** The step between neighbouring classes documented for each range. *)
Definition range_step (range_idx : Z) : Z := Z.shiftl 16 range_idx.

(** A bounded universal check over [lo, lo + n). *)
Fixpoint forall_range (n : nat) (lo : Z) (P : Z -> bool) : bool :=
  match n with
  | O => true
  | S k => P lo && forall_range k (lo + 1) P
  end.

(** What the decoder must satisfy at one request size [s]: the range,
    sub-range, class index and page-block size follow the documented
    formulas (in exact arithmetic), the class is larger than [s], and
    the class is one documented step above its predecessor. *)
Definition decode_ok (s : Z) : bool :=
  let r := Z.log2 (Z.lor (Z.shiftr s 8) 1) in
  let sub := Z.shiftr (s - r * 512) (4 + r) in
  match class_size_decode s, range_offset !! Z.to_nat r with
  | Some (idx, pb), Some off =>
      (range_idx_of s =? r) && (0 <=? r) && (r <=? 2)
      && (subrange_idx_of s =? sub)
      && (idx =? off + sub)
      && (pb =? 2 ^ (r + 3))
      && (0 <=? idx) && (idx <=? 63)
      && match class_sizes !! Z.to_nat idx with
         | Some csz =>
             (s <? csz)
             && match idx, class_sizes !! Z.to_nat (idx - 1) with
                | 0, _ => true
                | _, Some before => csz - before =? range_step r
                | _, None => false
                end
         | None => false
         end
  | _, _ => false
  end.

Definition roundtrip_ok (c : Z) : bool :=
  match class_sizes !! Z.to_nat c with
  | Some csz =>
      match class_size_decode (u64 (csz - 1)) with
      | Some (idx, _) => idx =? c
      | None => false
      end
  | None => false
  end.

(** ** Bit-fields of the two packed 64-bit words *)

Definition VIRTUAL_EFFECTIVE_BITS : Z := 52.
Definition VIRTUAL_UNUSED_BITS : Z := 64 - VIRTUAL_EFFECTIVE_BITS.
Definition PTR_SHIFT : Z := PAGE_BITS.
Definition PTR_BITS : Z := 64 - PAGE_BITS - VIRTUAL_UNUSED_BITS.
Definition PTR_MASK : Z := Z.shiftl 1 (64 - VIRTUAL_UNUSED_BITS) - 1.
Definition COUNT_BITS : Z := Z.shiftr (64 - PTR_BITS) 1.
Definition STATE_BITS : Z := Z.shiftr (64 - PTR_BITS) 1.
Definition COUNT_MAX : Z := Z.shiftl 1 COUNT_BITS - 1.

(** A bit-field of [w] bits that starts at bit [lo] of a word. Assigning
    to a bit-field keeps the low [w] bits of the value. *)
Definition get_field (lo w word : Z) : Z :=
  Z.land (Z.shiftr word lo) (Z.ones w).
Definition set_field (lo w word v : Z) : Z :=
  Z.lor (Z.land word (Z.lnot (Z.shiftl (Z.ones w) lo)))
        (Z.shiftl (Z.land v (Z.ones w)) lo).

(** [dq_ct_node]: [nxt:PTR_BITS], [count:COUNT_BITS], [state:STATE_BITS]. *)
Definition dq_nxt (w : Z) : Z := get_field 0 PTR_BITS w.
Definition dq_count (w : Z) : Z := get_field PTR_BITS COUNT_BITS w.
Definition dq_state (w : Z) : Z :=
  get_field (PTR_BITS + COUNT_BITS) STATE_BITS w.
Definition set_dq_nxt (w v : Z) : Z := set_field 0 PTR_BITS w v.
Definition set_dq_count (w v : Z) : Z := set_field PTR_BITS COUNT_BITS w v.
Definition set_dq_state (w v : Z) : Z :=
  set_field (PTR_BITS + COUNT_BITS) STATE_BITS w v.

Definition SET_PTR (x : Z) : Z := Z.land (Z.shiftr (u64 x) PTR_SHIFT) PTR_MASK.
Definition GET_PTR (x : Z) : Z :=
  u64 (Z.shiftl (Z.lor (u64 x) (u64 (Z.lnot PTR_MASK))) PTR_SHIFT).

(** [rfid]: [count:16], [remotely_freed:24], [thread_id:24]. *)
Definition rf_count (w : Z) : Z := get_field 0 REMOTELY_FREED_COUNT_BITS w.
Definition rf_remotely_freed (w : Z) : Z :=
  get_field REMOTELY_FREED_COUNT_BITS REMOTELY_FREED_OFFSET_BITS w.
Definition rf_thread_id (w : Z) : Z :=
  get_field (REMOTELY_FREED_COUNT_BITS + REMOTELY_FREED_OFFSET_BITS)
            THREAD_ID_BITS w.
Definition set_rf_count (w v : Z) : Z :=
  set_field 0 REMOTELY_FREED_COUNT_BITS w v.
Definition set_rf_remotely_freed (w v : Z) : Z :=
  set_field REMOTELY_FREED_COUNT_BITS REMOTELY_FREED_OFFSET_BITS w v.
Definition set_rf_thread_id (w v : Z) : Z :=
  set_field (REMOTELY_FREED_COUNT_BITS + REMOTELY_FREED_OFFSET_BITS)
            THREAD_ID_BITS w v.

(** ** Object headers ([allocator_header.h]) *)

Definition HEADER_TOTAL_BITS : Z := 8.
Definition HEADER_TYPE_BITS : Z := 1.
Definition HEADER_PAGE_OFF_BITS : Z := 2 + PAGE_MULTIPLIER.
Definition HEADER_SECURITY_BITS : Z :=
  HEADER_TOTAL_BITS - HEADER_TYPE_BITS - HEADER_PAGE_OFF_BITS.
Definition GEN_MASK (x : Z) : Z := Z.shiftl 1 x - 1.
Definition HEADER_SMALL : Z := 0.
Definition HEADER_LARGE : Z := 128.
Definition HEADER_TYPE_MASK : Z := 128.
Definition HEADER_TYPE_SHIFT : Z := 7.
Definition SECURITY_OPCODE : Z := 255.
Definition HEADER_PAGE_OFF_SHIFT : Z := HEADER_SECURITY_BITS.
Definition HEADER_PAGE_OFF_MASK : Z :=
  Z.shiftl (GEN_MASK HEADER_PAGE_OFF_BITS) HEADER_PAGE_OFF_SHIFT.
Definition HEADER_VALID_MASK : Z := GEN_MASK HEADER_SECURITY_BITS.
Definition HEADER_VALID : Z := Z.land SECURITY_OPCODE HEADER_VALID_MASK.
Definition LARGE_HEADER_SIZE : Z := 16.

Definition HEADER_PAGE_OFFSET_SET (x : Z) : Z :=
  Z.shiftl (u8 x) HEADER_PAGE_OFF_SHIFT.
Definition HEADER_PAGE_OFFSET_GET (x : Z) : Z :=
  Z.shiftr (Z.land (u8 x) HEADER_PAGE_OFF_MASK) HEADER_PAGE_OFF_SHIFT.
Definition HEADER_PAGE_GET_TYPE (x : Z) : Z :=
  Z.shiftr (Z.land (u8 x) HEADER_TYPE_MASK) HEADER_TYPE_SHIFT.
Definition HEADER_IS_BLOCK_VALID (x : Z) : bool :=
  Z.land (u8 x) HEADER_VALID_MASK =? HEADER_VALID.

(** ** Payload memory: a little-endian byte store *)

Definition read8 (m : gmap Z Z) (a : Z) : Z := default 0 (m !! a).
Definition write8 (m : gmap Z Z) (a v : Z) : gmap Z Z := <[a := u8 v]> m.

Fixpoint read_le (n : nat) (m : gmap Z Z) (a : Z) : Z :=
  match n with
  | O => 0
  | S k => read8 m a + 256 * read_le k m (a + 1)
  end.

Fixpoint write_le (n : nat) (m : gmap Z Z) (a v : Z) : gmap Z Z :=
  match n with
  | O => m
  | S k => write_le k (write8 m a v) (a + 1) (v / 256)
  end.

Fixpoint copy_bytes (n : nat) (m : gmap Z Z) (dst src : Z) : gmap Z Z :=
  match n with
  | O => m
  | S k => copy_bytes k (write8 m dst (read8 m src)) (dst + 1) (src + 1)
  end.

Fixpoint fill_bytes (n : nat) (m : gmap Z Z) (dst v : Z) : gmap Z Z :=
  match n with
  | O => m
  | S k => fill_bytes k (write8 m dst v) (dst + 1) v
  end.

(** A fresh anonymous mapping reads as zero. *)
Definition zero_region (m : gmap Z Z) (a len : Z) : gmap Z Z :=
  filter (fun kv => ~ (a <= kv.1 < a + len)) m.

(** ** The state *)

Record page_t := mk_page {
  next : Z;               (* first word; a stacked block keeps a [dq_ct_node] here *)
  prev : Z;
  page_num : Z;           (* unsigned short *)
  object_size : Z;        (* unsigned short *)
  allocated_objects : Z;  (* unsigned int *)
  unallocated_off : Z;    (* unsigned int *)
  freed : Z;              (* unsigned int *)
  sync : Z                (* rfid_un *)
}.

Record heap_t := mk_heap { head : Z; tail : Z }.

Record thread_private_t := mk_thread {
  thread_id : Z;
  private_heap : list heap_t;
  top : list Z
}.

(** The 64-bit words that compare-and-swap works on. *)
Inductive word_ref : Type :=
  | LocalTop (i : Z)
  | GlobalTop (i : Z)
  | PageSync (page : Z).

Record state := mk_state {
  mem : gmap Z Z;                       (* bytes behind the objects *)
  pages : gmap Z page_t;                (* page-block headers, by address *)
  thread_data : thread_private_t;
  global_freeheap : list Z;
  mapped : gmap Z Z;                    (* kernel view: base -> pages *)
  os_choices : list Z;                  (* addresses the kernel will offer *)
  env : list (option Z);                (* stores by other threads, one per CAS attempt *)
  cas_log : list (word_ref * Z * Z)     (* history: successful CAS (old, new) *)
}.

Definition set_mem (m : gmap Z Z) (st : state) : state :=
  mk_state m (pages st) (thread_data st) (global_freeheap st) (mapped st)
           (os_choices st) (env st) (cas_log st).
Definition set_pages (ps : gmap Z page_t) (st : state) : state :=
  mk_state (mem st) ps (thread_data st) (global_freeheap st) (mapped st)
           (os_choices st) (env st) (cas_log st).
Definition set_thread_data (td : thread_private_t) (st : state) : state :=
  mk_state (mem st) (pages st) td (global_freeheap st) (mapped st)
           (os_choices st) (env st) (cas_log st).
Definition set_global_freeheap (g : list Z) (st : state) : state :=
  mk_state (mem st) (pages st) (thread_data st) g (mapped st)
           (os_choices st) (env st) (cas_log st).
Definition set_mapped (mp : gmap Z Z) (st : state) : state :=
  mk_state (mem st) (pages st) (thread_data st) (global_freeheap st) mp
           (os_choices st) (env st) (cas_log st).
Definition set_os_choices (c : list Z) (st : state) : state :=
  mk_state (mem st) (pages st) (thread_data st) (global_freeheap st)
           (mapped st) c (env st) (cas_log st).
Definition set_env (e : list (option Z)) (st : state) : state :=
  mk_state (mem st) (pages st) (thread_data st) (global_freeheap st)
           (mapped st) (os_choices st) e (cas_log st).
Definition set_cas_log (l : list (word_ref * Z * Z)) (st : state) : state :=
  mk_state (mem st) (pages st) (thread_data st) (global_freeheap st)
           (mapped st) (os_choices st) (env st) l.

Definition set_private_heap (h : list heap_t) (td : thread_private_t) :=
  mk_thread (thread_id td) h (top td).
Definition set_top (t : list Z) (td : thread_private_t) :=
  mk_thread (thread_id td) (private_heap td) t.

Definition set_next (v : Z) (p : page_t) : page_t :=
  mk_page v (prev p) (page_num p) (object_size p) (allocated_objects p)
          (unallocated_off p) (freed p) (sync p).
Definition set_prev (v : Z) (p : page_t) : page_t :=
  mk_page (next p) v (page_num p) (object_size p) (allocated_objects p)
          (unallocated_off p) (freed p) (sync p).
Definition set_allocated_objects (v : Z) (p : page_t) : page_t :=
  mk_page (next p) (prev p) (page_num p) (object_size p) v
          (unallocated_off p) (freed p) (sync p).
Definition set_unallocated_off (v : Z) (p : page_t) : page_t :=
  mk_page (next p) (prev p) (page_num p) (object_size p) (allocated_objects p)
          v (freed p) (sync p).
Definition set_freed (v : Z) (p : page_t) : page_t :=
  mk_page (next p) (prev p) (page_num p) (object_size p) (allocated_objects p)
          (unallocated_off p) v (sync p).
Definition set_sync (v : Z) (p : page_t) : page_t :=
  mk_page (next p) (prev p) (page_num p) (object_size p) (allocated_objects p)
          (unallocated_off p) (freed p) v.

(** ** Outcomes and the state monad

    [Abort] is [PANIC_ERR]; [Fault] is an access the model has no meaning
    for (a page-block header that is not there, an index outside an array,
    an unmapping of something that is not a mapping, a [memcpy] or [memset]
    over bytes that are not mapped); [OutOfFuel] cuts a list walk that has
    not ended within the given number of steps. *)

Inductive outcome (A : Type) : Type :=
  | Ok (a : A)
  | Abort (msg : string)
  | Fault
  | OutOfFuel.
Arguments Ok {A} a.
Arguments Abort {A} msg.
Arguments Fault {A}.
Arguments OutOfFuel {A}.

Definition M (A : Type) : Type := state -> outcome (A * state).

Definition ret {A} (a : A) : M A := fun st => Ok (a, st).
Definition bind {A B} (m : M A) (f : A -> M B) : M B := fun st =>
  match m st with
  | Ok (a, st') => f a st'
  | Abort msg => Abort msg
  | Fault => Fault
  | OutOfFuel => OutOfFuel
  end.
Definition fault {A} : M A := fun _ => Fault.
Definition out_of_fuel {A} : M A := fun _ => OutOfFuel.
Definition PANIC_ERR {A} (msg : string) : M A := fun _ => Abort msg.
Definition gets {A} (f : state -> A) : M A := fun st => Ok (f st, st).
Definition modify (f : state -> state) : M unit := fun st => Ok (tt, f st).

Notation "'let*' x ':=' e1 'in' e2" := (bind e1 (fun x => e2))
  (at level 10, x pattern, e1 at level 100, e2 at level 200).
Notation "e1 ';;;' e2" := (bind e1 (fun _ => e2))
  (at level 100, e2 at level 200, right associativity).

(** Array access by a C index; outside the array the model faults. *)
Definition idx_get {A} (l : list A) (i : Z) : option A :=
  if 0 <=? i then l !! Z.to_nat i else None.
Definition idx_set {A} (l : list A) (i : Z) (x : A) : list A :=
  <[Z.to_nat i := x]> l.

Definition get_page (page : Z) : M page_t := fun st =>
  match pages st !! page with
  | Some pg => Ok (pg, st)
  | None => Fault
  end.

Definition put_page (page : Z) (pg : page_t) : M unit :=
  modify (fun st => set_pages (<[page := pg]> (pages st)) st).

(** A field update through a [page_t *]. *)
Definition upd_page (page : Z) (f : page_t -> page_t) : M unit :=
  let* pg := get_page page in put_page page (f pg).

Definition get_heap (c : Z) : M heap_t := fun st =>
  match idx_get (private_heap (thread_data st)) c with
  | Some h => Ok (h, st)
  | None => Fault
  end.

Definition put_heap (c : Z) (h : heap_t) : M unit := fun st =>
  match idx_get (private_heap (thread_data st)) c with
  | Some _ =>
      Ok (tt, set_thread_data
                (set_private_heap
                   (idx_set (private_heap (thread_data st)) c h)
                   (thread_data st)) st)
  | None => Fault
  end.

Definition load_word (r : word_ref) : M Z := fun st =>
  match r with
  | LocalTop i =>
      match idx_get (top (thread_data st)) i with
      | Some w => Ok (w, st)
      | None => Fault
      end
  | GlobalTop i =>
      match idx_get (global_freeheap st) i with
      | Some w => Ok (w, st)
      | None => Fault
      end
  | PageSync page =>
      match pages st !! page with
      | Some pg => Ok (sync pg, st)
      | None => Fault
      end
  end.

Definition store_word (r : word_ref) (w : Z) : M unit := fun st =>
  match r with
  | LocalTop i =>
      match idx_get (top (thread_data st)) i with
      | Some _ =>
          Ok (tt, set_thread_data
                    (set_top (idx_set (top (thread_data st)) i w)
                             (thread_data st)) st)
      | None => Fault
      end
  | GlobalTop i =>
      match idx_get (global_freeheap st) i with
      | Some _ =>
          Ok (tt, set_global_freeheap (idx_set (global_freeheap st) i w) st)
      | None => Fault
      end
  | PageSync page =>
      match pages st !! page with
      | Some pg => Ok (tt, set_pages (<[page := set_sync w pg]> (pages st)) st)
      | None => Fault
      end
  end.

Definition load8 (a : Z) : M Z := gets (fun st => read8 (mem st) a).
Definition load32 (a : Z) : M Z := gets (fun st => read_le 4 (mem st) a).
Definition load64 (a : Z) : M Z := gets (fun st => read_le 8 (mem st) a).
Definition store8 (a v : Z) : M unit :=
  modify (fun st => set_mem (write8 (mem st) a v) st).
Definition store32 (a v : Z) : M unit :=
  modify (fun st => set_mem (write_le 4 (mem st) a v) st).
Definition store64 (a v : Z) : M unit :=
  modify (fun st => set_mem (write_le 8 (mem st) a v) st).

(** ** Atomics ([atomic.h])

    Before each compare-and-swap another thread may have stored to the same
    word: [env] holds one entry per attempt, [Some w] for such a store.
    A retry loop therefore ends within [length env + 1] attempts. *)

Definition interfere (r : word_ref) : M unit := fun st =>
  match env st with
  | [] => Ok (tt, st)
  | None :: e => Ok (tt, set_env e st)
  | Some w :: e => store_word r w (set_env e st)
  end.

(** [ATOMIC_CAS ptr new_val old_val]: the flag, and what [*old_val] holds
    afterwards. *)
Definition ATOMIC_CAS (r : word_ref) (new_val old_val : Z) : M (bool * Z) :=
  interfere r;;;
  let* cur := load_word r in
  if cur =? old_val then
    store_word r new_val;;;
    modify (fun st => set_cas_log ((r, cur, new_val) :: cas_log st) st);;;
    ret (true, old_val)
  else ret (false, cur).

Definition attempts : M nat := gets (fun st => S (length (env st))).

(** ** The kernel: [mmap] and [munmap] of whole regions *)

Definition ADDR_LIMIT : Z := 2 ^ 47.

Definition region_free (mp : gmap Z Z) (a n : Z) : Prop :=
  map_Forall (fun b k => a + n * PAGE_SZ <= b \/ b + k * PAGE_SZ <= a) mp.

Definition region_ok (mp : gmap Z Z) (a n : Z) : bool :=
  (0 <? n) && (0 <? a) && (a mod PAGE_SZ =? 0)
  && (a + n * PAGE_SZ <=? ADDR_LIMIT)
  && bool_decide (region_free mp a n).

Definition mmap_wrap (page_num : Z) : M Z := fun st =>
  match os_choices st with
  | [] => Ok (0, st)
  | a :: rest =>
      if region_ok (mapped st) a page_num then
        Ok (a, set_os_choices rest
                 (set_mapped (<[a := page_num]> (mapped st))
                    (set_mem (zero_region (mem st) a (page_num * PAGE_SZ))
                       st)))
      else Ok (0, set_os_choices rest st)
  end.

Definition munmap_wrap (block page_num : Z) : M unit := fun st =>
  match mapped st !! block with
  | Some n =>
      if n =? page_num then
        Ok (tt, set_mapped (delete block (mapped st))
                  (set_pages (delete block (pages st)) st))
      else Fault
  | None => Fault
  end.

(** ** Counting stacks ([allocator_list.h]) *)

Definition stack_is_empty (stack_top : word_ref) : M bool :=
  let* t := load_word stack_top in ret (dq_count t =? 0).

Definition stack_is_full (stack_top : word_ref) : M bool :=
  let* t := load_word stack_top in ret (dq_count t =? COUNT_MAX).

Definition stack_insert (stack_top : word_ref) (page : Z) : M Z :=
  let* t := load_word stack_top in
  if dq_count t =? COUNT_MAX then ret 0
  else
    upd_page page (set_next t);;;
    store_word stack_top (set_dq_nxt (set_dq_count t (dq_count t + 1))
                                     (SET_PTR page));;;
    ret 1.

Definition stack_remove (stack_top : word_ref) : M Z :=
  let* t := load_word stack_top in
  if dq_count t =? 0 then ret 0
  else
    let page := GET_PTR (dq_nxt t) in
    let* pg := get_page page in
    store_word stack_top (set_dq_count (set_dq_nxt t (dq_nxt (next pg)))
                                       (dq_count t - 1));;;
    ret page.

Fixpoint stack_insert_atomic_loop (n : nat) (stack_top : word_ref)
    (page : Z) : M Z :=
  match n with
  | O => out_of_fuel
  | S k =>
      let* old_head := load_word stack_top in
      if dq_count old_head =? COUNT_MAX then ret 0
      else
        upd_page page (set_next old_head);;;
        let new_head :=
          set_dq_nxt (set_dq_state (set_dq_count 0 (dq_count old_head + 1))
                                   (dq_state old_head + 1))
                     (SET_PTR page) in
        let* pg := get_page page in
        let* r := ATOMIC_CAS stack_top new_head (next pg) in
        if r.1 then ret 1
        else
          upd_page page (set_next r.2);;;
          stack_insert_atomic_loop k stack_top page
  end.

Definition stack_insert_atomic (stack_top : word_ref) (page : Z) : M Z :=
  let* n := attempts in stack_insert_atomic_loop n stack_top page.

Fixpoint stack_remove_atomic_loop (n : nat) (stack_top : word_ref) : M Z :=
  match n with
  | O => out_of_fuel
  | S k =>
      let* old_head := load_word stack_top in
      if dq_nxt old_head =? 0 then ret 0
      else
        let* pg := get_page (GET_PTR (dq_nxt old_head)) in
        let next_w :=
          set_dq_state (set_dq_count (set_dq_nxt 0 (dq_nxt (next pg)))
                                     (dq_count old_head - 1))
                       (dq_state old_head + 1) in
        let* r := ATOMIC_CAS stack_top next_w old_head in
        if r.1 then ret (GET_PTR (dq_nxt old_head))
        else stack_remove_atomic_loop k stack_top
  end.

Definition stack_remove_atomic (stack_top : word_ref) : M Z :=
  let* n := attempts in stack_remove_atomic_loop n stack_top.

(** ** Doubly linked class lists *)

Definition insert_front_dq (c page : Z) : M unit :=
  let* h := get_heap c in
  if head h =? 0 then
    put_heap c (mk_heap page page);;;
    upd_page page (fun pg => set_prev 0 (set_next 0 pg))
  else
    upd_page page (set_next (head h));;;
    let* pg := get_page page in
    upd_page (next pg) (set_prev page);;;
    let* h := get_heap c in
    put_heap c (mk_heap page (tail h)).

Definition insert_tail_dq (c page : Z) : M unit :=
  let* h := get_heap c in
  if head h =? 0 then
    put_heap c (mk_heap page page);;;
    upd_page page (fun pg => set_prev 0 (set_next 0 pg))
  else
    upd_page (tail h) (set_next page);;;
    let* h := get_heap c in
    upd_page page (set_prev (tail h));;;
    let* h := get_heap c in
    put_heap c (mk_heap (head h) page).

Definition remove_node_dq (c page : Z) : M unit :=
  let* h := get_heap c in
  (if page =? tail h then
     let* pg := get_page page in
     put_heap c (mk_heap (head h) (prev pg));;;
     let* pg := get_page page in
     upd_page (prev pg) (set_next 0)
   else
     let* pg := get_page page in
     upd_page (prev pg) (set_next (next pg));;;
     let* pg := get_page page in
     upd_page (next pg) (set_prev (prev pg)));;;
  upd_page page (fun pg => set_prev 0 (set_next 0 pg)).

(** The two macros for the free LIFO inside a page-block. *)
Definition STACK_PUSH_OBJECT (page obj obj_offset : Z) : M unit :=
  let* pg := get_page page in
  store32 obj (freed pg);;;
  upd_page page (set_freed (u32 obj_offset));;;
  upd_page page (fun pg => set_allocated_objects
                             (u32 (allocated_objects pg - 1)) pg).

Definition STACK_POP_OBJECT (page : Z) : M Z :=
  let* pg := get_page page in
  let obj := page + freed pg in
  let* v := load32 obj in
  upd_page page (set_freed v);;;
  upd_page page (fun pg => set_allocated_objects
                             (u32 (allocated_objects pg + 1)) pg);;;
  ret obj.

(** ** Page-block supply ([allocator.cpp]) *)

Definition get_pageblock (page_num : Z) : M Z :=
  let page_class_idx := IDX_BY_PAGE_SZ page_num in
  let* block := stack_remove (LocalTop page_class_idx) in
  if block =? 0 then
    let* block := stack_remove_atomic (GlobalTop page_class_idx) in
    if block =? 0 then mmap_wrap page_num else ret block
  else ret block.

Definition ret_pageblock (block page_num : Z) : M unit :=
  let page_class_idx := IDX_BY_PAGE_SZ page_num in
  let* r := stack_insert (LocalTop page_class_idx) block in
  if negb (r =? 0) then ret tt
  else
    let* r := stack_insert_atomic (GlobalTop page_class_idx) block in
    if r =? 0 then munmap_wrap block page_num else ret tt.

(** ** Header codec *)

Definition header_write_small (page obj : Z) : M unit :=
  let page_offset := Z.shiftr (u64 (obj - page)) PAGE_BITS in
  let header :=
    u8 (Z.lor (Z.lor HEADER_SMALL HEADER_VALID)
              (HEADER_PAGE_OFFSET_SET page_offset)) in
  store8 (obj - SIZEOF_HEADER_T) header.

Definition header_write_large (obj sz : Z) : M unit :=
  let header := Z.lor HEADER_LARGE HEADER_VALID in
  store64 obj sz;;;
  store8 (obj + LARGE_HEADER_SIZE - SIZEOF_HEADER_T) header.

(** [object_type_decode obj]: the return value ([-1] for a broken header)
    and the page offset written through the second argument. *)
Definition object_type_decode (obj : Z) : M (Z * Z) :=
  let* header := load8 (obj - 1) in
  let page_offset := HEADER_PAGE_OFFSET_GET header in
  ret (if HEADER_IS_BLOCK_VALID header then HEADER_PAGE_GET_TYPE header
       else -1,
       page_offset).

Definition GET_LARGER_ALLOC_START (obj : Z) : Z := obj - LARGE_HEADER_SIZE.
Definition GET_LARGER_ALLOC_SZ (obj : Z) : M Z :=
  load64 (obj - LARGE_HEADER_SIZE).

(** ** Large objects *)

Definition large_alloc (sz : Z) : M Z :=
  let pages_num := GET_PAGE_NUM (u64 (sz + LARGE_HEADER_SIZE)) in
  let* r := mmap_wrap pages_num in
  if r =? 0 then ret r
  else header_write_large r pages_num;;; ret (r + LARGE_HEADER_SIZE).

Definition large_free (obj : Z) : M unit :=
  let* n := GET_LARGER_ALLOC_SZ obj in
  munmap_wrap (GET_LARGER_ALLOC_START obj) n.

(** ** The page-block engine *)

Definition page_internal_init (alloc object_class_idx page_num tid : Z)
  : M Z :=
  match idx_get class_sizes object_class_idx with
  | None => fault
  | Some sz =>
      let off0 := SIZEOF_PAGE_T in
      let align_rq :=
        u64 (ALIGN_MASK DEFAULT_ALLIGN
             - Z.land (u64 (alloc + off0)) (ALIGN_MASK DEFAULT_ALLIGN)) in
      let pg :=
        mk_page 0 0 (u16 page_num) (u16 sz) 0 (u32 (off0 + align_rq)) 0
          (set_rf_count
             (set_rf_remotely_freed (set_rf_thread_id 0 tid) 0) 0) in
      put_page alloc pg;;; ret alloc
  end.

(** Emptying the remote LIFO into the local one. *)
Fixpoint drain_cas (n : nat) (page : Z) : M Z :=
  match n with
  | O => out_of_fuel
  | S k =>
      let* old_head := load_word (PageSync page) in
      let new_head :=
        set_rf_remotely_freed
          (set_rf_count (set_rf_thread_id 0 (rf_thread_id old_head)) 0) 0 in
      let* r := ATOMIC_CAS (PageSync page) new_head old_head in
      if r.1 then ret old_head else drain_cas k page
  end.

Fixpoint drain_list (fuel : nat) (page cur : Z) : M unit :=
  if cur =? 0 then ret tt
  else
    match fuel with
    | O => out_of_fuel
    | S k =>
        let obj := page + cur in
        let* w := load64 obj in
        let nxt := rf_remotely_freed w in
        STACK_PUSH_OBJECT page obj cur;;;
        drain_list k page nxt
    end.

Definition page_internal_alloc (fuel : nat) (page : Z) : M Z :=
  let* pg := get_page page in
  (if negb (rf_remotely_freed (sync pg) =? 0) then
     let* n := attempts in
     let* old_head := drain_cas n page in
     drain_list fuel page (rf_remotely_freed old_head)
   else ret tt);;;
  let* pg := get_page page in
  if negb (freed pg =? 0) then STACK_POP_OBJECT page
  else
    let base_alloc := page + unallocated_off pg in
    let page_limit := page + u32 (page_num pg * PAGE_SZ) in
    if base_alloc + object_size pg <? page_limit then
      let r := base_alloc + SIZEOF_HEADER_T in
      header_write_small page r;;;
      upd_page page (fun pg => set_unallocated_off
                                 (u32 (unallocated_off pg + object_size pg))
                                 pg);;;
      upd_page page (fun pg => set_allocated_objects
                                 (u32 (allocated_objects pg + 1)) pg);;;
      ret r
    else ret 0.

Fixpoint remote_free_cas (n : nat) (page obj obj_offset tid : Z) : M bool :=
  match n with
  | O => out_of_fuel
  | S k =>
      let* cur := load_word (PageSync page) in
      store64 obj cur;;;
      let* old := load64 obj in
      let maybe_stolen := rf_thread_id old =? ORPHAN_ID in
      let new_head :=
        if maybe_stolen then set_rf_thread_id old tid else old in
      let new_head := set_rf_remotely_freed new_head obj_offset in
      let new_head := set_rf_count new_head (rf_count new_head + 1) in
      let* expected := load64 obj in
      let* r := ATOMIC_CAS (PageSync page) new_head expected in
      if r.1 then ret maybe_stolen
      else store64 obj r.2;;; remote_free_cas k page obj obj_offset tid
  end.

(** [local_heap] is [&private_heap[c]]. *)
Definition page_internal_free (c page obj tid : Z) : M unit :=
  let obj_offset := u32 (obj - page) in
  let* pg := get_page page in
  if rf_thread_id (sync pg) =? tid then
    STACK_PUSH_OBJECT page obj obj_offset;;;
    let* pg := get_page page in
    let* h := get_heap c in
    if (allocated_objects pg =? 0) && negb (head h =? page) then
      remove_node_dq c page;;;
      let* pg := get_page page in
      ret_pageblock page (page_num pg)
    else ret tt
  else
    let* n := attempts in
    let* maybe_stolen := remote_free_cas n page obj obj_offset tid in
    let* pg := get_page page in
    if maybe_stolen && (rf_thread_id (sync pg) =? tid) then
      insert_front_dq c page
    else ret tt.

(** ** Entry points *)

Fixpoint malloc_walk (fuel : nat) (cur : Z) : M Z :=
  if cur =? 0 then ret 0
  else
    match fuel with
    | O => out_of_fuel
    | S k =>
        let* r := page_internal_alloc fuel cur in
        if negb (r =? 0) then ret r
        else
          let* pg := get_page cur in
          malloc_walk k (next pg)
    end.

Definition malloc (fuel : nat) (sz : Z) : M Z :=
  if sz =? 0 then ret 0
  else if sz <? SMALL_ALLOCATION_LIMIT then
    match class_size_decode sz with
    | None => fault
    | Some (class_idx, page_num) =>
        let* bin := get_heap class_idx in
        let* r := malloc_walk fuel (head bin) in
        if negb (r =? 0) then ret r
        else
          let* alloc := get_pageblock page_num in
          if alloc =? 0 then ret 0
          else
            let* tid := gets (fun st => thread_id (thread_data st)) in
            let* page := page_internal_init alloc class_idx page_num tid in
            insert_front_dq class_idx page;;;
            page_internal_alloc fuel page
    end
  else large_alloc sz.

(** ** [memcpy] and [memset]

    The two library calls touch every byte of the range they are given, so
    a range that leaves the mapped memory is a segmentation fault.
    [region_at mp a] is a mapping that holds the address [a];
    [range_mapped fuel mp a e] goes from mapping to mapping and tells
    whether every address from [a] up to [e - 1] is mapped; there are never
    more steps than mappings. *)
Definition region_at (mp : gmap Z Z) (a : Z) : option (Z * Z) :=
  List.find (fun bn => (bn.1 <=? a) && (a <? bn.1 + bn.2 * PAGE_SZ))
            (map_to_list mp).

Fixpoint range_mapped (fuel : nat) (mp : gmap Z Z) (a e : Z) : bool :=
  if e <=? a then true
  else
    match fuel with
    | O => false
    | S k =>
        match region_at mp a with
        | Some (b, n) => range_mapped k mp (b + n * PAGE_SZ) e
        | None => false
        end
    end.

Definition touch (a n : Z) : M unit := fun st =>
  if range_mapped (size (mapped st)) (mapped st) a (a + n) then Ok (tt, st)
  else Fault.

Definition memcpy (dst src n : Z) : M unit :=
  touch src n;;; touch dst n;;;
  modify (fun st => set_mem (copy_bytes (Z.to_nat n) (mem st) dst src) st).

Definition memset (dst v n : Z) : M unit :=
  touch dst n;;;
  modify (fun st => set_mem (fill_bytes (Z.to_nat n) (mem st) dst v) st).

Definition free (obj : Z) : M unit :=
  if obj =? 0 then ret tt
  else
    let* d := object_type_decode obj in
    let page_offset := d.2 in
    if d.1 =? CLASS_SMALL then
      let page := GET_PAGE_START obj page_offset in
      let* pg := get_page page in
      match class_size_decode (u64 (object_size pg - 1)) with
      | None => fault
      | Some (c, _) =>
          let* tid := gets (fun st => thread_id (thread_data st)) in
          page_internal_free c page obj tid
      end
    else if d.1 =? CLASS_LARGE then large_free obj
    else PANIC_ERR "Broken object, aborting..[free]".

Definition calloc (fuel : nat) (nmemb sz : Z) : M Z :=
  let total_alloc := u64 (nmemb * sz) in
  if negb (nmemb =? 0) && negb (total_alloc / nmemb =? sz) then ret 0
  else
    let* ptr := malloc fuel total_alloc in
    (if negb (ptr =? 0) then memset ptr 0 total_alloc else ret tt);;;
    ret ptr.

(** The old size that [realloc] reads for an object. *)
Definition realloc_old_sz (obj : Z) : M Z :=
  let* d := object_type_decode obj in
  if d.1 =? CLASS_SMALL then
    let* pg := get_page (GET_PAGE_START obj d.2) in
    ret (u64 (object_size pg - SIZEOF_HEADER_T))
  else if d.1 =? CLASS_LARGE then GET_LARGER_ALLOC_SZ obj
  else PANIC_ERR "Broken object, aborting [realloc]..".

Definition realloc (fuel : nat) (obj sz : Z) : M Z :=
  if obj =? 0 then malloc fuel sz
  else
    let* old_sz := realloc_old_sz obj in
    if old_sz >? sz then ret obj
    else
      let* r := malloc fuel sz in
      if negb (r =? 0) then memcpy r obj old_sz;;; free obj;;; ret r
      else ret r.

(** A thread that has just been constructed, in a fresh process. *)
Definition init_thread (tid : Z) : thread_private_t :=
  mk_thread tid (replicate (Z.to_nat CLASS_NUM) (mk_heap 0 0))
            (replicate (Z.to_nat CLASS_PAGES_NUM) 0).

Definition init_state (tid : Z) (choices : list Z) : state :=
  mk_state ∅ ∅ (init_thread tid)
           (replicate (Z.to_nat CLASS_PAGES_NUM) 0) ∅ choices [] [].

(** ** The end of a thread ([~thread_data_struct])

    The loop that gives up a block which still holds objects: [true] when
    the compare-and-swap has made the block an orphan, [false] when the
    remote LIFO turned out to hold every object (the jump to
    [block_empty]). *)
Fixpoint orphan_cas (n : nat) (cur : Z) : M bool :=
  match n with
  | O => out_of_fuel
  | S k =>
      let* old_head := load_word (PageSync cur) in
      let* pg := get_page cur in
      if rf_count old_head =? allocated_objects pg then ret false
      else
        let new_head := set_rf_thread_id old_head ORPHAN_ID in
        let* r := ATOMIC_CAS (PageSync cur) new_head old_head in
        if r.1 then ret true else orphan_cas k cur
  end.

(** [block_empty]: back to the global cache, or to the kernel. *)
Definition release_block (cur : Z) : M unit :=
  let* pg := get_page cur in
  let* r := stack_insert_atomic
              (GlobalTop (IDX_BY_PAGE_SZ (page_num pg))) cur in
  if r =? 0 then
    let* pg := get_page cur in
    munmap_wrap cur (page_num pg)
  else ret tt.

(** What the walk does with one block. *)
Definition exit_block (cur : Z) : M unit :=
  let* pg := get_page cur in
  let* orphaned :=
    (if negb (allocated_objects pg =? 0)
        && negb (rf_count (sync pg) =? allocated_objects pg)
     then let* n := attempts in orphan_cas n cur
     else ret false) in
  if orphaned then ret tt else release_block cur.

(** The walk over one class list; [next] is read before the block is
    dealt with. *)
Fixpoint exit_list (fuel : nat) (cur : Z) : M unit :=
  if cur =? 0 then ret tt
  else
    match fuel with
    | O => out_of_fuel
    | S k =>
        let* pg := get_page cur in
        let nxt := next pg in
        exit_block cur;;;
        exit_list k nxt
    end.

(** The classes [i], [i + 1], ..., [i + n - 1]. *)
Fixpoint exit_classes (fuel n : nat) (i : Z) : M unit :=
  match n with
  | O => ret tt
  | S k =>
      let* bin := get_heap i in
      exit_list fuel (head bin);;;
      exit_classes fuel k (i + 1)
  end.

(** The thread's cache for one page class, emptied. *)
Fixpoint exit_cache (fuel : nat) (i : Z) : M unit :=
  match fuel with
  | O => out_of_fuel
  | S k =>
      let* e := stack_is_empty (LocalTop i) in
      if e then ret tt
      else
        let* cur := stack_remove (LocalTop i) in
        let* r := stack_insert_atomic (GlobalTop i) cur in
        (if r =? 0 then munmap_wrap cur (PAGE_SZ_BY_IDX i) else ret tt);;;
        exit_cache k i
  end.

Fixpoint exit_caches (fuel n : nat) (i : Z) : M unit :=
  match n with
  | O => ret tt
  | S k => exit_cache fuel i;;; exit_caches fuel k (i + 1)
  end.

Definition thread_data_struct_dtor (fuel : nat) : M unit :=
  exit_classes fuel (Z.to_nat CLASS_NUM) 0;;;
  exit_caches fuel (Z.to_nat CLASS_PAGES_NUM) 0.

(** ** The two ends of a class list ([allocator_list.h])

    [remove_front_dq] and [remove_tail_dq]: the node that is returned is
    the head (the tail) that the call found, null on an empty list. *)
Definition remove_front_dq (c : Z) : M Z :=
  let* h := get_heap c in
  let curr := head h in
  (if head h =? tail h then put_heap c (mk_heap 0 0)
   else
     let* pg := get_page curr in
     put_heap c (mk_heap (next pg) (tail h));;;
     let* h' := get_heap c in
     upd_page (head h') (set_prev 0);;;
     upd_page curr (set_next 0));;;
  ret curr.

Definition remove_tail_dq (c : Z) : M Z :=
  let* h := get_heap c in
  let curr := tail h in
  (if tail h =? head h then put_heap c (mk_heap 0 0)
   else
     let* pg := get_page curr in
     put_heap c (mk_heap (head h) (prev pg));;;
     let* h' := get_heap c in
     upd_page (tail h') (set_next 0);;;
     upd_page curr (set_prev 0));;;
  ret curr.

(** * Specification vocabulary *)

(** A logged compare-and-swap on a counting stack moved the state tag
    forward by one, modulo the width of the field. *)
Definition state_tag_advances (e : word_ref * Z * Z) : Prop :=
  dq_state e.2 = (dq_state e.1.2 + 1) mod 2 ^ STATE_BITS.

(** [st'] has the history of [st] and, on top of it, the entries [new]. *)
Definition log_grows (new : list (word_ref * Z * Z)) (st st' : state) : Prop :=
  cas_log st' = new ++ cas_log st.

(** ** The single-threaded heap invariant

    The invariant is stated with a ghost description of the heap: which
    role every mapped region plays, the page-blocks of every class list and
    of every cache in order, and, per page-block, how many slots the bump
    area has handed out and which of them are live or on the free LIFO. *)

Inductive role : Type :=
  | InClass (c : Z)
  | InLocal (i : Z)
  | InGlobal (i : Z)
  | IsLarge
  | Limbo.

Record ghost := mk_ghost {
  g_role : Z -> option role;
  g_list : Z -> list Z;
  g_lcache : Z -> list Z;
  g_gcache : Z -> list Z;
  g_slots : Z -> Z;
  g_free : Z -> list Z;
  g_live : Z -> list Z;
  g_large : list Z
}.

Definition fupd {A} (f : Z -> A) (k : Z) (v : A) : Z -> A :=
  fun x => if decide (x = k) then v else f x.

Definition set_g_role (f : Z -> option role) (g : ghost) : ghost :=
  mk_ghost f (g_list g) (g_lcache g) (g_gcache g) (g_slots g) (g_free g)
           (g_live g) (g_large g).
Definition set_g_list (f : Z -> list Z) (g : ghost) : ghost :=
  mk_ghost (g_role g) f (g_lcache g) (g_gcache g) (g_slots g) (g_free g)
           (g_live g) (g_large g).
Definition set_g_lcache (f : Z -> list Z) (g : ghost) : ghost :=
  mk_ghost (g_role g) (g_list g) f (g_gcache g) (g_slots g) (g_free g)
           (g_live g) (g_large g).
Definition set_g_gcache (f : Z -> list Z) (g : ghost) : ghost :=
  mk_ghost (g_role g) (g_list g) (g_lcache g) f (g_slots g) (g_free g)
           (g_live g) (g_large g).
Definition set_g_block (b k : Z) (fr lv : list Z) (g : ghost) : ghost :=
  mk_ghost (g_role g) (g_list g) (g_lcache g) (g_gcache g)
           (fupd (g_slots g) b k) (fupd (g_free g) b fr)
           (fupd (g_live g) b lv) (g_large g).
Definition set_g_large (l : list Z) (g : ghost) : ghost :=
  mk_ghost (g_role g) (g_list g) (g_lcache g) (g_gcache g) (g_slots g)
           (g_free g) (g_live g) l.

Definition empty_ghost : ghost :=
  mk_ghost (fun _ => None) (fun _ => []) (fun _ => []) (fun _ => [])
           (fun _ => 0) (fun _ => []) (fun _ => []) [].

(** Pages per page-block of a class. *)
Definition class_pages (c : Z) : Z :=
  if c <? 32 then 8 else if c <? 48 then 16 else 32.

(** The kernel keeps mappings page-aligned, inside the address space and
    apart from each other. *)
Definition os_ok (mp : gmap Z Z) : Prop :=
  (forall b n, mp !! b = Some n ->
     0 < b /\ b mod PAGE_SZ = 0 /\ 0 < n /\ b + n * PAGE_SZ <= ADDR_LIMIT)
  /\ (forall b n b' n', mp !! b = Some n -> mp !! b' = Some n' -> b <> b' ->
        b + n * PAGE_SZ <= b' \/ b' + n' * PAGE_SZ <= b).

(** The two halves of a page-block header: the list links, and the rest. *)
Definition links (pg : page_t) : Z * Z := (next pg, prev pg).
Definition body (pg : page_t) : Z * Z * Z * Z * Z * Z :=
  (page_num pg, object_size pg, allocated_objects pg, unallocated_off pg,
   freed pg, sync pg).

(** A class list, from a node on: [pv] is what [prev] must hold. *)
Fixpoint dl_from (ps : gmap Z page_t) (pv : Z) (l : list Z) : Prop :=
  match l with
  | [] => True
  | b :: l' =>
      exists pg, ps !! b = Some pg /\ prev pg = pv /\ next pg = hd 0 l'
                 /\ dl_from ps b l'
  end.

Definition dlist (ps : gmap Z page_t) (h : heap_t) (l : list Z) : Prop :=
  head h = hd 0 l /\ (l <> [] -> tail h = List.last l 0) /\ dl_from ps 0 l.

(** The free LIFO of a page-block: offsets chained through the first four
    payload bytes. *)
Fixpoint free_chain (m : gmap Z Z) (b off : Z) (l : list Z) : Prop :=
  match l with
  | [] => off = 0
  | a :: l' => off = a - b /\ free_chain m b (read_le 4 m a) l'
  end.

Definition small_header (page_offset : Z) : Z :=
  u8 (Z.lor (Z.lor HEADER_SMALL HEADER_VALID)
            (HEADER_PAGE_OFFSET_SET page_offset)).

Definition large_header : Z := Z.lor HEADER_LARGE HEADER_VALID.

(** The sync word of a block that thread [tid] owns and nobody has freed
    into. *)
Definition owner_word (tid : Z) : Z :=
  set_rf_count (set_rf_remotely_freed (set_rf_thread_id 0 tid) 0) 0.

(** Offset of the first payload in a page-block. *)
Definition FIRST_PAYLOAD : Z := SIZEOF_PAGE_T + 7 + SIZEOF_HEADER_T.

Definition block_ok (st : state) (g : ghost) (c b : Z) : Prop :=
  exists pg csz,
    pages st !! b = Some pg /\
    class_sizes !! Z.to_nat c = Some csz /\
    mapped st !! b = Some (class_pages c) /\
    object_size pg = csz /\
    page_num pg = class_pages c /\
    sync pg = owner_word (thread_id (thread_data st)) /\
    0 <= g_slots g b /\
    unallocated_off pg = FIRST_PAYLOAD - 1 + g_slots g b * csz /\
    unallocated_off pg < class_pages c * PAGE_SZ /\
    allocated_objects pg = Z.of_nat (length (g_live g b)) /\
    Z.of_nat (length (g_live g b)) + Z.of_nat (length (g_free g b))
      = g_slots g b /\
    NoDup (g_live g b ++ g_free g b) /\
    (forall a, a ∈ g_live g b ++ g_free g b ->
       exists i, 0 <= i < g_slots g b /\ a = b + FIRST_PAYLOAD + i * csz) /\
    (forall a, a ∈ g_live g b ++ g_free g b ->
       read8 (mem st) (a - 1) = small_header ((a - b) / PAGE_SZ)) /\
    free_chain (mem st) b (freed pg) (g_free g b).

(** A counting stack: the head word and the words saved in the blocks. *)
Fixpoint stack_chain (ps : gmap Z page_t) (w : Z) (l : list Z) : Prop :=
  dq_count w = Z.of_nat (length l) /\
  Z.of_nat (length l) <= COUNT_MAX /\
  match l with
  | [] => dq_nxt w = 0
  | b :: l' =>
      dq_nxt w = SET_PTR b /\
      exists pg, ps !! b = Some pg /\ stack_chain ps (next pg) l'
  end.

Definition cache_ok (st : state) (g : ghost) (tops : list Z)
    (blocks : Z -> list Z) (mk : Z -> role) (i : Z) : Prop :=
  exists w,
    idx_get tops i = Some w /\
    stack_chain (pages st) w (blocks i) /\
    NoDup (blocks i) /\
    forall b, b ∈ blocks i ->
      g_role g b = Some (mk i) /\ mapped st !! b = Some (PAGE_SZ_BY_IDX i).

Definition large_ok (st : state) (g : ghost) (p : Z) : Prop :=
  g_role g (p - LARGE_HEADER_SIZE) = Some IsLarge /\
  exists n,
    mapped st !! (p - LARGE_HEADER_SIZE) = Some n /\
    read_le 8 (mem st) (p - LARGE_HEADER_SIZE) = n /\
    read8 (mem st) (p - 1) = large_header.

Record inv (st : state) (g : ghost) : Prop := mk_inv {
  inv_tid : 0 <= thread_id (thread_data st) < 2 ^ THREAD_ID_BITS;
  inv_env : env st = [];
  inv_os : os_ok (mapped st);
  inv_role : forall b r, g_role g b = Some r -> is_Some (mapped st !! b);
  inv_heaps : forall c, 0 <= c < CLASS_NUM ->
    exists h, idx_get (private_heap (thread_data st)) c = Some h
              /\ dlist (pages st) h (g_list g c)
              /\ NoDup (g_list g c)
              /\ forall b, b ∈ g_list g c -> g_role g b = Some (InClass c);
  inv_blocks : forall c b, g_role g b = Some (InClass c) ->
    0 <= c < CLASS_NUM /\ block_ok st g c b;
  inv_local : forall i, 0 <= i < CLASS_PAGES_NUM ->
    cache_ok st g (top (thread_data st)) (g_lcache g) InLocal i;
  inv_global : forall i, 0 <= i < CLASS_PAGES_NUM ->
    cache_ok st g (global_freeheap st) (g_gcache g) InGlobal i;
  inv_large : forall p, p ∈ g_large g -> large_ok st g p
}.

(** The pointers that the ghost heap holds as live. *)
Definition live_in (g : ghost) (p : Z) : Prop :=
  p ∈ g_large g
  \/ exists c b, 0 <= c < CLASS_NUM /\ b ∈ g_list g c /\ p ∈ g_live g b.

(** ** Histories of a single thread

    [reachable st0 st live]: some sequence of [malloc] and [free] calls
    leads from [st0] to [st], every [free] was given a pointer that
    [malloc] had returned and that had not been freed since, and [live]
    are the pointers that are now in that position. *)
Inductive reachable (st0 : state) : state -> list Z -> Prop :=
  | reach_init : reachable st0 st0 []
  | reach_malloc st live fuel sz p st' :
      reachable st0 st live ->
      0 <= sz < 2 ^ 64 ->
      malloc fuel sz st = Ok (p, st') ->
      reachable st0 st' (if decide (p = 0) then live else p :: live)
  | reach_free st live p st' :
      reachable st0 st live ->
      p ∈ live ->
      free p st = Ok (tt, st') ->
      reachable st0 st' (filter (fun q => q <> p) live).

(** Two ghost heaps with the same lists, blocks and large objects: they
    differ at most in the roles and caches. *)
Definition same_heap (g g' : ghost) : Prop :=
  g_list g' = g_list g /\ g_slots g' = g_slots g /\ g_free g' = g_free g
  /\ g_live g' = g_live g /\ g_large g' = g_large g.

(** ** Finite checks used by the proofs *)

Definition header_roundtrip_ok (o : Z) : bool :=
  HEADER_IS_BLOCK_VALID (small_header o)
  && (HEADER_PAGE_GET_TYPE (small_header o) =? CLASS_SMALL)
  && (HEADER_PAGE_OFFSET_GET (small_header o) =? o).

Definition class_pages_ok (s : Z) : bool :=
  match class_size_decode s with
  | Some (c, pb) => (0 <=? c) && (c <? CLASS_NUM) && (pb =? class_pages c)
  | None => false
  end.

Definition class_entry_ok (c : Z) : bool :=
  match class_sizes !! Z.to_nat c with
  | Some csz =>
      match class_size_decode (u64 (csz - 1)) with
      | Some (c', pb) => (c' =? c) && (pb =? class_pages c)
      | None => false
      end
      && (PAGE_SZ_BY_IDX (IDX_BY_PAGE_SZ (class_pages c)) =? class_pages c)
      && (0 <=? IDX_BY_PAGE_SZ (class_pages c))
      && (IDX_BY_PAGE_SZ (class_pages c) <? CLASS_PAGES_NUM)
  | None => false
  end.

(** [keeps_byte a m]: a run of [m] never takes the abort path, and when it
    returns the byte at address [a] is what it was. *)
Definition keeps_byte (a : Z) {A} (m : M A) : Prop :=
  forall st,
    match m st with
    | Ok (_, st') => read8 (mem st') a = read8 (mem st) a
    | Abort _ => False
    | Fault => True
    | OutOfFuel => True
    end.

(** [keeps_store m]: a run of [m] that returns has written no byte of
    memory and has not changed the kernel's table of mappings. *)
Definition keeps_store {A} (m : M A) : Prop :=
  forall st x st', m st = Ok (x, st') ->
    mem st' = mem st /\ mapped st' = mapped st.

(** [st'] keeps the store of [st], the byte at [hole] apart: every mapping
    of [st] is still there, and every byte inside one reads as before. *)
Definition store_kept (hole : Z) (st st' : state) : Prop :=
  (forall b n, mapped st !! b = Some n -> mapped st' !! b = Some n)
  /\ (forall b n x, mapped st !! b = Some n -> b <= x < b + n * PAGE_SZ ->
        x <> hole -> read8 (mem st') x = read8 (mem st) x).

(** Every object of [g] is in [g'] where it was in [g]: a large object is a
    large object, a small one is in the same block of the same class. *)
Definition places_kept (g g' : ghost) : Prop :=
  (forall q, q ∈ g_large g -> q ∈ g_large g')
  /\ (forall c b q, 0 <= c < CLASS_NUM -> b ∈ g_list g c -> q ∈ g_live g b ->
        b ∈ g_list g' c /\ q ∈ g_live g' b).

(** Every cell of the byte store holds a byte, and a call that keeps it so. *)
Definition byte_cells (m : gmap Z Z) : Prop := forall a, 0 <= read8 m a < 256.

Definition keeps_cells {A} (m : M A) : Prop :=
  forall st x st', m st = Ok (x, st') ->
    byte_cells (mem st) -> byte_cells (mem st').

(** ** Histories of a program

    [history st0 st live]: starting from [st0], a single thread has called
    [malloc], [calloc], [realloc] and [free], and has stored bytes into the
    objects it holds; every pointer given to [realloc] or [free], and
    every object written to, was live at that point, and [live] are the
    pointers that are live now.  A store stays inside the object: below
    the old size that [realloc] reads for it, or, for an object that
    begins 16 bytes into a mapping, before the end of that mapping.  The
    request of [calloc] and [realloc], with the 16-byte prefix of a large
    object, fits [size_t] (or, for [calloc], the product does not even fit
    64 bits). *)
Inductive history (st0 : state) : state -> list Z -> Prop :=
  | hist_init : history st0 st0 []
  | hist_malloc st live fuel sz p st' :
      history st0 st live ->
      0 <= sz < 2 ^ 64 ->
      malloc fuel sz st = Ok (p, st') ->
      history st0 st' (if decide (p = 0) then live else p :: live)
  | hist_calloc st live fuel nmemb sz p st' :
      history st0 st live ->
      0 <= nmemb < 2 ^ 64 -> 0 <= sz < 2 ^ 64 ->
      nmemb * sz + LARGE_HEADER_SIZE < 2 ^ 64 \/ 2 ^ 64 <= nmemb * sz ->
      calloc fuel nmemb sz st = Ok (p, st') ->
      history st0 st' (if decide (p = 0) then live else p :: live)
  | hist_realloc st live fuel p sz r st' :
      history st0 st live ->
      p ∈ live ->
      0 <= sz -> sz + LARGE_HEADER_SIZE < 2 ^ 64 ->
      realloc fuel p sz st = Ok (r, st') ->
      history st0 st'
        (if decide (r = 0) then live
         else if decide (r = p) then live
         else r :: filter (fun q => q <> p) live)
  | hist_free st live p st' :
      history st0 st live ->
      p ∈ live ->
      free p st = Ok (tt, st') ->
      history st0 st' (filter (fun q => q <> p) live)
  | hist_store st live p old i v :
      history st0 st live ->
      p ∈ live ->
      realloc_old_sz p st = Ok (old, st) -> 0 <= i < old ->
      history st0 (set_mem (write8 (mem st) (p + i) v) st) live
  | hist_store_large st live p n i v :
      history st0 st live ->
      p ∈ live ->
      mapped st !! (p - LARGE_HEADER_SIZE) = Some n ->
      0 <= i < n * PAGE_SZ - LARGE_HEADER_SIZE ->
      history st0 (set_mem (write8 (mem st) (p + i) v) st) live.

(** ** The end of a thread *)

(** The header of a block that its owner has given up. *)
Definition orphan (pg : page_t) : page_t :=
  set_sync (set_rf_thread_id (sync pg) ORPHAN_ID) pg.

(** [st'] is [st] apart from the blocks in [P], the global cache, the
    thread's own cache and the log. *)
Definition exit_frame (P : Z -> Prop) (st st' : state) : Prop :=
  mem st' = mem st
  /\ thread_id (thread_data st') = thread_id (thread_data st)
  /\ private_heap (thread_data st') = private_heap (thread_data st)
  /\ env st' = env st
  /\ (forall i, is_Some (idx_get (global_freeheap st) i) ->
                is_Some (idx_get (global_freeheap st') i))
  /\ (forall b, ~ P b ->
        pages st' !! b = pages st !! b /\ mapped st' !! b = mapped st !! b).

(** A block of a class list that the walk of the destructor can handle. *)
Definition exit_ready (st : state) (b : Z) : Prop :=
  b <> 0 /\
  exists pg,
    pages st !! b = Some pg /\ mapped st !! b = Some (page_num pg)
    /\ rf_count (sync pg) = 0
    /\ is_Some (idx_get (global_freeheap st) (IDX_BY_PAGE_SZ (page_num pg))).

(** ** Class lists as double-ended queues

    [class_list st c l]: the list of class [c] holds the page-blocks [l],
    first to last: [head] and [tail] are its two ends (null when it is
    empty), the blocks are distinct and not null, and their [next] and
    [prev] links chain them in both directions. *)
Definition class_list (st : state) (c : Z) (l : list Z) : Prop :=
  exists h, idx_get (private_heap (thread_data st)) c = Some h
    /\ dlist (pages st) h l
    /\ tail h = List.last l 0
    /\ NoDup l
    /\ forall b, b ∈ l -> b <> 0.

(** What an operation on the list of class [c] leaves alone: the memory,
    the lists of the other classes, the headers of the blocks outside
    [blocks], and in every header all but the two links. *)
Definition dq_frame (c : Z) (blocks : list Z) (st st' : state) : Prop :=
  mem st' = mem st
  /\ (forall c', c' <> c ->
        idx_get (private_heap (thread_data st')) c'
        = idx_get (private_heap (thread_data st)) c')
  /\ (forall x, x ∉ blocks -> pages st' !! x = pages st !! x)
  /\ (forall x, body <$> pages st' !! x = body <$> pages st !! x).

(** Both links of a block are null: it is in no list. *)
Definition unlinked (st : state) (b : Z) : Prop :=
  exists pg, pages st !! b = Some pg /\ next pg = 0 /\ prev pg = 0.

(** ** Mapped addresses *)

(** The address [x] lies in one of the mappings of [mp]. *)
Definition in_mapping (mp : gmap Z Z) (x : Z) : Prop :=
  exists b n, mp !! b = Some n /\ b <= x < b + n * PAGE_SZ.

(** ** The bytes of an object *)

(** The payload capacity of an object, read from its header: a small
    object has the slot of its page-block without the header byte, a large
    one the pages of its mapping without the 16-byte prefix. *)
Definition payload_size (obj : Z) : M Z :=
  let* d := object_type_decode obj in
  if d.1 =? CLASS_SMALL then
    let* pg := get_page (GET_PAGE_START obj d.2) in
    ret (object_size pg - SIZEOF_HEADER_T)
  else if d.1 =? CLASS_LARGE then
    let* n := GET_LARGER_ALLOC_SZ obj in
    ret (n * PAGE_SZ - LARGE_HEADER_SIZE)
  else fault.

(** ** Concrete runs

    [boot] is a process that has just started: one thread, nothing mapped,
    and a kernel that will answer the next [mmap] calls with the three
    addresses given.  [after m st] is the state a run of [m] leaves. *)
Definition after {A} (m : M A) (st : state) : state :=
  match m st with
  | Ok (_, st') => st'
  | _ => st
  end.

Definition boot : state := init_state 1 [65536; 1048576; 2097152].

(** A block that its owner has given up, seen by thread 2. *)
Definition orphaned (st : state) (page : Z) : state :=
  match pages st !! page with
  | Some pg =>
      set_thread_data (init_thread 2)
        (set_pages
           (<[page := set_sync (set_rf_thread_id (sync pg) ORPHAN_ID) pg]>
              (pages st)) st)
  | None => st
  end.

(** The longest class list bounds the fuel that a walk needs. *)
Definition walk_bound (g : ghost) : nat :=
  list_max (map (fun c => length (g_list g (Z.of_nat c)))
                (seq 0 (Z.to_nat CLASS_NUM))).

(** A history as data: the calls of one thread, run from a state with the
    pointers that are live. *)
Inductive op : Type :=
  | Malloc (fuel : nat) (sz : Z)
  | Free (p : Z).

Fixpoint run (ops : list op) (st : state) (live : list Z)
  : option (state * list Z) :=
  match ops with
  | [] => Some (st, live)
  | Malloc fuel sz :: rest =>
      if bool_decide (0 <= sz < 2 ^ 64) then
        match malloc fuel sz st with
        | Ok (p, st') =>
            run rest st' (if decide (p = 0) then live else p :: live)
        | _ => None
        end
      else None
  | Free p :: rest =>
      if bool_decide (p ∈ live) then
        match free p st with
        | Ok (_, st') => run rest st' (filter (fun q => q <> p) live)
        | _ => None
        end
      else None
  end.

Definition run_state (ops : list op) : state :=
  match run ops boot [] with
  | Some (st, _) => st
  | None => boot
  end.

Definition run_live (ops : list op) : list Z :=
  match run ops boot [] with
  | Some (_, live) => live
  | None => []
  end.

(** Sixty-four objects of the largest class: sixty-three fill the block at
    65536 and the last one opens the block at 1048576, which becomes the
    head of the list; then all but the last object of the first block are
    freed. *)
Definition fill_ops : list op :=
  repeat (Malloc 10 2047) 64
  ++ map (fun k => Free (65584 + 2048 * Z.of_nat k)) (seq 0 62).

(** The first object of a process, after the program has stored 7 into its
    fourth byte. *)
Definition written : state :=
  set_mem (write8 (mem (after (malloc 10 15) boot)) (65584 + 3) 7)
          (after (malloc 10 15) boot).

(** The fuel that the end of a thread needs: the longest class list, and
    one more than the longest of the thread's caches. *)
Definition exit_bound (g : ghost) : nat :=
  Nat.max (walk_bound g)
    (S (list_max (map (fun i => length (g_lcache g (Z.of_nat i)))
                      (seq 0 (Z.to_nat CLASS_PAGES_NUM))))).

(** The first block of a process taken out of its class list again. *)
Definition detached : state :=
  after (remove_front_dq 0) (after (malloc 10 15) boot).

(** A large object of 4096 bytes, after the program has stored 7 into byte
    100 of it. *)
Definition large_written : state :=
  set_mem (write8 (mem (after (malloc 10 4096) boot)) (65552 + 100) 7)
          (after (malloc 10 4096) boot).

(** * Lemmas about the size classes *)

Lemma forall_range_spec n : forall lo P,
  forall_range n lo P = true ->
  forall x, lo <= x < lo + Z.of_nat n -> P x = true.
Proof.
  induction n as [|k IH]; intros lo P H x Hx; [lia|].
  cbn [forall_range] in H. apply andb_prop in H as [H0 Hk].
  destruct (Z.eq_dec x lo) as [->|Hne]; [exact H0|].
  apply (IH (lo + 1) P Hk). lia.
Qed.

Lemma decode_ok_all : forall_range 2047 1 decode_ok = true.
Proof. vm_compute. reflexivity. Qed.

Lemma roundtrip_ok_all : forall_range 64 0 roundtrip_ok = true.
Proof. vm_compute. reflexivity. Qed.

Lemma decode_ok_at s : 1 <= s <= 2047 -> decode_ok s = true.
Proof.
  intros Hs. apply (forall_range_spec 2047 1 decode_ok decode_ok_all). lia.
Qed.

Lemma roundtrip_ok_at c : 0 <= c <= 63 -> roundtrip_ok c = true.
Proof.
  intros Hc. apply (forall_range_spec 64 0 roundtrip_ok roundtrip_ok_all). lia.
Qed.

Lemma class_sizes_bounds n csz :
  class_sizes !! n = Some csz -> 16 <= csz <= 2048 /\ csz mod 16 = 0.
Proof.
  intros H.
  assert (Hall : Forall (fun x => 16 <= x <= 2048 /\ x mod 16 = 0) class_sizes).
  { unfold class_sizes. repeat constructor; lia. }
  exact (Forall_lookup_1 _ _ _ _ Hall H).
Qed.

(** * Lemmas *)

(** ** Values of the constants *)

Lemma PAGE_SZ_val : PAGE_SZ = 4096.
Proof. reflexivity. Qed.

Lemma ORPHAN_ID_val : ORPHAN_ID = 16777215.
Proof. reflexivity. Qed.

Lemma COUNT_MAX_val : COUNT_MAX = 4095.
Proof. reflexivity. Qed.

Lemma SMALL_ALLOCATION_LIMIT_val : SMALL_ALLOCATION_LIMIT = 2048.
Proof. reflexivity. Qed.

(** ** Bit-fields *)

Lemma get_field_spec lo w x i :
  0 <= lo -> 0 <= w -> 0 <= i ->
  Z.testbit (get_field lo w x) i = (i <? w) && Z.testbit x (i + lo).
Proof.
  intros Hlo Hw Hi. unfold get_field.
  rewrite Z.land_spec, Z.shiftr_spec by lia.
  rewrite Z.testbit_ones_nonneg by lia.
  destruct (i <? w); [rewrite andb_true_r|rewrite andb_false_r]; reflexivity.
Qed.

Lemma set_field_spec lo w x v i :
  0 <= lo -> 0 <= w -> 0 <= i ->
  Z.testbit (set_field lo w x v) i =
    if (lo <=? i) && (i <? lo + w) then Z.testbit v (i - lo)
    else Z.testbit x i.
Proof.
  intros Hlo Hw Hi. unfold set_field.
  rewrite Z.lor_spec, Z.land_spec, Z.lnot_spec by lia.
  destruct (Z.leb_spec lo i) as [Hle|Hlt]; cbn [andb].
  - rewrite !Z.shiftl_spec by lia.
    rewrite Z.land_spec, !Z.testbit_ones_nonneg by lia.
    destruct (Z.ltb_spec i (lo + w)), (Z.ltb_spec (i - lo) w); try lia;
      cbn [negb]; rewrite ?andb_false_r, ?andb_true_r, ?orb_false_r;
      reflexivity.
  - rewrite !Z.shiftl_spec by lia.
    rewrite !(Z.testbit_neg_r _ (i - lo)) by lia.
    cbn [negb]. rewrite andb_true_r, orb_false_r. reflexivity.
Qed.

Lemma get_field_arith lo w x :
  0 <= lo -> 0 <= w -> get_field lo w x = (x / 2 ^ lo) mod 2 ^ w.
Proof.
  intros Hlo Hw. unfold get_field.
  rewrite Z.land_ones, Z.shiftr_div_pow2 by lia. reflexivity.
Qed.

Lemma get_field_range lo w x :
  0 <= lo -> 0 <= w -> 0 <= get_field lo w x < 2 ^ w.
Proof.
  intros Hlo Hw. rewrite get_field_arith by lia.
  apply Z.mod_pos_bound. apply Z.pow_pos_nonneg; lia.
Qed.

Lemma get_set_field_same lo w x v :
  0 <= lo -> 0 <= w -> get_field lo w (set_field lo w x v) = v mod 2 ^ w.
Proof.
  intros Hlo Hw. rewrite <- Z.land_ones by lia.
  apply Z.bits_inj'. intros i Hi.
  rewrite get_field_spec, set_field_spec by lia.
  rewrite Z.land_spec, Z.testbit_ones_nonneg by lia.
  destruct (Z.ltb_spec i w); cbn [andb].
  - destruct (Z.leb_spec lo (i + lo)), (Z.ltb_spec (i + lo) (lo + w));
      try lia; cbn [andb].
    replace (i + lo - lo) with i by lia. rewrite andb_true_r. reflexivity.
  - rewrite andb_false_r. reflexivity.
Qed.

Lemma get_set_field_other lo w lo' w' x v :
  0 <= lo -> 0 <= w -> 0 <= lo' -> 0 <= w' ->
  lo' + w' <= lo \/ lo + w <= lo' ->
  get_field lo' w' (set_field lo w x v) = get_field lo' w' x.
Proof.
  intros Hlo Hw Hlo' Hw' Hdisj.
  apply Z.bits_inj'. intros i Hi.
  rewrite !get_field_spec, set_field_spec by lia.
  destruct (Z.ltb_spec i w'); cbn [andb]; [|reflexivity].
  destruct (Z.leb_spec lo (i + lo')), (Z.ltb_spec (i + lo') (lo + w));
    try lia; reflexivity.
Qed.

Lemma set_field_nonneg lo w x v :
  0 <= lo -> 0 <= w -> 0 <= x -> 0 <= set_field lo w x v.
Proof.
  intros Hlo Hw Hx. unfold set_field.
  apply Z.lor_nonneg. split.
  - apply Z.land_nonneg. left. exact Hx.
  - apply Z.shiftl_nonneg. apply Z.land_nonneg. right.
    rewrite Z.ones_equiv. pose proof (Z.pow_pos_nonneg 2 w). lia.
Qed.

Lemma set_field_lt lo w n x v :
  0 <= lo -> 0 <= w -> lo + w <= n -> 0 <= x < 2 ^ n ->
  0 <= set_field lo w x v < 2 ^ n.
Proof.
  intros Hlo Hw Hn Hx.
  assert (Hnn : 0 <= set_field lo w x v) by (apply set_field_nonneg; lia).
  split; [exact Hnn|].
  destruct (Z.eq_dec (set_field lo w x v) 0) as [->|Hne].
  { apply Z.pow_pos_nonneg; lia. }
  apply Z.log2_lt_pow2; [lia|].
  destruct (Z.lt_ge_cases (Z.log2 (set_field lo w x v)) n) as [|Hge];
    [assumption|exfalso].
  assert (Hb : Z.testbit (set_field lo w x v)
                 (Z.log2 (set_field lo w x v)) = true)
    by (apply Z.bit_log2; lia).
  rewrite set_field_spec in Hb by lia.
  destruct (Z.leb_spec lo (Z.log2 (set_field lo w x v))),
           (Z.ltb_spec (Z.log2 (set_field lo w x v)) (lo + w));
    try lia; cbn [andb] in Hb.
  all: destruct (Z.eq_dec x 0) as [->|Hx0];
    [rewrite Z.bits_0 in Hb; discriminate|].
  all: rewrite Z.bits_above_log2 in Hb; [discriminate|lia|].
  all: assert (Z.log2 x < n) by (apply Z.log2_lt_pow2; lia); lia.
Qed.

(** The fields of the two packed words, one lemma per pair. *)

Lemma dq_state_set_dq_state w v : dq_state (set_dq_state w v) = v mod 2 ^ 12.
Proof. apply (get_set_field_same 52 12); lia. Qed.

Lemma dq_state_set_dq_nxt w v : dq_state (set_dq_nxt w v) = dq_state w.
Proof. apply (get_set_field_other 0 40 52 12); lia. Qed.

Lemma dq_state_set_dq_count w v : dq_state (set_dq_count w v) = dq_state w.
Proof. apply (get_set_field_other 40 12 52 12); lia. Qed.

Lemma dq_count_set_dq_count w v : dq_count (set_dq_count w v) = v mod 2 ^ 12.
Proof. apply (get_set_field_same 40 12); lia. Qed.

Lemma dq_count_set_dq_nxt w v : dq_count (set_dq_nxt w v) = dq_count w.
Proof. apply (get_set_field_other 0 40 40 12); lia. Qed.

Lemma dq_count_set_dq_state w v : dq_count (set_dq_state w v) = dq_count w.
Proof. apply (get_set_field_other 52 12 40 12); lia. Qed.

Lemma dq_nxt_set_dq_nxt w v : dq_nxt (set_dq_nxt w v) = v mod 2 ^ 40.
Proof. apply (get_set_field_same 0 40); lia. Qed.

Lemma dq_nxt_set_dq_count w v : dq_nxt (set_dq_count w v) = dq_nxt w.
Proof. apply (get_set_field_other 40 12 0 40); lia. Qed.

Lemma dq_nxt_set_dq_state w v : dq_nxt (set_dq_state w v) = dq_nxt w.
Proof. apply (get_set_field_other 52 12 0 40); lia. Qed.

Lemma rf_count_set_rf_count w v : rf_count (set_rf_count w v) = v mod 2 ^ 16.
Proof. apply (get_set_field_same 0 16); lia. Qed.

Lemma rf_count_set_rf_remotely_freed w v :
  rf_count (set_rf_remotely_freed w v) = rf_count w.
Proof. apply (get_set_field_other 16 24 0 16); lia. Qed.

Lemma rf_count_set_rf_thread_id w v :
  rf_count (set_rf_thread_id w v) = rf_count w.
Proof. apply (get_set_field_other 40 24 0 16); lia. Qed.

Lemma rf_remotely_freed_set_rf_remotely_freed w v :
  rf_remotely_freed (set_rf_remotely_freed w v) = v mod 2 ^ 24.
Proof. apply (get_set_field_same 16 24); lia. Qed.

Lemma rf_remotely_freed_set_rf_count w v :
  rf_remotely_freed (set_rf_count w v) = rf_remotely_freed w.
Proof. apply (get_set_field_other 0 16 16 24); lia. Qed.

Lemma rf_remotely_freed_set_rf_thread_id w v :
  rf_remotely_freed (set_rf_thread_id w v) = rf_remotely_freed w.
Proof. apply (get_set_field_other 40 24 16 24); lia. Qed.

Lemma rf_thread_id_set_rf_thread_id w v :
  rf_thread_id (set_rf_thread_id w v) = v mod 2 ^ 24.
Proof. apply (get_set_field_same 40 24); lia. Qed.

Lemma rf_thread_id_set_rf_count w v :
  rf_thread_id (set_rf_count w v) = rf_thread_id w.
Proof. apply (get_set_field_other 0 16 40 24); lia. Qed.

Lemma rf_thread_id_set_rf_remotely_freed w v :
  rf_thread_id (set_rf_remotely_freed w v) = rf_thread_id w.
Proof. apply (get_set_field_other 16 24 40 24); lia. Qed.

Create Rewrite HintDb fields.
#[export] Hint Rewrite
  dq_state_set_dq_state dq_state_set_dq_nxt dq_state_set_dq_count
  dq_count_set_dq_count dq_count_set_dq_nxt dq_count_set_dq_state
  dq_nxt_set_dq_nxt dq_nxt_set_dq_count dq_nxt_set_dq_state
  rf_count_set_rf_count rf_count_set_rf_remotely_freed
  rf_count_set_rf_thread_id
  rf_remotely_freed_set_rf_remotely_freed rf_remotely_freed_set_rf_count
  rf_remotely_freed_set_rf_thread_id
  rf_thread_id_set_rf_thread_id rf_thread_id_set_rf_count
  rf_thread_id_set_rf_remotely_freed : fields.

(** ** Pointers packed into 40 bits, and page boundaries *)

Lemma u64_small x : 0 <= x < 2 ^ 64 -> u64 x = x.
Proof. intros H. unfold u64. apply Z.mod_small. exact H. Qed.

Lemma u32_small x : 0 <= x < 2 ^ 32 -> u32 x = x.
Proof. intros H. unfold u32. apply Z.mod_small. exact H. Qed.

Lemma u16_small x : 0 <= x < 2 ^ 16 -> u16 x = x.
Proof. intros H. unfold u16. apply Z.mod_small. exact H. Qed.

Lemma u8_small x : 0 <= x < 2 ^ 8 -> u8 x = x.
Proof. intros H. unfold u8. apply Z.mod_small. exact H. Qed.

Lemma u8_idem x : u8 (u8 x) = u8 x.
Proof. unfold u8. apply Z.mod_mod. lia. Qed.

Lemma GET_PAGE_BOUNDARY_eq x :
  0 <= x < 2 ^ 64 -> GET_PAGE_BOUNDARY x = x - x mod 4096.
Proof.
  intros Hx. unfold GET_PAGE_BOUNDARY. rewrite (u64_small x) by exact Hx.
  change (ALIGN_MASK PAGE_SZ) with (Z.ones 12).
  unfold u64. rewrite <- (Z.land_ones (Z.lnot (Z.ones 12)) 64) by lia.
  rewrite (Z.land_comm (Z.lnot (Z.ones 12))), Z.land_assoc.
  rewrite (Z.land_ones x 64), (Z.mod_small x) by lia.
  change (Z.land x (Z.lnot (Z.ones 12))) with (Z.ldiff x (Z.ones 12)).
  rewrite Z.ldiff_ones_r by lia.
  rewrite Z.shiftl_mul_pow2, Z.shiftr_div_pow2 by lia.
  change (2 ^ 12) with 4096. pose proof (Z.div_mod x 4096). lia.
Qed.

Lemma GET_PAGE_START_eq b d :
  0 <= b -> b mod 4096 = 0 -> 0 <= d -> b + d < 2 ^ 64 ->
  GET_PAGE_START (b + d) (d / 4096) = b.
Proof.
  intros Hb Hal Hd Hlt. unfold GET_PAGE_START.
  rewrite GET_PAGE_BOUNDARY_eq by lia. rewrite PAGE_SZ_val.
  assert (Hm : (b + d) mod 4096 = d mod 4096).
  { rewrite Z.add_mod, Hal, Z.add_0_l, Z.mod_mod by lia. reflexivity. }
  rewrite Hm. pose proof (Z.div_mod d 4096).
  pose proof (Z.mod_pos_bound d 4096).
  replace (b + d - d mod 4096 - d / 4096 * 4096) with b by lia.
  apply u64_small. lia.
Qed.

Lemma SET_PTR_eq b : 0 <= b < 2 ^ 64 -> SET_PTR b = b / 4096.
Proof.
  intros Hb. unfold SET_PTR. rewrite u64_small by exact Hb.
  change PTR_MASK with (Z.ones 52). change PTR_SHIFT with 12.
  rewrite Z.land_ones, Z.shiftr_div_pow2 by lia.
  change (2 ^ 12) with 4096. apply Z.mod_small.
  split; [apply Z.div_pos; lia|].
  apply Z.div_lt_upper_bound; lia.
Qed.

Lemma GET_PTR_eq x : 0 <= x < 2 ^ 40 -> GET_PTR x = x * 4096.
Proof.
  intros Hx. unfold GET_PTR. rewrite (u64_small x) by lia.
  change PTR_MASK with (Z.ones 52). change PTR_SHIFT with 12.
  unfold u64. rewrite <- !Z.land_ones by lia.
  change 4096 with (2 ^ 12). rewrite <- Z.shiftl_mul_pow2 by lia.
  apply Z.bits_inj'. intros i Hi.
  rewrite Z.land_spec, Z.testbit_ones_nonneg by lia.
  destruct (Z.ltb_spec i 12) as [Hlow|Hhigh].
  { rewrite !Z.shiftl_spec_low by lia. reflexivity. }
  rewrite !Z.shiftl_spec by lia.
  rewrite Z.lor_spec, Z.land_spec, Z.lnot_spec by lia.
  rewrite !Z.testbit_ones_nonneg by lia.
  destruct (Z.ltb_spec i 64) as [H64|H64].
  - destruct (Z.ltb_spec (i - 12) 52); [|lia].
    cbn [negb andb]. rewrite orb_false_r, andb_true_r. reflexivity.
  - rewrite andb_false_r. symmetry.
    destruct (Z.eq_dec x 0) as [->|Hx0]; [apply Z.bits_0|].
    apply Z.bits_above_log2; [lia|].
    assert (Z.log2 x < 40) by (apply Z.log2_lt_pow2; lia). lia.
Qed.

Lemma GET_PTR_SET_PTR b :
  0 <= b < 2 ^ 52 -> b mod 4096 = 0 -> GET_PTR (SET_PTR b) = b.
Proof.
  intros Hb Hal. rewrite SET_PTR_eq by lia.
  assert (0 <= b / 4096 < 2 ^ 40).
  { split; [apply Z.div_pos; lia|]. apply Z.div_lt_upper_bound; lia. }
  rewrite GET_PTR_eq by assumption.
  pose proof (Z.div_mod b 4096). lia.
Qed.

(** ** The byte store *)

Lemma read8_write8 m a v b :
  read8 (write8 m a v) b = if decide (a = b) then u8 v else read8 m b.
Proof.
  unfold read8, write8. rewrite lookup_insert.
  destruct (decide (a = b)); reflexivity.
Qed.

Lemma read8_write_le n : forall m a v b,
  read8 (write_le n m a v) b =
    if decide (a <= b < a + Z.of_nat n) then u8 (v / 256 ^ (b - a))
    else read8 m b.
Proof.
  induction n as [|k IH]; intros m a v b.
  - cbn [write_le]. destruct (decide _) as [H|H]; [lia|reflexivity].
  - cbn [write_le]. rewrite IH, read8_write8.
    destruct (decide (a + 1 <= b < a + 1 + Z.of_nat k)) as [H1|H1].
    + destruct (decide (a <= b < a + Z.of_nat (S k))) as [_|H2]; [|lia].
      replace (b - a) with (1 + (b - (a + 1))) by lia.
      rewrite Z.pow_add_r by lia. change (256 ^ 1) with 256.
      rewrite Z.div_div by (try apply Z.pow_pos_nonneg; lia).
      reflexivity.
    + destruct (decide (a = b)) as [->|Hne].
      * destruct (decide (b <= b < b + Z.of_nat (S k))) as [_|H2]; [|lia].
        rewrite Z.sub_diag. change (256 ^ 0) with 1.
        rewrite Z.div_1_r. reflexivity.
      * destruct (decide (a <= b < a + Z.of_nat (S k))) as [H2|_]; [lia|].
        reflexivity.
Qed.

Lemma read8_write_le_out n m a v b :
  b < a \/ a + Z.of_nat n <= b -> read8 (write_le n m a v) b = read8 m b.
Proof.
  intros H. rewrite read8_write_le.
  destruct (decide _) as [H'|_]; [lia|reflexivity].
Qed.

Lemma read_le_ext n : forall m m' a,
  (forall i, a <= i < a + Z.of_nat n -> read8 m i = read8 m' i) ->
  read_le n m a = read_le n m' a.
Proof.
  induction n as [|k IH]; intros m m' a H; [reflexivity|].
  cbn [read_le]. rewrite (H a) by lia.
  rewrite (IH m m' (a + 1)); [reflexivity|].
  intros i Hi. apply H. lia.
Qed.

Lemma read_le_write_le_out n' n m a v b :
  b + Z.of_nat n' <= a \/ a + Z.of_nat n <= b ->
  read_le n' (write_le n m a v) b = read_le n' m b.
Proof.
  intros H. apply read_le_ext. intros i Hi.
  apply read8_write_le_out. lia.
Qed.

Lemma read_le_write8_out n m a v b :
  a < b \/ b + Z.of_nat n <= a ->
  read_le n (write8 m a v) b = read_le n m b.
Proof.
  intros H. apply read_le_ext. intros i Hi.
  rewrite read8_write8. destruct (decide (a = i)); [lia|reflexivity].
Qed.

Lemma read_le_bytes n : forall m a v,
  (forall i, a <= i < a + Z.of_nat n -> read8 m i = u8 (v / 256 ^ (i - a))) ->
  read_le n m a = v mod 256 ^ Z.of_nat n.
Proof.
  induction n as [|k IH]; intros m a v H.
  - cbn [read_le]. change (256 ^ Z.of_nat 0) with 1.
    rewrite Z.mod_1_r. reflexivity.
  - cbn [read_le]. rewrite (H a) by lia.
    rewrite Z.sub_diag. change (256 ^ 0) with 1. rewrite Z.div_1_r.
    rewrite (IH m (a + 1) (v / 256)).
    + rewrite Nat2Z.inj_succ, Z.pow_succ_r by lia. unfold u8.
      change (2 ^ 8) with 256.
      assert (Hp : 0 < 256 ^ Z.of_nat k) by (apply Z.pow_pos_nonneg; lia).
      rewrite (Z.rem_mul_r v 256 (256 ^ Z.of_nat k)) by lia. reflexivity.
    + intros i Hi. rewrite (H i) by lia.
      replace (i - a) with (1 + (i - (a + 1))) by lia.
      rewrite Z.pow_add_r by lia. change (256 ^ 1) with 256.
      rewrite Z.div_div by (try apply Z.pow_pos_nonneg; lia).
      reflexivity.
Qed.

Lemma read_le_write_le_same n m a v :
  read_le n (write_le n m a v) a = v mod 256 ^ Z.of_nat n.
Proof.
  apply read_le_bytes. intros i Hi. rewrite read8_write_le.
  destruct (decide _) as [_|H]; [reflexivity|lia].
Qed.

Lemma read8_zero_region m a len b :
  read8 (zero_region m a len) b =
    if decide (a <= b < a + len) then 0 else read8 m b.
Proof.
  unfold read8, zero_region.
  destruct (decide (a <= b < a + len)) as [Hin|Hout].
  - destruct (filter _ m !! b) as [x|] eqn:E; [|reflexivity].
    apply map_lookup_filter_Some in E as [_ Hn]. cbn in Hn. contradiction.
  - destruct (m !! b) as [x|] eqn:E.
    + erewrite (map_lookup_filter_Some_2 _ m b x); [reflexivity|exact E|].
      cbn. exact Hout.
    + rewrite map_lookup_filter_None_2; [reflexivity|]. left. exact E.
Qed.

Lemma read8_copy_bytes n : forall m dst src b,
  dst + Z.of_nat n <= src \/ src + Z.of_nat n <= dst ->
  read8 (copy_bytes n m dst src) b =
    if decide (dst <= b < dst + Z.of_nat n) then u8 (read8 m (src + (b - dst)))
    else read8 m b.
Proof.
  induction n as [|k IH]; intros m dst src b Hd.
  - cbn [copy_bytes]. destruct (decide _); [lia|reflexivity].
  - cbn [copy_bytes]. rewrite IH by lia. rewrite !read8_write8.
    destruct (decide (dst + 1 <= b < dst + 1 + Z.of_nat k)) as [H1|H1].
    + destruct (decide (dst <= b < dst + Z.of_nat (S k))); [|lia].
      destruct (decide (dst = src + 1 + (b - (dst + 1)))); [lia|].
      f_equal. f_equal. lia.
    + destruct (decide (dst = b)) as [->|Hne].
      * destruct (decide (b <= b < b + Z.of_nat (S k))); [|lia].
        rewrite Z.sub_diag, Z.add_0_r. reflexivity.
      * destruct (decide (dst <= b < dst + Z.of_nat (S k))); [lia|].
        reflexivity.
Qed.

(** ** Running the monad *)

Ltac sst :=
  cbn [mem pages thread_data global_freeheap mapped os_choices env cas_log
       thread_id private_heap top
       set_mem set_pages set_thread_data set_global_freeheap set_mapped
       set_os_choices set_env set_cas_log set_private_heap set_top
       next prev page_num object_size allocated_objects unallocated_off
       freed sync set_next set_prev set_allocated_objects
       set_unallocated_off set_freed set_sync head tail fst snd] in *.

Lemma bind_Ok {A B} (m : M A) (f : A -> M B) st a st1 :
  m st = Ok (a, st1) -> bind m f st = f a st1.
Proof. intros H. unfold bind. rewrite H. reflexivity. Qed.

Lemma bind_inv {A B} (m : M A) (f : A -> M B) st b st' :
  bind m f st = Ok (b, st') ->
  exists a st1, m st = Ok (a, st1) /\ f a st1 = Ok (b, st').
Proof.
  unfold bind. destruct (m st) as [[a st1]| | |]; try discriminate.
  intros H. exists a, st1. split; [reflexivity|exact H].
Qed.

Lemma ret_inv {A} (a b : A) st st' :
  ret a st = Ok (b, st') -> b = a /\ st' = st.
Proof. unfold ret. intros H. inversion H. split; reflexivity. Qed.

Lemma gets_inv {A} (f : state -> A) st b st' :
  gets f st = Ok (b, st') -> b = f st /\ st' = st.
Proof. unfold gets. intros H. inversion H. split; reflexivity. Qed.

Lemma modify_inv (f : state -> state) st u st' :
  modify f st = Ok (u, st') -> st' = f st.
Proof. unfold modify. intros H. inversion H. reflexivity. Qed.

Lemma get_page_inv page st pg st' :
  get_page page st = Ok (pg, st') -> st' = st /\ pages st !! page = Some pg.
Proof.
  unfold get_page. destruct (pages st !! page); [|discriminate].
  intros H. inversion H. subst. split; reflexivity.
Qed.

Lemma get_page_run page st pg :
  pages st !! page = Some pg -> get_page page st = Ok (pg, st).
Proof. intros H. unfold get_page. rewrite H. reflexivity. Qed.

Lemma upd_page_run page f st pg :
  pages st !! page = Some pg ->
  upd_page page f st = Ok (tt, set_pages (<[page := f pg]> (pages st)) st).
Proof.
  intros H. unfold upd_page. rewrite (bind_Ok _ _ _ _ _ (get_page_run _ _ _ H)).
  reflexivity.
Qed.

Lemma upd_page_inv page f st u st' :
  upd_page page f st = Ok (u, st') ->
  exists pg, pages st !! page = Some pg
             /\ st' = set_pages (<[page := f pg]> (pages st)) st.
Proof.
  unfold upd_page. intros H. apply bind_inv in H as (pg & s & H1 & H2).
  apply get_page_inv in H1 as [-> H1]. exists pg. split; [exact H1|].
  unfold put_page in H2. apply modify_inv in H2. exact H2.
Qed.

Lemma get_heap_inv c st h st' :
  get_heap c st = Ok (h, st') ->
  st' = st /\ idx_get (private_heap (thread_data st)) c = Some h.
Proof.
  unfold get_heap. destruct (idx_get _ c); [|discriminate].
  intros H. inversion H. subst. split; reflexivity.
Qed.

Lemma get_heap_run c st h :
  idx_get (private_heap (thread_data st)) c = Some h ->
  get_heap c st = Ok (h, st).
Proof. intros H. unfold get_heap. rewrite H. reflexivity. Qed.

Lemma put_heap_run c h0 h st :
  idx_get (private_heap (thread_data st)) c = Some h0 ->
  put_heap c h st =
    Ok (tt, set_thread_data
              (set_private_heap (idx_set (private_heap (thread_data st)) c h)
                                (thread_data st)) st).
Proof. intros H. unfold put_heap. rewrite H. reflexivity. Qed.

Lemma put_heap_inv c h st u st' :
  put_heap c h st = Ok (u, st') ->
  st' = set_thread_data
          (set_private_heap (idx_set (private_heap (thread_data st)) c h)
                            (thread_data st)) st.
Proof.
  unfold put_heap. destruct (idx_get _ c); [|discriminate].
  intros H. inversion H. reflexivity.
Qed.

Lemma load_word_inv r st w st' :
  load_word r st = Ok (w, st') -> st' = st.
Proof.
  unfold load_word. intros H.
  destruct r; repeat match type of H with
    | context [match ?x with _ => _ end] => destruct x; try discriminate
    end; inversion H; reflexivity.
Qed.

Lemma store_word_log r w st u st' :
  store_word r w st = Ok (u, st') ->
  cas_log st' = cas_log st /\ env st' = env st.
Proof.
  unfold store_word. intros H.
  destruct r; repeat match type of H with
    | context [match ?x with _ => _ end] => destruct x; try discriminate
    end; inversion H; split; reflexivity.
Qed.

Lemma store_load_word r w st u st' :
  store_word r w st = Ok (u, st') -> load_word r st' = Ok (w, st').
Proof.
  unfold store_word, load_word, idx_get, idx_set. intros H. destruct r.
  - destruct (0 <=? i) eqn:Hi; [|discriminate].
    destruct (top (thread_data st) !! Z.to_nat i) eqn:E; [|discriminate].
    inversion H. subst. sst.
    rewrite list_lookup_insert_eq; [reflexivity|].
    apply lookup_lt_Some in E. exact E.
  - destruct (0 <=? i) eqn:Hi; [|discriminate].
    destruct (global_freeheap st !! Z.to_nat i) eqn:E; [|discriminate].
    inversion H. subst. sst.
    rewrite list_lookup_insert_eq; [reflexivity|].
    apply lookup_lt_Some in E. exact E.
  - destruct (pages st !! page) eqn:E; [|discriminate].
    inversion H. subst. sst. rewrite lookup_insert_eq. reflexivity.
Qed.

Lemma interfere_log r st u st' :
  interfere r st = Ok (u, st') ->
  cas_log st' = cas_log st /\ (length (env st') <= length (env st))%nat.
Proof.
  unfold interfere. intros H. destruct (env st) as [|[w|] e] eqn:E.
  - inversion H. subst. rewrite E. split; [reflexivity|lia].
  - apply store_word_log in H as [H1 H2]. cbn in H1, H2.
    rewrite H1, H2. cbn. split; [reflexivity|lia].
  - inversion H. subst. cbn. split; [reflexivity|lia].
Qed.

Lemma interfere_quiet r st : env st = [] -> interfere r st = Ok (tt, st).
Proof. intros H. unfold interfere. rewrite H. reflexivity. Qed.

(** What one compare-and-swap leaves behind. *)
Lemma ATOMIC_CAS_inv r new_val old_val st ok e st' :
  ATOMIC_CAS r new_val old_val st = Ok ((ok, e), st') ->
  (ok = true /\ e = old_val
   /\ cas_log st' = (r, old_val, new_val) :: cas_log st
   /\ load_word r st' = Ok (new_val, st'))
  \/ (ok = false /\ cas_log st' = cas_log st).
Proof.
  unfold ATOMIC_CAS. intros H.
  apply bind_inv in H as (u & s1 & Hi & H).
  apply interfere_log in Hi as [Hlog1 _].
  apply bind_inv in H as (cur & s2 & Hl & H).
  apply load_word_inv in Hl. subst s2.
  destruct (Z.eqb_spec cur old_val) as [Heq|Hne].
  - subst cur. apply bind_inv in H as (u1 & s3 & Hs & H).
    pose proof (store_load_word _ _ _ _ _ Hs) as Hld.
    apply store_word_log in Hs as [Hlog3 _].
    apply bind_inv in H as (u2 & s4 & Hm & H).
    apply modify_inv in Hm. apply ret_inv in H as [H ->].
    inversion H. subst. left. cbn. rewrite Hlog3, Hlog1.
    repeat split; try reflexivity.
    unfold load_word in *. sst.
    destruct r; repeat match type of Hld with
      | context [match ?x with _ => _ end] => destruct x; try discriminate
      end; inversion Hld; reflexivity.
  - apply ret_inv in H as [H ->]. inversion H. subst.
    right. split; [reflexivity|exact Hlog1].
Qed.

Lemma ATOMIC_CAS_quiet r new_val old_val st u st1 :
  env st = [] ->
  load_word r st = Ok (old_val, st) ->
  store_word r new_val st = Ok (u, st1) ->
  ATOMIC_CAS r new_val old_val st =
    Ok ((true, old_val),
        set_cas_log ((r, old_val, new_val) :: cas_log st1) st1).
Proof.
  intros He Hl Hs. unfold ATOMIC_CAS.
  rewrite (bind_Ok _ _ _ _ _ (interfere_quiet r st He)).
  rewrite (bind_Ok _ _ _ _ _ Hl). rewrite Z.eqb_refl.
  rewrite (bind_Ok _ _ _ _ _ Hs). destruct u. reflexivity.
Qed.

Lemma Ok_inj {A} (a b : A) (s s' : state) :
  @Ok (A * state) (a, s) = Ok (b, s') -> a = b /\ s = s'.
Proof. intros H. injection H as -> ->. split; reflexivity. Qed.

(** ** Ranges of mapped memory: what [memcpy] and [memset] may touch *)

Lemma region_at_Some mp a b n :
  region_at mp a = Some (b, n) ->
  mp !! b = Some n /\ b <= a < b + n * PAGE_SZ.
Proof.
  unfold region_at. intros H. apply List.find_some in H as [Hin Hp].
  cbn [fst snd] in Hp. apply andb_prop in Hp as [H1 H2].
  apply Z.leb_le in H1. apply Z.ltb_lt in H2.
  split; [|lia]. apply elem_of_map_to_list. apply list_elem_of_In. exact Hin.
Qed.

Lemma region_at_None mp a : region_at mp a = None -> ~ in_mapping mp a.
Proof.
  unfold region_at. intros H (b & n & Hb & Hx).
  pose proof (List.find_none _ _ H (b, n)) as Hf. cbn [fst snd] in Hf.
  assert (Hin : In (b, n) (map_to_list mp)).
  { apply list_elem_of_In. apply elem_of_map_to_list. exact Hb. }
  specialize (Hf Hin). apply andb_false_iff in Hf as [Hf|Hf].
  - apply Z.leb_gt in Hf. lia.
  - apply Z.ltb_ge in Hf. lia.
Qed.

Lemma range_mapped_sound mp e : forall fuel a,
  range_mapped fuel mp a e = true ->
  forall x, a <= x < e -> in_mapping mp x.
Proof.
  induction fuel as [|k IH]; intros a H x Hx; cbn [range_mapped] in H.
  - destruct (Z.leb_spec e a); [lia|discriminate].
  - destruct (Z.leb_spec e a); [lia|].
    destruct (region_at mp a) as [[b n]|] eqn:E; [|discriminate].
    apply region_at_Some in E as [Hb Ha].
    destruct (Z.lt_ge_cases x (b + n * PAGE_SZ)) as [Hin|Hout].
    + exists b, n. split; [exact Hb|lia].
    + apply (IH _ H). lia.
Qed.

(** The mappings that end behind [a]. *)
Lemma ends_behind_shrink a a' (y : Z * Z) (l : list (Z * Z)) :
  a <= a' -> In y l ->
  (a <? y.1 + y.2 * PAGE_SZ) = true ->
  (a' <? y.1 + y.2 * PAGE_SZ) = false ->
  (length (List.filter (fun bn : Z * Z => (a' <? bn.1 + bn.2 * PAGE_SZ)%Z) l)
   < length (List.filter (fun bn : Z * Z => (a <? bn.1 + bn.2 * PAGE_SZ)%Z) l))%nat.
Proof.
  intros Hle. induction l as [|z l IH]; intros Hin Hy Hy'; [destruct Hin|].
  assert (Hmono : forall l0 : list (Z * Z),
    (length (List.filter (fun bn : Z * Z => (a' <? bn.1 + bn.2 * PAGE_SZ)%Z) l0)
     <= length (List.filter (fun bn : Z * Z => (a <? bn.1 + bn.2 * PAGE_SZ)%Z) l0))%nat).
  { induction l0 as [|w l0 IH0]; [reflexivity|]. cbn [List.filter].
    destruct (Z.ltb_spec a' (w.1 + w.2 * PAGE_SZ));
      destruct (Z.ltb_spec a (w.1 + w.2 * PAGE_SZ)); cbn [length]; lia. }
  cbn [List.filter]. destruct Hin as [->|Hin].
  - rewrite Hy, Hy'. cbn [length]. specialize (Hmono l). lia.
  - specialize (IH Hin Hy Hy').
    destruct (Z.ltb_spec a' (z.1 + z.2 * PAGE_SZ));
      destruct (Z.ltb_spec a (z.1 + z.2 * PAGE_SZ)); cbn [length]; lia.
Qed.

Lemma range_mapped_complete mp e : forall fuel a,
  (length (List.filter (fun bn : Z * Z => (a <? bn.1 + bn.2 * PAGE_SZ)%Z)
                       (map_to_list mp)) <= fuel)%nat ->
  (forall x, a <= x < e -> in_mapping mp x) ->
  range_mapped fuel mp a e = true.
Proof.
  induction fuel as [|k IH]; intros a Hfuel Hall; cbn [range_mapped];
    destruct (Z.leb_spec e a) as [Hle|Hlt]; try reflexivity.
  - exfalso. destruct (Hall a ltac:(lia)) as (b & n & Hb & Ha).
    assert (Hin : In (b, n) (map_to_list mp)).
    { apply list_elem_of_In. apply elem_of_map_to_list. exact Hb. }
    assert (Hf : In (b, n)
                   (List.filter (fun bn : Z * Z => (a <? bn.1 + bn.2 * PAGE_SZ)%Z)
                                (map_to_list mp))).
    { apply List.filter_In. split; [exact Hin|]. cbn [fst snd].
      apply Z.ltb_lt. lia. }
    destruct (List.filter _ _); [destruct Hf|cbn [length] in Hfuel; lia].
  - destruct (region_at mp a) as [[b n]|] eqn:E.
    + pose proof E as E'. apply region_at_Some in E' as [Hb Ha].
      apply IH.
      * assert (Hin : In (b, n) (map_to_list mp)).
        { apply list_elem_of_In. apply elem_of_map_to_list. exact Hb. }
        pose proof (ends_behind_shrink a (b + n * PAGE_SZ) (b, n)
                      (map_to_list mp) ltac:(lia) Hin
                      ltac:(cbn [fst snd]; apply Z.ltb_lt; lia)
                      ltac:(cbn [fst snd]; apply Z.ltb_ge; lia)).
        lia.
      * intros x Hx. apply Hall. lia.
    + exfalso. apply (region_at_None _ _ E). apply Hall. lia.
Qed.

(** [range_mapped], with a step for every mapping, decides whether a range
    of addresses is mapped throughout. *)
Lemma range_mapped_spec mp a e :
  range_mapped (size mp) mp a e = true
  <-> forall x, a <= x < e -> in_mapping mp x.
Proof.
  split; [apply range_mapped_sound|]. apply range_mapped_complete.
  rewrite <- (length_map_to_list mp). apply List.filter_length_le.
Qed.

Lemma touch_run a n st :
  (forall x, a <= x < a + n -> in_mapping (mapped st) x) ->
  touch a n st = Ok (tt, st).
Proof.
  intros H. unfold touch. apply range_mapped_spec in H. rewrite H.
  reflexivity.
Qed.

Lemma touch_inv a n st u st' :
  touch a n st = Ok (u, st') ->
  st' = st /\ forall x, a <= x < a + n -> in_mapping (mapped st) x.
Proof.
  unfold touch. intros H.
  destruct (range_mapped _ _ _ _) eqn:E; [|discriminate].
  injection H as _ <-. split; [reflexivity|].
  apply range_mapped_spec. exact E.
Qed.

(** A range inside one mapping is mapped. *)
Lemma touch_region a n st b k :
  mapped st !! b = Some k -> b <= a -> a + n <= b + k * PAGE_SZ ->
  touch a n st = Ok (tt, st).
Proof.
  intros Hb Hlo Hhi. apply touch_run. intros x Hx.
  exists b, k. split; [exact Hb|lia].
Qed.

Lemma memcpy_inv dst src n st u st' :
  memcpy dst src n st = Ok (u, st') ->
  st' = set_mem (copy_bytes (Z.to_nat n) (mem st) dst src) st
  /\ (forall x, src <= x < src + n -> in_mapping (mapped st) x)
  /\ (forall x, dst <= x < dst + n -> in_mapping (mapped st) x).
Proof.
  unfold memcpy. intros H.
  apply bind_inv in H as (u1 & s1 & H1 & H).
  apply touch_inv in H1 as [-> Hsrc].
  apply bind_inv in H as (u2 & s2 & H2 & H).
  apply touch_inv in H2 as [-> Hdst].
  apply modify_inv in H. split_and!; assumption.
Qed.

Lemma memcpy_run dst src n st :
  (forall x, src <= x < src + n -> in_mapping (mapped st) x) ->
  (forall x, dst <= x < dst + n -> in_mapping (mapped st) x) ->
  memcpy dst src n st
  = Ok (tt, set_mem (copy_bytes (Z.to_nat n) (mem st) dst src) st).
Proof.
  intros Hsrc Hdst. unfold memcpy.
  rewrite (bind_Ok _ _ _ _ _ (touch_run _ _ _ Hsrc)).
  rewrite (bind_Ok _ _ _ _ _ (touch_run _ _ _ Hdst)). reflexivity.
Qed.

Lemma memset_inv dst v n st u st' :
  memset dst v n st = Ok (u, st') ->
  st' = set_mem (fill_bytes (Z.to_nat n) (mem st) dst v) st
  /\ (forall x, dst <= x < dst + n -> in_mapping (mapped st) x).
Proof.
  unfold memset. intros H.
  apply bind_inv in H as (u1 & s1 & H1 & H).
  apply touch_inv in H1 as [-> Hdst].
  apply modify_inv in H. split; assumption.
Qed.

Lemma memset_run dst v n st :
  (forall x, dst <= x < dst + n -> in_mapping (mapped st) x) ->
  memset dst v n st
  = Ok (tt, set_mem (fill_bytes (Z.to_nat n) (mem st) dst v) st).
Proof.
  intros Hdst. unfold memset.
  rewrite (bind_Ok _ _ _ _ _ (touch_run _ _ _ Hdst)). reflexivity.
Qed.

Lemma touch_fault a n st x :
  a <= x < a + n -> ~ in_mapping (mapped st) x -> touch a n st = Fault.
Proof.
  intros Hx Hout. unfold touch.
  destruct (range_mapped _ _ _ _) eqn:E; [exfalso|reflexivity].
  apply Hout. exact (range_mapped_sound _ _ _ _ E x Hx).
Qed.

Lemma memset_fault dst v n st x :
  dst <= x < dst + n -> ~ in_mapping (mapped st) x ->
  memset dst v n st = Fault.
Proof.
  intros Hx Hout. unfold memset, bind.
  rewrite (touch_fault dst n st x Hx Hout). reflexivity.
Qed.

(** ** The compare-and-swap loops of the counting stacks *)

Lemma upd_page_log page f st u st' :
  upd_page page f st = Ok (u, st') -> cas_log st' = cas_log st.
Proof.
  intros H. apply upd_page_inv in H as (pg & _ & ->). reflexivity.
Qed.

Lemma new_head_tag w c n :
  dq_state (set_dq_nxt (set_dq_state (set_dq_count 0 c) (dq_state w + 1)) n)
  = (dq_state w + 1) mod 2 ^ STATE_BITS.
Proof. autorewrite with fields. reflexivity. Qed.

Lemma next_head_tag w c n :
  dq_state (set_dq_state (set_dq_count (set_dq_nxt 0 n) c) (dq_state w + 1))
  = (dq_state w + 1) mod 2 ^ STATE_BITS.
Proof. autorewrite with fields. reflexivity. Qed.

Lemma stack_insert_atomic_loop_log n : forall r page st v st',
  stack_insert_atomic_loop n r page st = Ok (v, st') ->
  exists new, log_grows new st st' /\ Forall state_tag_advances new
              /\ (v <> 0 -> length new = 1%nat).
Proof.
  induction n as [|k IH]; intros r page st v st' H; [discriminate|].
  cbn [stack_insert_atomic_loop] in H.
  apply bind_inv in H as (old_head & s & Hl & H).
  apply load_word_inv in Hl. subst s.
  destruct (dq_count old_head =? COUNT_MAX).
  { apply ret_inv in H as [-> ->]. exists []. repeat split.
    - constructor.
    - intros Hv. contradiction. }
  apply bind_inv in H as (u & s1 & Hu & H).
  apply upd_page_inv in Hu as (pg0 & Hpg0 & ->).
  apply bind_inv in H as (pg & s2 & Hg & H).
  apply get_page_inv in Hg as [-> Hpg]. sst.
  rewrite lookup_insert_eq in Hpg. inversion Hpg. subst pg. clear Hpg. sst.
  apply bind_inv in H as ([ok e] & s3 & Hc & H).
  apply ATOMIC_CAS_inv in Hc as [(-> & -> & Hlog & _)|(-> & Hlog)]; sst.
  - apply ret_inv in H as [-> ->].
    exists [(r, old_head, set_dq_nxt
               (set_dq_state (set_dq_count 0 (dq_count old_head + 1))
                             (dq_state old_head + 1)) (SET_PTR page))].
    repeat split.
    + exact Hlog.
    + constructor; [|constructor]. unfold state_tag_advances. cbn [fst snd].
      apply new_head_tag.
  - apply bind_inv in H as (u' & s4 & Hu' & H).
    apply upd_page_log in Hu'. apply IH in H as (new & Hg & Hall & Hlen).
    exists new. repeat split; [|exact Hall|exact Hlen].
    unfold log_grows in *. rewrite Hg, Hu', Hlog. reflexivity.
Qed.

Lemma stack_remove_atomic_loop_log n : forall r st v st',
  stack_remove_atomic_loop n r st = Ok (v, st') ->
  exists new, log_grows new st st' /\ Forall state_tag_advances new
              /\ (v <> 0 -> length new = 1%nat).
Proof.
  induction n as [|k IH]; intros r st v st' H; [discriminate|].
  cbn [stack_remove_atomic_loop] in H.
  apply bind_inv in H as (old_head & s & Hl & H).
  apply load_word_inv in Hl. subst s.
  destruct (dq_nxt old_head =? 0).
  { apply ret_inv in H as [-> ->]. exists []. repeat split.
    - constructor.
    - intros Hv. contradiction. }
  apply bind_inv in H as (pg & s2 & Hg & H).
  apply get_page_inv in Hg as [-> Hpg].
  apply bind_inv in H as ([ok e] & s3 & Hc & H).
  apply ATOMIC_CAS_inv in Hc as [(-> & -> & Hlog & _)|(-> & Hlog)]; sst.
  - apply ret_inv in H as [-> ->]. eexists [_]. repeat split.
    + exact Hlog.
    + constructor; [|constructor]. unfold state_tag_advances. cbn [fst snd].
      apply next_head_tag.
  - apply IH in H as (new & Hg & Hall & Hlen).
    exists new. repeat split; [|exact Hall|exact Hlen].
    unfold log_grows in *. rewrite Hg, Hlog. reflexivity.
Qed.

(** ** Frame lemmas: what each part of the invariant reads *)

Ltac ehere := apply list_elem_of_here.
Ltac efurther := apply list_elem_of_further.

Lemma dl_from_frame ps ps' l : forall pv,
  (forall b, b ∈ l -> links <$> ps' !! b = links <$> ps !! b) ->
  dl_from ps pv l -> dl_from ps' pv l.
Proof.
  induction l as [|b l IH]; intros pv Hsame H; [exact I|].
  cbn [dl_from] in *. destruct H as (pg & Hpg & Hpv & Hnx & Hrest).
  assert (Hb := Hsame b ltac:(ehere)). rewrite Hpg in Hb.
  destruct (ps' !! b) as [pg'|] eqn:E; [|discriminate].
  cbn in Hb. unfold links in Hb. inversion Hb as [[Hn Hp]].
  exists pg'. split_and!; try congruence.
  apply IH; [|exact Hrest]. intros x Hx. apply Hsame. efurther. exact Hx.
Qed.

Lemma dlist_frame ps ps' h l :
  (forall b, b ∈ l -> links <$> ps' !! b = links <$> ps !! b) ->
  dlist ps h l -> dlist ps' h l.
Proof.
  intros Hsame (Hh & Ht & Hd). split_and!; try assumption.
  exact (dl_from_frame _ _ _ _ Hsame Hd).
Qed.

Lemma stack_chain_frame ps ps' l : forall w,
  (forall b, b ∈ l -> next <$> ps' !! b = next <$> ps !! b) ->
  stack_chain ps w l -> stack_chain ps' w l.
Proof.
  induction l as [|b l IH]; intros w Hsame H; [exact H|].
  cbn [stack_chain] in *. destruct H as (Hc & Hm & Hn & pg & Hpg & Hrest).
  assert (Hb := Hsame b ltac:(ehere)). rewrite Hpg in Hb.
  destruct (ps' !! b) as [pg'|] eqn:E; [|discriminate].
  cbn in Hb. inversion Hb as [Hnx].
  split_and!; try assumption. exists pg'. split; [reflexivity|].
  rewrite Hnx. apply IH; [|exact Hrest].
  intros x Hx. apply Hsame. efurther. exact Hx.
Qed.

Lemma free_chain_frame m m' b l : forall off,
  (forall a, a ∈ l -> read_le 4 m' a = read_le 4 m a) ->
  free_chain m b off l -> free_chain m' b off l.
Proof.
  induction l as [|a l IH]; intros off Hsame H; [exact H|].
  cbn [free_chain] in *. destruct H as [Hoff Hrest]. split; [exact Hoff|].
  rewrite (Hsame a) by ehere. apply IH; [|exact Hrest].
  intros x Hx. apply Hsame. efurther. exact Hx.
Qed.

Lemma slot_end i k csz :
  0 <= i < k -> 0 <= csz -> (i + 1) * csz <= k * csz.
Proof. intros Hi Hc. apply Z.mul_le_mono_nonneg_r; lia. Qed.

(** The bytes and the header record that [block_ok] depends on. *)
Lemma block_ok_frame st st' g g' c b :
  block_ok st g c b ->
  body <$> pages st' !! b = body <$> pages st !! b ->
  mapped st' !! b = mapped st !! b ->
  thread_id (thread_data st') = thread_id (thread_data st) ->
  (forall x, b <= x < b + class_pages c * PAGE_SZ ->
             read8 (mem st') x = read8 (mem st) x) ->
  g_slots g' b = g_slots g b -> g_free g' b = g_free g b ->
  g_live g' b = g_live g b ->
  block_ok st' g' c b.
Proof.
  intros (pg & csz & Hpg & Hcs & Hmp & Hos & Hpn & Hsy & Hk0 & Hun & Hlim
          & Hal & Hlen & Hnd & Hsl & Hhd & Hch) Ep Em Et Hmem Ek Ef El.
  pose proof (class_sizes_bounds _ _ Hcs) as [Hcb _].
  change FIRST_PAYLOAD with 48 in *.
  assert (Hin : forall a, a ∈ g_live g b ++ g_free g b ->
                          b + 48 <= a /\ a + 4 <= b + class_pages c * PAGE_SZ).
  { intros a Ha. destruct (Hsl a Ha) as (i & Hi & ->).
    pose proof (slot_end i (g_slots g b) csz Hi ltac:(lia)). lia. }
  rewrite Hpg in Ep.
  destruct (pages st' !! b) as [pg'|] eqn:Epg'; [|discriminate].
  cbn in Ep. unfold body in Ep. inversion Ep as [[E1 E2 E3 E4 E5 E6]].
  exists pg', csz. rewrite Em, Et, Ek, Ef, El, E1, E2, E3, E4, E5, E6.
  split_and!; try assumption; try lia; try reflexivity.
  - intros a Ha. rewrite Hmem; [exact (Hhd a Ha)|].
    specialize (Hin a Ha). lia.
  - apply (free_chain_frame (mem st)); [|exact Hch].
    intros a Ha. apply read_le_ext. intros x Hx. apply Hmem.
    specialize (Hin a ltac:(apply elem_of_app; right; exact Ha)). lia.
Qed.

Lemma cache_ok_frame st st' g g' tops tops' blocks blocks' mk i :
  cache_ok st g tops blocks mk i ->
  idx_get tops' i = idx_get tops i ->
  blocks' i = blocks i ->
  (forall b, b ∈ blocks i ->
     next <$> pages st' !! b = next <$> pages st !! b
     /\ mapped st' !! b = mapped st !! b
     /\ g_role g' b = g_role g b) ->
  cache_ok st' g' tops' blocks' mk i.
Proof.
  intros (w & Hw & Hch & Hnd & Hall) Et Eb Hsame.
  exists w. rewrite Eb, Et. split_and!; try assumption.
  - apply (stack_chain_frame (pages st)); [|exact Hch].
    intros b Hb. apply (Hsame b Hb).
  - intros b Hb. destruct (Hsame b Hb) as (_ & -> & ->). apply (Hall b Hb).
Qed.

Lemma large_ok_frame st st' g g' p :
  large_ok st g p ->
  g_role g' (p - LARGE_HEADER_SIZE) = g_role g (p - LARGE_HEADER_SIZE) ->
  mapped st' !! (p - LARGE_HEADER_SIZE) = mapped st !! (p - LARGE_HEADER_SIZE) ->
  (forall x, p - LARGE_HEADER_SIZE <= x < p ->
             read8 (mem st') x = read8 (mem st) x) ->
  large_ok st' g' p.
Proof.
  intros (Hr & n & Hmp & Hsz & Hhd) Er Em Hmem. unfold large_ok.
  change LARGE_HEADER_SIZE with 16 in *.
  split; [rewrite Er; exact Hr|]. exists n. rewrite Em. split_and!.
  - exact Hmp.
  - rewrite <- Hsz. apply read_le_ext. intros x Hx. apply Hmem. lia.
  - rewrite Hmem by lia. exact Hhd.
Qed.

(** Two regions with different roles do not meet. *)
Lemma regions_apart mp b n b' n' :
  os_ok mp -> mp !! b = Some n -> mp !! b' = Some n' -> b <> b' ->
  forall x, b <= x < b + n * PAGE_SZ ->
            ~ (b' <= x < b' + n' * PAGE_SZ).
Proof.
  intros [_ Hd] H1 H2 Hne x Hx Hx'.
  destruct (Hd b n b' n' H1 H2 Hne); lia.
Qed.

(** ** Headers, owner words and classes *)

Lemma header_roundtrip_all : forall_range 32 0 header_roundtrip_ok = true.
Proof. vm_compute. reflexivity. Qed.

Lemma small_header_decode o :
  0 <= o <= 31 ->
  HEADER_IS_BLOCK_VALID (small_header o) = true
  /\ HEADER_PAGE_GET_TYPE (small_header o) = CLASS_SMALL
  /\ HEADER_PAGE_OFFSET_GET (small_header o) = o.
Proof.
  intros Ho.
  pose proof (forall_range_spec 32 0 _ header_roundtrip_all o ltac:(lia)) as H.
  unfold header_roundtrip_ok in H.
  apply andb_prop in H as [H H3]. apply andb_prop in H as [H1 H2].
  repeat split; [exact H1|lia|lia].
Qed.

Lemma large_header_decode :
  HEADER_IS_BLOCK_VALID large_header = true
  /\ HEADER_PAGE_GET_TYPE large_header = CLASS_LARGE.
Proof. split; reflexivity. Qed.

Lemma object_type_decode_run obj st :
  object_type_decode obj st =
    Ok ((if HEADER_IS_BLOCK_VALID (read8 (mem st) (obj - 1))
         then HEADER_PAGE_GET_TYPE (read8 (mem st) (obj - 1)) else -1,
         HEADER_PAGE_OFFSET_GET (read8 (mem st) (obj - 1))), st).
Proof. reflexivity. Qed.

Lemma owner_word_fields tid :
  0 <= tid < 2 ^ THREAD_ID_BITS ->
  rf_thread_id (owner_word tid) = tid
  /\ rf_remotely_freed (owner_word tid) = 0
  /\ rf_count (owner_word tid) = 0.
Proof.
  intros Ht. unfold owner_word. autorewrite with fields.
  repeat split; try reflexivity.
  apply Z.mod_small. exact Ht.
Qed.

Lemma class_pages_all : forall_range 2047 1 class_pages_ok = true.
Proof. vm_compute. reflexivity. Qed.

Lemma class_entry_all : forall_range 64 0 class_entry_ok = true.
Proof. vm_compute. reflexivity. Qed.

Lemma class_size_decode_small s c pb :
  1 <= s <= 2047 -> class_size_decode s = Some (c, pb) ->
  0 <= c < CLASS_NUM /\ pb = class_pages c.
Proof.
  intros Hs Hd.
  pose proof (forall_range_spec 2047 1 _ class_pages_all s ltac:(lia)) as H.
  unfold class_pages_ok in H. rewrite Hd in H.
  apply andb_prop in H as [H H3]. apply andb_prop in H as [H1 H2].
  lia.
Qed.

Lemma class_size_decode_total s :
  1 <= s <= 2047 -> exists c pb, class_size_decode s = Some (c, pb).
Proof.
  intros Hs.
  pose proof (forall_range_spec 2047 1 _ class_pages_all s ltac:(lia)) as H.
  unfold class_pages_ok in H.
  destruct (class_size_decode s) as [[c pb]|]; [|discriminate].
  exists c, pb. reflexivity.
Qed.

Lemma class_entry c :
  0 <= c < CLASS_NUM ->
  exists csz,
    class_sizes !! Z.to_nat c = Some csz
    /\ 16 <= csz <= 2048 /\ csz mod 16 = 0
    /\ class_size_decode (u64 (csz - 1)) = Some (c, class_pages c)
    /\ PAGE_SZ_BY_IDX (IDX_BY_PAGE_SZ (class_pages c)) = class_pages c
    /\ 0 <= IDX_BY_PAGE_SZ (class_pages c) < CLASS_PAGES_NUM.
Proof.
  intros Hc. change CLASS_NUM with 64 in Hc.
  pose proof (forall_range_spec 64 0 _ class_entry_all c ltac:(lia)) as H.
  unfold class_entry_ok in H.
  destruct (class_sizes !! Z.to_nat c) as [csz|] eqn:Ec; [|discriminate].
  destruct (class_size_decode (u64 (csz - 1))) as [[c' pb]|] eqn:Ed;
    [|discriminate].
  repeat (apply andb_prop in H as [H ?]).
  pose proof (class_sizes_bounds _ _ Ec) as [Hb Hm].
  exists csz. repeat split; try lia.
  rewrite Ed. f_equal. f_equal; lia.
Qed.

Lemma class_pages_cases c :
  class_pages c = 8 \/ class_pages c = 16 \/ class_pages c = 32.
Proof.
  unfold class_pages. destruct (c <? 32); [auto|].
  destruct (c <? 48); auto.
Qed.

Lemma first_payload_offset a :
  a mod 16 = 0 ->
  u32 (SIZEOF_PAGE_T
       + u64 (ALIGN_MASK DEFAULT_ALLIGN
              - Z.land (u64 (a + SIZEOF_PAGE_T)) (ALIGN_MASK DEFAULT_ALLIGN)))
  = FIRST_PAYLOAD - 1.
Proof.
  intros Ha. change (ALIGN_MASK DEFAULT_ALLIGN) with (Z.ones 4).
  rewrite Z.land_ones by lia. unfold u64.
  change SIZEOF_PAGE_T with 40. change (2 ^ 4) with 16.
  assert (H : ((a + 40) mod 2 ^ 64) mod 16 = 8).
  { change (2 ^ 64) with (16 * 1152921504606846976).
    rewrite Z.rem_mul_r by lia.
    rewrite Z.mul_comm, Z.mod_add by lia. rewrite Z.mod_mod by lia.
    rewrite Z.add_mod, Ha by lia. reflexivity. }
  rewrite H. reflexivity.
Qed.

(** ** Re-establishing the invariant after a change inside one block *)

Ltac gst :=
  cbn [g_role g_list g_lcache g_gcache g_slots g_free g_live g_large
       set_g_role set_g_list set_g_lcache set_g_gcache set_g_block
       set_g_large] in *.

Lemma fupd_eq {A} (f : Z -> A) k v : fupd f k v k = v.
Proof. unfold fupd. destruct (decide (k = k)); [reflexivity|contradiction]. Qed.

Lemma fupd_ne {A} (f : Z -> A) k v x : x <> k -> fupd f k v x = f x.
Proof. intros H. unfold fupd. destruct (decide (x = k)); [contradiction|reflexivity]. Qed.

Lemma role_apart g b r r' : g_role g b = Some r -> g_role g b = Some r' -> r = r'.
Proof. intros H1 H2. rewrite H1 in H2. inversion H2. reflexivity. Qed.

Lemma heap_block st g c b :
  inv st g -> 0 <= c < CLASS_NUM -> b ∈ g_list g c ->
  g_role g b = Some (InClass c) /\ block_ok st g c b.
Proof.
  intros Hinv Hc Hb.
  destruct (inv_heaps _ _ Hinv c Hc) as (h & _ & _ & _ & Hr).
  split; [exact (Hr b Hb)|]. exact (proj2 (inv_blocks _ _ Hinv c b (Hr b Hb))).
Qed.

Lemma block_region st g c b :
  inv st g -> g_role g b = Some (InClass c) ->
  mapped st !! b = Some (class_pages c).
Proof.
  intros Hinv Hb. destruct (inv_blocks _ _ Hinv c b Hb) as [_ Hbo].
  destruct Hbo as (pg & csz & _ & _ & Hmp & _). exact Hmp.
Qed.

Lemma large_region st g p :
  inv st g -> p ∈ g_large g ->
  exists n, mapped st !! (p - LARGE_HEADER_SIZE) = Some n
            /\ p <= p - LARGE_HEADER_SIZE + n * PAGE_SZ.
Proof.
  intros Hinv Hp. destruct (inv_large _ _ Hinv p Hp) as (_ & n & Hmp & _).
  exists n. split; [exact Hmp|].
  destruct (inv_os _ _ Hinv) as [Hr _].
  destruct (Hr _ _ Hmp) as (_ & _ & Hn & _).
  rewrite PAGE_SZ_val. change LARGE_HEADER_SIZE with 16. lia.
Qed.

(** Pointwise frames for the data half of the invariant. *)
Lemma blocks_frame st st' g g' :
  inv st g ->
  thread_id (thread_data st') = thread_id (thread_data st) ->
  (forall c b, g_role g' b = Some (InClass c) ->
     g_role g b = Some (InClass c)
     /\ body <$> pages st' !! b = body <$> pages st !! b
     /\ mapped st' !! b = mapped st !! b
     /\ (forall x, b <= x < b + class_pages c * PAGE_SZ ->
                   read8 (mem st') x = read8 (mem st) x)
     /\ g_slots g' b = g_slots g b /\ g_free g' b = g_free g b
     /\ g_live g' b = g_live g b) ->
  forall c b, g_role g' b = Some (InClass c) ->
    0 <= c < CLASS_NUM /\ block_ok st' g' c b.
Proof.
  intros Hinv Ht Hsame c b Hr.
  destruct (Hsame c b Hr) as (Hr0 & Hbd & Hmp & Hmem & Hk & Hf & Hl).
  destruct (inv_blocks _ _ Hinv c b Hr0) as [Hc Hbo].
  split; [exact Hc|]. exact (block_ok_frame _ _ _ _ _ _ Hbo Hbd Hmp Ht Hmem Hk Hf Hl).
Qed.

Lemma larges_frame st st' g g' :
  inv st g ->
  (forall p, p ∈ g_large g' ->
     p ∈ g_large g
     /\ g_role g' (p - LARGE_HEADER_SIZE) = g_role g (p - LARGE_HEADER_SIZE)
     /\ mapped st' !! (p - LARGE_HEADER_SIZE)
        = mapped st !! (p - LARGE_HEADER_SIZE)
     /\ (forall x, p - LARGE_HEADER_SIZE <= x < p ->
                   read8 (mem st') x = read8 (mem st) x)) ->
  forall p, p ∈ g_large g' -> large_ok st' g' p.
Proof.
  intros Hinv Hsame p Hp. destruct (Hsame p Hp) as (Hp0 & Hr & Hmp & Hmem).
  exact (large_ok_frame _ _ _ _ _ (inv_large _ _ Hinv p Hp0) Hr Hmp Hmem).
Qed.

Lemma body_of_eq (o o' : option page_t) : o' = o -> body <$> o' = body <$> o.
Proof. intros ->. reflexivity. Qed.

Lemma links_of_eq (o o' : option page_t) : o' = o -> links <$> o' = links <$> o.
Proof. intros ->. reflexivity. Qed.

Lemma next_of_links (o o' : option page_t) :
  links <$> o' = links <$> o -> next <$> o' = next <$> o.
Proof.
  destruct o, o'; cbn; intros H; try discriminate; [|reflexivity].
  inversion H. reflexivity.
Qed.

Lemma inv_block_update st st' g c b k fr lv :
  inv st g -> 0 <= c < CLASS_NUM -> b ∈ g_list g c ->
  thread_data st' = thread_data st ->
  global_freeheap st' = global_freeheap st ->
  mapped st' = mapped st ->
  env st' = env st ->
  (forall b', b' <> b -> pages st' !! b' = pages st !! b') ->
  links <$> pages st' !! b = links <$> pages st !! b ->
  (forall x, x < b \/ b + class_pages c * PAGE_SZ <= x ->
             read8 (mem st') x = read8 (mem st) x) ->
  block_ok st' (set_g_block b k fr lv g) c b ->
  inv st' (set_g_block b k fr lv g).
Proof.
  intros Hinv Hc Hb Htd Hgf Hmp Henv Hpg Hlinks Hmem Hblock.
  destruct (heap_block _ _ _ _ Hinv Hc Hb) as [Hrole _].
  pose proof (block_region _ _ _ _ Hinv Hrole) as Hreg.
  assert (Hlk : forall b', links <$> pages st' !! b' = links <$> pages st !! b').
  { intros b'. destruct (decide (b' = b)) as [->|Hne]; [exact Hlinks|].
    apply links_of_eq, Hpg, Hne. }
  constructor; gst.
  - rewrite Htd. apply (inv_tid _ _ Hinv).
  - rewrite Henv. apply (inv_env _ _ Hinv).
  - rewrite Hmp. apply (inv_os _ _ Hinv).
  - intros b' r Hr. rewrite Hmp. apply (inv_role _ _ Hinv b' r Hr).
  - intros c' Hc'.
    destruct (inv_heaps _ _ Hinv c' Hc') as (h & Hh & Hdl & Hnd & Hrl).
    exists h. rewrite Htd. split_and!; try assumption.
    apply (dlist_frame (pages st)); [|exact Hdl]. intros b' _. apply Hlk.
  - intros c' b' Hr'. destruct (decide (b' = b)) as [->|Hne].
    + pose proof (role_apart _ _ _ _ Hrole Hr') as E. inversion E.
      subst c'. split; [exact Hc|exact Hblock].
    + destruct (inv_blocks _ _ Hinv c' b' Hr') as [Hc' Hbo'].
      split; [exact Hc'|].
      pose proof (block_region _ _ _ _ Hinv Hr') as Hreg'.
      apply (block_ok_frame st _ g); try assumption.
      * apply body_of_eq, Hpg, Hne.
      * rewrite Hmp. reflexivity.
      * rewrite Htd. reflexivity.
      * intros x Hx. apply Hmem.
        pose proof (regions_apart _ _ _ _ _ (inv_os _ _ Hinv) Hreg' Hreg
                      Hne x Hx). lia.
      * gst. apply fupd_ne. exact Hne.
      * gst. apply fupd_ne. exact Hne.
      * gst. apply fupd_ne. exact Hne.
  - intros i Hi. rewrite Htd.
    eapply cache_ok_frame; [exact (inv_local _ _ Hinv i Hi)|reflexivity|reflexivity|].
    intros b' Hb'. rewrite Hmp. split_and!; try reflexivity.
    apply next_of_links, Hlk.
  - intros i Hi. rewrite Hgf.
    eapply cache_ok_frame; [exact (inv_global _ _ Hinv i Hi)|reflexivity|reflexivity|].
    intros b' Hb'. rewrite Hmp. split_and!; try reflexivity.
    apply next_of_links, Hlk.
  - intros p Hp. pose proof (inv_large _ _ Hinv p Hp) as Hl.
    apply (large_ok_frame st _ g); try assumption; try reflexivity.
    + rewrite Hmp. reflexivity.
    + intros x Hx. apply Hmem.
      destruct (large_region _ _ _ Hinv Hp) as (n & Hmpl & Hn).
      destruct Hl as [Hrl _].
      assert (Hne : p - LARGE_HEADER_SIZE <> b).
      { intros E. rewrite E in Hrl.
        pose proof (role_apart _ _ _ _ Hrole Hrl). discriminate. }
      pose proof (regions_apart _ _ _ _ _ (inv_os _ _ Hinv) Hmpl Hreg
                    Hne x ltac:(lia)). lia.
Qed.

(** ** Re-establishing the invariant when one region changes its role

    Everything that does not concern the region at [a] is framed; the
    caller shows the list and cache structure of the new state and, where
    [a] becomes a class block or a large object, its own part. *)
Lemma inv_change st st' g g' a :
  inv st g ->
  thread_id (thread_data st') = thread_id (thread_data st) ->
  env st' = [] ->
  os_ok (mapped st') ->
  (forall b, b <> a -> mapped st' !! b = mapped st !! b) ->
  (forall b, b <> a -> g_role g' b = g_role g b) ->
  (forall r, g_role g' a = Some r -> is_Some (mapped st' !! a)) ->
  (forall b, b <> a -> body <$> pages st' !! b = body <$> pages st !! b) ->
  (forall b, b <> a -> g_slots g' b = g_slots g b /\ g_free g' b = g_free g b
                       /\ g_live g' b = g_live g b) ->
  (forall x, read8 (mem st') x = read8 (mem st) x
             \/ exists n, (mapped st !! a = Some n \/ mapped st' !! a = Some n)
                          /\ a <= x < a + n * PAGE_SZ) ->
  (forall c, 0 <= c < CLASS_NUM ->
     exists h, idx_get (private_heap (thread_data st')) c = Some h
               /\ dlist (pages st') h (g_list g' c)
               /\ NoDup (g_list g' c)
               /\ forall b, b ∈ g_list g' c -> g_role g' b = Some (InClass c)) ->
  (forall i, 0 <= i < CLASS_PAGES_NUM ->
     cache_ok st' g' (top (thread_data st')) (g_lcache g') InLocal i) ->
  (forall i, 0 <= i < CLASS_PAGES_NUM ->
     cache_ok st' g' (global_freeheap st') (g_gcache g') InGlobal i) ->
  (forall c, g_role g' a = Some (InClass c) ->
     0 <= c < CLASS_NUM /\ block_ok st' g' c a) ->
  (forall p, p ∈ g_large g' ->
     (p - LARGE_HEADER_SIZE <> a /\ p ∈ g_large g) \/ large_ok st' g' p) ->
  inv st' g'.
Proof.
  intros Hinv Htid Henv Hos Hmp Hrole Hrole_a Hbody Hghost Hmem Hheaps
         Hlocal Hglobal Hblock_a Hlarge.
  assert (Hfar : forall b n, b <> a -> mapped st !! b = Some n ->
            forall x, b <= x < b + n * PAGE_SZ ->
                      read8 (mem st') x = read8 (mem st) x).
  { intros b n Hne Hb x Hx.
    destruct (Hmem x) as [E|(m & [Ha|Ha] & Hin)]; [exact E|exfalso..].
    - exact (regions_apart _ _ _ _ _ (inv_os _ _ Hinv) Hb Ha Hne x Hx Hin).
    - rewrite <- (Hmp b Hne) in Hb.
      exact (regions_apart _ _ _ _ _ Hos Hb Ha Hne x Hx Hin). }
  constructor.
  - rewrite Htid. apply (inv_tid _ _ Hinv).
  - exact Henv.
  - exact Hos.
  - intros b r Hr. destruct (decide (b = a)) as [->|Hne].
    + exact (Hrole_a r Hr).
    + rewrite (Hmp b Hne). rewrite (Hrole b Hne) in Hr.
      exact (inv_role _ _ Hinv b r Hr).
  - exact Hheaps.
  - intros c b Hr. destruct (decide (b = a)) as [->|Hne].
    + exact (Hblock_a c Hr).
    + rewrite (Hrole b Hne) in Hr.
      destruct (inv_blocks _ _ Hinv c b Hr) as [Hc Hbo].
      split; [exact Hc|].
      destruct (Hghost b Hne) as (Hk & Hf & Hl).
      apply (block_ok_frame st _ g); try assumption.
      * exact (Hbody b Hne).
      * exact (Hmp b Hne).
      * apply (Hfar b (class_pages c) Hne).
        exact (block_region _ _ _ _ Hinv Hr).
  - exact Hlocal.
  - exact Hglobal.
  - intros p Hp. destruct (Hlarge p Hp) as [[Hne Hp0]|Hok]; [|exact Hok].
    apply (large_ok_frame st _ g).
    + exact (inv_large _ _ Hinv p Hp0).
    + exact (Hrole _ Hne).
    + exact (Hmp _ Hne).
    + destruct (large_region _ _ _ Hinv Hp0) as (n & Hmpl & Hn).
      intros x Hx. apply (Hfar _ n Hne Hmpl). lia.
Qed.

(** ** What the block-level operations compute *)

Ltac mrun1 :=
  first
    [ rewrite lookup_insert_eq
    | match goal with
      | H : pages ?st !! ?b = Some _ |- context [pages ?st !! ?b] => rewrite H
      | H : idx_get ?l ?c = Some _ |- context [idx_get ?l ?c] => rewrite H
      end
    | progress
        (cbv beta iota delta
           [bind ret gets modify load8 load32 load64 store8 store32 store64
            put_page upd_page get_page get_heap put_heap
            header_write_small header_write_large
            STACK_PUSH_OBJECT STACK_POP_OBJECT attempts fault out_of_fuel
            PANIC_ERR])
    | progress sst ].
Ltac mrun := repeat mrun1.

Lemma state_eta st :
  mk_state (mem st) (pages st) (thread_data st) (global_freeheap st)
           (mapped st) (os_choices st) (env st) (cas_log st) = st.
Proof. destruct st. reflexivity. Qed.

Lemma page_internal_alloc_run fuel b st pg :
  pages st !! b = Some pg ->
  rf_remotely_freed (sync pg) = 0 ->
  page_internal_alloc fuel b st =
    if negb (freed pg =? 0) then
      Ok (b + freed pg,
          set_pages
            (<[b := set_allocated_objects (u32 (allocated_objects pg + 1))
                      (set_freed (read_le 4 (mem st) (b + freed pg)) pg)]>
               (pages st)) st)
    else if b + unallocated_off pg + object_size pg
            <? b + u32 (page_num pg * PAGE_SZ) then
      Ok (b + unallocated_off pg + SIZEOF_HEADER_T,
          set_pages
            (<[b := set_allocated_objects (u32 (allocated_objects pg + 1))
                      (set_unallocated_off
                         (u32 (unallocated_off pg + object_size pg)) pg)]>
               (pages st))
            (set_mem
               (write8 (mem st) (b + unallocated_off pg)
                  (small_header
                     (Z.shiftr (u64 (unallocated_off pg + SIZEOF_HEADER_T))
                               PAGE_BITS)))
               st))
    else Ok (0, st).
Proof.
  intros Hpg Hrf. unfold page_internal_alloc. mrun.
  rewrite Hrf. cbn [Z.eqb negb]. mrun.
  destruct (freed pg =? 0) eqn:Ef; cbn [negb].
  - destruct (b + unallocated_off pg + object_size pg
              <? b + u32 (page_num pg * PAGE_SZ)) eqn:El; [|reflexivity].
    mrun. rewrite !insert_insert_eq.
    unfold small_header.
    replace (b + unallocated_off pg + SIZEOF_HEADER_T - SIZEOF_HEADER_T)
      with (b + unallocated_off pg) by (unfold SIZEOF_HEADER_T; lia).
    replace (b + unallocated_off pg + SIZEOF_HEADER_T - b)
      with (unallocated_off pg + SIZEOF_HEADER_T) by lia.
    reflexivity.
  - mrun. rewrite !insert_insert_eq. reflexivity.
Qed.

Lemma STACK_PUSH_OBJECT_run b obj off st pg :
  pages st !! b = Some pg ->
  STACK_PUSH_OBJECT b obj off st =
    Ok (tt,
        set_pages
          (<[b := set_allocated_objects (u32 (allocated_objects pg - 1))
                    (set_freed (u32 off) pg)]> (pages st))
          (set_mem (write_le 4 (mem st) obj (freed pg)) st)).
Proof.
  intros Hpg. unfold STACK_PUSH_OBJECT. mrun.
  rewrite !insert_insert_eq. reflexivity.
Qed.

(** ** Slots of a page-block *)

Lemma slot_step i j csz : i < j -> 0 <= csz -> i * csz + csz <= j * csz.
Proof. intros Hij Hc. nia. Qed.

Lemma slot_inj i j csz : 0 < csz -> i * csz = j * csz -> i = j.
Proof. intros Hc H. nia. Qed.

Lemma slot_aligned b i csz :
  b mod PAGE_SZ = 0 -> csz mod 16 = 0 ->
  (b + FIRST_PAYLOAD + i * csz) mod 16 = 0.
Proof.
  intros Hb Hc. rewrite PAGE_SZ_val in Hb. change FIRST_PAYLOAD with 48.
  apply Z.mod_divide in Hb; [|lia]. destruct Hb as [q ->].
  apply Z.mod_divide in Hc; [|lia]. destruct Hc as [q' ->].
  replace (q * 4096 + 48 + i * (q' * 16)) with ((q * 256 + 3 + i * q') * 16)
    by ring.
  apply Z.mod_mul. lia.
Qed.

Lemma land_15_mod p : Z.land p 15 = p mod 16.
Proof. change 15 with (Z.ones 4). apply Z.land_ones. lia. Qed.

Lemma slots_bound k csz lim :
  0 <= k -> 16 <= csz -> FIRST_PAYLOAD - 1 + k * csz < lim -> lim <= 2 ^ 17 ->
  k < 2 ^ 13.
Proof. intros Hk Hc Hl Hlim. change FIRST_PAYLOAD with 48 in Hl. nia. Qed.

Lemma class_pages_bytes c :
  class_pages c * PAGE_SZ <= 2 ^ 17
  /\ u32 (class_pages c * PAGE_SZ) = class_pages c * PAGE_SZ
  /\ 0 < class_pages c.
Proof.
  rewrite PAGE_SZ_val.
  destruct (class_pages_cases c) as [-> | [-> | ->]]; split_and!;
    try reflexivity; lia.
Qed.

(** ** Allocation inside one page-block keeps the invariant *)

Lemma live_in_set_block g b k fr lv p :
  live_in g p -> (forall q, q ∈ g_live g b -> q ∈ lv) ->
  live_in (set_g_block b k fr lv g) p.
Proof.
  intros [Hl|(c & b' & Hc & Hb' & Hp)] Hsub; [left; exact Hl|].
  right. exists c, b'. gst. split; [exact Hc|]. split; [exact Hb'|].
  unfold fupd. destruct (decide (b' = b)) as [->|_]; [apply Hsub|]; exact Hp.
Qed.

Lemma elem_of_middle (x a : Z) lv fr :
  x ∈ (a :: lv) ++ fr <-> x ∈ lv ++ a :: fr.
Proof.
  rewrite <- app_comm_cons, elem_of_cons, !elem_of_app, elem_of_cons. tauto.
Qed.

Lemma alloc_in_block st g c b fuel :
  inv st g -> 0 <= c < CLASS_NUM -> b ∈ g_list g c ->
  exists r st',
    page_internal_alloc fuel b st = Ok (r, st')
    /\ ((r = 0 /\ st' = st)
        \/ (r <> 0 /\ r mod 16 = 0
            /\ exists k fr,
                 inv st' (set_g_block b k fr (r :: g_live g b) g))).
Proof.
  intros Hinv Hc Hb.
  destruct (heap_block _ _ _ _ Hinv Hc Hb) as [Hrole Hbo].
  destruct Hbo as (pg & csz & Hpg & Hcs & Hmp & Hos & Hpn & Hsy & Hk0 & Hun
                   & Hlim & Hal & Hlen & Hnd & Hsl & Hhd & Hch).
  pose proof (class_sizes_bounds _ _ Hcs) as [Hcb Hcm].
  pose proof (class_pages_bytes c) as (Hbytes & Hu32 & Hcp).
  destruct (inv_os _ _ Hinv) as [Hreg _].
  destruct (Hreg _ _ Hmp) as (Hb0 & Hbal & _ & Hbtop).
  pose proof (owner_word_fields _ (inv_tid _ _ Hinv)) as (_ & Hrf & _).
  rewrite <- Hsy in Hrf.
  assert (Hkb : g_slots g b < 2 ^ 13).
  { apply (slots_bound _ csz (class_pages c * PAGE_SZ)); lia. }
  rewrite (page_internal_alloc_run fuel b st pg Hpg Hrf).
  change FIRST_PAYLOAD with 48 in *. change SIZEOF_HEADER_T with 1 in *.
  change ADDR_LIMIT with (2 ^ 47) in *.
  destruct (g_free g b) as [|a fr] eqn:Efr.
  - (* the free LIFO is empty: bump or fail *)
    cbn [free_chain] in Hch. rewrite Hch. cbn [Z.eqb negb].
    rewrite Hpn, Hu32, Hos.
    destruct (Z.ltb_spec (b + unallocated_off pg + csz)
                         (b + class_pages c * PAGE_SZ)) as [Hroom|Hfull].
    2:{ eexists _, _. split; [reflexivity|]. left. split; reflexivity. }
    eexists _, _. split; [reflexivity|]. right.
    set (r := b + unallocated_off pg + 1).
    assert (Hr : r = b + 48 + g_slots g b * csz) by (unfold r; lia).
    assert (Hral : r mod 16 = 0).
    { rewrite Hr. apply (slot_aligned b (g_slots g b) csz Hbal Hcm). }
    split; [lia|]. split; [exact Hral|].
    exists (g_slots g b + 1), [].
    assert (Hfresh : r ∉ g_live g b ++ []).
    { intros Hin. destruct (Hsl r Hin) as (i & Hi & Hri).
      assert (i * csz = g_slots g b * csz) by lia.
      pose proof (slot_inj i (g_slots g b) csz ltac:(lia) H). lia. }
    cbn [length] in Hlen.
    apply (inv_block_update st _ g c b); try assumption; try reflexivity.
    + intros b' Hne. sst. apply lookup_insert_ne. congruence.
    + sst. rewrite lookup_insert_eq, Hpg. reflexivity.
    + intros x Hx. sst. rewrite read8_write8.
      destruct (decide (b + unallocated_off pg = x)); [lia|reflexivity].
    + exists (set_allocated_objects (u32 (allocated_objects pg + 1))
                (set_unallocated_off (u32 (unallocated_off pg + csz)) pg)),
             csz.
      sst. gst. rewrite !fupd_eq. change FIRST_PAYLOAD with 48.
      rewrite (u32_small (unallocated_off pg + csz)) by lia.
      rewrite (u32_small (allocated_objects pg + 1)) by lia.
      cbn [length]. split_and!; try assumption; try lia.
      * apply lookup_insert_eq.
      * rewrite app_nil_r in *. apply NoDup_cons. split; assumption.
      * intros a Ha. rewrite app_nil_r in Ha. apply elem_of_cons in Ha.
        destruct Ha as [->|Ha].
        -- exists (g_slots g b). lia.
        -- destruct (Hsl a ltac:(rewrite app_nil_r; exact Ha)) as (i & Hi & E).
           exists i. lia.
      * intros a Ha. rewrite app_nil_r in Ha. apply elem_of_cons in Ha.
        rewrite read8_write8.
        destruct Ha as [->|Ha].
        -- destruct (decide (b + unallocated_off pg = r - 1)); [|lia].
           unfold small_header. rewrite u8_idem. do 3 f_equal.
           rewrite u64_small by lia.
           rewrite Z.shiftr_div_pow2 by (unfold PAGE_BITS; lia).
           rewrite PAGE_SZ_val. change (2 ^ PAGE_BITS) with 4096.
           f_equal. unfold r. lia.
        -- destruct (Hsl a ltac:(rewrite app_nil_r; exact Ha)) as (i & Hi & E).
           pose proof (slot_step i (g_slots g b) csz ltac:(lia) ltac:(lia)).
           destruct (decide (b + unallocated_off pg = a - 1)); [lia|].
           apply Hhd. rewrite app_nil_r. exact Ha.
  - (* pop the head of the free LIFO *)
    cbn [free_chain] in Hch. destruct Hch as [Hfreed Hch].
    assert (Hain : a ∈ g_live g b ++ a :: fr).
    { apply elem_of_app. right. ehere. }
    destruct (Hsl a Hain) as (i & Hi & Ea).
    destruct (Z.eqb_spec (freed pg) 0) as [E0|_]; [lia|]. cbn [negb].
    replace (b + freed pg) with a by lia.
    eexists _, _. split; [reflexivity|]. right.
    assert (Haal : a mod 16 = 0).
    { rewrite Ea. apply (slot_aligned b i csz Hbal Hcm). }
    split; [lia|]. split; [exact Haal|].
    exists (g_slots g b), fr. cbn [length] in Hlen.
    apply (inv_block_update st _ g c b); try assumption; try reflexivity.
    + intros b' Hne. sst. apply lookup_insert_ne. congruence.
    + sst. rewrite lookup_insert_eq, Hpg. reflexivity.
    + exists (set_allocated_objects (u32 (allocated_objects pg + 1))
                (set_freed (read_le 4 (mem st) a) pg)), csz.
      sst. gst. rewrite !fupd_eq. change FIRST_PAYLOAD with 48.
      rewrite (u32_small (allocated_objects pg + 1)) by lia.
      cbn [length]. split_and!; try assumption; try lia.
      * apply lookup_insert_eq.
      * apply NoDup_app in Hnd as (Hn1 & Hn2 & Hn3).
        apply NoDup_cons in Hn3 as [Hn3 Hn4].
        apply NoDup_app. split_and!.
        -- apply NoDup_cons. split; [|exact Hn1].
           intros Hin. apply (Hn2 a Hin). ehere.
        -- intros x Hx Hxf. apply elem_of_cons in Hx. destruct Hx as [->|Hx].
           ++ contradiction.
           ++ apply (Hn2 x Hx). efurther. exact Hxf.
        -- exact Hn4.
      * intros x Hx. apply Hsl. apply elem_of_middle. exact Hx.
      * intros x Hx. apply Hhd. apply elem_of_middle. exact Hx.
Qed.

Lemma slot_cases i j csz :
  0 <= csz -> i = j \/ i * csz + csz <= j * csz \/ j * csz + csz <= i * csz.
Proof. intros Hc. nia. Qed.

Lemma elem_of_unsplit (x p : Z) l1 l2 fr :
  x ∈ (l1 ++ l2) ++ p :: fr <-> x ∈ (l1 ++ p :: l2) ++ fr.
Proof. repeat (rewrite elem_of_app || rewrite elem_of_cons). tauto. Qed.

Lemma NoDup_unsplit (p : Z) l1 l2 fr :
  NoDup ((l1 ++ p :: l2) ++ fr) -> NoDup ((l1 ++ l2) ++ p :: fr).
Proof.
  intros H.
  assert (Hp : (l1 ++ l2) ++ p :: fr ≡ₚ (l1 ++ p :: l2) ++ fr).
  { rewrite <- !app_assoc. cbn [app].
    rewrite <- !Permutation_middle. reflexivity. }
  rewrite Hp. exact H.
Qed.

(** Pushing a live slot on the free LIFO of its block. *)
Lemma push_in_block st g c b p :
  inv st g -> 0 <= c < CLASS_NUM -> b ∈ g_list g c -> p ∈ g_live g b ->
  exists st1 lv',
    STACK_PUSH_OBJECT b p (u32 (p - b)) st = Ok (tt, st1)
    /\ inv st1 (set_g_block b (g_slots g b) (p :: g_free g b) lv' g)
    /\ (p ∉ lv')
    /\ (forall q, q ∈ g_live g b -> q <> p -> q ∈ lv')
    /\ thread_data st1 = thread_data st
    /\ length (g_live g b) = S (length lv').
Proof.
  intros Hinv Hc Hb Hp.
  destruct (heap_block _ _ _ _ Hinv Hc Hb) as [Hrole Hbo].
  destruct Hbo as (pg & csz & Hpg & Hcs & Hmp & Hos & Hpn & Hsy & Hk0 & Hun
                   & Hlim & Hal & Hlen & Hnd & Hsl & Hhd & Hch).
  pose proof (class_sizes_bounds _ _ Hcs) as [Hcb Hcm].
  pose proof (class_pages_bytes c) as (Hbytes & Hu32 & Hcp).
  destruct (inv_os _ _ Hinv) as [Hreg _].
  destruct (Hreg _ _ Hmp) as (Hb0 & Hbal & _ & Hbtop).
  assert (Hkb : g_slots g b < 2 ^ 13).
  { apply (slots_bound _ csz (class_pages c * PAGE_SZ)); lia. }
  change FIRST_PAYLOAD with 48 in *. change ADDR_LIMIT with (2 ^ 47) in *.
  apply list_elem_of_split in Hp as (l1 & l2 & El).
  rewrite El in *.
  assert (Hpin : p ∈ (l1 ++ p :: l2) ++ g_free g b).
  { apply elem_of_app. left. apply elem_of_app. right. ehere. }
  destruct (Hsl p Hpin) as (j & Hj & Ep).
  pose proof (slot_step j (g_slots g b) csz ltac:(lia) ltac:(lia)) as Hjs.
  assert (Hfr : 0 <= freed pg < 2 ^ 32).
  { destruct (g_free g b) as [|a fr] eqn:Efr; cbn [free_chain] in Hch.
    - lia.
    - destruct Hch as [-> _].
      destruct (Hsl a) as (i & Hi & ->).
      { apply elem_of_app. right. ehere. }
      pose proof (slot_step i (g_slots g b) csz ltac:(lia) ltac:(lia)). lia. }
  assert (Hsep : forall x, x ∈ (l1 ++ l2) ++ g_free g b ->
                   x + csz <= p \/ p + csz <= x).
  { intros x Hx.
    assert (Hx' : x ∈ (l1 ++ p :: l2) ++ g_free g b).
    { revert Hx. repeat (rewrite elem_of_app || rewrite elem_of_cons). tauto. }
    destruct (Hsl x Hx') as (i & Hi & Ex).
    destruct (slot_cases i j csz ltac:(lia)) as [E|[E|E]]; [|lia|lia].
    exfalso. assert (Exp : x = p) by (rewrite Ex, Ep, E; reflexivity).
    rewrite Exp in Hx. clear Hx' Ex Exp.
    apply NoDup_app in Hnd as (Hn1 & Hn2 & Hn3).
    apply NoDup_app in Hn1 as (Hn4 & Hn5 & Hn6).
    apply NoDup_cons in Hn6 as [Hn6 Hn7].
    rewrite !elem_of_app in Hx. destruct Hx as [[Hx|Hx]|Hx].
    - apply (Hn5 p Hx). ehere.
    - contradiction.
    - apply (Hn2 p); [|exact Hx]. apply elem_of_app. right. ehere. }
  rewrite length_app in Hal, Hlen. cbn [length] in Hal, Hlen.
  eexists _, (l1 ++ l2).
  split; [apply (STACK_PUSH_OBJECT_run b p _ st pg Hpg)|].
  split; [|split; [|split; [|split; [reflexivity|]]]].
  - apply (inv_block_update st _ g c b); try assumption; try reflexivity.
    + intros b' Hne. sst. apply lookup_insert_ne. congruence.
    + sst. rewrite lookup_insert_eq, Hpg. reflexivity.
    + intros x Hx. sst. apply read8_write_le_out. cbn. lia.
    + exists (set_allocated_objects (u32 (allocated_objects pg - 1))
                (set_freed (u32 (u32 (p - b))) pg)), csz.
      sst. gst. rewrite !fupd_eq. change FIRST_PAYLOAD with 48.
      rewrite (u32_small (p - b)) by lia. rewrite (u32_small (p - b)) by lia.
      rewrite (u32_small (allocated_objects pg - 1)) by lia.
      rewrite length_app. cbn [length].
      split_and!; try assumption; try lia.
      * apply lookup_insert_eq.
      * apply NoDup_unsplit. exact Hnd.
      * intros x Hx. apply Hsl. apply elem_of_unsplit. exact Hx.
      * intros x Hx. apply elem_of_unsplit in Hx.
        rewrite read8_write_le_out; [apply Hhd; exact Hx|].
        destruct (Hsl x Hx) as (i & Hi & Ex).
        destruct (slot_cases i j csz ltac:(lia)) as [E|[E|E]]; cbn; lia.
      * cbn [free_chain]. split; [reflexivity|].
        rewrite read_le_write_le_same.
        change (256 ^ Z.of_nat 4) with (2 ^ 32). rewrite Z.mod_small by lia.
        apply (free_chain_frame (mem st)); [|exact Hch].
        intros a Ha. apply read_le_write_le_out.
        destruct (Hsep a) as [H|H]; [|cbn; lia|cbn; lia].
        apply elem_of_app. right. exact Ha.
  - intros Hin. destruct (Hsep p) as [H|H]; [|lia|lia].
    apply elem_of_app. left. exact Hin.
  - intros q Hq Hne. rewrite elem_of_app, elem_of_cons in Hq.
    apply elem_of_app. tauto.
  - rewrite !length_app. cbn [length]. lia.
Qed.

(** ** Arrays by index *)

Lemma idx_get_set_eq {A} (l : list A) i x y :
  idx_get l i = Some y -> idx_get (idx_set l i x) i = Some x.
Proof.
  unfold idx_get, idx_set. destruct (0 <=? i); [|discriminate].
  intros H. apply list_lookup_insert_eq. apply lookup_lt_Some in H. exact H.
Qed.

Lemma idx_get_set_ne {A} (l : list A) i j x :
  0 <= i -> 0 <= j -> i <> j -> idx_get (idx_set l i x) j = idx_get l j.
Proof.
  intros Hi Hj Hne. unfold idx_get, idx_set.
  destruct (0 <=? j); [|reflexivity].
  apply list_lookup_insert_ne. lia.
Qed.

Lemma idx_get_nonneg {A} (l : list A) i y : idx_get l i = Some y -> 0 <= i.
Proof.
  unfold idx_get. destruct (Z.leb_spec 0 i); [lia|discriminate].
Qed.

(** ** Counting stacks as lists of blocks *)

Lemma stack_chain_word ps w1 w2 l :
  dq_count w2 = dq_count w1 -> dq_nxt w2 = dq_nxt w1 ->
  stack_chain ps w1 l -> stack_chain ps w2 l.
Proof.
  intros Hc Hn. destruct l as [|b l]; cbn [stack_chain];
    rewrite Hc, Hn; exact (fun H => H).
Qed.

Lemma block_ptr b :
  0 < b -> b mod PAGE_SZ = 0 -> b < ADDR_LIMIT ->
  SET_PTR b = b / 4096 /\ 0 < SET_PTR b < 2 ^ 40
  /\ GET_PTR (SET_PTR b) = b.
Proof.
  rewrite PAGE_SZ_val. change ADDR_LIMIT with (2 ^ 47). intros H0 Hal Hlt.
  assert (E : SET_PTR b = b / 4096) by (apply SET_PTR_eq; lia).
  split; [exact E|]. split.
  - rewrite E. pose proof (Z.div_mod b 4096 ltac:(lia)).
    split; [|apply Z.div_lt_upper_bound; lia].
    apply Z.div_str_pos. split; [lia|].
    destruct (Z.lt_ge_cases b 4096) as [Hsmall|]; [|lia].
    rewrite Z.mod_small in Hal by lia. lia.
  - apply GET_PTR_SET_PTR; lia.
Qed.

Lemma stack_chain_push ps w w' l a pg :
  stack_chain ps w l -> a ∉ l -> ps !! a = Some pg ->
  dq_count w <> COUNT_MAX ->
  dq_count w' = dq_count w + 1 -> dq_nxt w' = SET_PTR a ->
  stack_chain (<[a := set_next w pg]> ps) w' (a :: l).
Proof.
  intros Hch Hnin Hpg Hfull Hc Hn.
  assert (Hlen : dq_count w = Z.of_nat (length l)
                 /\ Z.of_nat (length l) <= COUNT_MAX).
  { destruct l; cbn [stack_chain] in Hch; destruct Hch as (H1 & H2 & _);
      split; assumption. }
  destruct Hlen as [Hlen Hmax].
  cbn [stack_chain length]. rewrite Nat2Z.inj_succ.
  split_and!; try lia; try assumption.
  exists (set_next w pg). split; [apply lookup_insert_eq|]. sst.
  apply (stack_chain_frame ps); [|exact Hch].
  intros b Hb. rewrite lookup_insert_ne; [reflexivity|].
  intros ->. contradiction.
Qed.

(** ** What the stack operations compute when no other thread interferes *)

Lemma load_word_local i st w :
  idx_get (top (thread_data st)) i = Some w ->
  load_word (LocalTop i) st = Ok (w, st).
Proof. intros H. unfold load_word. rewrite H. reflexivity. Qed.

Lemma load_word_global i st w :
  idx_get (global_freeheap st) i = Some w ->
  load_word (GlobalTop i) st = Ok (w, st).
Proof. intros H. unfold load_word. rewrite H. reflexivity. Qed.

Lemma stack_insert_run i a st w pg :
  idx_get (top (thread_data st)) i = Some w ->
  pages st !! a = Some pg ->
  stack_insert (LocalTop i) a st =
    if dq_count w =? COUNT_MAX then Ok (0, st)
    else Ok (1, set_thread_data
                  (set_top
                     (idx_set (top (thread_data st)) i
                        (set_dq_nxt (set_dq_count w (dq_count w + 1))
                                    (SET_PTR a)))
                     (thread_data st))
                  (set_pages (<[a := set_next w pg]> (pages st)) st)).
Proof.
  intros Hw Hpg. unfold stack_insert.
  rewrite (bind_Ok _ _ _ _ _ (load_word_local _ _ _ Hw)).
  destruct (dq_count w =? COUNT_MAX); [reflexivity|].
  rewrite (bind_Ok _ _ _ _ _ (upd_page_run _ _ _ _ Hpg)).
  unfold bind, store_word. sst. rewrite Hw. reflexivity.
Qed.

Lemma stack_remove_run i st w :
  idx_get (top (thread_data st)) i = Some w ->
  stack_remove (LocalTop i) st =
    if dq_count w =? 0 then Ok (0, st)
    else
      match pages st !! GET_PTR (dq_nxt w) with
      | Some pg =>
          Ok (GET_PTR (dq_nxt w),
              set_thread_data
                (set_top
                   (idx_set (top (thread_data st)) i
                      (set_dq_count (set_dq_nxt w (dq_nxt (next pg)))
                                    (dq_count w - 1)))
                   (thread_data st)) st)
      | None => Fault
      end.
Proof.
  intros Hw. unfold stack_remove.
  rewrite (bind_Ok _ _ _ _ _ (load_word_local _ _ _ Hw)).
  destruct (dq_count w =? 0); [reflexivity|].
  unfold bind, get_page. destruct (pages st !! GET_PTR (dq_nxt w)); [|reflexivity].
  unfold store_word. rewrite Hw. reflexivity.
Qed.

Lemma stack_insert_atomic_run i a st w pg :
  env st = [] ->
  idx_get (global_freeheap st) i = Some w ->
  pages st !! a = Some pg ->
  stack_insert_atomic (GlobalTop i) a st =
    if dq_count w =? COUNT_MAX then Ok (0, st)
    else
      let new_head :=
        set_dq_nxt (set_dq_state (set_dq_count 0 (dq_count w + 1))
                                 (dq_state w + 1)) (SET_PTR a) in
      Ok (1, set_cas_log ((GlobalTop i, w, new_head) :: cas_log st)
               (set_global_freeheap (idx_set (global_freeheap st) i new_head)
                  (set_pages (<[a := set_next w pg]> (pages st)) st))).
Proof.
  intros He Hw Hpg. unfold stack_insert_atomic, attempts.
  unfold bind at 1. unfold gets. rewrite He. cbn [length].
  cbn [stack_insert_atomic_loop].
  rewrite (bind_Ok _ _ _ _ _ (load_word_global _ _ _ Hw)).
  destruct (dq_count w =? COUNT_MAX); [reflexivity|].
  rewrite (bind_Ok _ _ _ _ _ (upd_page_run _ _ _ _ Hpg)).
  unfold bind at 1. unfold get_page. sst. rewrite lookup_insert_eq. sst.
  erewrite bind_Ok.
  2:{ eapply ATOMIC_CAS_quiet.
      - exact He.
      - apply load_word_global. sst. exact Hw.
      - unfold store_word. sst. rewrite Hw. reflexivity. }
  cbn [fst]. reflexivity.
Qed.

Lemma stack_remove_atomic_run i st w :
  env st = [] ->
  idx_get (global_freeheap st) i = Some w ->
  stack_remove_atomic (GlobalTop i) st =
    if dq_nxt w =? 0 then Ok (0, st)
    else
      match pages st !! GET_PTR (dq_nxt w) with
      | Some pg =>
          let next_w :=
            set_dq_state (set_dq_count (set_dq_nxt 0 (dq_nxt (next pg)))
                                       (dq_count w - 1)) (dq_state w + 1) in
          Ok (GET_PTR (dq_nxt w),
              set_cas_log ((GlobalTop i, w, next_w) :: cas_log st)
                (set_global_freeheap (idx_set (global_freeheap st) i next_w)
                                     st))
      | None => Fault
      end.
Proof.
  intros He Hw. unfold stack_remove_atomic, attempts.
  unfold bind at 1. unfold gets. rewrite He. cbn [length].
  cbn [stack_remove_atomic_loop].
  rewrite (bind_Ok _ _ _ _ _ (load_word_global _ _ _ Hw)).
  destruct (dq_nxt w =? 0); [reflexivity|].
  unfold bind at 1. unfold get_page.
  destruct (pages st !! GET_PTR (dq_nxt w)) as [pg|]; [|reflexivity].
  erewrite bind_Ok.
  2:{ eapply ATOMIC_CAS_quiet.
      - exact He.
      - apply load_word_global. exact Hw.
      - unfold store_word. rewrite Hw. reflexivity. }
  cbn [fst]. reflexivity.
Qed.

(** ** Class lists *)

Lemma dl_from_pages ps pv l b :
  dl_from ps pv l -> b ∈ l -> is_Some (ps !! b).
Proof.
  revert pv. induction l as [|x l IH]; intros pv H Hb.
  - apply elem_of_nil in Hb. contradiction.
  - cbn [dl_from] in H. destruct H as (pg & Hpg & _ & _ & Hrest).
    apply elem_of_cons in Hb as [->|Hb]; [eexists; exact Hpg|].
    exact (IH _ Hrest Hb).
Qed.

Lemma insert_front_dq_run c a st h pg :
  idx_get (private_heap (thread_data st)) c = Some h ->
  pages st !! a = Some pg ->
  insert_front_dq c a st =
    if head h =? 0 then
      Ok (tt, set_pages (<[a := set_prev 0 (set_next 0 pg)]> (pages st))
                (set_thread_data
                   (set_private_heap
                      (idx_set (private_heap (thread_data st)) c
                               (mk_heap a a)) (thread_data st)) st))
    else
      match <[a := set_next (head h) pg]> (pages st) !! head h with
      | Some hp =>
          Ok (tt, set_thread_data
                    (set_private_heap
                       (idx_set (private_heap (thread_data st)) c
                                (mk_heap a (tail h))) (thread_data st))
                    (set_pages
                       (<[head h := set_prev a hp]>
                          (<[a := set_next (head h) pg]> (pages st))) st))
      | None => Fault
      end.
Proof.
  intros Hh Hpg. unfold insert_front_dq.
  rewrite (bind_Ok _ _ _ _ _ (get_heap_run _ _ _ Hh)).
  destruct (head h =? 0).
  - rewrite (bind_Ok _ _ _ _ _ (put_heap_run _ _ _ _ Hh)).
    rewrite (upd_page_run _ _ _ pg); [reflexivity|]. exact Hpg.
  - rewrite (bind_Ok _ _ _ _ _ (upd_page_run _ _ _ _ Hpg)).
    unfold bind at 1. unfold get_page. sst. rewrite lookup_insert_eq. sst.
    unfold bind at 1. unfold upd_page, bind, get_page. sst.
    destruct (<[a := set_next (head h) pg]> (pages st) !! head h) as [hp|];
      [|reflexivity].
    unfold put_page, modify. unfold get_heap. sst. rewrite Hh.
    unfold put_heap. sst. rewrite Hh. reflexivity.
Qed.

Lemma dlist_cons ps h l a pg :
  dlist ps h l -> a ∉ l -> a <> 0 -> NoDup l -> (forall b, b ∈ l -> b <> 0) ->
  ps !! a = Some pg -> prev pg = 0 ->
  exists ps' h',
    (if head h =? 0 then
       ps' = <[a := set_prev 0 (set_next 0 pg)]> ps /\ h' = mk_heap a a
     else
       exists hp, <[a := set_next (head h) pg]> ps !! head h = Some hp
                  /\ ps' = <[head h := set_prev a hp]>
                             (<[a := set_next (head h) pg]> ps)
                  /\ h' = mk_heap a (tail h))
    /\ dlist ps' h' (a :: l).
Proof.
  intros (Hh & Ht & Hd) Hnin Ha0 Hnd Hnz Hpg Hpv.
  destruct l as [|h0 l].
  - cbn [hd] in Hh. rewrite Hh. cbn [Z.eqb].
    eexists _, _. split; [split; reflexivity|].
    split_and!; cbn [hd List.last head tail]; try reflexivity.
    cbn [dl_from]. exists (set_prev 0 (set_next 0 pg)).
    split_and!; try reflexivity. apply lookup_insert_eq.
  - cbn [hd] in Hh. assert (Hh0 : h0 <> 0) by (apply Hnz; ehere).
    destruct (Z.eqb_spec (head h) 0) as [E|_]; [congruence|].
    cbn [dl_from] in Hd. destruct Hd as (hp & Hhp & Hhpv & Hhn & Hrest).
    assert (Hne : a <> h0).
    { intros ->. apply Hnin. ehere. }
    apply NoDup_cons in Hnd as [Hh0nin Hnd].
    eexists _, _. split.
    { exists hp. rewrite Hh. rewrite lookup_insert_ne by exact Hne.
      split_and!; [exact Hhp|reflexivity|reflexivity]. }
    split_and!; cbn [hd head tail].
    + reflexivity.
    + intros _. rewrite Ht by discriminate. reflexivity.
    + cbn [dl_from]. exists (set_next h0 pg). split_and!; sst; try assumption.
      * rewrite lookup_insert_ne by congruence. apply lookup_insert_eq.
      * reflexivity.
      * exists (set_prev a hp). split_and!; sst; try assumption.
        -- apply lookup_insert_eq.
        -- reflexivity.
        -- apply (dl_from_frame ps); [|exact Hrest].
           intros b Hb. rewrite !lookup_insert_ne; [reflexivity| |].
           ++ intros ->. apply Hnin. efurther. exact Hb.
           ++ intros ->. contradiction.
Qed.

Lemma remove_node_dq_run c b st h pg :
  idx_get (private_heap (thread_data st)) c = Some h ->
  pages st !! b = Some pg ->
  prev pg <> b -> next pg <> b ->
  remove_node_dq c b st =
    if b =? tail h then
      match pages st !! prev pg with
      | Some pp =>
          Ok (tt, set_pages
                    (<[b := set_prev 0 (set_next 0 pg)]>
                       (<[prev pg := set_next 0 pp]> (pages st)))
                    (set_thread_data
                       (set_private_heap
                          (idx_set (private_heap (thread_data st)) c
                                   (mk_heap (head h) (prev pg)))
                          (thread_data st)) st))
      | None => Fault
      end
    else
      match pages st !! prev pg with
      | Some pp =>
          match <[prev pg := set_next (next pg) pp]> (pages st) !! next pg with
          | Some np =>
              Ok (tt, set_pages
                        (<[b := set_prev 0 (set_next 0 pg)]>
                           (<[next pg := set_prev (prev pg) np]>
                              (<[prev pg := set_next (next pg) pp]>
                                 (pages st)))) st)
          | None => Fault
          end
      | None => Fault
      end.
Proof.
  intros Hh Hpg Hpv Hnx. unfold remove_node_dq.
  rewrite (bind_Ok _ _ _ _ _ (get_heap_run _ _ _ Hh)).
  destruct (b =? tail h).
  - unfold bind at 1. unfold bind at 1.
    rewrite (get_page_run _ _ _ Hpg).
    rewrite (bind_Ok _ _ _ _ _ (put_heap_run _ _ _ _ Hh)).
    unfold bind at 1. unfold get_page at 1. sst. rewrite Hpg.
    unfold upd_page, bind, get_page, put_page, modify. sst.
    destruct (pages st !! prev pg) as [pp|]; [|reflexivity]. sst.
    rewrite lookup_insert_ne by exact Hpv. rewrite Hpg. reflexivity.
  - unfold bind at 1. unfold bind at 1.
    rewrite (get_page_run _ _ _ Hpg).
    unfold upd_page, bind, get_page, put_page, modify. sst.
    destruct (pages st !! prev pg) as [pp|]; [|reflexivity]. sst.
    rewrite lookup_insert_ne by exact Hpv. rewrite Hpg. sst.
    destruct (<[prev pg := set_next (next pg) pp]> (pages st) !! next pg)
      as [np|]; [|reflexivity]. sst.
    rewrite lookup_insert_ne by exact Hnx.
    rewrite lookup_insert_ne by exact Hpv. rewrite Hpg. reflexivity.
Qed.

Lemma last_cons_cons {A} (x y : A) l d :
  List.last (x :: y :: l) d = List.last (y :: l) d.
Proof. reflexivity. Qed.

Lemma last_elem_of (x : Z) l d : List.last (x :: l) d ∈ x :: l.
Proof.
  revert x. induction l as [|y l IH]; intros x; [ehere|].
  rewrite last_cons_cons. efurther. apply IH.
Qed.

Lemma last_app_cons (b : Z) l1 l2 d :
  List.last (l1 ++ b :: l2) d = List.last (b :: l2) d.
Proof.
  induction l1 as [|x l1 IH]; [reflexivity|].
  cbn [app]. destruct (l1 ++ b :: l2) eqn:E.
  - destruct l1; discriminate.
  - rewrite last_cons_cons. exact IH.
Qed.

(** Unlinking a node that is not the first. [X] is what the node itself
    becomes; it is no longer part of the list. *)
Lemma dl_from_remove ps b l2 pg X : forall l1 x pv,
  NoDup ((x :: l1) ++ b :: l2) ->
  dl_from ps pv ((x :: l1) ++ b :: l2) ->
  ps !! b = Some pg ->
  prev pg = List.last (x :: l1) 0 /\ next pg = hd 0 l2 /\
  exists pp, ps !! prev pg = Some pp /\
    match l2 with
    | [] =>
        dl_from (<[b := X]> (<[prev pg := set_next 0 pp]> ps)) pv (x :: l1)
    | _ :: _ =>
        exists np,
          <[prev pg := set_next (next pg) pp]> ps !! next pg = Some np
          /\ dl_from (<[b := X]>
                        (<[next pg := set_prev (prev pg) np]>
                           (<[prev pg := set_next (next pg) pp]> ps)))
                     pv ((x :: l1) ++ l2)
    end.
Proof.
  induction l1 as [|y l1 IH]; intros x pv Hnd Hd Hpg.
  - cbn [app] in *. cbn [dl_from] in Hd.
    destruct Hd as (px & Hpx & Hxpv & Hxn & pg' & Hpg' & Hbp & Hbn & Hrest).
    rewrite Hpg in Hpg'. inversion Hpg'. subst pg'. clear Hpg'.
    apply NoDup_cons in Hnd as [Hx Hnd]. apply NoDup_cons in Hnd as [Hb Hnd].
    apply not_elem_of_cons in Hx as [Hxb Hx].
    cbn [List.last]. split; [exact Hbp|]. split; [exact Hbn|].
    rewrite Hbp. exists px. split; [exact Hpx|].
    destruct l2 as [|n l2].
    + cbn [dl_from]. exists (set_next 0 px).
      split_and!; sst; try assumption; try reflexivity.
      rewrite lookup_insert_ne by congruence. apply lookup_insert_eq.
    + cbn [hd] in Hbn. cbn [dl_from] in Hrest.
      destruct Hrest as (np & Hnp & Hnpv & Hnn & Hrest).
      apply not_elem_of_cons in Hx as [Hxn' Hx].
      apply not_elem_of_cons in Hb as [Hbn' Hb].
      apply NoDup_cons in Hnd as [Hn Hnd].
      rewrite Hbn. exists np. split.
      { rewrite lookup_insert_ne by congruence. exact Hnp. }
      cbn [dl_from]. exists (set_next n px). split_and!; sst; try assumption.
      * rewrite !lookup_insert_ne by congruence. apply lookup_insert_eq.
      * reflexivity.
      * exists (set_prev x np). split_and!; sst; try assumption.
        -- rewrite lookup_insert_ne by congruence. apply lookup_insert_eq.
        -- reflexivity.
        -- apply (dl_from_frame ps); [|exact Hrest].
           intros z Hz. rewrite !lookup_insert_ne; [reflexivity|..];
             intros ->; contradiction.
  - change ((x :: y :: l1) ++ b :: l2) with (x :: ((y :: l1) ++ b :: l2)) in *.
    cbn [dl_from] in Hd.
    destruct Hd as (px & Hpx & Hxpv & Hxn & Hrest).
    apply NoDup_cons in Hnd as [Hx Hnd].
    destruct (IH y x Hnd Hrest Hpg) as (Hpv & Hnx & pp & Hpp & Hres).
    rewrite last_cons_cons. split; [exact Hpv|]. split; [exact Hnx|].
    exists pp. split; [exact Hpp|].
    assert (Hxb : x <> b).
    { intros ->. apply Hx. apply elem_of_app. right. ehere. }
    assert (Hxp : x <> prev pg).
    { rewrite Hpv. intros E. apply Hx. apply elem_of_app. left.
      rewrite E. apply last_elem_of. }
    cbn [hd app] in Hxn.
    destruct l2 as [|n l2].
    + cbn [dl_from]. exists px. split_and!; try assumption.
      rewrite !lookup_insert_ne by congruence. exact Hpx.
    + destruct Hres as (np & Hnp & Hres). exists np. split; [exact Hnp|].
      assert (Hxn' : x <> next pg).
      { rewrite Hnx. cbn [hd]. intros ->. apply Hx.
        apply elem_of_app. right. efurther. ehere. }
      change ((x :: y :: l1) ++ n :: l2) with (x :: ((y :: l1) ++ n :: l2)).
      cbn [dl_from]. exists px. split_and!; try assumption.
      rewrite !lookup_insert_ne by congruence. exact Hpx.
Qed.

(** ** Taking a block out of its class list *)

Lemma body_insert (ps : gmap Z page_t) k pg pg' x :
  ps !! k = Some pg -> body pg' = body pg ->
  body <$> <[k := pg']> ps !! x = body <$> ps !! x.
Proof.
  intros Hk Hb. destruct (decide (k = x)) as [->|Hne].
  - rewrite lookup_insert_eq, Hk. cbn. rewrite Hb. reflexivity.
  - rewrite lookup_insert_ne by exact Hne. reflexivity.
Qed.

Lemma ghost_role_list_eta g :
  set_g_role (g_role g) (set_g_list (g_list g) g) = g.
Proof. destruct g. reflexivity. Qed.

Lemma list_roles_apart st g c c' x y :
  inv st g -> 0 <= c < CLASS_NUM -> 0 <= c' < CLASS_NUM -> c <> c' ->
  x ∈ g_list g c -> y ∈ g_list g c' -> x <> y.
Proof.
  intros Hinv Hc Hc' Hne Hx Hy ->.
  destruct (inv_heaps _ _ Hinv c Hc) as (_ & _ & _ & _ & Hr).
  destruct (inv_heaps _ _ Hinv c' Hc') as (_ & _ & _ & _ & Hr').
  pose proof (role_apart _ _ _ _ (Hr y Hx) (Hr' y Hy)) as E.
  inversion E. contradiction.
Qed.

Lemma mapped_nonzero st g b r : inv st g -> g_role g b = Some r -> b <> 0.
Proof.
  intros Hinv Hr. destruct (inv_role _ _ Hinv b r Hr) as [n Hn].
  destruct (inv_os _ _ Hinv) as [Hreg _].
  destruct (Hreg b n Hn) as (H0 & _). lia.
Qed.

Lemma elem_of_remove_mid (z b : Z) l1 l2 :
  NoDup (l1 ++ b :: l2) -> z ∈ l1 ++ l2 <-> z ∈ l1 ++ b :: l2 /\ z <> b.
Proof.
  intros Hnd. apply NoDup_app in Hnd as (H1 & H2 & H3).
  apply NoDup_cons in H3 as [H3 H4]. rewrite !elem_of_app, elem_of_cons.
  split.
  - intros [Hz|Hz]; (split; [tauto|]); intros ->.
    + apply (H2 b Hz). ehere.
    + contradiction.
  - intros [[Hz|[Hz|Hz]] Hne]; tauto.
Qed.

Lemma unlink_block st g c b h :
  inv st g -> 0 <= c < CLASS_NUM -> b ∈ g_list g c ->
  idx_get (private_heap (thread_data st)) c = Some h -> head h <> b ->
  exists st' l' pg pg',
    remove_node_dq c b st = Ok (tt, st')
    /\ inv st' (set_g_role (fupd (g_role g) b (Some Limbo))
                  (set_g_list (fupd (g_list g) c l') g))
    /\ (forall x, x ∈ l' <-> x ∈ g_list g c /\ x <> b)
    /\ pages st !! b = Some pg /\ pages st' !! b = Some pg'
    /\ body pg' = body pg
    /\ mapped st' = mapped st /\ mem st' = mem st
    /\ top (thread_data st') = top (thread_data st)
    /\ global_freeheap st' = global_freeheap st
    /\ cas_log st' = cas_log st.
Proof.
  intros Hinv Hc Hb Hh Hhead.
  destruct (inv_heaps _ _ Hinv c Hc) as (h0 & Hh0 & Hdl & Hnd & Hroles).
  rewrite Hh in Hh0. inversion Hh0. subst h0. clear Hh0.
  destruct Hdl as (Hhd & Htl & Hd).
  destruct (heap_block _ _ _ _ Hinv Hc Hb) as [Hrole Hbo].
  pose proof (mapped_nonzero _ _ _ _ Hinv Hrole) as Hb0.
  destruct (dl_from_pages _ _ _ _ Hd Hb) as [pg Hpg].
  pose proof Hb as Hsplit.
  apply list_elem_of_split in Hsplit as (l1 & l2 & El).
  destruct l1 as [|x l1].
  { rewrite El in Hhd. cbn [app hd] in Hhd. contradiction. }
  rewrite El in Hnd, Hd, Htl.
  destruct (dl_from_remove _ _ _ _ (set_prev 0 (set_next 0 pg)) _ _ _
              Hnd Hd Hpg) as (Hpv & Hnx & pp & Hpp & Hres).
  assert (Hpvin : prev pg ∈ x :: l1) by (rewrite Hpv; apply last_elem_of).
  assert (Hnd' := Hnd). apply NoDup_app in Hnd' as (Hnd1 & Hnd2 & Hnd3).
  apply NoDup_cons in Hnd3 as [Hbl2 Hnd3].
  assert (Hpvb : prev pg <> b).
  { intros E. rewrite E in Hpvin. apply (Hnd2 b Hpvin). ehere. }
  assert (Hnxb : next pg <> b).
  { rewrite Hnx. destruct l2 as [|n l2]; cbn [hd]; [congruence|].
    intros ->. apply Hbl2. ehere. }
  assert (Hin_l : forall z, z ∈ x :: l1 \/ z ∈ l2 -> z ∈ g_list g c).
  { intros z Hz. rewrite El. apply elem_of_app.
    destruct Hz as [Hz|Hz]; [left; exact Hz|right; efurther; exact Hz]. }
  assert (Hother : forall c' z, 0 <= c' < CLASS_NUM -> c' <> c ->
                     z ∈ g_list g c' -> z <> b /\ z <> prev pg /\ z <> next pg
                                         \/ False).
  { intros c' z Hc' Hne Hz. left. split_and!.
    - apply not_eq_sym. exact (list_roles_apart _ _ _ _ _ _ Hinv Hc Hc'
                                 ltac:(congruence) Hb Hz).
    - apply not_eq_sym. apply (list_roles_apart _ _ c c' _ _ Hinv Hc Hc');
        [congruence| |exact Hz]. apply Hin_l. left. exact Hpvin.
    - destruct l2 as [|n l2]; cbn [hd] in Hnx.
      + rewrite Hnx.
        destruct (inv_heaps _ _ Hinv c' Hc') as (_ & _ & _ & _ & Hr').
        exact (mapped_nonzero _ _ _ _ Hinv (Hr' z Hz)).
      + apply not_eq_sym. apply (list_roles_apart _ _ c c' _ _ Hinv Hc Hc');
          [congruence| |exact Hz]. apply Hin_l. right. rewrite Hnx. ehere. }
  assert (Hcached : forall z r, g_role g z = Some r ->
                      (forall c', r <> InClass c') ->
                      z <> b /\ z <> prev pg /\ (l2 <> [] -> z <> next pg)).
  { intros z r Hr Hnc. split_and!.
    - intros ->. apply (Hnc c). exact (role_apart _ _ _ _ Hr Hrole).
    - intros ->. apply (Hnc c).
      exact (role_apart _ _ _ _ Hr (Hroles _ (Hin_l _ (or_introl Hpvin)))).
    - intros Hl2 ->. apply (Hnc c). apply (role_apart _ _ _ _ Hr).
      apply Hroles, Hin_l. right. rewrite Hnx.
      destruct l2; [contradiction|ehere]. }
  rewrite (remove_node_dq_run c b st h pg Hh Hpg Hpvb Hnxb). rewrite Hpp.
  rewrite (Htl ltac:(discriminate)), last_app_cons.
  destruct l2 as [|n l2].
  - (* [b] is the tail *)
    cbn [List.last]. rewrite Z.eqb_refl.
    eexists _, ((x :: l1) ++ []), pg, (set_prev 0 (set_next 0 pg)).
    split; [reflexivity|].
    split; [|split_and!; sst; try reflexivity].
    2:{ intros z. rewrite El. apply elem_of_remove_mid. exact Hnd. }
    rewrite app_nil_r.
    2:{ exact Hpg. }
    2:{ apply lookup_insert_eq. }
    apply (inv_change st _ g _ b); sst; gst; try assumption.
    + reflexivity.
    + apply (inv_env _ _ Hinv).
    + apply (inv_os _ _ Hinv).
    + intros; reflexivity.
    + intros z Hz. apply fupd_ne. exact Hz.
    + intros r _. exact (inv_role _ _ Hinv b _ Hrole).
    + intros z _. rewrite (body_insert _ b pg) ; [|
        rewrite lookup_insert_ne by congruence; exact Hpg|reflexivity].
      apply (body_insert _ (prev pg) pp); [exact Hpp|reflexivity].
    + intros z _. split_and!; reflexivity.
    + intros z. left. reflexivity.
    + intros c' Hc'. destruct (decide (c' = c)) as [->|Hne].
      * exists (mk_heap (head h) (prev pg)). rewrite fupd_eq.
        split; [exact (idx_get_set_eq _ _ _ _ Hh)|].
        split; [split_and!; sst|split].
        -- rewrite Hhd, El. reflexivity.
        -- intros _. exact Hpv.
        -- exact Hres.
        -- exact Hnd1.
        -- intros z Hz. rewrite fupd_ne.
           ++ apply Hroles, Hin_l. left. exact Hz.
           ++ intros ->. apply (Hnd2 b Hz). ehere.
      * destruct (inv_heaps _ _ Hinv c' Hc') as (h' & Hh' & Hdl' & Hnd' & Hr').
        exists h'. rewrite fupd_ne by exact Hne.
        split; [|split; [|split]].
        -- rewrite idx_get_set_ne by lia. exact Hh'.
        -- apply (dlist_frame (pages st)); [|exact Hdl'].
           intros z Hz.
           destruct (Hother c' z Hc' Hne Hz) as [(H1 & H2 & H3)|[]].
           rewrite !lookup_insert_ne by congruence. reflexivity.
        -- exact Hnd'.
        -- intros z Hz. rewrite fupd_ne; [exact (Hr' z Hz)|].
           destruct (Hother c' z Hc' Hne Hz) as [(H1 & _)|[]]. exact H1.
    + intros i Hi.
      eapply cache_ok_frame; [exact (inv_local _ _ Hinv i Hi)|reflexivity|reflexivity|].
      intros z Hz. destruct (inv_local _ _ Hinv i Hi) as (_ & _ & _ & _ & Hcr).
      destruct (Hcached z _ (proj1 (Hcr z Hz)) ltac:(discriminate))
        as (H1 & H2 & _). sst. gst.
      rewrite !lookup_insert_ne by congruence.
      split_and!; try reflexivity. apply fupd_ne. exact H1.
    + intros i Hi.
      eapply cache_ok_frame; [exact (inv_global _ _ Hinv i Hi)|reflexivity|reflexivity|].
      intros z Hz. destruct (inv_global _ _ Hinv i Hi) as (_ & _ & _ & _ & Hcr).
      destruct (Hcached z _ (proj1 (Hcr z Hz)) ltac:(discriminate))
        as (H1 & H2 & _). sst. gst.
      rewrite !lookup_insert_ne by congruence.
      split_and!; try reflexivity. apply fupd_ne. exact H1.
    + intros c'. rewrite fupd_eq. discriminate.
    + intros p Hp. left. split; [|exact Hp].
      destruct (inv_large _ _ Hinv p Hp) as [Hrl _].
      destruct (Hcached _ _ Hrl ltac:(discriminate)) as (H1 & _). exact H1.
  - (* [b] is inside the list *)
    assert (Hlast : List.last (b :: n :: l2) 0 <> b).
    { rewrite last_cons_cons. intros E. apply Hbl2. rewrite <- E.
      apply last_elem_of. }
    destruct (Z.eqb_spec b (List.last (b :: n :: l2) 0)) as [E|_];
      [congruence|].
    destruct Hres as (np & Hnp & Hres). rewrite Hnp.
    cbn [hd] in Hnx.
    eexists _, ((x :: l1) ++ n :: l2), pg, (set_prev 0 (set_next 0 pg)).
    split; [reflexivity|].
    split; [|split_and!; sst; try reflexivity].
    2:{ intros z. rewrite El. apply elem_of_remove_mid. exact Hnd. }
    2:{ exact Hpg. }
    2:{ apply lookup_insert_eq. }
    apply (inv_change st _ g _ b); sst; gst; try assumption.
    + reflexivity.
    + apply (inv_env _ _ Hinv).
    + apply (inv_os _ _ Hinv).
    + intros; reflexivity.
    + intros z Hz. apply fupd_ne. exact Hz.
    + intros r _. exact (inv_role _ _ Hinv b _ Hrole).
    + intros z _.
      assert (Hnp0 : pages st !! next pg = Some np).
      { rewrite lookup_insert_ne in Hnp; [exact Hnp|].
        rewrite Hpv, Hnx. intros E. apply (Hnd2 n).
        - rewrite <- E. apply last_elem_of.
        - efurther. ehere. }
      rewrite (body_insert _ b pg); [|
        rewrite !lookup_insert_ne by congruence; exact Hpg|reflexivity].
      rewrite (body_insert _ (next pg) np); [|exact Hnp|reflexivity].
      apply (body_insert _ (prev pg) pp); [exact Hpp|reflexivity].
    + intros z _. split_and!; reflexivity.
    + intros z. left. reflexivity.
    + intros c' Hc'. destruct (decide (c' = c)) as [->|Hne].
      * exists h. rewrite fupd_eq.
        split; [exact Hh|]. split; [split_and!; sst|split].
        -- rewrite Hhd, El. reflexivity.
        -- intros _. rewrite (Htl ltac:(discriminate)).
           rewrite !last_app_cons. reflexivity.
        -- exact Hres.
        -- apply NoDup_app. split_and!; [exact Hnd1| |exact Hnd3].
           intros z Hz Hz'. apply (Hnd2 z Hz). efurther. exact Hz'.
        -- intros z Hz. rewrite fupd_ne.
           ++ apply Hroles, Hin_l. apply elem_of_app in Hz. exact Hz.
           ++ intros ->. apply elem_of_app in Hz as [Hz|Hz].
              ** apply (Hnd2 b Hz). ehere.
              ** contradiction.
      * destruct (inv_heaps _ _ Hinv c' Hc') as (h' & Hh' & Hdl' & Hnd' & Hr').
        exists h'. rewrite fupd_ne by exact Hne.
        split; [exact Hh'|]. split; [|split].
        -- apply (dlist_frame (pages st)); [|exact Hdl'].
           intros z Hz.
           destruct (Hother c' z Hc' Hne Hz) as [(H1 & H2 & H3)|[]].
           rewrite !lookup_insert_ne by congruence. reflexivity.
        -- exact Hnd'.
        -- intros z Hz. rewrite fupd_ne; [exact (Hr' z Hz)|].
           destruct (Hother c' z Hc' Hne Hz) as [(H1 & _)|[]]. exact H1.
    + intros i Hi.
      eapply cache_ok_frame; [exact (inv_local _ _ Hinv i Hi)|reflexivity|reflexivity|].
      intros z Hz. destruct (inv_local _ _ Hinv i Hi) as (_ & _ & _ & _ & Hcr).
      destruct (Hcached z _ (proj1 (Hcr z Hz)) ltac:(discriminate))
        as (H1 & H2 & H3). specialize (H3 ltac:(discriminate)). sst. gst.
      rewrite !lookup_insert_ne by congruence.
      split_and!; try reflexivity. apply fupd_ne. exact H1.
    + intros i Hi.
      eapply cache_ok_frame; [exact (inv_global _ _ Hinv i Hi)|reflexivity|reflexivity|].
      intros z Hz. destruct (inv_global _ _ Hinv i Hi) as (_ & _ & _ & _ & Hcr).
      destruct (Hcached z _ (proj1 (Hcr z Hz)) ltac:(discriminate))
        as (H1 & H2 & H3). specialize (H3 ltac:(discriminate)). sst. gst.
      rewrite !lookup_insert_ne by congruence.
      split_and!; try reflexivity. apply fupd_ne. exact H1.
    + intros c'. rewrite fupd_eq. discriminate.
    + intros p Hp. left. split; [|exact Hp].
      destruct (inv_large _ _ Hinv p Hp) as [Hrl _].
      destruct (Hcached _ _ Hrl ltac:(discriminate)) as (H1 & _). exact H1.
Qed.

(** ** Moving a block between limbo and a cache *)

Lemma inv_cache_step st st' g g' b r0 r1 :
  inv st g ->
  mapped st' = mapped st -> mem st' = mem st ->
  private_heap (thread_data st') = private_heap (thread_data st) ->
  thread_id (thread_data st') = thread_id (thread_data st) ->
  env st' = [] ->
  (forall z, z <> b -> pages st' !! z = pages st !! z) ->
  body <$> pages st' !! b = body <$> pages st !! b ->
  g_role g b = Some r0 -> (forall c, r0 <> InClass c) -> r0 <> IsLarge ->
  (forall c, r1 <> InClass c) ->
  g_role g' = fupd (g_role g) b (Some r1) ->
  g_list g' = g_list g -> g_slots g' = g_slots g -> g_free g' = g_free g ->
  g_live g' = g_live g -> g_large g' = g_large g ->
  (forall i, 0 <= i < CLASS_PAGES_NUM ->
     cache_ok st' g' (top (thread_data st')) (g_lcache g') InLocal i) ->
  (forall i, 0 <= i < CLASS_PAGES_NUM ->
     cache_ok st' g' (global_freeheap st') (g_gcache g') InGlobal i) ->
  inv st' g'.
Proof.
  intros Hinv Hmp Hmem Hph Htid Henv Hpg Hbody Hr0 Hnc0 Hnl0 Hnc1
         Er El Ek Ef Elv Elg Hlocal Hglobal.
  apply (inv_change st _ g _ b); try assumption.
  - rewrite Hmp. apply (inv_os _ _ Hinv).
  - intros z _. rewrite Hmp. reflexivity.
  - intros z Hz. rewrite Er. apply fupd_ne. exact Hz.
  - intros r _. rewrite Hmp. exact (inv_role _ _ Hinv b _ Hr0).
  - intros z Hz. apply body_of_eq, Hpg, Hz.
  - intros z _. rewrite Ek, Ef, Elv. split_and!; reflexivity.
  - intros x. left. rewrite Hmem. reflexivity.
  - intros c Hc.
    destruct (inv_heaps _ _ Hinv c Hc) as (h & Hh & Hdl & Hnd & Hroles).
    assert (Hne : forall z, z ∈ g_list g c -> z <> b).
    { intros z Hz ->. apply (Hnc0 c).
      exact (role_apart _ _ _ _ Hr0 (Hroles _ Hz)). }
    exists h. rewrite Hph, El, Er. split_and!; try assumption.
    + apply (dlist_frame (pages st)); [|exact Hdl].
      intros z Hz. apply links_of_eq, Hpg, Hne, Hz.
    + intros z Hz. rewrite fupd_ne by (apply Hne; exact Hz).
      exact (Hroles z Hz).
  - intros c. rewrite Er, fupd_eq. intros E. inversion E as [E'].
    exfalso. exact (Hnc1 c E').
  - intros p Hp. left. rewrite Elg in Hp. split; [|exact Hp].
    destruct (inv_large _ _ Hinv p Hp) as [Hrl _].
    intros E. rewrite E in Hrl. apply Hnl0.
    exact (role_apart _ _ _ _ Hr0 Hrl).
Qed.

Lemma mapped_block st g b n :
  inv st g -> mapped st !! b = Some n ->
  0 < b /\ b mod PAGE_SZ = 0 /\ b < ADDR_LIMIT.
Proof.
  intros Hinv Hn. destruct (inv_os _ _ Hinv) as [Hreg _].
  destruct (Hreg b n Hn) as (H0 & Hal & Hn0 & Htop).
  rewrite PAGE_SZ_val in *. split_and!; try assumption. lia.
Qed.

Lemma count_max_val_lt x : 0 <= x < COUNT_MAX -> (x + 1) mod 2 ^ 12 = x + 1.
Proof. rewrite COUNT_MAX_val. intros H. apply Z.mod_small. lia. Qed.

(** Pushing a block in limbo on the thread's own cache. *)
Lemma stash_local st g i b pg :
  inv st g -> 0 <= i < CLASS_PAGES_NUM ->
  g_role g b = Some Limbo ->
  mapped st !! b = Some (PAGE_SZ_BY_IDX i) ->
  pages st !! b = Some pg ->
  exists r st',
    stack_insert (LocalTop i) b st = Ok (r, st')
    /\ ((r = 0 /\ st' = st)
        \/ (r <> 0
            /\ inv st' (set_g_role (fupd (g_role g) b (Some (InLocal i)))
                          (set_g_lcache
                             (fupd (g_lcache g) i (b :: g_lcache g i)) g)))).
Proof.
  intros Hinv Hi Hrole Hmp Hpg.
  destruct (inv_local _ _ Hinv i Hi) as (w & Hw & Hch & Hnd & Hroles).
  rewrite (stack_insert_run i b st w pg Hw Hpg).
  destruct (Z.eqb_spec (dq_count w) COUNT_MAX) as [Hfull|Hroom].
  { eexists _, _. split; [reflexivity|]. left. split; reflexivity. }
  eexists _, _. split; [reflexivity|]. right. split; [lia|].
  destruct (mapped_block _ _ _ _ Hinv Hmp) as (Hb0 & Hbal & Hbtop).
  destruct (block_ptr b Hb0 Hbal Hbtop) as (Hptr & Hprange & _).
  assert (Hcnt : dq_count w = Z.of_nat (length (g_lcache g i))
                 /\ Z.of_nat (length (g_lcache g i)) <= COUNT_MAX).
  { destruct (g_lcache g i); cbn [stack_chain] in Hch;
      destruct Hch as (H1 & H2 & _); split; assumption. }
  assert (Hnin : b ∉ g_lcache g i).
  { intros Hin. destruct (Hroles b Hin) as [Hr _].
    pose proof (role_apart _ _ _ _ Hrole Hr). discriminate. }
  apply (inv_cache_step st _ g _ b Limbo (InLocal i)); sst; gst;
    try assumption; try reflexivity; try discriminate.
  - apply (inv_env _ _ Hinv).
  - intros z Hz. apply lookup_insert_ne. congruence.
  - apply (body_insert _ b pg); [exact Hpg|reflexivity].
  - intros j Hj. destruct (decide (j = i)) as [->|Hne].
    + unfold cache_ok. sst. gst. eexists. rewrite fupd_eq.
      split; [exact (idx_get_set_eq _ _ _ _ Hw)|]. split_and!.
      * apply stack_chain_push; try assumption.
        -- autorewrite with fields. apply count_max_val_lt. lia.
        -- autorewrite with fields. apply Z.mod_small. lia.
      * apply NoDup_cons. split; assumption.
      * intros z Hz. apply elem_of_cons in Hz as [->|Hz].
        -- rewrite fupd_eq. split; [reflexivity|exact Hmp].
        -- rewrite fupd_ne by (intros ->; contradiction). exact (Hroles z Hz).
    + eapply cache_ok_frame; [exact (inv_local _ _ Hinv j Hj)| | |].
      * apply idx_get_set_ne; lia.
      * apply fupd_ne. exact Hne.
      * intros z Hz.
        destruct (inv_local _ _ Hinv j Hj) as (_ & _ & _ & _ & Hrj).
        assert (z <> b).
        { intros ->. destruct (Hrj b Hz) as [Hr _].
          pose proof (role_apart _ _ _ _ Hrole Hr). discriminate. }
        sst. gst. rewrite lookup_insert_ne by congruence.
        split_and!; try reflexivity. apply fupd_ne. assumption.
  - intros j Hj.
    eapply cache_ok_frame; [exact (inv_global _ _ Hinv j Hj)| | |];
      try reflexivity.
    intros z Hz.
    destruct (inv_global _ _ Hinv j Hj) as (_ & _ & _ & _ & Hrj).
    assert (z <> b).
    { intros ->. destruct (Hrj b Hz) as [Hr _].
      pose proof (role_apart _ _ _ _ Hrole Hr). discriminate. }
    sst. gst. rewrite lookup_insert_ne by congruence.
    split_and!; try reflexivity. apply fupd_ne. assumption.
Qed.

(** Pushing a block in limbo on the global cache. *)
Lemma stash_global st g i b pg :
  inv st g -> 0 <= i < CLASS_PAGES_NUM ->
  g_role g b = Some Limbo ->
  mapped st !! b = Some (PAGE_SZ_BY_IDX i) ->
  pages st !! b = Some pg ->
  exists r st',
    stack_insert_atomic (GlobalTop i) b st = Ok (r, st')
    /\ ((r = 0 /\ st' = st)
        \/ (r <> 0
            /\ inv st' (set_g_role (fupd (g_role g) b (Some (InGlobal i)))
                          (set_g_gcache
                             (fupd (g_gcache g) i (b :: g_gcache g i)) g)))).
Proof.
  intros Hinv Hi Hrole Hmp Hpg.
  destruct (inv_global _ _ Hinv i Hi) as (w & Hw & Hch & Hnd & Hroles).
  rewrite (stack_insert_atomic_run i b st w pg (inv_env _ _ Hinv) Hw Hpg).
  destruct (Z.eqb_spec (dq_count w) COUNT_MAX) as [Hfull|Hroom].
  { eexists _, _. split; [reflexivity|]. left. split; reflexivity. }
  eexists _, _. split; [reflexivity|]. right. split; [lia|].
  destruct (mapped_block _ _ _ _ Hinv Hmp) as (Hb0 & Hbal & Hbtop).
  destruct (block_ptr b Hb0 Hbal Hbtop) as (Hptr & Hprange & _).
  assert (Hcnt : dq_count w = Z.of_nat (length (g_gcache g i))
                 /\ Z.of_nat (length (g_gcache g i)) <= COUNT_MAX).
  { destruct (g_gcache g i); cbn [stack_chain] in Hch;
      destruct Hch as (H1 & H2 & _); split; assumption. }
  assert (Hnin : b ∉ g_gcache g i).
  { intros Hin. destruct (Hroles b Hin) as [Hr _].
    pose proof (role_apart _ _ _ _ Hrole Hr). discriminate. }
  apply (inv_cache_step st _ g _ b Limbo (InGlobal i)); sst; gst;
    try assumption; try reflexivity; try discriminate.
  - apply (inv_env _ _ Hinv).
  - intros z Hz. apply lookup_insert_ne. congruence.
  - apply (body_insert _ b pg); [exact Hpg|reflexivity].
  - intros j Hj.
    eapply cache_ok_frame; [exact (inv_local _ _ Hinv j Hj)| | |];
      try reflexivity.
    intros z Hz.
    destruct (inv_local _ _ Hinv j Hj) as (_ & _ & _ & _ & Hrj).
    assert (z <> b).
    { intros ->. destruct (Hrj b Hz) as [Hr _].
      pose proof (role_apart _ _ _ _ Hrole Hr). discriminate. }
    sst. gst. rewrite lookup_insert_ne by congruence.
    split_and!; try reflexivity. apply fupd_ne. assumption.
  - intros j Hj. destruct (decide (j = i)) as [->|Hne].
    + unfold cache_ok. sst. gst. eexists. rewrite fupd_eq.
      split; [exact (idx_get_set_eq _ _ _ _ Hw)|]. split_and!.
      * apply stack_chain_push; try assumption.
        -- autorewrite with fields. apply count_max_val_lt. lia.
        -- autorewrite with fields. apply Z.mod_small. lia.
      * apply NoDup_cons. split; assumption.
      * intros z Hz. apply elem_of_cons in Hz as [->|Hz].
        -- rewrite fupd_eq. split; [reflexivity|exact Hmp].
        -- rewrite fupd_ne by (intros ->; contradiction). exact (Hroles z Hz).
    + eapply cache_ok_frame; [exact (inv_global _ _ Hinv j Hj)| | |].
      * apply idx_get_set_ne; lia.
      * apply fupd_ne. exact Hne.
      * intros z Hz.
        destruct (inv_global _ _ Hinv j Hj) as (_ & _ & _ & _ & Hrj).
        assert (z <> b).
        { intros ->. destruct (Hrj b Hz) as [Hr _].
          pose proof (role_apart _ _ _ _ Hrole Hr). discriminate. }
        sst. gst. rewrite lookup_insert_ne by congruence.
        split_and!; try reflexivity. apply fupd_ne. assumption.
Qed.

Lemma stack_chain_head ps w a l :
  stack_chain ps w (a :: l) ->
  dq_count w = Z.of_nat (length l) + 1
  /\ Z.of_nat (length l) + 1 <= COUNT_MAX
  /\ dq_nxt w = SET_PTR a
  /\ exists pg, ps !! a = Some pg /\ stack_chain ps (next pg) l
                /\ dq_count (next pg) = Z.of_nat (length l).
Proof.
  cbn [stack_chain length]. rewrite Nat2Z.inj_succ.
  intros (Hc & Hm & Hn & pg & Hpg & Hrest).
  split_and!; try lia. exists pg. split_and!; try assumption.
  destruct l; cbn [stack_chain] in Hrest; destruct Hrest as (H1 & _);
    exact H1.
Qed.

Lemma dq_nxt_idem w : dq_nxt w mod 2 ^ 40 = dq_nxt w.
Proof.
  apply Z.mod_small. unfold dq_nxt. apply (get_field_range 0 40); lia.
Qed.

(** Popping the thread's own cache. *)
Lemma unstash_local st g i :
  inv st g -> 0 <= i < CLASS_PAGES_NUM ->
  exists a st',
    stack_remove (LocalTop i) st = Ok (a, st')
    /\ ((a = 0 /\ st' = st)
        \/ (a <> 0
            /\ exists g', inv st' g' /\ g_role g' a = Some Limbo
                          /\ mapped st' !! a = Some (PAGE_SZ_BY_IDX i)
                          /\ same_heap g g'
                          /\ cas_log st' = cas_log st)).
Proof.
  intros Hinv Hi.
  destruct (inv_local _ _ Hinv i Hi) as (w & Hw & Hch & Hnd & Hroles).
  rewrite (stack_remove_run i st w Hw).
  destruct (g_lcache g i) as [|a l] eqn:El.
  { cbn [stack_chain length] in Hch. destruct Hch as (Hc & _).
    rewrite Hc. cbn [Z.of_nat Z.eqb].
    eexists _, _. split; [reflexivity|]. left. split; reflexivity. }
  destruct (stack_chain_head _ _ _ _ Hch) as (Hc & Hm & Hn & pg & Hpg & Hrest
                                               & Hc').
  destruct (Hroles a ltac:(ehere)) as [Hra Hma].
  destruct (mapped_block _ _ _ _ Hinv Hma) as (Ha0 & Haal & Hatop).
  destruct (block_ptr a Ha0 Haal Hatop) as (Hptr & Hprange & Hget).
  destruct (Z.eqb_spec (dq_count w) 0) as [E|_]; [lia|].
  rewrite Hn, Hget, Hpg.
  eexists _, _. split; [reflexivity|]. right. split; [lia|].
  exists (set_g_role (fupd (g_role g) a (Some Limbo))
            (set_g_lcache (fupd (g_lcache g) i l) g)).
  apply NoDup_cons in Hnd as [Hnin Hnd].
  split; [|split_and!; sst; gst; try reflexivity; try assumption].
  2:{ apply fupd_eq. }
  2:{ unfold same_heap. gst. split_and!; reflexivity. }
  apply (inv_cache_step st _ g _ a (InLocal i) Limbo); sst; gst;
    try assumption; try reflexivity; try discriminate.
  - apply (inv_env _ _ Hinv).
  - intros j Hj. destruct (decide (j = i)) as [->|Hne].
    + unfold cache_ok. sst. gst. eexists. rewrite fupd_eq.
      split; [exact (idx_get_set_eq _ _ _ _ Hw)|]. split_and!.
      * apply (stack_chain_word _ (next pg)); [| |exact Hrest].
        -- autorewrite with fields. rewrite Hc, Hc'.
           replace (Z.of_nat (length l) + 1 - 1) with (Z.of_nat (length l))
             by lia.
           apply Z.mod_small. rewrite COUNT_MAX_val in Hm. lia.
        -- autorewrite with fields. apply dq_nxt_idem.
      * exact Hnd.
      * intros z Hz. rewrite fupd_ne by (intros ->; contradiction).
        apply Hroles. efurther. exact Hz.
    + eapply cache_ok_frame; [exact (inv_local _ _ Hinv j Hj)| | |].
      * apply idx_get_set_ne; lia.
      * apply fupd_ne. exact Hne.
      * intros z Hz.
        destruct (inv_local _ _ Hinv j Hj) as (_ & _ & _ & _ & Hrj).
        assert (z <> a).
        { intros ->. destruct (Hrj a Hz) as [Hr _].
          pose proof (role_apart _ _ _ _ Hra Hr) as E. inversion E.
          congruence. }
        sst. gst. split_and!; try reflexivity. apply fupd_ne. assumption.
  - intros j Hj.
    eapply cache_ok_frame; [exact (inv_global _ _ Hinv j Hj)| | |];
      try reflexivity.
    intros z Hz.
    destruct (inv_global _ _ Hinv j Hj) as (_ & _ & _ & _ & Hrj).
    assert (z <> a).
    { intros ->. destruct (Hrj a Hz) as [Hr _].
      pose proof (role_apart _ _ _ _ Hra Hr). discriminate. }
    sst. gst. split_and!; try reflexivity. apply fupd_ne. assumption.
Qed.

(** Popping the global cache, with no other thread around. *)
Lemma unstash_global st g i :
  inv st g -> 0 <= i < CLASS_PAGES_NUM ->
  exists a st',
    stack_remove_atomic (GlobalTop i) st = Ok (a, st')
    /\ ((a = 0 /\ st' = st)
        \/ (a <> 0
            /\ exists g', inv st' g' /\ g_role g' a = Some Limbo
                          /\ mapped st' !! a = Some (PAGE_SZ_BY_IDX i)
                          /\ same_heap g g')).
Proof.
  intros Hinv Hi.
  destruct (inv_global _ _ Hinv i Hi) as (w & Hw & Hch & Hnd & Hroles).
  rewrite (stack_remove_atomic_run i st w (inv_env _ _ Hinv) Hw).
  destruct (g_gcache g i) as [|a l] eqn:El.
  { cbn [stack_chain length] in Hch. destruct Hch as (_ & _ & Hn).
    rewrite Hn. cbn [Z.eqb].
    eexists _, _. split; [reflexivity|]. left. split; reflexivity. }
  destruct (stack_chain_head _ _ _ _ Hch) as (Hc & Hm & Hn & pg & Hpg & Hrest
                                               & Hc').
  destruct (Hroles a ltac:(ehere)) as [Hra Hma].
  destruct (mapped_block _ _ _ _ Hinv Hma) as (Ha0 & Haal & Hatop).
  destruct (block_ptr a Ha0 Haal Hatop) as (Hptr & Hprange & Hget).
  destruct (Z.eqb_spec (dq_nxt w) 0) as [E|_]; [lia|].
  rewrite Hn, Hget, Hpg.
  eexists _, _. split; [reflexivity|]. right. split; [lia|].
  exists (set_g_role (fupd (g_role g) a (Some Limbo))
            (set_g_gcache (fupd (g_gcache g) i l) g)).
  apply NoDup_cons in Hnd as [Hnin Hnd].
  split; [|split_and!; sst; gst; try reflexivity; try assumption].
  2:{ apply fupd_eq. }
  2:{ unfold same_heap. gst. split_and!; reflexivity. }
  apply (inv_cache_step st _ g _ a (InGlobal i) Limbo); sst; gst;
    try assumption; try reflexivity; try discriminate.
  - apply (inv_env _ _ Hinv).
  - intros j Hj.
    eapply cache_ok_frame; [exact (inv_local _ _ Hinv j Hj)| | |];
      try reflexivity.
    intros z Hz.
    destruct (inv_local _ _ Hinv j Hj) as (_ & _ & _ & _ & Hrj).
    assert (z <> a).
    { intros ->. destruct (Hrj a Hz) as [Hr _].
      pose proof (role_apart _ _ _ _ Hra Hr). discriminate. }
    sst. gst. split_and!; try reflexivity. apply fupd_ne. assumption.
  - intros j Hj. destruct (decide (j = i)) as [->|Hne].
    + unfold cache_ok. sst. gst. eexists. rewrite fupd_eq.
      split; [exact (idx_get_set_eq _ _ _ _ Hw)|]. split_and!.
      * apply (stack_chain_word _ (next pg)); [| |exact Hrest].
        -- autorewrite with fields. rewrite Hc, Hc'.
           replace (Z.of_nat (length l) + 1 - 1) with (Z.of_nat (length l))
             by lia.
           apply Z.mod_small. rewrite COUNT_MAX_val in Hm. lia.
        -- autorewrite with fields. apply dq_nxt_idem.
      * exact Hnd.
      * intros z Hz. rewrite fupd_ne by (intros ->; contradiction).
        apply Hroles. efurther. exact Hz.
    + eapply cache_ok_frame; [exact (inv_global _ _ Hinv j Hj)| | |].
      * apply idx_get_set_ne; lia.
      * apply fupd_ne. exact Hne.
      * intros z Hz.
        destruct (inv_global _ _ Hinv j Hj) as (_ & _ & _ & _ & Hrj).
        assert (z <> a).
        { intros ->. destruct (Hrj a Hz) as [Hr _].
          pose proof (role_apart _ _ _ _ Hra Hr) as E. inversion E.
          congruence. }
        sst. gst. split_and!; try reflexivity. apply fupd_ne. assumption.
Qed.

(** ** Mapping and unmapping *)

Lemma inv_set_os_choices st g c : inv st g -> inv (set_os_choices c st) g.
Proof. intros [H1 H2 H3 H4 H5 H6 H7 H8 H9]. constructor; assumption. Qed.

Lemma inv_set_cas_log st g l : inv st g -> inv (set_cas_log l st) g.
Proof. intros [H1 H2 H3 H4 H5 H6 H7 H8 H9]. constructor; assumption. Qed.

Lemma region_ok_spec mp a n :
  region_ok mp a n = true ->
  0 < n /\ 0 < a /\ a mod PAGE_SZ = 0 /\ a + n * PAGE_SZ <= ADDR_LIMIT
  /\ region_free mp a n.
Proof.
  unfold region_ok. intros H.
  apply andb_prop in H as [H H5]. apply andb_prop in H as [H H4].
  apply andb_prop in H as [H H3]. apply andb_prop in H as [H1 H2].
  apply bool_decide_eq_true in H5.
  apply Z.ltb_lt in H1, H2. apply Z.eqb_eq in H3. apply Z.leb_le in H4.
  split_and!; assumption.
Qed.

Lemma os_ok_insert mp a n :
  os_ok mp -> region_ok mp a n = true -> os_ok (<[a := n]> mp).
Proof.
  intros [Hreg Hdis] Hok.
  destruct (region_ok_spec _ _ _ Hok) as (Hn & Ha & Hal & Htop & Hfree).
  split.
  - intros b k Hb. destruct (decide (b = a)) as [->|Hne].
    + rewrite lookup_insert_eq in Hb. inversion Hb. subst k.
      split_and!; assumption.
    + rewrite lookup_insert_ne in Hb by congruence. exact (Hreg b k Hb).
  - intros b k b' k' Hb Hb' Hne.
    destruct (decide (b = a)) as [->|Hba]; destruct (decide (b' = a)) as [->|Hb'a];
      try congruence.
    + rewrite lookup_insert_eq in Hb. inversion Hb. subst k.
      rewrite lookup_insert_ne in Hb' by congruence.
      exact (Hfree b' k' Hb').
    + rewrite lookup_insert_eq in Hb'. inversion Hb'. subst k'.
      rewrite lookup_insert_ne in Hb by congruence.
      destruct (Hfree b k Hb); [right|left]; assumption.
    + rewrite lookup_insert_ne in Hb, Hb' by congruence.
      exact (Hdis b k b' k' Hb Hb' Hne).
Qed.

Lemma region_ok_fresh mp a n :
  os_ok mp -> region_ok mp a n = true -> mp !! a = None.
Proof.
  intros [Hreg _] Hok.
  destruct (region_ok_spec _ _ _ Hok) as (Hn & Ha & Hal & Htop & Hfree).
  destruct (mp !! a) as [k|] eqn:E; [|reflexivity]. exfalso.
  destruct (Hreg a k E) as (_ & _ & Hk & _).
  destruct (Hfree a k E) as [H|H]; cbn beta in H; rewrite PAGE_SZ_val in H;
    lia.
Qed.

Lemma role_none st g a : inv st g -> mapped st !! a = None -> g_role g a = None.
Proof.
  intros Hinv Hm. destruct (g_role g a) as [r|] eqn:E; [|reflexivity].
  destruct (inv_role _ _ Hinv a r E) as [n Hn]. congruence.
Qed.

Lemma os_ok_delete mp a : os_ok mp -> os_ok (delete a mp).
Proof.
  intros [Hreg Hdis]. split.
  - intros b k Hb. apply lookup_delete_Some in Hb as [_ Hb]. exact (Hreg b k Hb).
  - intros b k b' k' Hb Hb' Hne.
    apply lookup_delete_Some in Hb as [_ Hb].
    apply lookup_delete_Some in Hb' as [_ Hb'].
    exact (Hdis b k b' k' Hb Hb' Hne).
Qed.

(** A new mapping enters the ghost heap with role [r]; what the region
    holds is the caller's business. *)
Lemma mmap_wrap_cases n st :
  (mmap_wrap n st = Ok (0, st))
  \/ (exists a rest, os_choices st = a :: rest
        /\ region_ok (mapped st) a n = false
        /\ mmap_wrap n st = Ok (0, set_os_choices rest st))
  \/ (exists a rest, os_choices st = a :: rest
        /\ region_ok (mapped st) a n = true
        /\ mmap_wrap n st =
             Ok (a, set_os_choices rest
                      (set_mapped (<[a := n]> (mapped st))
                         (set_mem (zero_region (mem st) a (n * PAGE_SZ))
                            st)))).
Proof.
  unfold mmap_wrap. destruct (os_choices st) as [|a rest] eqn:E.
  - left. reflexivity.
  - destruct (region_ok (mapped st) a n) eqn:Hok.
    + right. right. exists a, rest. split_and!; try reflexivity. exact Hok.
    + right. left. exists a, rest. split_and!; try reflexivity. exact Hok.
Qed.

Lemma inv_new_region st st' g a n :
  inv st g ->
  region_ok (mapped st) a n = true ->
  mapped st' = <[a := n]> (mapped st) ->
  pages st' = pages st ->
  thread_data st' = thread_data st ->
  global_freeheap st' = global_freeheap st ->
  env st' = env st ->
  (forall x, x < a \/ a + n * PAGE_SZ <= x ->
             read8 (mem st') x = read8 (mem st) x) ->
  inv st' (set_g_role (fupd (g_role g) a (Some Limbo)) g).
Proof.
  intros Hinv Hok Hmp Hpg Htd Hgf Henv Hmem.
  pose proof (region_ok_fresh _ _ _ (inv_os _ _ Hinv) Hok) as Hfresh.
  pose proof (role_none _ _ _ Hinv Hfresh) as Hnone.
  assert (Hne : forall z r, g_role g z = Some r -> z <> a).
  { intros z r Hr ->. congruence. }
  apply (inv_change st _ g _ a); gst; try assumption.
  - rewrite Htd. reflexivity.
  - rewrite Henv. apply (inv_env _ _ Hinv).
  - rewrite Hmp. apply os_ok_insert; [apply (inv_os _ _ Hinv)|exact Hok].
  - intros z Hz. rewrite Hmp. apply lookup_insert_ne. congruence.
  - intros z Hz. apply fupd_ne. exact Hz.
  - intros r _. rewrite Hmp, lookup_insert_eq. eexists. reflexivity.
  - intros z _. rewrite Hpg. reflexivity.
  - intros z _. split_and!; reflexivity.
  - intros x. destruct (decide (a <= x < a + n * PAGE_SZ)) as [Hin|Hout].
    + right. exists n. split; [right; rewrite Hmp; apply lookup_insert_eq|].
      exact Hin.
    + left. apply Hmem. lia.
  - intros c Hc.
    destruct (inv_heaps _ _ Hinv c Hc) as (h & Hh & Hdl & Hnd & Hroles).
    exists h. rewrite Htd, Hpg. split_and!; try assumption.
    intros z Hz. rewrite fupd_ne; [exact (Hroles z Hz)|].
    exact (Hne _ _ (Hroles z Hz)).
  - intros i Hi. rewrite Htd.
    eapply cache_ok_frame; [exact (inv_local _ _ Hinv i Hi)| | |];
      try reflexivity.
    intros z Hz. destruct (inv_local _ _ Hinv i Hi) as (_ & _ & _ & _ & Hr).
    pose proof (Hne _ _ (proj1 (Hr z Hz))).
    rewrite Hpg, Hmp. rewrite lookup_insert_ne by congruence. gst.
    split_and!; try reflexivity. apply fupd_ne. assumption.
  - intros i Hi. rewrite Hgf.
    eapply cache_ok_frame; [exact (inv_global _ _ Hinv i Hi)| | |];
      try reflexivity.
    intros z Hz. destruct (inv_global _ _ Hinv i Hi) as (_ & _ & _ & _ & Hr).
    pose proof (Hne _ _ (proj1 (Hr z Hz))).
    rewrite Hpg, Hmp. rewrite lookup_insert_ne by congruence. gst.
    split_and!; try reflexivity. apply fupd_ne. assumption.
  - intros c. rewrite fupd_eq. discriminate.
  - intros p Hp. left. split; [|exact Hp].
    destruct (inv_large _ _ Hinv p Hp) as [Hr _]. exact (Hne _ _ Hr).
Qed.

Lemma mmap_wrap_inv n st g :
  inv st g ->
  exists a st',
    mmap_wrap n st = Ok (a, st')
    /\ ((a = 0 /\ inv st' g /\ cas_log st' = cas_log st)
        \/ (a <> 0 /\ a mod 16 = 0
            /\ inv st' (set_g_role (fupd (g_role g) a (Some Limbo)) g)
            /\ mapped st' !! a = Some n /\ 0 < n
            /\ cas_log st' = cas_log st)).
Proof.
  intros Hinv.
  destruct (mmap_wrap_cases n st) as [E|[(a & rest & _ & _ & E)
                                        |(a & rest & _ & Hok & E)]];
    rewrite E; eexists _, _; (split; [reflexivity|]).
  - left. split_and!; try reflexivity. exact Hinv.
  - left. split_and!; try reflexivity. apply inv_set_os_choices. exact Hinv.
  - right.
    destruct (region_ok_spec _ _ _ Hok) as (Hn & Ha & Hal & Htop & Hfree).
    split; [lia|]. split.
    { rewrite PAGE_SZ_val in Hal.
      apply Z.mod_divide in Hal; [|lia]. destruct Hal as [q ->].
      replace (q * 4096) with (q * 256 * 16) by ring. apply Z.mod_mul. lia. }
    split; [|split_and!; sst; try reflexivity; try assumption].
    2:{ apply lookup_insert_eq. }
    apply (inv_new_region st _ g a n); sst; try assumption; try reflexivity.
    intros x Hx. rewrite read8_zero_region.
    destruct (decide (a <= x < a + n * PAGE_SZ)); [lia|reflexivity].
Qed.

Lemma munmap_wrap_inv st g a n r0 :
  inv st g ->
  g_role g a = Some r0 ->
  (forall c, r0 <> InClass c) -> (forall i, r0 <> InLocal i) ->
  (forall i, r0 <> InGlobal i) ->
  mapped st !! a = Some n ->
  exists st',
    munmap_wrap a n st = Ok (tt, st')
    /\ inv st' (set_g_role (fupd (g_role g) a None)
                  (set_g_large
                     (filter (fun p => p <> a + LARGE_HEADER_SIZE) (g_large g))
                     g))
    /\ cas_log st' = cas_log st.
Proof.
  intros Hinv Hr0 Hnc Hnl Hng Hmp.
  unfold munmap_wrap. rewrite Hmp, Z.eqb_refl.
  eexists. split; [reflexivity|]. split; [|reflexivity].
  assert (Hne : forall z r, g_role g z = Some r ->
                  ((exists c, r = InClass c) \/ (exists i, r = InLocal i)
                   \/ (exists i, r = InGlobal i)) -> z <> a).
  { intros z r Hr Hcase ->. pose proof (role_apart _ _ _ _ Hr0 Hr) as E.
    subst r0. destruct Hcase as [[c ->]|[[i ->]|[i ->]]].
    - exact (Hnc c eq_refl).
    - exact (Hnl i eq_refl).
    - exact (Hng i eq_refl). }
  apply (inv_change st _ g _ a); sst; gst; try assumption.
  - reflexivity.
  - apply (inv_env _ _ Hinv).
  - apply os_ok_delete. apply (inv_os _ _ Hinv).
  - intros z Hz. apply lookup_delete_ne. congruence.
  - intros z Hz. apply fupd_ne. exact Hz.
  - intros r. rewrite fupd_eq. discriminate.
  - intros z Hz. rewrite lookup_delete_ne by congruence. reflexivity.
  - intros z _. split_and!; reflexivity.
  - intros x. left. reflexivity.
  - intros c Hc.
    destruct (inv_heaps _ _ Hinv c Hc) as (h & Hh & Hdl & Hnd & Hroles).
    assert (Hza : forall z, z ∈ g_list g c -> z <> a).
    { intros z Hz. apply (Hne _ _ (Hroles z Hz)). left. eexists. reflexivity. }
    exists h. split_and!; try assumption.
    + apply (dlist_frame (pages st)); [|exact Hdl].
      intros z Hz. rewrite lookup_delete_ne; [reflexivity|].
      apply not_eq_sym, Hza, Hz.
    + intros z Hz. rewrite fupd_ne by (apply Hza; exact Hz).
      exact (Hroles z Hz).
  - intros i Hi.
    eapply cache_ok_frame; [exact (inv_local _ _ Hinv i Hi)| | |];
      try reflexivity.
    intros z Hz. destruct (inv_local _ _ Hinv i Hi) as (_ & _ & _ & _ & Hr).
    assert (z <> a).
    { apply (Hne _ _ (proj1 (Hr z Hz))). right. left. eexists. reflexivity. }
    sst. gst. rewrite !lookup_delete_ne by congruence.
    split_and!; try reflexivity. apply fupd_ne. assumption.
  - intros i Hi.
    eapply cache_ok_frame; [exact (inv_global _ _ Hinv i Hi)| | |];
      try reflexivity.
    intros z Hz. destruct (inv_global _ _ Hinv i Hi) as (_ & _ & _ & _ & Hr).
    assert (z <> a).
    { apply (Hne _ _ (proj1 (Hr z Hz))). right. right. eexists. reflexivity. }
    sst. gst. rewrite !lookup_delete_ne by congruence.
    split_and!; try reflexivity. apply fupd_ne. assumption.
  - intros c. rewrite fupd_eq. discriminate.
  - intros p Hp. apply list_elem_of_filter in Hp as [Hpa Hp].
    left. split; [|exact Hp]. change LARGE_HEADER_SIZE with 16 in *. lia.
Qed.

(** ** The page-block supply *)

Lemma same_heap_refl g : same_heap g g.
Proof. unfold same_heap. split_and!; reflexivity. Qed.

Lemma same_heap_trans g1 g2 g3 :
  same_heap g1 g2 -> same_heap g2 g3 -> same_heap g1 g3.
Proof.
  unfold same_heap. intros (A1 & A2 & A3 & A4 & A5) (B1 & B2 & B3 & B4 & B5).
  split_and!; congruence.
Qed.

Lemma same_heap_live g g' p : same_heap g g' -> live_in g p -> live_in g' p.
Proof.
  intros (E1 & E2 & E3 & E4 & E5) [H|(c & b & Hc & Hb & Hp)].
  - left. rewrite E5. exact H.
  - right. exists c, b. rewrite E1, E4. split; [exact Hc|]. split; assumption.
Qed.

Lemma get_pageblock_inv st g c :
  inv st g -> 0 <= c < CLASS_NUM ->
  exists a st',
    get_pageblock (class_pages c) st = Ok (a, st')
    /\ ((a = 0 /\ inv st' g)
        \/ (a <> 0
            /\ exists g', inv st' g' /\ g_role g' a = Some Limbo
                          /\ mapped st' !! a = Some (class_pages c)
                          /\ same_heap g g')).
Proof.
  intros Hinv Hc.
  destruct (class_entry c Hc) as (csz & _ & _ & _ & _ & Hidx & Hi).
  unfold get_pageblock.
  destruct (unstash_local st g _ Hinv Hi) as (a & st1 & Hrun & Hcase).
  rewrite (bind_Ok _ _ _ _ _ Hrun).
  destruct Hcase as [[-> ->]|(Ha & g1 & Hinv1 & Hr1 & Hm1 & Hs1 & _)].
  2:{ destruct (Z.eqb_spec a 0) as [|_]; [contradiction|].
      exists a, st1. split; [reflexivity|]. right. split; [exact Ha|].
      exists g1. rewrite Hidx in Hm1. split_and!; assumption. }
  cbn [Z.eqb].
  destruct (unstash_global st g _ Hinv Hi) as (a & st1 & Hrun' & Hcase).
  rewrite (bind_Ok _ _ _ _ _ Hrun').
  destruct Hcase as [[-> ->]|(Ha & g1 & Hinv1 & Hr1 & Hm1 & Hs1)].
  2:{ destruct (Z.eqb_spec a 0) as [|_]; [contradiction|].
      exists a, st1. split; [reflexivity|]. right. split; [exact Ha|].
      exists g1. rewrite Hidx in Hm1. split_and!; assumption. }
  cbn [Z.eqb].
  destruct (mmap_wrap_inv (class_pages c) st g Hinv) as (a & st1 & Hrun'' & Hcase).
  exists a, st1. split; [exact Hrun''|].
  destruct Hcase as [(-> & Hinv1 & _)|(Ha & _ & Hinv1 & Hm1 & _)].
  - left. split; [reflexivity|exact Hinv1].
  - right. split; [exact Ha|]. eexists. split; [exact Hinv1|].
    gst. split_and!; [apply fupd_eq|exact Hm1|].
    unfold same_heap. gst. split_and!; reflexivity.
Qed.

Lemma filter_large_live g a p :
  g_role g a = Some Limbo ->
  (forall q, q ∈ g_large g -> g_role g (q - LARGE_HEADER_SIZE) = Some IsLarge) ->
  p ∈ g_large g ->
  p ∈ filter (fun q => q <> a + LARGE_HEADER_SIZE) (g_large g).
Proof.
  intros Hr Hall Hp. apply list_elem_of_filter. split; [|exact Hp].
  intros ->. specialize (Hall _ Hp).
  replace (a + LARGE_HEADER_SIZE - LARGE_HEADER_SIZE) with a in Hall by lia.
  congruence.
Qed.

Lemma ret_pageblock_inv st g c b pg :
  inv st g -> 0 <= c < CLASS_NUM ->
  g_role g b = Some Limbo ->
  mapped st !! b = Some (class_pages c) ->
  pages st !! b = Some pg ->
  exists st' g',
    ret_pageblock b (class_pages c) st = Ok (tt, st')
    /\ inv st' g'
    /\ g_list g' = g_list g /\ g_live g' = g_live g
    /\ (forall p, p ∈ g_large g -> p ∈ g_large g')
    /\ (b ∈ g_lcache g' (IDX_BY_PAGE_SZ (class_pages c))
        \/ b ∈ g_gcache g' (IDX_BY_PAGE_SZ (class_pages c))
        \/ mapped st' !! b = None).
Proof.
  intros Hinv Hc Hrole Hmp Hpg.
  destruct (class_entry c Hc) as (csz & _ & _ & _ & _ & Hidx & Hi).
  unfold ret_pageblock. rewrite <- Hidx in Hmp.
  destruct (stash_local st g _ b pg Hinv Hi Hrole Hmp Hpg)
    as (r & st1 & Hrun & Hcase).
  rewrite (bind_Ok _ _ _ _ _ Hrun).
  destruct Hcase as [[-> ->]|(Hr & Hinv1)].
  2:{ destruct (Z.eqb_spec r 0) as [|_]; [contradiction|]. cbn [negb].
      eexists _, _. split; [reflexivity|]. split; [exact Hinv1|].
      gst. split_and!; try reflexivity; [intros p Hp; exact Hp|].
      left. rewrite fupd_eq. ehere. }
  cbn [Z.eqb negb].
  destruct (stash_global st g _ b pg Hinv Hi Hrole Hmp Hpg)
    as (r & st1 & Hrun' & Hcase).
  rewrite (bind_Ok _ _ _ _ _ Hrun').
  destruct Hcase as [[-> ->]|(Hr & Hinv1)].
  2:{ destruct (Z.eqb_spec r 0) as [|_]; [contradiction|].
      eexists _, _. split; [reflexivity|]. split; [exact Hinv1|].
      gst. split_and!; try reflexivity; [intros p Hp; exact Hp|].
      right. left. rewrite fupd_eq. ehere. }
  cbn [Z.eqb]. rewrite Hidx in Hmp.
  destruct (munmap_wrap_inv st g b _ Limbo Hinv Hrole ltac:(discriminate)
              ltac:(discriminate) ltac:(discriminate) Hmp)
    as (st1 & Hrun'' & Hinv1 & _).
  eexists _, _. split; [exact Hrun''|]. split; [exact Hinv1|].
  gst. split_and!; try reflexivity.
  - intros p Hp. apply filter_large_live; try assumption.
    intros q Hq. exact (proj1 (inv_large _ _ Hinv q Hq)).
  - right. right. unfold munmap_wrap in Hrun''.
    rewrite Hmp, Z.eqb_refl in Hrun''. inversion Hrun''. sst.
    apply lookup_delete_eq.
Qed.

(** ** A fresh block enters its class list *)

Lemma page_internal_init_run a c pn tid st csz :
  0 <= c -> class_sizes !! Z.to_nat c = Some csz -> a mod 16 = 0 ->
  page_internal_init a c pn tid st =
    Ok (a, set_pages
             (<[a := mk_page 0 0 (u16 pn) (u16 csz) 0 (FIRST_PAYLOAD - 1) 0
                             (owner_word tid)]> (pages st)) st).
Proof.
  intros Hc Hcs Ha. unfold page_internal_init, idx_get.
  destruct (Z.leb_spec 0 c); [|lia]. rewrite Hcs.
  rewrite (first_payload_offset a Ha). reflexivity.
Qed.

Lemma install_block st g c a :
  inv st g -> 0 <= c < CLASS_NUM ->
  g_role g a = Some Limbo ->
  mapped st !! a = Some (class_pages c) ->
  exists st1 st2,
    page_internal_init a c (class_pages c) (thread_id (thread_data st)) st
      = Ok (a, st1)
    /\ insert_front_dq c a st1 = Ok (tt, st2)
    /\ thread_id (thread_data st1) = thread_id (thread_data st)
    /\ inv st2 (set_g_block a 0 [] []
                  (set_g_role (fupd (g_role g) a (Some (InClass c)))
                     (set_g_list (fupd (g_list g) c (a :: g_list g c)) g))).
Proof.
  intros Hinv Hc Hrole Hmp.
  destruct (class_entry c Hc) as (csz & Hcs & Hcb & Hcm & _).
  destruct (mapped_block _ _ _ _ Hinv Hmp) as (Ha0 & Haal & Hatop).
  assert (Ha16 : a mod 16 = 0).
  { rewrite PAGE_SZ_val in Haal.
    apply Z.mod_divide in Haal; [|lia]. destruct Haal as [q ->].
    replace (q * 4096) with (q * 256 * 16) by ring. apply Z.mod_mul. lia. }
  pose proof (class_pages_bytes c) as (Hbytes & Hu32 & Hcp).
  pose proof (page_internal_init_run a c (class_pages c)
                (thread_id (thread_data st)) st csz ltac:(lia) Hcs Ha16)
    as Hinit.
  set (pg0 := mk_page 0 0 (u16 (class_pages c)) (u16 csz) 0 (FIRST_PAYLOAD - 1)
                      0 (owner_word (thread_id (thread_data st)))).
  set (st1 := set_pages (<[a := pg0]> (pages st)) st).
  fold pg0 in Hinit. fold st1 in Hinit.
  exists st1. rewrite Hinit.
  cut (exists st2, insert_front_dq c a st1 = Ok (tt, st2)
         /\ inv st2 (set_g_block a 0 [] []
                  (set_g_role (fupd (g_role g) a (Some (InClass c)))
                     (set_g_list (fupd (g_list g) c (a :: g_list g c)) g)))).
  { intros (st2 & H1 & H2). exists st2. split_and!; try assumption; reflexivity. }
  destruct (inv_heaps _ _ Hinv c Hc) as (h & Hh & Hdl & Hnd & Hroles).
  assert (Hnin : a ∉ g_list g c).
  { intros Hin. pose proof (role_apart _ _ _ _ Hrole (Hroles a Hin)).
    discriminate. }
  assert (Hnz : forall b, b ∈ g_list g c -> b <> 0).
  { intros b Hb. exact (mapped_nonzero _ _ _ _ Hinv (Hroles b Hb)). }
  assert (Hdl1 : dlist (pages st1) h (g_list g c)).
  { apply (dlist_frame (pages st)); [|exact Hdl].
    intros b Hb. unfold st1. sst. rewrite lookup_insert_ne; [reflexivity|].
    intros ->. contradiction. }
  assert (Hpg1 : pages st1 !! a = Some pg0) by (unfold st1; sst; apply lookup_insert_eq).
  destruct (dlist_cons (pages st1) h (g_list g c) a pg0 Hdl1 Hnin ltac:(lia)
              Hnd Hnz Hpg1 eq_refl) as (ps' & h' & Hshape & Hdl').
  assert (Hh1 : idx_get (private_heap (thread_data st1)) c = Some h) by exact Hh.
  rewrite (insert_front_dq_run c a st1 h pg0 Hh1 Hpg1).
  assert (Hcu : u16 csz = csz) by (apply u16_small; lia).
  assert (Hpu : u16 (class_pages c) = class_pages c).
  { apply u16_small. destruct (class_pages_cases c) as [-> | [-> | ->]]; lia. }
  assert (Hhead : forall r z, g_role g z = Some r -> r <> InClass c ->
                     z <> head h).
  { intros r z Hr Hrc ->. destruct Hdl as (Hhd & _).
    destruct (g_list g c) as [|h0 l] eqn:El.
    - cbn [hd] in Hhd. rewrite Hhd in Hr.
      pose proof (mapped_nonzero _ _ _ _ Hinv Hr). contradiction.
    - cbn [hd] in Hhd. rewrite Hhd in Hr.
      pose proof (role_apart _ _ _ _ Hr (Hroles h0 ltac:(ehere))).
      contradiction. }
  assert (Hnota : forall r z, g_role g z = Some r -> r <> Limbo -> z <> a).
  { intros r z Hr Hrl ->. pose proof (role_apart _ _ _ _ Hrole Hr).
    congruence. }
  assert (Hfinal : forall st2,
            pages st2 = ps' ->
            private_heap (thread_data st2)
              = idx_set (private_heap (thread_data st)) c h' ->
            thread_id (thread_data st2) = thread_id (thread_data st) ->
            top (thread_data st2) = top (thread_data st) ->
            global_freeheap st2 = global_freeheap st ->
            mapped st2 = mapped st -> mem st2 = mem st -> env st2 = env st ->
            (exists pa, ps' !! a = Some pa /\ body pa = body pg0) ->
            (forall z, z <> a -> z <> head h -> ps' !! z = pages st !! z) ->
            (forall z, z <> a -> body <$> ps' !! z = body <$> pages st !! z) ->
            inv st2 (set_g_block a 0 [] []
                       (set_g_role (fupd (g_role g) a (Some (InClass c)))
                          (set_g_list (fupd (g_list g) c (a :: g_list g c))
                                      g)))).
  { intros st2 Eps Eph Etid Etop Egf Emp Emem Eenv (pa & Hpa & Hbpa) Hfar Hbody.
    apply (inv_change st _ g _ a); gst; try assumption.
    - rewrite Eenv. apply (inv_env _ _ Hinv).
    - rewrite Emp. apply (inv_os _ _ Hinv).
    - intros z _. rewrite Emp. reflexivity.
    - intros z Hz. apply fupd_ne. exact Hz.
    - intros r _. rewrite Emp, Hmp. eexists. reflexivity.
    - intros z Hz. rewrite Eps. exact (Hbody z Hz).
    - intros z Hz. rewrite !fupd_ne by exact Hz. split_and!; reflexivity.
    - intros x. left. rewrite Emem. reflexivity.
    - intros c' Hc'. rewrite Eph, Eps.
      destruct (decide (c' = c)) as [->|Hne].
      + exists h'. rewrite fupd_eq.
        split; [exact (idx_get_set_eq _ _ _ _ Hh)|].
        split; [exact Hdl'|]. split.
        * apply NoDup_cons. split; assumption.
        * intros z Hz. apply elem_of_cons in Hz as [->|Hz].
          -- apply fupd_eq.
          -- rewrite fupd_ne by (intros ->; contradiction). exact (Hroles z Hz).
      + destruct (inv_heaps _ _ Hinv c' Hc') as (h1 & Hh1' & Hdl1' & Hnd1 & Hr1).
        exists h1. rewrite fupd_ne by exact Hne.
        split; [rewrite idx_get_set_ne by lia; exact Hh1'|].
        assert (Hz : forall z, z ∈ g_list g c' -> z <> a /\ z <> head h).
        { intros z Hz. split.
          - apply (Hnota _ z (Hr1 z Hz)). discriminate.
          - apply (Hhead _ z (Hr1 z Hz)). congruence. }
        split_and!.
        * apply (dlist_frame (pages st)); [|exact Hdl1'].
          intros z Hzl. destruct (Hz z Hzl) as [H1 H2].
          rewrite (Hfar z H1 H2). reflexivity.
        * exact Hnd1.
        * intros z Hzl. rewrite fupd_ne by (apply (Hz z Hzl)).
          exact (Hr1 z Hzl).
    - intros i Hi. rewrite Etop.
      eapply cache_ok_frame; [exact (inv_local _ _ Hinv i Hi)| | |];
        try reflexivity.
      intros z Hz. destruct (inv_local _ _ Hinv i Hi) as (_ & _ & _ & _ & Hr).
      assert (H1 : z <> a)
        by (apply (Hnota _ z (proj1 (Hr z Hz))); discriminate).
      assert (H2 : z <> head h)
        by (apply (Hhead _ z (proj1 (Hr z Hz))); discriminate).
      rewrite Eps, (Hfar z H1 H2), Emp. gst.
      split_and!; try reflexivity. apply fupd_ne. exact H1.
    - intros i Hi. rewrite Egf.
      eapply cache_ok_frame; [exact (inv_global _ _ Hinv i Hi)| | |];
        try reflexivity.
      intros z Hz. destruct (inv_global _ _ Hinv i Hi) as (_ & _ & _ & _ & Hr).
      assert (H1 : z <> a)
        by (apply (Hnota _ z (proj1 (Hr z Hz))); discriminate).
      assert (H2 : z <> head h)
        by (apply (Hhead _ z (proj1 (Hr z Hz))); discriminate).
      rewrite Eps, (Hfar z H1 H2), Emp. gst.
      split_and!; try reflexivity. apply fupd_ne. exact H1.
    - intros c'. rewrite fupd_eq. intros E. inversion E. subst c'.
      split; [exact Hc|].
      unfold body in Hbpa. inversion Hbpa as [[E1 E2 E3 E4 E5 E6]].
      exists pa, csz. rewrite Eps, Emp, Etid. gst. rewrite !fupd_eq.
      rewrite E1, E2, E3, E4, E5, E6. unfold pg0. sst. cbn [length app].
      change FIRST_PAYLOAD with 48. rewrite PAGE_SZ_val.
      split_and!; try assumption; try reflexivity; try lia.
      + apply NoDup_nil_2.
      + intros x Hx. apply elem_of_nil in Hx. contradiction.
      + intros x Hx. apply elem_of_nil in Hx. contradiction.
    - intros p Hp. left. split; [|exact Hp].
      destruct (inv_large _ _ Hinv p Hp) as [Hr _].
      intros E. rewrite E in Hr.
      pose proof (role_apart _ _ _ _ Hrole Hr). discriminate. }
  destruct (Z.eqb_spec (head h) 0) as [Hh0|Hh0].
  - destruct Hshape as [-> ->].
    eexists. split; [reflexivity|].
    apply Hfinal; sst; try reflexivity.
    + eexists. split; [apply lookup_insert_eq|reflexivity].
    + intros z Hz _. unfold st1. sst. rewrite !lookup_insert_ne by congruence.
      reflexivity.
    + intros z Hz. unfold st1. sst. rewrite !lookup_insert_ne by congruence.
      reflexivity.
  - destruct Hshape as (hp & Hhp & -> & ->). rewrite Hhp.
    unfold st1 in Hhp. sst.
    eexists. split; [reflexivity|].
    assert (Hha : head h <> a).
    { intros E. destruct Hdl as (Hhd & _).
      destruct (g_list g c) as [|h0 l] eqn:El; cbn [hd] in Hhd; [lia|].
      apply Hnin. rewrite <- E, Hhd. ehere. }
    assert (Hhp0 : pages st !! head h = Some hp).
    { rewrite !lookup_insert_ne in Hhp by congruence. exact Hhp. }
    apply Hfinal; sst; try reflexivity.
    + eexists. split.
      * rewrite lookup_insert_ne by congruence. apply lookup_insert_eq.
      * reflexivity.
    + intros z Hz Hzh. unfold st1. sst.
      rewrite !lookup_insert_ne by congruence. reflexivity.
    + intros z Hz. unfold st1. sst.
      rewrite (body_insert _ (head h) hp); [|
        rewrite !lookup_insert_ne by congruence; exact Hhp0|reflexivity].
      rewrite !lookup_insert_ne by congruence. reflexivity.
Qed.

(** ** Walking a class list for a free slot *)

Lemma malloc_walk_zero fuel st : malloc_walk fuel 0 st = Ok (0, st).
Proof. destruct fuel; reflexivity. Qed.

Lemma malloc_walk_step k cur st :
  cur <> 0 ->
  malloc_walk (S k) cur st =
    match page_internal_alloc (S k) cur st with
    | Ok (r, st1) =>
        if negb (r =? 0) then Ok (r, st1)
        else match pages st1 !! cur with
             | Some pg => malloc_walk k (next pg) st1
             | None => Fault
             end
    | Abort s => Abort s
    | Fault => Fault
    | OutOfFuel => OutOfFuel
    end.
Proof.
  intros Hc. cbn [malloc_walk].
  destruct (Z.eqb_spec cur 0) as [E|_]; [contradiction|].
  unfold bind at 1. destruct (page_internal_alloc (S k) cur st) as [[r st1]| | |];
    try reflexivity.
  destruct (negb (r =? 0)); [reflexivity|].
  unfold bind, get_page. destruct (pages st1 !! cur); reflexivity.
Qed.

Lemma malloc_walk_inv st g c :
  inv st g -> 0 <= c < CLASS_NUM ->
  forall l pv fuel,
    dl_from (pages st) pv l -> (forall b, b ∈ l -> b ∈ g_list g c) ->
    (malloc_walk fuel (hd 0 l) st = OutOfFuel /\ (fuel < length l)%nat)
    \/ exists r st',
         malloc_walk fuel (hd 0 l) st = Ok (r, st')
         /\ ((r = 0 /\ st' = st)
             \/ (r <> 0 /\ r mod 16 = 0
                 /\ exists b k fr,
                      b ∈ g_list g c
                      /\ inv st' (set_g_block b k fr (r :: g_live g b) g))).
Proof.
  intros Hinv Hc. induction l as [|b l IH]; intros pv fuel Hd Hsub.
  - right. exists 0, st. cbn [hd]. split; [apply malloc_walk_zero|].
    left. split; reflexivity.
  - cbn [hd]. assert (Hb : b ∈ g_list g c) by (apply Hsub; ehere).
    destruct (heap_block _ _ _ _ Hinv Hc Hb) as [Hrole _].
    pose proof (mapped_nonzero _ _ _ _ Hinv Hrole) as Hb0.
    destruct fuel as [|k].
    { left. cbn [malloc_walk length].
      destruct (Z.eqb_spec b 0) as [E|_]; [contradiction|].
      split; [reflexivity|lia]. }
    rewrite (malloc_walk_step k b st Hb0).
    destruct (alloc_in_block st g c b (S k) Hinv Hc Hb)
      as (r & st1 & Hrun & [[-> ->]|(Hr0 & Hr16 & kk & fr & Hinv1)]).
    + rewrite Hrun. cbn [Z.eqb negb].
      cbn [dl_from] in Hd. destruct Hd as (pg & Hpg & _ & Hnx & Hrest).
      rewrite Hpg, Hnx.
      destruct (IH b k Hrest) as [[Ho Hlt]|(r & st' & Hw & Hres)].
      * intros z Hz. apply Hsub. efurther. exact Hz.
      * left. split; [exact Ho|]. cbn [length]. lia.
      * right. exists r, st'. split; [exact Hw|exact Hres].
    + rewrite Hrun. destruct (Z.eqb_spec r 0) as [E|_]; [contradiction|].
      cbn [negb]. right. exists r, st1. split; [reflexivity|].
      right. split_and!; try assumption.
      exists b, kk, fr. split; assumption.
Qed.

(** ** Large objects *)

Lemma inv_make_large st g a n m' :
  inv st g -> g_role g a = Some Limbo -> mapped st !! a = Some n ->
  (forall x, x < a \/ a + LARGE_HEADER_SIZE <= x ->
             read8 m' x = read8 (mem st) x) ->
  read_le 8 m' a = n ->
  read8 m' (a + LARGE_HEADER_SIZE - 1) = large_header ->
  inv (set_mem m' st)
      (set_g_role (fupd (g_role g) a (Some IsLarge))
         (set_g_large (a + LARGE_HEADER_SIZE :: g_large g) g)).
Proof.
  intros Hinv Hrole Hmp Hout Hn Hhd.
  assert (Hne : forall z r, g_role g z = Some r -> r <> Limbo -> z <> a).
  { intros z r Hr Hrl ->. pose proof (role_apart _ _ _ _ Hrole Hr).
    congruence. }
  destruct (inv_os _ _ Hinv) as [Hreg _].
  destruct (Hreg _ _ Hmp) as (Ha0 & _ & Hn0 & _).
  apply (inv_change st _ g _ a); sst; gst; try assumption.
  - reflexivity.
  - apply (inv_env _ _ Hinv).
  - apply (inv_os _ _ Hinv).
  - intros z _. reflexivity.
  - intros z Hz. apply fupd_ne. exact Hz.
  - intros r _. rewrite Hmp. eexists. reflexivity.
  - intros z _. reflexivity.
  - intros z _. split_and!; reflexivity.
  - intros x.
    destruct (decide (a <= x < a + LARGE_HEADER_SIZE)) as [Hin|Hnin].
    + right. exists n. split; [left; exact Hmp|].
      change LARGE_HEADER_SIZE with 16 in Hin. rewrite PAGE_SZ_val. lia.
    + left. apply Hout. lia.
  - intros c Hc.
    destruct (inv_heaps _ _ Hinv c Hc) as (h & Hh & Hdl & Hnd & Hroles).
    exists h. split_and!; try assumption.
    intros z Hz. rewrite fupd_ne; [exact (Hroles z Hz)|].
    apply (Hne _ _ (Hroles z Hz)). discriminate.
  - intros i Hi.
    eapply cache_ok_frame; [exact (inv_local _ _ Hinv i Hi)| | |];
      try reflexivity.
    intros z Hz. destruct (inv_local _ _ Hinv i Hi) as (_ & _ & _ & _ & Hr).
    sst. gst. split_and!; try reflexivity. apply fupd_ne.
    apply (Hne _ _ (proj1 (Hr z Hz))). discriminate.
  - intros i Hi.
    eapply cache_ok_frame; [exact (inv_global _ _ Hinv i Hi)| | |];
      try reflexivity.
    intros z Hz. destruct (inv_global _ _ Hinv i Hi) as (_ & _ & _ & _ & Hr).
    sst. gst. split_and!; try reflexivity. apply fupd_ne.
    apply (Hne _ _ (proj1 (Hr z Hz))). discriminate.
  - intros c. rewrite fupd_eq. discriminate.
  - intros p Hp. apply elem_of_cons in Hp as [->|Hp].
    + right. unfold large_ok. sst. gst.
      replace (a + LARGE_HEADER_SIZE - LARGE_HEADER_SIZE) with a by lia.
      rewrite fupd_eq. split; [reflexivity|].
      exists n. split_and!; assumption.
    + left. split; [|exact Hp].
      destruct (inv_large _ _ Hinv p Hp) as [Hr _].
      apply (Hne _ _ Hr). discriminate.
Qed.

Lemma large_alloc_inv st g sz :
  inv st g ->
  exists r st',
    large_alloc sz st = Ok (r, st')
    /\ ((r = 0 /\ inv st' g)
        \/ (r <> 0 /\ r mod 16 = 0
            /\ exists g', inv st' g' /\ g_list g' = g_list g
                          /\ g_live g' = g_live g
                          /\ g_large g' = r :: g_large g)).
Proof.
  intros Hinv. unfold large_alloc.
  set (n := GET_PAGE_NUM (u64 (sz + LARGE_HEADER_SIZE))).
  destruct (mmap_wrap_inv n st g Hinv)
    as (a & st1 & Hrun & [(-> & Hinv1 & _)
                         |(Ha0 & Ha16 & Hinv1 & Hmp & Hn0 & _)]).
  - exists 0, st1. unfold bind. rewrite Hrun. cbn [Z.eqb].
    split; [reflexivity|]. left. split; [reflexivity|exact Hinv1].
  - unfold bind at 1. rewrite Hrun.
    destruct (Z.eqb_spec a 0) as [E|_]; [contradiction|].
    unfold header_write_large, store64, store8, bind, modify, ret. sst.
    eexists _, _. split; [reflexivity|]. right.
    change LARGE_HEADER_SIZE with 16 in *. change SIZEOF_HEADER_T with 1.
    split; [pose proof (mapped_block _ _ _ _ Hinv1 Hmp); lia|].
    split.
    { rewrite <- Z.add_mod_idemp_l by lia. rewrite Ha16. reflexivity. }
    destruct (inv_os _ _ Hinv1) as [Hreg _].
    destruct (Hreg _ _ Hmp) as (Hapos & Hal & _ & Htop).
    rewrite PAGE_SZ_val in Htop. change ADDR_LIMIT with (2 ^ 47) in Htop.
    set (g1 := set_g_role (fupd (g_role g) a (Some Limbo)) g) in *.
    exists (set_g_role (fupd (g_role g1) a (Some IsLarge))
              (set_g_large (a + 16 :: g_large g1) g1)).
    split; [|split_and!; reflexivity].
    match goal with
    | |- inv ?s _ =>
        replace s with
          (set_mem (write8 (write_le 8 (mem st1) a n) (a + 16 - 1)
                           (Z.lor HEADER_LARGE HEADER_VALID)) st1)
          by reflexivity
    end.
    apply (inv_make_large st1 _ a n); try assumption.
    + unfold g1. gst. apply fupd_eq.
    + intros x Hx. change LARGE_HEADER_SIZE with 16 in Hx.
      rewrite read8_write8.
      destruct (decide (a + 16 - 1 = x)) as [E|_]; [lia|].
      apply read8_write_le_out. lia.
    + rewrite read_le_write8_out by lia.
      rewrite read_le_write_le_same. apply Z.mod_small.
      change (Z.of_nat 8) with 8. lia.
    + change LARGE_HEADER_SIZE with 16. rewrite read8_write8.
      destruct (decide (a + 16 - 1 = a + 16 - 1)) as [_|E]; [|contradiction].
      reflexivity.
Qed.

(** ** Freeing a live object *)

Lemma large_free_inv st g p :
  inv st g -> p ∈ g_large g ->
  exists st' g',
    large_free p st = Ok (tt, st')
    /\ inv st' g'
    /\ g_list g' = g_list g /\ g_live g' = g_live g
    /\ (forall q, q ∈ g_large g -> q <> p -> q ∈ g_large g')
    /\ mem st' = mem st.
Proof.
  intros Hinv Hp.
  destruct (inv_large _ _ Hinv p Hp) as (Hrole & n & Hmp & Hn & _).
  unfold large_free, GET_LARGER_ALLOC_SZ, GET_LARGER_ALLOC_START, load64,
    bind, gets. rewrite Hn.
  destruct (munmap_wrap_inv st g _ n IsLarge Hinv Hrole ltac:(discriminate)
              ltac:(discriminate) ltac:(discriminate) Hmp)
    as (st' & Hrun & Hinv' & _).
  eexists _, _. split; [exact Hrun|]. split; [exact Hinv'|]. gst.
  split_and!; try reflexivity.
  - intros q Hq Hne. apply list_elem_of_filter. split; [lia|exact Hq].
  - unfold munmap_wrap in Hrun. rewrite Hmp, Z.eqb_refl in Hrun.
    inversion Hrun. reflexivity.
Qed.

(** What the code reads at a live small object: its header names the block,
    and the block names the class. *)
Lemma live_small_locate st g c b p :
  inv st g -> 0 <= c < CLASS_NUM -> b ∈ g_list g c -> p ∈ g_live g b ->
  exists pg csz,
    pages st !! b = Some pg
    /\ class_sizes !! Z.to_nat c = Some csz
    /\ object_size pg = csz /\ 16 <= csz <= 2048
    /\ p <> 0 /\ p mod 16 = 0
    /\ object_type_decode p st = Ok ((CLASS_SMALL, (p - b) / PAGE_SZ), st)
    /\ GET_PAGE_START p ((p - b) / PAGE_SZ) = b
    /\ class_size_decode (u64 (csz - 1)) = Some (c, class_pages c)
    /\ rf_thread_id (sync pg) = thread_id (thread_data st)
    /\ allocated_objects pg = Z.of_nat (length (g_live g b)).
Proof.
  intros Hinv Hc Hb Hp.
  destruct (heap_block _ _ _ _ Hinv Hc Hb) as [Hrole Hbo].
  destruct Hbo as (pg & csz & Hpg & Hcs & Hmp & Hos & Hpn & Hsy & Hk0 & Hun
                   & Hlim & Hal & Hlen & Hnd & Hsl & Hhd & Hch).
  destruct (class_entry c Hc) as (csz' & Hcs' & Hcb & Hcm & Hdec & _).
  rewrite Hcs in Hcs'. inversion Hcs'. subst csz'. clear Hcs'.
  pose proof (class_pages_bytes c) as (Hbytes & Hu32 & Hcp).
  destruct (mapped_block _ _ _ _ Hinv Hmp) as (Hb0 & Hbal & Hbtop).
  assert (Hpin : p ∈ g_live g b ++ g_free g b).
  { apply elem_of_app. left. exact Hp. }
  destruct (Hsl p Hpin) as (j & Hj & Ep).
  pose proof (slot_step j (g_slots g b) csz ltac:(lia) ltac:(lia)) as Hjs.
  pose proof (slot_aligned b j csz) as Hal16.
  change FIRST_PAYLOAD with 48 in *. change ADDR_LIMIT with (2 ^ 47) in *.
  rewrite PAGE_SZ_val in *.
  assert (Hoff : 0 <= (p - b) / 4096 <= 31).
  { split; [apply Z.div_pos; lia|].
    assert ((p - b) / 4096 < 32); [|lia].
    apply Z.div_lt_upper_bound; lia. }
  exists pg, csz. split_and!; try assumption; try lia.
  - rewrite Ep. apply Hal16; assumption.
  - rewrite object_type_decode_run. rewrite (Hhd p Hpin).
    destruct (small_header_decode _ Hoff) as (E1 & E2 & E3).
    rewrite E1, E2, E3. reflexivity.
  - replace p with (b + (p - b)) at 1 by lia.
    apply GET_PAGE_START_eq; lia.
  - rewrite Hsy. apply (owner_word_fields _ (inv_tid _ _ Hinv)).
Qed.

Lemma body_page_num pg pg' : body pg' = body pg -> page_num pg' = page_num pg.
Proof. unfold body. intros H. inversion H. reflexivity. Qed.

Lemma length_zero_nil {A} (l : list A) : Z.of_nat (length l) = 0 -> l = [].
Proof. destruct l; [reflexivity|cbn [length]; lia]. Qed.

(** The owner frees a live slot of one of its blocks. *)
Lemma local_free_inv st g c b p h pg :
  inv st g -> 0 <= c < CLASS_NUM -> b ∈ g_list g c -> p ∈ g_live g b ->
  idx_get (private_heap (thread_data st)) c = Some h ->
  pages st !! b = Some pg ->
  exists st' g',
    page_internal_free c b p (thread_id (thread_data st)) st = Ok (tt, st')
    /\ inv st' g'
    /\ (forall q, live_in g q -> q <> p -> live_in g' q)
    /\ (allocated_objects pg = 1 /\ head h <> b ->
          (forall x, x ∈ g_list g' c <-> x ∈ g_list g c /\ x <> b)
          /\ (b ∈ g_lcache g' (IDX_BY_PAGE_SZ (class_pages c))
              \/ b ∈ g_gcache g' (IDX_BY_PAGE_SZ (class_pages c))
              \/ mapped st' !! b = None))
    /\ (allocated_objects pg <> 1 \/ head h = b ->
          g_list g' = g_list g
          /\ mapped st' !! b = Some (class_pages c)
          /\ thread_data st' = thread_data st
          /\ exists pg', pages st' !! b = Some pg'
                         /\ allocated_objects pg'
                            = allocated_objects pg - 1).
Proof.
  intros Hinv Hc Hb Hp Hh Hpg.
  destruct (live_small_locate _ _ _ _ _ Hinv Hc Hb Hp)
    as (pg0 & csz & Hpg0 & _ & _ & _ & _ & _ & _ & _ & _ & Hown & Hal).
  rewrite Hpg in Hpg0. inversion Hpg0. subst pg0. clear Hpg0.
  destruct (push_in_block _ _ _ _ _ Hinv Hc Hb Hp)
    as (st1 & lv' & Hpush & Hinv1 & Hnot & Hsub & Htd & Hlen).
  set (g1 := set_g_block b (g_slots g b) (p :: g_free g b) lv' g) in *.
  assert (Hb1 : b ∈ g_list g1 c) by exact Hb.
  destruct (heap_block _ _ _ _ Hinv1 Hc Hb1) as [Hrole1 Hbo1].
  destruct Hbo1 as (pg1 & csz1 & Hpg1 & _ & Hmp1 & _ & Hpn1 & _ & _ & _ & _
                    & Hal1 & _).
  unfold g1 in Hal1. gst. rewrite fupd_eq in Hal1.
  assert (Hh1 : idx_get (private_heap (thread_data st1)) c = Some h)
    by (rewrite Htd; exact Hh).
  assert (Hlive1 : forall q, live_in g q -> q <> p -> live_in g1 q).
  { intros q [Hl|(c' & b' & Hc' & Hb' & Hq)] Hne; [left; exact Hl|].
    right. exists c', b'. unfold g1. gst. split; [exact Hc'|].
    split; [exact Hb'|].
    unfold fupd. destruct (decide (b' = b)) as [->|_]; [|exact Hq].
    apply Hsub; assumption. }
  unfold page_internal_free.
  rewrite (bind_Ok _ _ _ _ _ (get_page_run _ _ _ Hpg)).
  rewrite Hown, Z.eqb_refl.
  rewrite (bind_Ok _ _ _ _ _ Hpush).
  rewrite (bind_Ok _ _ _ _ _ (get_page_run _ _ _ Hpg1)).
  rewrite (bind_Ok _ _ _ _ _ (get_heap_run _ _ _ Hh1)).
  destruct (Z.eqb_spec (allocated_objects pg1) 0) as [Hz|Hnz];
    destruct (Z.eqb_spec (head h) b) as [Hhd|Hhd]; cbn [andb negb].
  2:{ (* the block is empty and is not the head *)
    destruct (unlink_block _ _ _ _ _ Hinv1 Hc Hb1 Hh1 Hhd)
      as (st2 & l' & pgA & pgB & Hrun2 & Hinv2 & Hl' & HpgA & HpgB & Hbody
          & Hmp2 & _).
    rewrite (bind_Ok _ _ _ _ _ Hrun2).
    rewrite (bind_Ok _ _ _ _ _ (get_page_run _ _ _ HpgB)).
    rewrite HpgA in Hpg1. inversion Hpg1. subst pgA. clear Hpg1.
    rewrite (body_page_num _ _ Hbody), Hpn1.
    set (g2 := set_g_role (fupd (g_role g1) b (Some Limbo))
                 (set_g_list (fupd (g_list g1) c l') g1)) in *.
    assert (Hr2 : g_role g2 b = Some Limbo) by (unfold g2; gst; apply fupd_eq).
    assert (Hm2 : mapped st2 !! b = Some (class_pages c))
      by (rewrite Hmp2; exact Hmp1).
    destruct (ret_pageblock_inv _ _ _ _ _ Hinv2 Hc Hr2 Hm2 HpgB)
      as (st3 & g3 & Hrun3 & Hinv3 & Hl3 & Hlv3 & Hlg3 & Hsup).
    exists st3, g3. split; [exact Hrun3|]. split; [exact Hinv3|].
    assert (Hnil : lv' = []).
    { apply length_zero_nil. rewrite <- Hal1. exact Hz. }
    split_and!.
    - intros q Hq Hne. destruct (Hlive1 q Hq Hne)
        as [Hl|(c' & b' & Hc' & Hb' & Hq')].
      + left. apply Hlg3. exact Hl.
      + right. exists c', b'. rewrite Hl3, Hlv3. unfold g2, g1 in *. gst.
        assert (Hbb : b' <> b).
        { intros ->. rewrite fupd_eq, Hnil in Hq'.
          apply elem_of_nil in Hq'. contradiction. }
        split; [exact Hc'|]. split; [|exact Hq'].
        unfold fupd at 1. destruct (decide (c' = c)) as [->|_]; [|exact Hb'].
        apply Hl'. split; assumption.
    - intros _. split; [|exact Hsup].
      intros x. rewrite Hl3. unfold g2. gst. rewrite fupd_eq. apply Hl'.
    - intros [Hne|Heq]; [|contradiction].
      exfalso. apply Hne. rewrite Hal, Hlen. rewrite Hnil. reflexivity. }
  all: exists st1, g1; split; [reflexivity|]; split; [exact Hinv1|];
    split; [exact Hlive1|]; split.
  all: try (intros _; split_and!; [reflexivity|exact Hmp1|exact Htd|];
            exists pg1; split; [exact Hpg1|]; rewrite Hal1, Hal, Hlen; lia).
  - intros [_ Hne]. contradiction.
  - intros [H1 _]. exfalso. apply Hnz. rewrite Hal1.
    rewrite Hal, Hlen in H1. lia.
  - intros [H1 _]. exfalso. apply Hnz. rewrite Hal1.
    rewrite Hal, Hlen in H1. lia.
Qed.

Lemma free_small_run st g c b p :
  inv st g -> 0 <= c < CLASS_NUM -> b ∈ g_list g c -> p ∈ g_live g b ->
  free p st = page_internal_free c b p (thread_id (thread_data st)) st.
Proof.
  intros Hinv Hc Hb Hp.
  destruct (live_small_locate _ _ _ _ _ Hinv Hc Hb Hp)
    as (pg & csz & Hpg & _ & Hos & _ & Hp0 & _ & Hdec & Hstart & Hcls & _).
  unfold free. destruct (Z.eqb_spec p 0) as [E|_]; [contradiction|].
  rewrite (bind_Ok _ _ _ _ _ Hdec). cbn [fst snd].
  change (CLASS_SMALL =? CLASS_SMALL) with true. cbv iota.
  rewrite Hstart. rewrite (bind_Ok _ _ _ _ _ (get_page_run _ _ _ Hpg)).
  rewrite Hos, Hcls. reflexivity.
Qed.

Lemma free_large_run st g p :
  inv st g -> p ∈ g_large g -> free p st = large_free p st.
Proof.
  intros Hinv Hp.
  destruct (inv_large _ _ Hinv p Hp) as (Hrole & n & Hmp & Hn & Hhd).
  destruct (mapped_block _ _ _ _ Hinv Hmp) as (Ha0 & _).
  change LARGE_HEADER_SIZE with 16 in *.
  unfold free. destruct (Z.eqb_spec p 0) as [E|_]; [lia|].
  rewrite (bind_Ok _ _ _ _ _ (object_type_decode_run p st)). cbn [fst snd].
  rewrite Hhd. destruct large_header_decode as [E1 E2]. rewrite E1, E2.
  reflexivity.
Qed.

Lemma free_inv st g p :
  inv st g -> live_in g p ->
  exists st' g',
    free p st = Ok (tt, st')
    /\ inv st' g'
    /\ (forall q, live_in g q -> q <> p -> live_in g' q).
Proof.
  intros Hinv [Hl|(c & b & Hc & Hb & Hp)].
  - rewrite (free_large_run _ _ _ Hinv Hl).
    destruct (large_free_inv _ _ _ Hinv Hl)
      as (st' & g' & Hrun & Hinv' & El & Elv & Hlg & _).
    exists st', g'. split; [exact Hrun|]. split; [exact Hinv'|].
    intros q [Hq|(c & b & Hc & Hb & Hq)] Hne.
    + left. apply Hlg; assumption.
    + right. exists c, b. rewrite El, Elv. split; [exact Hc|].
      split; assumption.
  - rewrite (free_small_run _ _ _ _ _ Hinv Hc Hb Hp).
    destruct (inv_heaps _ _ Hinv c Hc) as (h & Hh & _).
    destruct (live_small_locate _ _ _ _ _ Hinv Hc Hb Hp)
      as (pg & _ & Hpg & _).
    destruct (local_free_inv _ _ _ _ _ _ _ Hinv Hc Hb Hp Hh Hpg)
      as (st' & g' & Hrun & Hinv' & Hlive & _).
    exists st', g'. split_and!; assumption.
Qed.

(** ** Allocation keeps the heap well formed *)

Lemma live_in_new g b k fr r :
  forall c, 0 <= c < CLASS_NUM -> b ∈ g_list g c ->
  live_in (set_g_block b k fr (r :: g_live g b) g) r
  /\ forall q, live_in g q ->
       live_in (set_g_block b k fr (r :: g_live g b) g) q.
Proof.
  intros c Hc Hb. split.
  - right. exists c, b. gst. rewrite fupd_eq. split; [exact Hc|].
    split; [exact Hb|ehere].
  - intros q Hq. apply live_in_set_block; [exact Hq|].
    intros x Hx. efurther. exact Hx.
Qed.

Lemma malloc_small_cases st g fuel c :
  inv st g -> 0 <= c < CLASS_NUM ->
  let m :=
    (let* bin := get_heap c in
     let* r := malloc_walk fuel (head bin) in
     if negb (r =? 0) then ret r
     else
       let* alloc := get_pageblock (class_pages c) in
       if alloc =? 0 then ret 0
       else
         let* tid := gets (fun st => thread_id (thread_data st)) in
         let* page := page_internal_init alloc c (class_pages c) tid in
         insert_front_dq c page;;;
         page_internal_alloc fuel page) in
  (m st = OutOfFuel /\ (fuel < length (g_list g c))%nat)
  \/ exists p st' g',
       m st = Ok (p, st') /\ inv st' g'
       /\ (forall q, live_in g q -> live_in g' q)
       /\ (p <> 0 -> p mod 16 = 0 /\ live_in g' p).
Proof.
  intros Hinv Hc m. unfold m. clear m.
  destruct (inv_heaps _ _ Hinv c Hc) as (h & Hh & Hdl & Hnd & Hroles).
  rewrite (bind_Ok _ _ _ _ _ (get_heap_run _ _ _ Hh)).
  destruct Hdl as (Hhd & _ & Hd). rewrite Hhd.
  destruct (malloc_walk_inv st g c Hinv Hc _ 0 fuel Hd (fun b H => H))
    as [[Ho Hlt]|(r & st1 & Hw & Hcase)].
  { left. unfold bind at 1. rewrite Ho. split; [reflexivity|exact Hlt]. }
  right. rewrite (bind_Ok _ _ _ _ _ Hw).
  destruct Hcase as [[-> ->]|(Hr0 & Hr16 & b & k & fr & Hb & Hinv1)].
  2:{ destruct (Z.eqb_spec r 0) as [E|_]; [contradiction|]. cbn [negb].
      eexists _, _, _. split; [reflexivity|]. split; [exact Hinv1|].
      destruct (live_in_new g b k fr r c Hc Hb) as [Hnew Hold].
      split; [exact Hold|]. intros _. split; assumption. }
  cbn [Z.eqb negb].
  destruct (get_pageblock_inv st g c Hinv Hc)
    as (a & st2 & Hget & [[-> Hinv2]
                         |(Ha0 & g2 & Hinv2 & Hrole2 & Hmp2 & Hsame)]).
  { rewrite (bind_Ok _ _ _ _ _ Hget). cbn [Z.eqb].
    exists 0, st2, g. split; [reflexivity|]. split; [exact Hinv2|].
    split; [intros q Hq; exact Hq|]. intros E. contradiction. }
  rewrite (bind_Ok _ _ _ _ _ Hget).
  destruct (Z.eqb_spec a 0) as [E|_]; [contradiction|].
  unfold gets at 1. unfold bind at 1.
  destruct (install_block st2 g2 c a Hinv2 Hc Hrole2 Hmp2)
    as (st3 & st4 & Hinit & Hins & Htid & Hinv4).
  rewrite (bind_Ok _ _ _ _ _ Hinit).
  rewrite (bind_Ok _ _ _ _ _ Hins).
  set (g4 := set_g_block a 0 [] []
               (set_g_role (fupd (g_role g2) a (Some (InClass c)))
                  (set_g_list (fupd (g_list g2) c (a :: g_list g2 c)) g2)))
    in *.
  assert (Ha4 : a ∈ g_list g4 c).
  { unfold g4. gst. rewrite fupd_eq. ehere. }
  assert (Hlive4 : forall q, live_in g q -> live_in g4 q).
  { intros q Hq. apply (same_heap_live _ _ _ Hsame) in Hq.
    destruct Hq as [Hl|(c' & b' & Hc' & Hb' & Hq)]; [left; exact Hl|].
    right. exists c', b'. unfold g4. gst. split; [exact Hc'|].
    assert (Hne : b' <> a).
    { intros ->. destruct (heap_block _ _ _ _ Hinv2 Hc' Hb') as [Hr _].
      pose proof (role_apart _ _ _ _ Hrole2 Hr). discriminate. }
    split.
    - unfold fupd at 1. destruct (decide (c' = c)) as [->|_]; [|exact Hb'].
      efurther. exact Hb'.
    - rewrite fupd_ne by exact Hne. exact Hq. }
  destruct (alloc_in_block st4 g4 c a fuel Hinv4 Hc Ha4)
    as (r & st5 & Hrun & [[-> ->]|(Hr0 & Hr16 & k & fr & Hinv5)]).
  - exists 0, st4, g4. split; [exact Hrun|]. split; [exact Hinv4|].
    split; [exact Hlive4|]. intros E. contradiction.
  - eexists r, st5, _. split; [exact Hrun|]. split; [exact Hinv5|].
    destruct (live_in_new g4 a k fr r c Hc Ha4) as [Hnew Hold].
    split; [|intros _; split; assumption].
    intros q Hq. apply Hold, Hlive4, Hq.
Qed.

Lemma malloc_cases st g fuel sz :
  inv st g -> 0 <= sz ->
  (malloc fuel sz st = OutOfFuel
   /\ exists c, 0 <= c < CLASS_NUM /\ (fuel < length (g_list g c))%nat)
  \/ exists p st' g',
       malloc fuel sz st = Ok (p, st') /\ inv st' g'
       /\ (forall q, live_in g q -> live_in g' q)
       /\ (p <> 0 -> p mod 16 = 0 /\ live_in g' p).
Proof.
  intros Hinv Hsz. unfold malloc.
  destruct (Z.eqb_spec sz 0) as [->|Hnz].
  { right. exists 0, st, g. split; [reflexivity|]. split; [exact Hinv|].
    split; [intros q Hq; exact Hq|]. intros E. contradiction. }
  rewrite SMALL_ALLOCATION_LIMIT_val.
  destruct (Z.ltb_spec sz 2048) as [Hsmall|Hbig].
  - destruct (class_size_decode_total sz ltac:(lia)) as (c & pb & Hdec).
    destruct (class_size_decode_small sz c pb ltac:(lia) Hdec) as [Hc ->].
    rewrite Hdec.
    destruct (malloc_small_cases st g fuel c Hinv Hc) as [[Ho Hlt]|Hok].
    + left. split; [exact Ho|]. exists c. split; assumption.
    + right. exact Hok.
  - right.
    destruct (large_alloc_inv st g sz Hinv)
      as (r & st' & Hrun & [[-> Hinv']
                           |(Hr0 & Hr16 & g' & Hinv' & El & Elv & Elg)]).
    + exists 0, st', g. split; [exact Hrun|]. split; [exact Hinv'|].
      split; [intros q Hq; exact Hq|]. intros E. contradiction.
    + exists r, st', g'. split; [exact Hrun|]. split; [exact Hinv'|]. split.
      * intros q [Hq|(c & b & Hc & Hb & Hq)].
        -- left. rewrite Elg. efurther. exact Hq.
        -- right. exists c, b. rewrite El, Elv. split; [exact Hc|].
           split; assumption.
      * intros _. split; [exact Hr16|]. left. rewrite Elg. ehere.
Qed.

(** ** Every state of a single-threaded history is well formed *)

Lemma idx_get_replicate {A} n (x : A) i :
  0 <= i < n -> idx_get (replicate (Z.to_nat n) x) i = Some x.
Proof.
  intros Hi. unfold idx_get. destruct (Z.leb_spec 0 i); [|lia].
  apply lookup_replicate_2. lia.
Qed.

Lemma init_inv tid choices :
  0 <= tid < 2 ^ THREAD_ID_BITS -> inv (init_state tid choices) empty_ghost.
Proof.
  intros Htid. unfold init_state, init_thread, empty_ghost.
  constructor; sst; gst.
  - exact Htid.
  - reflexivity.
  - split.
    + intros b n H. rewrite lookup_empty in H. discriminate.
    + intros b n b' n' H. rewrite lookup_empty in H. discriminate.
  - intros b r H. discriminate.
  - intros c Hc. exists (mk_heap 0 0).
    split; [apply idx_get_replicate; exact Hc|].
    split; [|split; [apply NoDup_nil_2|]].
    + unfold dlist. cbn [head tail hd dl_from].
      split; [reflexivity|]. split; [intros H; contradiction|exact I].
    + intros b Hb. apply elem_of_nil in Hb. contradiction.
  - intros c b H. discriminate.
  - intros i Hi. exists 0. split; [apply idx_get_replicate; exact Hi|].
    split; [|split; [apply NoDup_nil_2|]].
    + cbn [stack_chain length]. rewrite COUNT_MAX_val.
      split; [reflexivity|]. split; [lia|reflexivity].
    + intros b Hb. apply elem_of_nil in Hb. contradiction.
  - intros i Hi. exists 0. split; [apply idx_get_replicate; exact Hi|].
    split; [|split; [apply NoDup_nil_2|]].
    + cbn [stack_chain length]. rewrite COUNT_MAX_val.
      split; [reflexivity|]. split; [lia|reflexivity].
    + intros b Hb. apply elem_of_nil in Hb. contradiction.
  - intros p Hp. apply elem_of_nil in Hp. contradiction.
Qed.

Lemma reachable_inv tid choices st live :
  0 <= tid < 2 ^ THREAD_ID_BITS ->
  reachable (init_state tid choices) st live ->
  exists g, inv st g /\ forall p, p ∈ live -> live_in g p /\ p mod 16 = 0.
Proof.
  intros Htid Hreach. induction Hreach as
    [|st live fuel sz p st' Hreach IH Hsz Hrun
     |st live p st' Hreach IH Hp Hrun].
  - exists empty_ghost. split; [apply init_inv; exact Htid|].
    intros p Hp. apply elem_of_nil in Hp. contradiction.
  - destruct IH as (g & Hinv & Hlive).
    destruct (malloc_cases st g fuel sz Hinv ltac:(lia))
      as [[Ho _]|(p' & st1 & g' & Hrun' & Hinv' & Hold & Hnew)].
    { rewrite Ho in Hrun. discriminate. }
    rewrite Hrun' in Hrun. inversion Hrun. subst p' st1. clear Hrun.
    exists g'. split; [exact Hinv'|].
    intros q Hq. destruct (decide (p = 0)) as [E|Hne].
    + destruct (Hlive q Hq) as [H1 H2]. split; [apply Hold; exact H1|exact H2].
    + apply elem_of_cons in Hq as [->|Hq].
      * destruct (Hnew Hne) as [H1 H2]. split; assumption.
      * destruct (Hlive q Hq) as [H1 H2].
        split; [apply Hold; exact H1|exact H2].
  - destruct IH as (g & Hinv & Hlive).
    destruct (free_inv st g p Hinv (proj1 (Hlive p Hp)))
      as (st1 & g' & Hrun' & Hinv' & Hkeep).
    rewrite Hrun' in Hrun. inversion Hrun. subst st1. clear Hrun.
    exists g'. split; [exact Hinv'|].
    intros q Hq. apply list_elem_of_filter in Hq as [Hne Hq].
    destruct (Hlive q Hq) as [H1 H2]. split; [|exact H2].
    apply Hkeep; assumption.
Qed.

(** ** What [realloc] reads for a live object *)

Lemma realloc_run fuel obj s st old :
  obj <> 0 -> realloc_old_sz obj st = Ok (old, st) ->
  realloc fuel obj s st =
    if old >? s then Ok (obj, st)
    else (let* r := malloc fuel s in
          if negb (r =? 0) then memcpy r obj old;;; free obj;;; ret r
          else ret r) st.
Proof.
  intros Hobj Hold. unfold realloc.
  destruct (Z.eqb_spec obj 0) as [E|_]; [contradiction|].
  rewrite (bind_Ok _ _ _ _ _ Hold). destruct (old >? s); reflexivity.
Qed.

Lemma old_sz_small st g c b p :
  inv st g -> 0 <= c < CLASS_NUM -> b ∈ g_list g c -> p ∈ g_live g b ->
  exists csz,
    class_sizes !! Z.to_nat c = Some csz /\ 16 <= csz <= 2048
    /\ p <> 0
    /\ object_type_decode p st = Ok ((CLASS_SMALL, (p - b) / PAGE_SZ), st)
    /\ realloc_old_sz p st = Ok (csz - 1, st).
Proof.
  intros Hinv Hc Hb Hp.
  destruct (live_small_locate _ _ _ _ _ Hinv Hc Hb Hp)
    as (pg & csz & Hpg & Hcs & Hos & Hcb & Hp0 & _ & Hdec & Hstart & _).
  exists csz. split_and!; try assumption; try lia.
  unfold realloc_old_sz. rewrite (bind_Ok _ _ _ _ _ Hdec). cbn [fst snd].
  change (CLASS_SMALL =? CLASS_SMALL) with true. cbv iota.
  rewrite Hstart. rewrite (bind_Ok _ _ _ _ _ (get_page_run _ _ _ Hpg)).
  rewrite Hos. change SIZEOF_HEADER_T with 1. rewrite u64_small by lia.
  reflexivity.
Qed.

Lemma old_sz_large st g p :
  inv st g -> p ∈ g_large g ->
  exists n,
    mapped st !! (p - LARGE_HEADER_SIZE) = Some n /\ 0 < n
    /\ read_le 8 (mem st) (p - LARGE_HEADER_SIZE) = n
    /\ p <> 0
    /\ object_type_decode p st
       = Ok ((CLASS_LARGE, HEADER_PAGE_OFFSET_GET large_header), st)
    /\ realloc_old_sz p st = Ok (n, st).
Proof.
  intros Hinv Hp.
  destruct (inv_large _ _ Hinv p Hp) as (Hrole & n & Hmp & Hn & Hhd).
  destruct (mapped_block _ _ _ _ Hinv Hmp) as (Ha0 & _).
  destruct (inv_os _ _ Hinv) as [Hreg _].
  destruct (Hreg _ _ Hmp) as (_ & _ & Hn0 & _).
  assert (Hdec : object_type_decode p st
                 = Ok ((CLASS_LARGE, HEADER_PAGE_OFFSET_GET large_header), st)).
  { rewrite object_type_decode_run, Hhd.
    destruct large_header_decode as [E1 E2]. rewrite E1, E2. reflexivity. }
  exists n. change LARGE_HEADER_SIZE with 16 in *.
  split_and!; try assumption; try lia.
  unfold realloc_old_sz. rewrite (bind_Ok _ _ _ _ _ Hdec). cbn [fst snd].
  change (CLASS_LARGE =? CLASS_SMALL) with false.
  change (CLASS_LARGE =? CLASS_LARGE) with true. cbv iota.
  unfold GET_LARGER_ALLOC_SZ, load64, gets.
  change LARGE_HEADER_SIZE with 16. rewrite Hn. reflexivity.
Qed.

(** The stored old size of a live object is positive. *)
Lemma old_sz_live st g p :
  inv st g -> live_in g p ->
  p <> 0 /\ exists old, realloc_old_sz p st = Ok (old, st) /\ 0 < old.
Proof.
  intros Hinv [Hl|(c & b & Hc & Hb & Hp)].
  - destruct (old_sz_large _ _ _ Hinv Hl) as (n & _ & Hn & _ & Hp0 & _ & Hold).
    split; [exact Hp0|]. exists n. split; assumption.
  - destruct (old_sz_small _ _ _ _ _ Hinv Hc Hb Hp)
      as (csz & _ & Hcb & Hp0 & _ & Hold).
    split; [exact Hp0|]. exists (csz - 1). split; [exact Hold|lia].
Qed.

(** A live object whose header says "large" is one of the large objects. *)
Lemma live_large st g p off :
  inv st g -> live_in g p ->
  object_type_decode p st = Ok ((CLASS_LARGE, off), st) ->
  p ∈ g_large g.
Proof.
  intros Hinv [Hl|(c & b & Hc & Hb & Hp)] Hdec; [exact Hl|].
  destruct (old_sz_small _ _ _ _ _ Hinv Hc Hb Hp)
    as (csz & _ & _ & _ & Hdec' & _).
  rewrite Hdec' in Hdec. inversion Hdec.
Qed.

(** ** What [free] leaves alone *)

Lemma keeps_ret a {A} (x : A) : keeps_byte a (ret x).
Proof. intros st. reflexivity. Qed.

Lemma keeps_bind a {A B} (m : M A) (f : A -> M B) :
  keeps_byte a m -> (forall x, keeps_byte a (f x)) -> keeps_byte a (bind m f).
Proof.
  intros Hm Hf st. unfold bind. specialize (Hm st).
  destruct (m st) as [[x st1]| | |]; try exact Hm; try exact I.
  specialize (Hf x st1). destruct (f x st1) as [[y st2]| | |];
    try exact Hf; try exact I.
  rewrite Hf. exact Hm.
Qed.

Lemma keeps_gets a {A} (f : state -> A) : keeps_byte a (gets f).
Proof. intros st. reflexivity. Qed.

Lemma keeps_modify a (f : state -> state) :
  (forall st, read8 (mem (f st)) a = read8 (mem st) a) ->
  keeps_byte a (modify f).
Proof. intros H st. apply H. Qed.

Lemma keeps_fault a {A} : keeps_byte a (@fault A).
Proof. intros st. exact I. Qed.

Lemma keeps_out_of_fuel a {A} : keeps_byte a (@out_of_fuel A).
Proof. intros st. exact I. Qed.

Lemma keeps_get_page a page : keeps_byte a (get_page page).
Proof. intros st. unfold get_page. destruct (pages st !! page); easy. Qed.

Lemma keeps_put_page a page pg : keeps_byte a (put_page page pg).
Proof. intros st. reflexivity. Qed.

Lemma keeps_upd_page a page f : keeps_byte a (upd_page page f).
Proof.
  apply keeps_bind; [apply keeps_get_page|]. intros pg. apply keeps_put_page.
Qed.

Lemma keeps_get_heap a c : keeps_byte a (get_heap c).
Proof.
  intros st. unfold get_heap.
  destruct (idx_get (private_heap (thread_data st)) c); easy.
Qed.

Lemma keeps_put_heap a c h : keeps_byte a (put_heap c h).
Proof.
  intros st. unfold put_heap.
  destruct (idx_get (private_heap (thread_data st)) c); easy.
Qed.

Lemma keeps_load_word a r : keeps_byte a (load_word r).
Proof.
  intros st. unfold load_word. destruct r.
  - destruct (idx_get (top (thread_data st)) i); easy.
  - destruct (idx_get (global_freeheap st) i); easy.
  - destruct (pages st !! page); easy.
Qed.

Lemma keeps_store_word a r w : keeps_byte a (store_word r w).
Proof.
  intros st. unfold store_word. destruct r.
  - destruct (idx_get (top (thread_data st)) i); easy.
  - destruct (idx_get (global_freeheap st) i); easy.
  - destruct (pages st !! page); easy.
Qed.

Lemma keeps_interfere a r : keeps_byte a (interfere r).
Proof.
  intros st. unfold interfere. destruct (env st) as [|[w|] e]; try easy.
  exact (keeps_store_word a r w (set_env e st)).
Qed.

Lemma keeps_ATOMIC_CAS a r n o : keeps_byte a (ATOMIC_CAS r n o).
Proof.
  unfold ATOMIC_CAS. apply keeps_bind; [apply keeps_interfere|]. intros _.
  apply keeps_bind; [apply keeps_load_word|]. intros cur.
  destruct (cur =? o); [|apply keeps_ret].
  apply keeps_bind; [apply keeps_store_word|]. intros _.
  apply keeps_bind; [|intros _; apply keeps_ret].
  apply keeps_modify. intros st. reflexivity.
Qed.

Lemma keeps_store32 a x v : a < x \/ x + 4 <= a -> keeps_byte a (store32 x v).
Proof.
  intros H. apply keeps_modify. intros st. sst.
  apply read8_write_le_out. cbn. lia.
Qed.

Lemma keeps_store64 a x v : a < x \/ x + 8 <= a -> keeps_byte a (store64 x v).
Proof.
  intros H. apply keeps_modify. intros st. sst.
  apply read8_write_le_out. cbn. lia.
Qed.

Lemma keeps_munmap_wrap a b n : keeps_byte a (munmap_wrap b n).
Proof.
  intros st. unfold munmap_wrap. destruct (mapped st !! b) as [k|]; [|easy].
  destruct (k =? n); easy.
Qed.

Ltac keeps :=
  repeat match goal with
    | |- keeps_byte _ (bind _ _) => apply keeps_bind; [|intros ?]
    | |- keeps_byte _ (if ?b then _ else _) => destruct b
    | |- keeps_byte _ (ret _) => apply keeps_ret
    | |- keeps_byte _ (gets _) => apply keeps_gets
    | |- keeps_byte _ attempts => apply keeps_gets
    | |- keeps_byte _ (load8 _) => apply keeps_gets
    | |- keeps_byte _ (load32 _) => apply keeps_gets
    | |- keeps_byte _ (load64 _) => apply keeps_gets
    | |- keeps_byte _ fault => apply keeps_fault
    | |- keeps_byte _ out_of_fuel => apply keeps_out_of_fuel
    | |- keeps_byte _ (get_page _) => apply keeps_get_page
    | |- keeps_byte _ (put_page _ _) => apply keeps_put_page
    | |- keeps_byte _ (upd_page _ _) => apply keeps_upd_page
    | |- keeps_byte _ (get_heap _) => apply keeps_get_heap
    | |- keeps_byte _ (put_heap _ _) => apply keeps_put_heap
    | |- keeps_byte _ (load_word _) => apply keeps_load_word
    | |- keeps_byte _ (store_word _ _) => apply keeps_store_word
    | |- keeps_byte _ (ATOMIC_CAS _ _ _) => apply keeps_ATOMIC_CAS
    | |- keeps_byte _ (munmap_wrap _ _) => apply keeps_munmap_wrap
    end.

Lemma keeps_stack_insert a r page : keeps_byte a (stack_insert r page).
Proof. unfold stack_insert. keeps. Qed.

Lemma keeps_stack_insert_atomic_loop a n : forall r page,
  keeps_byte a (stack_insert_atomic_loop n r page).
Proof.
  induction n as [|k IH]; intros r page; cbn [stack_insert_atomic_loop].
  - keeps.
  - keeps. apply IH.
Qed.

Lemma keeps_stack_insert_atomic a r page :
  keeps_byte a (stack_insert_atomic r page).
Proof.
  unfold stack_insert_atomic. keeps.
  apply keeps_stack_insert_atomic_loop.
Qed.

Lemma keeps_ret_pageblock a b n : keeps_byte a (ret_pageblock b n).
Proof.
  unfold ret_pageblock. keeps.
  - apply keeps_stack_insert.
  - apply keeps_stack_insert_atomic.
Qed.

Lemma keeps_remove_node_dq a c page : keeps_byte a (remove_node_dq c page).
Proof. unfold remove_node_dq. keeps. Qed.

Lemma keeps_insert_front_dq a c page : keeps_byte a (insert_front_dq c page).
Proof. unfold insert_front_dq. keeps. Qed.





(** The type that [free] decodes from the header byte of [obj]. *)
Lemma free_by_type obj st :
  obj <> 0 ->
  let hd := read8 (mem st) (obj - 1) in
  let ty := if HEADER_IS_BLOCK_VALID hd then HEADER_PAGE_GET_TYPE hd else -1 in
  free obj st =
    (if ty =? CLASS_SMALL then
       let* pg := get_page (GET_PAGE_START obj (HEADER_PAGE_OFFSET_GET hd)) in
       match class_size_decode (u64 (object_size pg - 1)) with
       | None => fault
       | Some (c, _) =>
           let* tid := gets (fun st => thread_id (thread_data st)) in
           page_internal_free c
             (GET_PAGE_START obj (HEADER_PAGE_OFFSET_GET hd)) obj tid
       end
     else if ty =? CLASS_LARGE then large_free obj
     else PANIC_ERR "Broken object, aborting..[free]") st.
Proof.
  intros Hobj hd ty. unfold free.
  destruct (Z.eqb_spec obj 0) as [E|_]; [contradiction|].
  rewrite (bind_Ok _ _ _ _ _ (object_type_decode_run obj st)).
  cbn [fst snd]. fold hd. fold ty.
  destruct (ty =? CLASS_SMALL); [reflexivity|].
  destruct (ty =? CLASS_LARGE); reflexivity.
Qed.



(** ** Remote free *)

Lemma store_word_sync_thread_data page w st u st' :
  store_word (PageSync page) w st = Ok (u, st') ->
  thread_data st' = thread_data st.
Proof.
  unfold store_word. destruct (pages st !! page); [|discriminate].
  intros H. injection H as _ <-. reflexivity.
Qed.

Lemma ATOMIC_CAS_sync_thread_data page n o st x st' :
  ATOMIC_CAS (PageSync page) n o st = Ok (x, st') ->
  thread_data st' = thread_data st.
Proof.
  unfold ATOMIC_CAS. intros H.
  apply bind_inv in H as (u & s1 & Hi & H).
  assert (E1 : thread_data s1 = thread_data st).
  { unfold interfere in Hi. destruct (env st) as [|[w|] e'].
    - injection Hi as _ <-. reflexivity.
    - apply store_word_sync_thread_data in Hi. exact Hi.
    - injection Hi as _ <-. reflexivity. }
  apply bind_inv in H as (c & s2 & Hl & H).
  apply load_word_inv in Hl. subst s2.
  destruct (c =? o).
  - apply bind_inv in H as (u1 & s3 & Hs & H).
    apply store_word_sync_thread_data in Hs.
    apply bind_inv in H as (u2 & s5 & Hm & H).
    apply modify_inv in Hm. apply ret_inv in H as [_ ->]. subst s5.
    cbn [thread_data set_cas_log]. rewrite Hs. exact E1.
  - apply ret_inv in H as [_ ->]. exact E1.
Qed.

(** The loop ends with exactly one successful compare-and-swap on the sync
    word; [old] is the word that this attempt had read. *)
Lemma remote_free_cas_log n : forall page obj off tid st b st',
  remote_free_cas n page obj off tid st = Ok (b, st') ->
  exists old new,
    cas_log st' = (PageSync page, old, new) :: cas_log st
    /\ b = (rf_thread_id old =? ORPHAN_ID)
    /\ load_word (PageSync page) st' = Ok (new, st')
    /\ rf_remotely_freed new = off mod 2 ^ 24
    /\ rf_count new = (rf_count old + 1) mod 2 ^ 16
    /\ rf_thread_id new
       = (if rf_thread_id old =? ORPHAN_ID then tid mod 2 ^ 24
          else rf_thread_id old)
    /\ thread_data st' = thread_data st.
Proof.
  induction n as [|k IH]; intros page obj off tid st b st' H; [discriminate|].
  cbn [remote_free_cas] in H.
  apply bind_inv in H as (cur & s & Hl & H).
  apply load_word_inv in Hl. subst s.
  apply bind_inv in H as (u & s1 & Hs & H).
  apply modify_inv in Hs. subst s1.
  apply bind_inv in H as (old & s2 & Ho & H).
  apply gets_inv in Ho as [-> ->]. sst.
  apply bind_inv in H as (expd & s3 & He & H).
  apply gets_inv in He as [-> ->]. sst.
  set (old := read_le 8 (write_le 8 (mem st) obj cur) obj) in *.
  apply bind_inv in H as ([ok e] & s4 & Hc & H).
  pose proof (ATOMIC_CAS_sync_thread_data _ _ _ _ _ _ Hc) as Htd'.
  apply ATOMIC_CAS_inv in Hc as [(-> & -> & Hlog & Hld)|(-> & Hlog)]; sst.
  - apply ret_inv in H as [-> ->].
    eexists old, _. split; [exact Hlog|]. split; [reflexivity|].
    split; [exact Hld|].
    autorewrite with fields.
    split; [reflexivity|]. split.
    + destruct (rf_thread_id old =? ORPHAN_ID); autorewrite with fields;
        reflexivity.
    + split; [|exact Htd'].
      destruct (rf_thread_id old =? ORPHAN_ID); autorewrite with fields;
        reflexivity.
  - apply bind_inv in H as (u' & s5 & Hs & H).
    apply modify_inv in Hs. subst s5.
    apply IH in H as (old' & new' & Hg & Hb & Hld & H1 & H2 & H3 & H4).
    sst. exists old', new'. rewrite Hg, Hlog, H4, Htd'.
    split_and!; try assumption; reflexivity.
Qed.

Lemma insert_front_dq_head c page st st' :
  insert_front_dq c page st = Ok (tt, st') ->
  exists h h' pg',
    idx_get (private_heap (thread_data st)) c = Some h
    /\ idx_get (private_heap (thread_data st')) c = Some h'
    /\ head h' = page
    /\ pages st' !! page = Some pg'
    /\ (head h <> page -> next pg' = head h).
Proof.
  unfold insert_front_dq. intros H.
  apply bind_inv in H as (h & s & Hh & H).
  apply get_heap_inv in Hh as [-> Hh]. exists h.
  assert (Hlen : (Z.to_nat c < length (private_heap (thread_data st)))%nat
                 /\ 0 <= c).
  { unfold idx_get in Hh. destruct (Z.leb_spec 0 c); [|discriminate].
    split; [|assumption]. apply lookup_lt_is_Some. eexists. exact Hh. }
  destruct (Z.eqb_spec (head h) 0) as [Hz|Hnz].
  - apply bind_inv in H as (u & s1 & Hp & H).
    apply put_heap_inv in Hp. subst s1.
    apply upd_page_inv in H as (pg & Hpg & ->). sst.
    eexists _, _. split; [exact Hh|]. split.
    { unfold idx_get, idx_set. destruct (Z.leb_spec 0 c); [|lia].
      apply list_lookup_insert_eq. lia. }
    split; [reflexivity|]. split; [apply lookup_insert_eq|].
    intros _. sst. rewrite Hz. reflexivity.
  - apply bind_inv in H as (u & s1 & Hu & H).
    apply upd_page_inv in Hu as (pg & Hpg & ->).
    apply bind_inv in H as (pg1 & s2 & Hg & H).
    apply get_page_inv in Hg as [-> Hpg1]. sst.
    rewrite lookup_insert_eq in Hpg1. inversion Hpg1. subst pg1. clear Hpg1.
    sst.
    apply bind_inv in H as (u2 & s3 & Hu2 & H).
    apply upd_page_inv in Hu2 as (hp & Hhp & ->). sst.
    apply bind_inv in H as (h2 & s4 & Hh2 & H).
    apply get_heap_inv in Hh2 as [-> Hh2]. sst.
    apply put_heap_inv in H. subst st'. sst.
    destruct (decide (head h = page)) as [E|Hne].
    + eexists _, _. split; [exact Hh|]. split.
      { unfold idx_get, idx_set. destruct (Z.leb_spec 0 c); [|lia].
        apply list_lookup_insert_eq. lia. }
      split; [reflexivity|]. rewrite E. split; [apply lookup_insert_eq|].
      intros Hc. contradiction.
    + eexists _, _. split; [exact Hh|]. split.
      { unfold idx_get, idx_set. destruct (Z.leb_spec 0 c); [|lia].
        apply list_lookup_insert_eq. lia. }
      split; [reflexivity|]. split.
      { rewrite lookup_insert_ne by exact Hne. apply lookup_insert_eq. }
      intros _. sst. reflexivity.
Qed.

Lemma insert_front_dq_log c page st u st' :
  insert_front_dq c page st = Ok (u, st') -> cas_log st' = cas_log st.
Proof.
  unfold insert_front_dq. intros H.
  apply bind_inv in H as (h & s & Hh & H).
  apply get_heap_inv in Hh as [-> Hh].
  destruct (head h =? 0).
  - apply bind_inv in H as (u1 & s1 & Hp & H).
    apply put_heap_inv in Hp. subst s1.
    apply upd_page_log in H. rewrite H. reflexivity.
  - apply bind_inv in H as (u1 & s1 & Hu & H).
    apply upd_page_log in Hu.
    apply bind_inv in H as (pg1 & s2 & Hg & H).
    apply get_page_inv in Hg as [-> _].
    apply bind_inv in H as (u2 & s3 & Hu2 & H).
    apply upd_page_log in Hu2.
    apply bind_inv in H as (h2 & s4 & Hh2 & H).
    apply get_heap_inv in Hh2 as [-> _].
    apply put_heap_inv in H. subst st'. sst. congruence.
Qed.

(** A remote free, from the call to the state it leaves. *)
Lemma remote_free_run c page obj tid st pg st' :
  0 <= tid < 2 ^ THREAD_ID_BITS ->
  pages st !! page = Some pg ->
  rf_thread_id (sync pg) <> tid ->
  page_internal_free c page obj tid st = Ok (tt, st') ->
  exists old new st1,
    cas_log st1 = (PageSync page, old, new) :: cas_log st
    /\ cas_log st' = cas_log st1
    /\ rf_remotely_freed new = u32 (obj - page) mod 2 ^ 24
    /\ rf_count new = (rf_count old + 1) mod 2 ^ 16
    /\ (rf_thread_id old <> ORPHAN_ID ->
          rf_thread_id new = rf_thread_id old /\ st' = st1)
    /\ (rf_thread_id old = ORPHAN_ID ->
          rf_thread_id new = tid
          /\ insert_front_dq c page st1 = Ok (tt, st')
          /\ exists h', idx_get (private_heap (thread_data st')) c = Some h'
                        /\ head h' = page).
Proof.
  intros Htid Hpg Hown H. unfold page_internal_free in H.
  rewrite (bind_Ok _ _ _ _ _ (get_page_run _ _ _ Hpg)) in H.
  destruct (Z.eqb_spec (rf_thread_id (sync pg)) tid) as [E|_];
    [contradiction|].
  apply bind_inv in H as (n & s & Hn & H).
  apply gets_inv in Hn as [-> ->].
  apply bind_inv in H as (b & st1 & Hcas & H).
  apply remote_free_cas_log in Hcas
    as (old & new & Hlog & Hb & Hld & Hoff & Hcnt & Htidn & _).
  apply bind_inv in H as (pg1 & s2 & Hg & H).
  apply get_page_inv in Hg as [-> Hpg1].
  assert (Hsync : sync pg1 = new).
  { unfold load_word in Hld. rewrite Hpg1 in Hld. injection Hld as E.
    exact E. }
  exists old, new, st1. split; [exact Hlog|].
  rewrite Hsync, Htidn, Hb in H.
  destruct (Z.eqb_spec (rf_thread_id old) ORPHAN_ID) as [Ho|Ho].
  - assert (Etid : tid mod 2 ^ 24 = tid).
    { apply Z.mod_small. change THREAD_ID_BITS with 24 in Htid. exact Htid. }
    rewrite Etid, Z.eqb_refl in H. cbn [andb] in H.
    split; [exact (insert_front_dq_log _ _ _ _ _ H)|].
    split; [exact Hoff|]. split; [exact Hcnt|]. split; [contradiction|].
    intros _. rewrite Htidn, Etid in *. split; [reflexivity|].
    split; [exact H|].
    destruct (insert_front_dq_head _ _ _ _ H)
      as (h & h' & pg' & _ & Hh' & Hhead & _).
    exists h'. split; assumption.
  - cbn [andb] in H. apply ret_inv in H as [_ ->].
    split; [reflexivity|]. split; [exact Hoff|]. split; [exact Hcnt|].
    split; [|contradiction].
    intros _. split; [exact Htidn|reflexivity].
Qed.

(** ** With enough fuel [malloc] returns *)

Lemma walk_bound_le g c :
  0 <= c < CLASS_NUM -> (length (g_list g c) <= walk_bound g)%nat.
Proof.
  intros Hc. unfold walk_bound.
  pose proof (proj1 (list_max_le
    (map (fun c => length (g_list g (Z.of_nat c)))
         (seq 0 (Z.to_nat CLASS_NUM))) _) (Nat.le_refl _)) as Hall.
  rewrite List.Forall_forall in Hall.
  apply (Hall (length (g_list g c))).
  apply in_map_iff. exists (Z.to_nat c). split.
  - rewrite Z2Nat.id by lia. reflexivity.
  - apply in_seq. change CLASS_NUM with 64 in *. lia.
Qed.

Lemma malloc_returns st g sz fuel :
  inv st g -> 0 <= sz -> (walk_bound g <= fuel)%nat ->
  exists p st' g',
    malloc fuel sz st = Ok (p, st') /\ inv st' g'
    /\ (forall q, live_in g q -> live_in g' q)
    /\ (p <> 0 -> p mod 16 = 0 /\ live_in g' p).
Proof.
  intros Hinv Hsz Hfuel.
  destruct (malloc_cases st g fuel sz Hinv Hsz) as [(_ & c & Hc & Hlt)|Hok];
    [|exact Hok].
  pose proof (walk_bound_le g c Hc). lia.
Qed.

(** ** From what the code reads to the ghost heap *)

Lemma live_small_found st g p off b pg c pn :
  inv st g -> live_in g p ->
  object_type_decode p st = Ok ((CLASS_SMALL, off), st) ->
  b = GET_PAGE_START p off ->
  pages st !! b = Some pg ->
  class_size_decode (u64 (object_size pg - 1)) = Some (c, pn) ->
  0 <= c < CLASS_NUM /\ b ∈ g_list g c /\ p ∈ g_live g b
  /\ pn = class_pages c.
Proof.
  intros Hinv [Hl|(c' & b' & Hc' & Hb' & Hp')] Hdec Hb Hpg Hcls.
  { destruct (old_sz_large _ _ _ Hinv Hl) as (n & _ & _ & _ & _ & Hd & _).
    rewrite Hd in Hdec. inversion Hdec. }
  destruct (live_small_locate _ _ _ _ _ Hinv Hc' Hb' Hp')
    as (pg0 & csz & Hpg0 & _ & Hos & _ & _ & _ & Hd & Hstart & Hcls0 & _).
  rewrite Hd in Hdec. injection Hdec as Hoff.
  rewrite Hoff in Hstart. rewrite Hstart in Hb. subst b'.
  rewrite Hpg in Hpg0. injection Hpg0 as <-.
  rewrite Hos, Hcls0 in Hcls. injection Hcls as <- <-.
  split_and!; try assumption; try reflexivity; lia.
Qed.

(** ** Histories given as data *)

Lemma run_reachable st0 ops : forall st live st' live',
  reachable st0 st live -> run ops st live = Some (st', live') ->
  reachable st0 st' live'.
Proof.
  induction ops as [|o ops IH]; intros st live st' live' Hr Hrun.
  - cbn [run] in Hrun. injection Hrun as <- <-. exact Hr.
  - destruct o as [fuel sz|p]; cbn [run] in Hrun.
    + destruct (bool_decide (0 <= sz < 2 ^ 64)) eqn:Hsz; [|discriminate].
      apply bool_decide_eq_true in Hsz.
      destruct (malloc fuel sz st) as [[q st1]| | |] eqn:Hm;
        try discriminate.
      apply (IH _ _ _ _ (reach_malloc st0 st live fuel sz q st1 Hr Hsz Hm)
                Hrun).
    + destruct (bool_decide (p ∈ live)) eqn:Hin; [|discriminate].
      apply bool_decide_eq_true in Hin.
      destruct (free p st) as [[[] st1]| | |] eqn:Hf; try discriminate.
      apply (IH _ _ _ _ (reach_free st0 st live p st1 Hr Hin Hf) Hrun).
Qed.

Lemma run_state_reachable ops st live :
  run ops boot [] = Some (st, live) -> reachable boot st live.
Proof. apply run_reachable. apply reach_init. Qed.

(** ** Pointer and header codecs *)

Lemma SET_PTR_range b :
  0 <= b < 2 ^ 52 -> 0 <= SET_PTR b < 2 ^ 40.
Proof.
  intros Hb. rewrite SET_PTR_eq by lia.
  split; [apply Z.div_pos; lia|]. apply Z.div_lt_upper_bound; lia.
Qed.

Lemma header_write_small_run page obj st :
  header_write_small page obj st =
    Ok (tt, set_mem (write8 (mem st) (obj - 1)
                       (small_header (Z.shiftr (u64 (obj - page)) PAGE_BITS)))
                    st).
Proof.
  unfold header_write_small, store8, modify, small_header.
  change SIZEOF_HEADER_T with 1.
  unfold write8. rewrite (u8_idem _). reflexivity.
Qed.

Lemma page_offset_of page obj :
  0 <= page -> page < obj -> obj < 2 ^ 64 ->
  Z.shiftr (u64 (obj - page)) PAGE_BITS = (obj - page) / PAGE_SZ.
Proof.
  intros H0 Hlt Htop. rewrite u64_small by lia.
  change PAGE_BITS with 12. rewrite Z.shiftr_div_pow2 by lia.
  rewrite PAGE_SZ_val. reflexivity.
Qed.

Lemma dq_count_range w : 0 <= dq_count w < 2 ^ 12.
Proof. unfold dq_count. apply (get_field_range 40 12); lia. Qed.

Lemma dq_count_idem w : dq_count w mod 2 ^ 12 = dq_count w.
Proof. apply Z.mod_small. apply dq_count_range. Qed.

Lemma SET_PTR_pos b :
  0 < b < 2 ^ 52 -> b mod PAGE_SZ = 0 -> 0 < SET_PTR b < 2 ^ 40.
Proof.
  rewrite PAGE_SZ_val. intros Hb Hal. rewrite SET_PTR_eq by lia.
  pose proof (Z.div_mod b 4096 ltac:(lia)).
  split; [|apply Z.div_lt_upper_bound; lia].
  apply Z.div_str_pos. split; [lia|].
  destruct (Z.lt_ge_cases b 4096) as [Hsmall|]; [|lia].
  rewrite Z.mod_small in Hal by lia. lia.
Qed.

(** ** [memset] and the guard of [calloc] *)

Lemma read8_fill_bytes n : forall m dst v b,
  read8 (fill_bytes n m dst v) b =
    if decide (dst <= b < dst + Z.of_nat n) then u8 v else read8 m b.
Proof.
  induction n as [|k IH]; intros m dst v b.
  - cbn [fill_bytes]. destruct (decide _); [lia|reflexivity].
  - cbn [fill_bytes]. rewrite IH, read8_write8.
    destruct (decide (dst + 1 <= b < dst + 1 + Z.of_nat k)) as [H1|H1];
      destruct (decide (dst <= b < dst + Z.of_nat (S k))) as [H2|H2];
      try reflexivity; try lia;
      destruct (decide (dst = b)) as [E|E]; try reflexivity; lia.
Qed.

Lemma calloc_guard nmemb sz :
  0 <= nmemb < 2 ^ 64 -> 0 <= sz < 2 ^ 64 ->
  negb (nmemb =? 0) && negb (u64 (nmemb * sz) / nmemb =? sz)
  = (2 ^ 64 <=? nmemb * sz).
Proof.
  intros Hn Hs. destruct (Z.eqb_spec nmemb 0) as [->|Hn0]; cbn [negb andb].
  { rewrite Z.mul_0_l. reflexivity. }
  destruct (Z.leb_spec (2 ^ 64) (nmemb * sz)) as [Hov|Hok].
  - assert (Hlt : u64 (nmemb * sz) / nmemb < sz).
    { apply Z.div_lt_upper_bound; [lia|].
      pose proof (Z.mod_pos_bound (nmemb * sz) (2 ^ 64) ltac:(lia)).
      unfold u64. lia. }
    destruct (Z.eqb_spec (u64 (nmemb * sz) / nmemb) sz); [lia|reflexivity].
  - rewrite u64_small by nia.
    rewrite Z.mul_comm, Z.div_mul by exact Hn0.
    rewrite Z.eqb_refl. reflexivity.
Qed.

(** ** Where the live objects lie *)

Lemma region_unique mp b n b' n' x :
  os_ok mp -> mp !! b = Some n -> mp !! b' = Some n' ->
  b <= x < b + n * PAGE_SZ -> b' <= x < b' + n' * PAGE_SZ -> b = b'.
Proof.
  intros [_ Hdis] Hb Hb' Hx Hx'.
  destruct (decide (b = b')) as [E|Hne]; [exact E|].
  destruct (Hdis b n b' n' Hb Hb' Hne); lia.
Qed.

(** A live slot, its header byte included, lies between the header of its
    page-block and the end of the block. *)
Lemma live_small_region st g c b p :
  inv st g -> 0 <= c < CLASS_NUM -> b ∈ g_list g c -> p ∈ g_live g b ->
  exists csz i,
    class_sizes !! Z.to_nat c = Some csz /\ 16 <= csz <= 2048
    /\ mapped st !! b = Some (class_pages c)
    /\ 0 <= i < g_slots g b /\ p = b + FIRST_PAYLOAD + i * csz
    /\ p - 1 + csz <= b + class_pages c * PAGE_SZ
    /\ realloc_old_sz p st = Ok (csz - 1, st).
Proof.
  intros Hinv Hc Hb Hp.
  destruct (heap_block _ _ _ _ Hinv Hc Hb) as [Hrole Hbo].
  destruct Hbo as (pg & csz & Hpg & Hcs & Hmp & Hos & Hpn & Hsy & Hk0 & Hun
                   & Hlim & Hal & Hlen & Hnd & Hsl & Hhd & Hch).
  pose proof (class_sizes_bounds _ _ Hcs) as [Hcb Hcm].
  destruct (Hsl p ltac:(apply elem_of_app; left; exact Hp)) as (i & Hi & Ep).
  destruct (old_sz_small _ _ _ _ _ Hinv Hc Hb Hp)
    as (csz' & Hcs' & _ & _ & _ & Hold).
  rewrite Hcs in Hcs'. injection Hcs' as <-.
  exists csz, i. split_and!; try assumption; try lia.
  pose proof (slot_step i (g_slots g b) csz ltac:(lia) ltac:(lia)).
  change FIRST_PAYLOAD with 48 in *. lia.
Qed.

Lemma live_large_region st g p :
  inv st g -> p ∈ g_large g ->
  exists n,
    mapped st !! (p - LARGE_HEADER_SIZE) = Some n /\ 0 < n
    /\ g_role g (p - LARGE_HEADER_SIZE) = Some IsLarge
    /\ realloc_old_sz p st = Ok (n, st).
Proof.
  intros Hinv Hp.
  destruct (old_sz_large _ _ _ Hinv Hp) as (n & Hmp & Hn & _ & _ & _ & Hold).
  destruct (inv_large _ _ Hinv p Hp) as (Hrole & _).
  exists n. split_and!; assumption.
Qed.

(** Every live object has a positive old size, and the bytes from the
    object up to that size lie in one mapping. *)
Lemma live_in_bounds st g p :
  inv st g -> live_in g p ->
  exists old b n,
    realloc_old_sz p st = Ok (old, st) /\ 0 < old
    /\ mapped st !! b = Some n /\ b < p /\ p + old <= b + n * PAGE_SZ.
Proof.
  intros Hinv [Hl|(c & b & Hc & Hb & Hp)].
  - destruct (live_large_region _ _ _ Hinv Hl) as (n & Hmp & Hn & _ & Hold).
    exists n, (p - LARGE_HEADER_SIZE), n.
    change LARGE_HEADER_SIZE with 16 in *. rewrite PAGE_SZ_val.
    split_and!; try assumption; lia.
  - destruct (live_small_region _ _ _ _ _ Hinv Hc Hb Hp)
      as (csz & i & _ & Hcb & Hmp & Hi & Ep & Hend & Hold).
    exists (csz - 1), b, (class_pages c).
    change FIRST_PAYLOAD with 48 in *.
    split_and!; try assumption; lia.
Qed.

(** Two live objects that differ do not overlap: the bytes of one, up to
    its old size, end before the header byte of the other. *)
Lemma live_apart st g p q :
  inv st g -> live_in g p -> live_in g q -> p <> q ->
  exists op oq,
    realloc_old_sz p st = Ok (op, st) /\ realloc_old_sz q st = Ok (oq, st)
    /\ (p + op < q \/ q + oq < p).
Proof.
  intros Hinv Hp Hq Hne.
  assert (Hos := inv_os _ _ Hinv).
  assert (Hcase : forall x, live_in g x ->
            exists old b n r,
              realloc_old_sz x st = Ok (old, st)
              /\ mapped st !! b = Some n /\ g_role g b = Some r
              /\ b + 16 <= x /\ x + old <= b + n * PAGE_SZ
              /\ ((r = IsLarge /\ x = b + 16)
                  \/ exists c csz i,
                       r = InClass c /\ 0 <= c < CLASS_NUM /\ b ∈ g_list g c
                       /\ x ∈ g_live g b
                       /\ class_sizes !! Z.to_nat c = Some csz
                       /\ old = csz - 1 /\ 0 <= i
                       /\ x = b + FIRST_PAYLOAD + i * csz)).
  { intros x [Hl|(c & b & Hc & Hb & Hx)].
    - destruct (live_large_region _ _ _ Hinv Hl)
        as (n & Hmp & Hn & Hr & Hold).
      exists n, (x - LARGE_HEADER_SIZE), n, IsLarge.
      change LARGE_HEADER_SIZE with 16 in *. rewrite PAGE_SZ_val.
      split_and!; try assumption; try lia. left. split; [reflexivity|lia].
    - destruct (live_small_region _ _ _ _ _ Hinv Hc Hb Hx)
        as (csz & i & Hcs & Hcb & Hmp & Hi & Ep & Hend & Hold).
      destruct (heap_block _ _ _ _ Hinv Hc Hb) as [Hrole _].
      exists (csz - 1), b, (class_pages c), (InClass c).
      change FIRST_PAYLOAD with 48 in *.
      assert (0 <= i * csz) by nia.
      split_and!; try assumption; try lia.
      right. exists c, csz, i. split_and!; try assumption; try reflexivity;
        lia. }
  destruct (Hcase p Hp) as (op & bp & np & rp & Hop & Hmp & Hrp & Hlo & Hhi
                            & Hkp).
  destruct (Hcase q Hq) as (oq & bq & nq & rq & Hoq & Hmq & Hrq & Hlo' & Hhi'
                            & Hkq).
  exists op, oq. split; [exact Hop|]. split; [exact Hoq|].
  destruct (old_sz_live _ _ _ Hinv Hp) as (_ & op' & Hop' & Hpos).
  rewrite Hop in Hop'. injection Hop' as <-.
  destruct (old_sz_live _ _ _ Hinv Hq) as (_ & oq' & Hoq' & Hpos').
  rewrite Hoq in Hoq'. injection Hoq' as <-.
  destruct (decide (bp = bq)) as [E|Hb].
  - subst bq. rewrite Hrp in Hrq. injection Hrq as <-.
    destruct Hkp as [[-> Ep]|(c & csz & i & -> & Hc & Hbl & Hpl & Hcs & Eo
                              & Hi & Ep)].
    + destruct Hkq as [[_ Eq]|(c' & csz' & i' & E & _)]; [lia|discriminate].
    + destruct Hkq as [[E _]|(c' & csz' & j & E & Hc' & _ & Hql & Hcs' & Eo'
                              & Hj & Eq)]; [discriminate|].
      injection E as <-. rewrite Hcs in Hcs'. injection Hcs' as <-.
      pose proof (class_sizes_bounds _ _ Hcs) as [Hcb _].
      change FIRST_PAYLOAD with 48 in *.
      destruct (slot_cases i j csz ltac:(lia)) as [E|[E|E]]; [|lia|lia].
      exfalso. apply Hne. rewrite Ep, Eq, E. reflexivity.
  - destruct Hos as [_ Hdis].
    destruct (Hdis bp np bq nq Hmp Hmq Hb); lia.
Qed.

(** ** What [malloc] returns is new, and of the class asked for *)

Lemma live_unique_block st g c1 b1 c2 b2 p :
  inv st g ->
  0 <= c1 < CLASS_NUM -> b1 ∈ g_list g c1 -> p ∈ g_live g b1 ->
  0 <= c2 < CLASS_NUM -> b2 ∈ g_list g c2 -> p ∈ g_live g b2 ->
  b1 = b2.
Proof.
  intros Hinv Hc1 Hb1 Hp1 Hc2 Hb2 Hp2.
  destruct (live_small_region _ _ _ _ _ Hinv Hc1 Hb1 Hp1)
    as (csz1 & i1 & _ & Hcb1 & Hm1 & Hi1 & E1 & Hend1 & _).
  destruct (live_small_region _ _ _ _ _ Hinv Hc2 Hb2 Hp2)
    as (csz2 & i2 & _ & Hcb2 & Hm2 & Hi2 & E2 & Hend2 & _).
  change FIRST_PAYLOAD with 48 in *.
  assert (0 <= i1 * csz1) by nia. assert (0 <= i2 * csz2) by nia.
  apply (region_unique (mapped st) b1 _ b2 _ p (inv_os _ _ Hinv) Hm1 Hm2);
    lia.
Qed.

Lemma live_not_both st g c b p :
  inv st g -> 0 <= c < CLASS_NUM -> b ∈ g_list g c -> p ∈ g_live g b ->
  ~ p ∈ g_large g.
Proof.
  intros Hinv Hc Hb Hp Hl.
  destruct (live_small_region _ _ _ _ _ Hinv Hc Hb Hp)
    as (csz & i & _ & Hcb & Hm & Hi & E & Hend & _).
  destruct (live_large_region _ _ _ Hinv Hl) as (n & Hmn & Hn & Hrole & _).
  destruct (heap_block _ _ _ _ Hinv Hc Hb) as [Hr _].
  change FIRST_PAYLOAD with 48 in *. change LARGE_HEADER_SIZE with 16 in *.
  assert (0 <= i * csz) by nia.
  assert (E' : b = p - 16).
  { apply (region_unique (mapped st) b _ (p - 16) _ p (inv_os _ _ Hinv) Hm
             Hmn); rewrite PAGE_SZ_val in *; lia. }
  rewrite <- E' in Hrole. rewrite Hr in Hrole. discriminate.
Qed.

Lemma fresh_in_block st' g c b k fr r :
  inv st' (set_g_block b k fr (r :: g_live g b) g) ->
  0 <= c < CLASS_NUM -> b ∈ g_list g c ->
  ~ live_in g r.
Proof.
  intros Hinv Hc Hb Hlive.
  set (g' := set_g_block b k fr (r :: g_live g b) g) in *.
  assert (Hb' : b ∈ g_list g' c) by exact Hb.
  assert (Hr' : r ∈ g_live g' b).
  { unfold g'. gst. rewrite fupd_eq. ehere. }
  destruct Hlive as [Hl|(c2 & b2 & Hc2 & Hb2 & Hr2)].
  - exact (live_not_both _ _ _ _ _ Hinv Hc Hb' Hr' Hl).
  - assert (Hr2' : r ∈ g_live g' b2).
    { unfold g'. gst. unfold fupd.
      destruct (decide (b2 = b)) as [->|_]; [efurther|]; exact Hr2. }
    pose proof (live_unique_block _ _ _ _ _ _ _ Hinv Hc Hb' Hr' Hc2 Hb2 Hr2')
      as E.
    subst b2.
    destruct (heap_block _ _ _ _ Hinv Hc Hb') as [_ Hbo].
    destruct Hbo as (pg & csz & _ & _ & _ & _ & _ & _ & _ & _ & _ & _ & _
                     & Hnd & _).
    unfold g' in Hnd. gst. rewrite !fupd_eq in Hnd.
    cbn [app] in Hnd. apply NoDup_cons in Hnd as [Hnin _].
    apply Hnin. apply elem_of_app. left. exact Hr2.
Qed.

Lemma malloc_small_strong st g fuel c :
  inv st g -> 0 <= c < CLASS_NUM ->
  let m :=
    (let* bin := get_heap c in
     let* r := malloc_walk fuel (head bin) in
     if negb (r =? 0) then ret r
     else
       let* alloc := get_pageblock (class_pages c) in
       if alloc =? 0 then ret 0
       else
         let* tid := gets (fun st => thread_id (thread_data st)) in
         let* page := page_internal_init alloc c (class_pages c) tid in
         insert_front_dq c page;;;
         page_internal_alloc fuel page) in
  (m st = OutOfFuel /\ (fuel < length (g_list g c))%nat)
  \/ exists p st' g',
       m st = Ok (p, st') /\ inv st' g'
       /\ (forall q, live_in g q -> live_in g' q)
       /\ (p <> 0 ->
           ~ live_in g p
           /\ exists b, b ∈ g_list g' c /\ p ∈ g_live g' b).
Proof.
  intros Hinv Hc m. unfold m. clear m.
  destruct (inv_heaps _ _ Hinv c Hc) as (h & Hh & Hdl & Hnd & Hroles).
  rewrite (bind_Ok _ _ _ _ _ (get_heap_run _ _ _ Hh)).
  destruct Hdl as (Hhd & _ & Hd). rewrite Hhd.
  destruct (malloc_walk_inv st g c Hinv Hc _ 0 fuel Hd (fun b H => H))
    as [[Ho Hlt]|(r & st1 & Hw & Hcase)].
  { left. unfold bind at 1. rewrite Ho. split; [reflexivity|exact Hlt]. }
  right. rewrite (bind_Ok _ _ _ _ _ Hw).
  destruct Hcase as [[-> ->]|(Hr0 & Hr16 & b & k & fr & Hb & Hinv1)].
  2:{ destruct (Z.eqb_spec r 0) as [E|_]; [contradiction|]. cbn [negb].
      eexists _, _, _. split; [reflexivity|]. split; [exact Hinv1|].
      destruct (live_in_new g b k fr r c Hc Hb) as [Hnew Hold].
      split; [exact Hold|]. intros _.
      split; [exact (fresh_in_block _ _ _ _ _ _ _ Hinv1 Hc Hb)|].
      exists b. gst. rewrite fupd_eq. split; [exact Hb|ehere]. }
  cbn [Z.eqb negb].
  destruct (get_pageblock_inv st g c Hinv Hc)
    as (a & st2 & Hget & [[-> Hinv2]
                         |(Ha0 & g2 & Hinv2 & Hrole2 & Hmp2 & Hsame)]).
  { rewrite (bind_Ok _ _ _ _ _ Hget). cbn [Z.eqb].
    exists 0, st2, g. split; [reflexivity|]. split; [exact Hinv2|].
    split; [intros q Hq; exact Hq|]. intros E. contradiction. }
  rewrite (bind_Ok _ _ _ _ _ Hget).
  destruct (Z.eqb_spec a 0) as [E|_]; [contradiction|].
  unfold gets at 1. unfold bind at 1.
  destruct (install_block st2 g2 c a Hinv2 Hc Hrole2 Hmp2)
    as (st3 & st4 & Hinit & Hins & Htid & Hinv4).
  rewrite (bind_Ok _ _ _ _ _ Hinit).
  rewrite (bind_Ok _ _ _ _ _ Hins).
  set (g4 := set_g_block a 0 [] []
               (set_g_role (fupd (g_role g2) a (Some (InClass c)))
                  (set_g_list (fupd (g_list g2) c (a :: g_list g2 c)) g2)))
    in *.
  assert (Ha4 : a ∈ g_list g4 c).
  { unfold g4. gst. rewrite fupd_eq. ehere. }
  assert (Hlive4 : forall q, live_in g q -> live_in g4 q).
  { intros q Hq. apply (same_heap_live _ _ _ Hsame) in Hq.
    destruct Hq as [Hl|(c' & b' & Hc' & Hb' & Hq)]; [left; exact Hl|].
    right. exists c', b'. unfold g4. gst. split; [exact Hc'|].
    assert (Hne : b' <> a).
    { intros ->. destruct (heap_block _ _ _ _ Hinv2 Hc' Hb') as [Hr _].
      pose proof (role_apart _ _ _ _ Hrole2 Hr). discriminate. }
    split.
    - unfold fupd at 1. destruct (decide (c' = c)) as [->|_]; [|exact Hb'].
      efurther. exact Hb'.
    - rewrite fupd_ne by exact Hne. exact Hq. }
  destruct (alloc_in_block st4 g4 c a fuel Hinv4 Hc Ha4)
    as (r & st5 & Hrun & [[-> ->]|(Hr0 & Hr16 & k & fr & Hinv5)]).
  - exists 0, st4, g4. split; [exact Hrun|]. split; [exact Hinv4|].
    split; [exact Hlive4|]. intros E. contradiction.
  - eexists r, st5, _. split; [exact Hrun|]. split; [exact Hinv5|].
    destruct (live_in_new g4 a k fr r c Hc Ha4) as [Hnew Hold].
    split; [intros q Hq; apply Hold, Hlive4, Hq|].
    intros _. split.
    + intros Hl. apply (fresh_in_block _ _ _ _ _ _ _ Hinv5 Hc Ha4).
      apply Hlive4. exact Hl.
    + exists a. gst. rewrite fupd_eq. split; [exact Ha4|ehere].
Qed.

Lemma large_alloc_mapped sz st r st' :
  large_alloc sz st = Ok (r, st') -> r <> 0 ->
  region_ok (mapped st) (r - LARGE_HEADER_SIZE)
            (GET_PAGE_NUM (u64 (sz + LARGE_HEADER_SIZE))) = true
  /\ mapped st'
     = <[r - LARGE_HEADER_SIZE := GET_PAGE_NUM (u64 (sz + LARGE_HEADER_SIZE))]>
         (mapped st).
Proof.
  unfold large_alloc. intros H Hr.
  set (n := GET_PAGE_NUM (u64 (sz + LARGE_HEADER_SIZE))) in *.
  destruct (mmap_wrap_cases n st)
    as [E|[(a & rest & _ & _ & E)|(a & rest & _ & Hok & E)]];
    rewrite (bind_Ok _ _ _ _ _ E) in H.
  - cbn [Z.eqb] in H. apply ret_inv in H as [-> _]. contradiction.
  - cbn [Z.eqb] in H. apply ret_inv in H as [-> _]. contradiction.
  - destruct (region_ok_spec _ _ _ Hok) as (_ & Ha & _).
    destruct (Z.eqb_spec a 0) as [E0|_]; [lia|].
    apply bind_inv in H as (u & s & Hw & H).
    apply ret_inv in H as [-> ->].
    unfold header_write_large in Hw.
    apply bind_inv in Hw as (u1 & s1 & H1 & H2).
    apply modify_inv in H1. apply modify_inv in H2. subst s s1. sst.
    replace (a + LARGE_HEADER_SIZE - LARGE_HEADER_SIZE) with a by lia.
    split; [exact Hok|reflexivity].
Qed.

Lemma malloc_strong st g fuel sz :
  inv st g -> 0 <= sz ->
  (malloc fuel sz st = OutOfFuel
   /\ exists c, 0 <= c < CLASS_NUM /\ (fuel < length (g_list g c))%nat)
  \/ exists p st' g',
       malloc fuel sz st = Ok (p, st') /\ inv st' g'
       /\ (forall q, live_in g q -> live_in g' q)
       /\ (p <> 0 ->
           live_in g' p /\ ~ live_in g p
           /\ ((sz < SMALL_ALLOCATION_LIMIT
                /\ exists c pb b,
                     class_size_decode sz = Some (c, pb)
                     /\ 0 <= c < CLASS_NUM
                     /\ b ∈ g_list g' c /\ p ∈ g_live g' b)
               \/ (SMALL_ALLOCATION_LIMIT <= sz
                   /\ p ∈ g_large g'
                   /\ mapped st' !! (p - LARGE_HEADER_SIZE)
                      = Some (GET_PAGE_NUM (u64 (sz + LARGE_HEADER_SIZE)))))).
Proof.
  intros Hinv Hsz. unfold malloc.
  destruct (Z.eqb_spec sz 0) as [->|Hnz].
  { right. exists 0, st, g. split; [reflexivity|]. split; [exact Hinv|].
    split; [intros q Hq; exact Hq|]. intros E. contradiction. }
  rewrite SMALL_ALLOCATION_LIMIT_val.
  destruct (Z.ltb_spec sz 2048) as [Hsmall|Hbig].
  - destruct (class_size_decode_total sz ltac:(lia)) as (c & pb & Hdec).
    destruct (class_size_decode_small sz c pb ltac:(lia) Hdec) as [Hc ->].
    rewrite Hdec.
    destruct (malloc_small_strong st g fuel c Hinv Hc)
      as [[Ho Hlt]|(p & st' & g' & Hrun & Hinv' & Hold & Hnew)].
    + left. split; [exact Ho|]. exists c. split; assumption.
    + right. exists p, st', g'. split; [exact Hrun|]. split; [exact Hinv'|].
      split; [exact Hold|]. intros Hp.
      destruct (Hnew Hp) as (Hfresh & b & Hb & Hpl).
      split; [right; exists c, b; split_and!; try assumption; lia|].
      split; [exact Hfresh|]. left. split; [exact Hsmall|].
      exists c, (class_pages c), b.
      split_and!; try assumption; try reflexivity; lia.
  - right.
    destruct (large_alloc_inv st g sz Hinv)
      as (r & st' & Hrun & [[-> Hinv']
                           |(Hr0 & Hr16 & g' & Hinv' & El & Elv & Elg)]).
    + exists 0, st', g. split; [exact Hrun|]. split; [exact Hinv'|].
      split; [intros q Hq; exact Hq|]. intros E. contradiction.
    + exists r, st', g'. split; [exact Hrun|]. split; [exact Hinv'|].
      assert (Hold : forall q, live_in g q -> live_in g' q).
      { intros q [Hq|(c & b & Hc & Hb & Hq)].
        - left. rewrite Elg. efurther. exact Hq.
        - right. exists c, b. rewrite El, Elv. split; [exact Hc|].
          split; assumption. }
      split; [exact Hold|]. intros _.
      assert (Hin : r ∈ g_large g') by (rewrite Elg; ehere).
      destruct (large_alloc_mapped sz st r st' Hrun Hr0) as [Hok Hmp].
      split; [left; exact Hin|]. split.
      * intros [Hl|(c & b & Hc & Hb & Hq)].
        -- destruct (live_large_region _ _ _ Hinv Hl) as (n & Hn & _).
           rewrite (region_ok_fresh _ _ _ (inv_os _ _ Hinv) Hok) in Hn.
           discriminate.
        -- apply (live_not_both st' g' c b r Hinv'); try assumption.
           ++ rewrite El. exact Hb.
           ++ rewrite Elv. exact Hq.
      * right. split; [exact Hbig|]. split; [exact Hin|].
        rewrite Hmp. apply lookup_insert_eq.
Qed.

(** ** Room for the request *)

Lemma class_size_fits s c pb csz :
  1 <= s <= 2047 -> class_size_decode s = Some (c, pb) ->
  class_sizes !! Z.to_nat c = Some csz -> s < csz.
Proof.
  intros Hs Hdec Hcs. pose proof (decode_ok_at s Hs) as H.
  unfold decode_ok in H. rewrite Hdec in H.
  destruct (range_offset !! _) as [off|]; [|discriminate].
  repeat (apply andb_prop in H as [H ?]).
  rewrite Hcs in *.
  match goal with
  | Hx : _ && _ = true |- _ => apply andb_prop in Hx as [Hlt _]
  end.
  apply Z.ltb_lt in Hlt. exact Hlt.
Qed.

Lemma GET_PAGE_NUM_covers x :
  0 <= x -> x <= GET_PAGE_NUM x * PAGE_SZ < x + PAGE_SZ.
Proof.
  intros Hx. unfold GET_PAGE_NUM. rewrite PAGE_SZ_val.
  change PAGE_BITS with 12. change (ALIGN_MASK 4096) with (Z.ones 12).
  rewrite Z.shiftr_div_pow2, Z.land_ones by lia. change (2 ^ 12) with 4096.
  pose proof (Z.div_mod x 4096 ltac:(lia)).
  pose proof (Z.mod_pos_bound x 4096 ltac:(lia)).
  destruct (Z.eqb_spec (x mod 4096) 0); lia.
Qed.

Lemma GET_PAGE_NUM_wrapped sz :
  2 ^ 64 - LARGE_HEADER_SIZE < sz < 2 ^ 64 ->
  GET_PAGE_NUM (u64 (sz + LARGE_HEADER_SIZE)) = 1.
Proof.
  change LARGE_HEADER_SIZE with 16. intros Hsz.
  assert (E : u64 (sz + 16) = sz + 16 - 2 ^ 64).
  { unfold u64. symmetry. apply (Z.mod_unique _ _ 1); lia. }
  rewrite E. unfold GET_PAGE_NUM.
  change PAGE_BITS with 12. change (ALIGN_MASK PAGE_SZ) with (Z.ones 12).
  rewrite Z.shiftr_div_pow2, Z.land_ones by lia. change (2 ^ 12) with 4096.
  rewrite Z.div_small, Z.mod_small by lia.
  destruct (Z.eqb_spec (sz + 16 - 2 ^ 64) 0); [lia|reflexivity].
Qed.

Lemma malloc_large_run fuel sz st :
  SMALL_ALLOCATION_LIMIT <= sz -> malloc fuel sz st = large_alloc sz st.
Proof.
  rewrite SMALL_ALLOCATION_LIMIT_val. intros Hsz. unfold malloc.
  destruct (Z.eqb_spec sz 0) as [E|_]; [lia|].
  rewrite SMALL_ALLOCATION_LIMIT_val.
  destruct (Z.ltb_spec sz 2048) as [E|_]; [lia|]. reflexivity.
Qed.

(** ** A large object, from [malloc] to [free] *)

Lemma large_alloc_rest sz st r st' :
  large_alloc sz st = Ok (r, st') ->
  thread_data st' = thread_data st
  /\ global_freeheap st' = global_freeheap st
  /\ pages st' = pages st /\ env st' = env st /\ cas_log st' = cas_log st.
Proof.
  unfold large_alloc. intros H.
  set (n := GET_PAGE_NUM (u64 (sz + LARGE_HEADER_SIZE))) in *.
  destruct (mmap_wrap_cases n st)
    as [E|[(a & rest & _ & _ & E)|(a & rest & _ & Hok & E)]];
    rewrite (bind_Ok _ _ _ _ _ E) in H.
  - cbn [Z.eqb] in H. apply ret_inv in H as [_ ->].
    split_and!; reflexivity.
  - cbn [Z.eqb] in H. apply ret_inv in H as [_ ->].
    split_and!; reflexivity.
  - destruct (a =? 0).
    + apply ret_inv in H as [_ ->]. split_and!; reflexivity.
    + apply bind_inv in H as (u & s & Hw & H).
      apply ret_inv in H as [_ ->].
      unfold header_write_large in Hw.
      apply bind_inv in Hw as (u1 & s1 & H1 & H2).
      apply modify_inv in H1. apply modify_inv in H2. subst s s1.
      split_and!; reflexivity.
Qed.

Lemma munmap_wrap_state a n st st' :
  munmap_wrap a n st = Ok (tt, st') ->
  mapped st' = delete a (mapped st)
  /\ pages st' = delete a (pages st)
  /\ mem st' = mem st /\ thread_data st' = thread_data st
  /\ global_freeheap st' = global_freeheap st.
Proof.
  unfold munmap_wrap. destruct (mapped st !! a) as [k|]; [|discriminate].
  destruct (k =? n); [|discriminate].
  intros H. injection H as <-. split_and!; reflexivity.
Qed.

(** ** A freed slot is the next one handed out *)

Lemma page_internal_free_keep_run c b p tid st pg h :
  pages st !! b = Some pg ->
  rf_thread_id (sync pg) = tid ->
  idx_get (private_heap (thread_data st)) c = Some h ->
  head h = b ->
  page_internal_free c b p tid st =
    Ok (tt,
        set_pages
          (<[b := set_allocated_objects (u32 (allocated_objects pg - 1))
                    (set_freed (u32 (u32 (p - b))) pg)]> (pages st))
          (set_mem (write_le 4 (mem st) p (freed pg)) st)).
Proof.
  intros Hpg Hown Hh Hhead. unfold page_internal_free.
  rewrite (bind_Ok _ _ _ _ _ (get_page_run _ _ _ Hpg)).
  rewrite Hown, Z.eqb_refl.
  rewrite (bind_Ok _ _ _ _ _ (STACK_PUSH_OBJECT_run b p _ st pg Hpg)).
  erewrite bind_Ok; [|apply get_page_run; sst; apply lookup_insert_eq].
  erewrite bind_Ok; [|apply get_heap_run; sst; exact Hh].
  rewrite Hhead, Z.eqb_refl. cbn [negb]. rewrite andb_false_r. reflexivity.
Qed.

Lemma free_then_alloc st g c b p h pg fuel sz pb :
  inv st g -> 0 <= c < CLASS_NUM -> b ∈ g_list g c -> p ∈ g_live g b ->
  idx_get (private_heap (thread_data st)) c = Some h -> head h = b ->
  pages st !! b = Some pg ->
  1 <= sz <= 2047 -> class_size_decode sz = Some (c, pb) ->
  exists st1 st2,
    free p st = Ok (tt, st1)
    /\ malloc (S fuel) sz st1 = Ok (p, st2)
    /\ pages st2 !! b = Some pg
    /\ thread_data st2 = thread_data st
    /\ mapped st2 = mapped st.
Proof.
  intros Hinv Hc Hb Hp Hh Hhead Hpg Hsz Hdec.
  destruct (heap_block _ _ _ _ Hinv Hc Hb) as [Hrole Hbo].
  destruct Hbo as (pg0 & csz & Hpg0 & Hcs & Hmp & Hos & Hpn & Hsy & Hk0 & Hun
                   & Hlim & Hal & Hlen & Hnd & Hsl & Hhd & Hch).
  rewrite Hpg in Hpg0. injection Hpg0 as <-.
  pose proof (class_sizes_bounds _ _ Hcs) as [Hcb Hcm].
  pose proof (class_pages_bytes c) as (Hbytes & Hu32 & Hcp).
  destruct (mapped_block _ _ _ _ Hinv Hmp) as (Hb0 & Hbal & Hbtop).
  pose proof (owner_word_fields _ (inv_tid _ _ Hinv)) as (Htid & Hrf & _).
  rewrite <- Hsy in Htid, Hrf.
  assert (Hkb : g_slots g b < 2 ^ 13).
  { apply (slots_bound _ csz (class_pages c * PAGE_SZ)); lia. }
  destruct (Hsl p ltac:(apply elem_of_app; left; exact Hp)) as (j & Hj & Ep).
  pose proof (slot_step j (g_slots g b) csz ltac:(lia) ltac:(lia)) as Hjs.
  assert (Hlive : 1 <= Z.of_nat (length (g_live g b))).
  { destruct (g_live g b); [apply elem_of_nil in Hp; contradiction|].
    cbn [length]. lia. }
  assert (Hfr : 0 <= freed pg < 2 ^ 32).
  { destruct (g_free g b) as [|a fr] eqn:Efr; cbn [free_chain] in Hch.
    - lia.
    - destruct Hch as [-> _].
      destruct (Hsl a) as (i & Hi & ->).
      { apply elem_of_app. right. ehere. }
      pose proof (slot_step i (g_slots g b) csz ltac:(lia) ltac:(lia)).
      change FIRST_PAYLOAD with 48 in *. rewrite PAGE_SZ_val in *. lia. }
  change FIRST_PAYLOAD with 48 in *. rewrite PAGE_SZ_val in *.
  assert (Hoff : 48 <= p - b < 2 ^ 17) by nia.
  set (pg1 := set_allocated_objects (allocated_objects pg - 1)
                (set_freed (p - b) pg)).
  set (st1 := set_pages (<[b := pg1]> (pages st))
                (set_mem (write_le 4 (mem st) p (freed pg)) st)).
  assert (Hfree : free p st = Ok (tt, st1)).
  { rewrite (free_small_run _ _ _ _ _ Hinv Hc Hb Hp).
    rewrite (page_internal_free_keep_run c b p _ st pg h Hpg Htid Hh Hhead).
    rewrite !(u32_small (p - b)) by lia.
    rewrite (u32_small (allocated_objects pg - 1)) by lia. reflexivity. }
  exists st1, (set_pages (<[b := pg]> (pages st1)) st1).
  split; [exact Hfree|].
  assert (Hpg1 : pages st1 !! b = Some pg1)
    by (unfold st1; sst; apply lookup_insert_eq).
  assert (Hrun : page_internal_alloc (S fuel) b st1
                 = Ok (p, set_pages (<[b := pg]> (pages st1)) st1)).
  { rewrite (page_internal_alloc_run (S fuel) b st1 pg1 Hpg1 Hrf).
    unfold pg1 at 1. sst.
    destruct (Z.eqb_spec (p - b) 0) as [E|_]; [lia|]. cbn [negb].
    unfold pg1. sst. replace (b + (p - b)) with p by lia.
    unfold st1 at 1. sst. rewrite read_le_write_le_same.
    change (256 ^ Z.of_nat 4) with (2 ^ 32). rewrite Z.mod_small by lia.
    rewrite u32_small by lia.
    replace (allocated_objects pg - 1 + 1) with (allocated_objects pg) by lia.
    destruct pg. reflexivity. }
  unfold malloc. destruct (Z.eqb_spec sz 0) as [E|_]; [lia|].
  rewrite SMALL_ALLOCATION_LIMIT_val.
  destruct (Z.ltb_spec sz 2048) as [_|E]; [|lia].
  rewrite Hdec.
  erewrite bind_Ok; [|apply get_heap_run; unfold st1; sst; exact Hh].
  rewrite Hhead.
  unfold bind at 1. rewrite (malloc_walk_step fuel b st1 ltac:(lia)).
  rewrite Hrun. cbv beta iota.
  assert (E0 : (p =? 0) = false) by (apply Z.eqb_neq; lia).
  rewrite E0. cbn [negb]. cbv beta iota. rewrite E0. cbn [negb].
  split; [reflexivity|]. sst.
  split; [apply lookup_insert_eq|]. split; reflexivity.
Qed.

(** ** What [malloc] and [free] write *)

Lemma ks_ret {A} (x : A) : keeps_store (ret x).
Proof. intros st y st' H. apply ret_inv in H as [_ ->]. split; reflexivity. Qed.

Lemma ks_bind {A B} (m : M A) (f : A -> M B) :
  keeps_store m -> (forall x, keeps_store (f x)) -> keeps_store (bind m f).
Proof.
  intros Hm Hf st y st' H. apply bind_inv in H as (x & s & H1 & H2).
  destruct (Hm _ _ _ H1) as [E1 E2]. destruct (Hf x _ _ _ H2) as [E3 E4].
  split; congruence.
Qed.

Lemma ks_gets {A} (f : state -> A) : keeps_store (gets f).
Proof. intros st y st' H. apply gets_inv in H as [_ ->]. split; reflexivity. Qed.

Lemma ks_fault {A} : keeps_store (@fault A).
Proof. intros st y st' H. discriminate. Qed.

Lemma ks_out_of_fuel {A} : keeps_store (@out_of_fuel A).
Proof. intros st y st' H. discriminate. Qed.

Lemma ks_get_page page : keeps_store (get_page page).
Proof.
  intros st y st' H. apply get_page_inv in H as [-> _]. split; reflexivity.
Qed.

Lemma ks_put_page page pg : keeps_store (put_page page pg).
Proof.
  intros st y st' H. apply modify_inv in H. subst st'. split; reflexivity.
Qed.

Lemma ks_upd_page page f : keeps_store (upd_page page f).
Proof.
  intros st y st' H. apply upd_page_inv in H as (pg & _ & ->).
  split; reflexivity.
Qed.

Lemma ks_get_heap c : keeps_store (get_heap c).
Proof.
  intros st y st' H. apply get_heap_inv in H as [-> _]. split; reflexivity.
Qed.

Lemma ks_put_heap c h : keeps_store (put_heap c h).
Proof.
  intros st y st' H. apply put_heap_inv in H. subst st'. split; reflexivity.
Qed.

Lemma ks_load_word r : keeps_store (load_word r).
Proof.
  intros st y st' H. apply load_word_inv in H. subst st'. split; reflexivity.
Qed.

Lemma ks_store_word r w : keeps_store (store_word r w).
Proof.
  intros st y st' H. unfold store_word in H. destruct r.
  - destruct (idx_get (top (thread_data st)) i); [|discriminate].
    injection H as _ <-. split; reflexivity.
  - destruct (idx_get (global_freeheap st) i); [|discriminate].
    injection H as _ <-. split; reflexivity.
  - destruct (pages st !! page); [|discriminate].
    injection H as _ <-. split; reflexivity.
Qed.

Lemma ks_interfere r : keeps_store (interfere r).
Proof.
  intros st y st' H. unfold interfere in H.
  destruct (env st) as [|[w|] e].
  - injection H as _ <-. split; reflexivity.
  - exact (ks_store_word r w _ _ _ H).
  - injection H as _ <-. split; reflexivity.
Qed.

Lemma ks_modify_log f :
  (forall st, mem (f st) = mem st /\ mapped (f st) = mapped st) ->
  keeps_store (modify f).
Proof. intros Hf st y st' H. apply modify_inv in H. subst st'. apply Hf. Qed.

Lemma ks_ATOMIC_CAS r n o : keeps_store (ATOMIC_CAS r n o).
Proof.
  unfold ATOMIC_CAS. apply ks_bind; [apply ks_interfere|]. intros _.
  apply ks_bind; [apply ks_load_word|]. intros cur.
  destruct (cur =? o); [|apply ks_ret].
  apply ks_bind; [apply ks_store_word|]. intros _.
  apply ks_bind; [|intros _; apply ks_ret].
  apply ks_modify_log. intros st. split; reflexivity.
Qed.

Ltac ks :=
  repeat match goal with
    | |- keeps_store (bind _ _) => apply ks_bind; [|intros ?]
    | |- keeps_store (if ?b then _ else _) => destruct b
    | |- keeps_store (ret _) => apply ks_ret
    | |- keeps_store (gets _) => apply ks_gets
    | |- keeps_store attempts => apply ks_gets
    | |- keeps_store fault => apply ks_fault
    | |- keeps_store out_of_fuel => apply ks_out_of_fuel
    | |- keeps_store (get_page _) => apply ks_get_page
    | |- keeps_store (put_page _ _) => apply ks_put_page
    | |- keeps_store (upd_page _ _) => apply ks_upd_page
    | |- keeps_store (get_heap _) => apply ks_get_heap
    | |- keeps_store (put_heap _ _) => apply ks_put_heap
    | |- keeps_store (load_word _) => apply ks_load_word
    | |- keeps_store (store_word _ _) => apply ks_store_word
    | |- keeps_store (ATOMIC_CAS _ _ _) => apply ks_ATOMIC_CAS
    end.

Lemma ks_stack_remove r : keeps_store (stack_remove r).
Proof. unfold stack_remove. ks. Qed.

Lemma ks_stack_remove_atomic_loop n : forall r,
  keeps_store (stack_remove_atomic_loop n r).
Proof.
  induction n as [|k IH]; intros r; cbn [stack_remove_atomic_loop].
  - ks.
  - ks. apply IH.
Qed.

Lemma ks_stack_remove_atomic r : keeps_store (stack_remove_atomic r).
Proof.
  unfold stack_remove_atomic. ks. apply ks_stack_remove_atomic_loop.
Qed.

Lemma ks_stack_insert r page : keeps_store (stack_insert r page).
Proof. unfold stack_insert. ks. Qed.

Lemma ks_stack_insert_atomic_loop n : forall r page,
  keeps_store (stack_insert_atomic_loop n r page).
Proof.
  induction n as [|k IH]; intros r page; cbn [stack_insert_atomic_loop].
  - ks.
  - ks. apply IH.
Qed.

Lemma ks_stack_insert_atomic r page : keeps_store (stack_insert_atomic r page).
Proof.
  unfold stack_insert_atomic. ks. apply ks_stack_insert_atomic_loop.
Qed.

Lemma ks_insert_front_dq c page : keeps_store (insert_front_dq c page).
Proof. unfold insert_front_dq. ks. Qed.

Lemma ks_remove_node_dq c page : keeps_store (remove_node_dq c page).
Proof. unfold remove_node_dq. ks. Qed.

Lemma ks_page_internal_init a c n tid :
  keeps_store (page_internal_init a c n tid).
Proof.
  unfold page_internal_init. destruct (idx_get class_sizes c); ks.
Qed.

(** [mmap]: nothing, or a fresh region that reads as zero. *)
Lemma mmap_wrap_delta n st a st' :
  mmap_wrap n st = Ok (a, st') ->
  (a = 0 /\ mem st' = mem st /\ mapped st' = mapped st)
  \/ (a <> 0 /\ region_ok (mapped st) a n = true
      /\ mapped st' = <[a := n]> (mapped st)
      /\ mem st' = zero_region (mem st) a (n * PAGE_SZ)).
Proof.
  intros H.
  destruct (mmap_wrap_cases n st)
    as [E|[(b & rest & _ & _ & E)|(b & rest & _ & Hok & E)]];
    rewrite E in H; injection H as <- <-.
  - left. split_and!; reflexivity.
  - left. split_and!; reflexivity.
  - right. destruct (region_ok_spec _ _ _ Hok) as (_ & Hb & _).
    split_and!; try reflexivity; try assumption. lia.
Qed.

Lemma get_pageblock_delta n st a st' :
  get_pageblock n st = Ok (a, st') ->
  (mem st' = mem st /\ mapped st' = mapped st)
  \/ (a <> 0 /\ region_ok (mapped st) a n = true
      /\ mapped st' = <[a := n]> (mapped st)
      /\ mem st' = zero_region (mem st) a (n * PAGE_SZ)).
Proof.
  unfold get_pageblock. intros H.
  apply bind_inv in H as (b1 & s1 & H1 & H).
  destruct (ks_stack_remove _ _ _ _ H1) as [E1 E2].
  destruct (b1 =? 0).
  2:{ apply ret_inv in H as [_ ->]. left. split; assumption. }
  apply bind_inv in H as (b2 & s2 & H2 & H).
  destruct (ks_stack_remove_atomic _ _ _ _ H2) as [E3 E4].
  destruct (b2 =? 0).
  2:{ apply ret_inv in H as [_ ->]. left. split; congruence. }
  apply mmap_wrap_delta in H as [(_ & E5 & E6)|(Ha & Hok & E5 & E6)].
  - left. split; congruence.
  - right. rewrite E4, E2 in Hok, E5. rewrite E3, E1 in E6.
    split_and!; assumption.
Qed.

Lemma fresh_outside mp a n b k x :
  region_ok mp a n = true -> mp !! b = Some k ->
  b <= x < b + k * PAGE_SZ ->
  (x < a \/ a + n * PAGE_SZ <= x) /\ b <> a.
Proof.
  intros Hok Hb Hx.
  destruct (region_ok_spec _ _ _ Hok) as (Hn & Ha & _ & _ & Hfree).
  pose proof (Hfree b k Hb) as H. cbn beta in H.
  rewrite PAGE_SZ_val in *. split; [lia|]. intros ->. lia.
Qed.

Lemma alloc_delta st g c b fuel r st' :
  inv st g -> 0 <= c < CLASS_NUM -> b ∈ g_list g c ->
  page_internal_alloc fuel b st = Ok (r, st') ->
  mapped st' = mapped st
  /\ forall x, x <> r - 1 -> read8 (mem st') x = read8 (mem st) x.
Proof.
  intros Hinv Hc Hb H.
  destruct (heap_block _ _ _ _ Hinv Hc Hb) as [_ Hbo].
  destruct Hbo as (pg & csz & Hpg & _ & _ & _ & _ & Hsy & _).
  pose proof (owner_word_fields _ (inv_tid _ _ Hinv)) as (_ & Hrf & _).
  rewrite <- Hsy in Hrf.
  rewrite (page_internal_alloc_run fuel b st pg Hpg Hrf) in H.
  destruct (negb (freed pg =? 0)).
  { injection H as <- <-. split; [reflexivity|]. intros x _. reflexivity. }
  destruct (_ <? _).
  - injection H as <- <-. split; [reflexivity|]. intros x Hx. sst.
    rewrite read8_write8. change SIZEOF_HEADER_T with 1 in Hx.
    destruct (decide (b + unallocated_off pg = x)) as [E|_]; [lia|].
    reflexivity.
  - injection H as <- <-. split; [reflexivity|]. intros x _. reflexivity.
Qed.

Lemma malloc_walk_delta st g c :
  inv st g -> 0 <= c < CLASS_NUM ->
  forall l pv fuel r st',
    dl_from (pages st) pv l -> (forall b, b ∈ l -> b ∈ g_list g c) ->
    malloc_walk fuel (hd 0 l) st = Ok (r, st') ->
    mapped st' = mapped st
    /\ (forall x, x <> r - 1 -> read8 (mem st') x = read8 (mem st) x)
    /\ (r = 0 -> st' = st).
Proof.
  intros Hinv Hc. induction l as [|b l IH]; intros pv fuel r st' Hd Hsub H.
  - cbn [hd] in H. rewrite malloc_walk_zero in H. injection H as <- <-.
    split; [reflexivity|]. split; [intros x _; reflexivity|].
    intros _. reflexivity.
  - cbn [hd] in H. assert (Hb : b ∈ g_list g c) by (apply Hsub; ehere).
    destruct (heap_block _ _ _ _ Hinv Hc Hb) as [Hrole _].
    pose proof (mapped_nonzero _ _ _ _ Hinv Hrole) as Hb0.
    destruct fuel as [|k].
    { cbn [malloc_walk] in H.
      destruct (Z.eqb_spec b 0) as [E|_]; [contradiction|discriminate]. }
    rewrite (malloc_walk_step k b st Hb0) in H.
    destruct (alloc_in_block st g c b (S k) Hinv Hc Hb)
      as (r1 & st1 & Hrun & [[-> ->]|(Hr0 & _)]).
    + rewrite Hrun in H. cbn [Z.eqb negb] in H.
      cbn [dl_from] in Hd. destruct Hd as (pg & Hpg & _ & Hnx & Hrest).
      rewrite Hpg, Hnx in H.
      apply (IH b k r st' Hrest); [|exact H].
      intros z Hz. apply Hsub. efurther. exact Hz.
    + rewrite Hrun in H.
      destruct (Z.eqb_spec r1 0) as [E|_]; [contradiction|].
      cbn [negb] in H. injection H as <- <-.
      destruct (alloc_delta st g c b (S k) r1 st1 Hinv Hc Hb Hrun)
        as [E1 E2].
      split; [exact E1|]. split; [exact E2|]. intros E. contradiction.
Qed.

Lemma supply_frame n st a st' :
  get_pageblock n st = Ok (a, st') ->
  (forall b k, mapped st !! b = Some k -> 0 < k ->
     mapped st' !! b = Some k)
  /\ (forall b k x, mapped st !! b = Some k -> b <= x < b + k * PAGE_SZ ->
        read8 (mem st') x = read8 (mem st) x).
Proof.
  intros H.
  destruct (get_pageblock_delta _ _ _ _ H)
    as [[E1 E2]|(Ha & Hok & E1 & E2)].
  - rewrite E1, E2. split; [intros b k Hb _; exact Hb|].
    intros b k x _ _. reflexivity.
  - rewrite E1, E2. split.
    + intros b k Hb Hk.
      destruct (region_ok_spec _ _ _ Hok) as (Hn & _ & _ & _ & Hfree).
      rewrite lookup_insert_ne; [exact Hb|].
      intros <-. pose proof (Hfree a k Hb) as Hf. cbn beta in Hf.
      rewrite PAGE_SZ_val in Hf. lia.
    + intros b k x Hb Hx.
      destruct (fresh_outside _ _ _ _ _ _ Hok Hb Hx) as [Hout _].
      rewrite read8_zero_region.
      destruct (decide _) as [Hin|_]; [lia|reflexivity].
Qed.

(** ** What [malloc] leaves alone *)

Lemma store_kept_refl hole st : store_kept hole st st.
Proof. split; [intros b n H; exact H|]. intros b n x _ _ _. reflexivity. Qed.

Lemma store_kept_supply hole n st g a st' :
  inv st g -> get_pageblock n st = Ok (a, st') -> store_kept hole st st'.
Proof.
  intros Hinv H. destruct (supply_frame _ _ _ _ H) as [H1 H2]. split.
  - intros b k Hb. apply H1; [exact Hb|].
    destruct (inv_os _ _ Hinv) as [Hpos _].
    destruct (Hpos b k Hb) as (_ & _ & Hk & _). exact Hk.
  - intros b k x Hb Hx _. apply (H2 b k x Hb Hx).
Qed.

Lemma header_write_large_delta a n st st' :
  header_write_large a n st = Ok (tt, st') ->
  mapped st' = mapped st
  /\ forall x, x < a \/ a + 16 <= x -> read8 (mem st') x = read8 (mem st) x.
Proof.
  unfold header_write_large, store64, store8. intros H.
  apply bind_inv in H as (u & s1 & H1 & H2).
  apply modify_inv in H1 as ->. apply modify_inv in H2 as ->.
  split; [reflexivity|]. intros x Hx. sst.
  rewrite read8_write8.
  change (a + LARGE_HEADER_SIZE - SIZEOF_HEADER_T) with (a + 16 - 1).
  destruct (decide (a + 16 - 1 = x)) as [E|_]; [lia|].
  apply read8_write_le_out. change (Z.of_nat 8) with 8. lia.
Qed.

Lemma large_alloc_delta hole sz st g r st' :
  inv st g -> large_alloc sz st = Ok (r, st') -> store_kept hole st st'.
Proof.
  intros Hinv H. unfold large_alloc in H.
  set (n := GET_PAGE_NUM (u64 (sz + LARGE_HEADER_SIZE))) in *.
  apply bind_inv in H as (a & s1 & Hm & H).
  destruct (mmap_wrap_delta _ _ _ _ Hm)
    as [(-> & E1 & E2)|(Ha & Hok & E1 & E2)].
  - cbn [Z.eqb] in H. apply ret_inv in H as [_ <-].
    split; [rewrite E2; intros b k Hb; exact Hb|].
    intros b k x _ _ _. rewrite E1. reflexivity.
  - destruct (Z.eqb_spec a 0) as [E|_]; [contradiction|].
    apply bind_inv in H as ([] & s2 & Hw & H). apply ret_inv in H as [_ <-].
    destruct (header_write_large_delta _ _ _ _ Hw) as [F1 F2].
    destruct (region_ok_spec _ _ _ Hok) as (Hn & _ & _ & _ & Hfree).
    split.
    + intros b k Hb. rewrite F1, E1.
      rewrite lookup_insert_ne; [exact Hb|].
      intros <-. pose proof (Hfree a k Hb) as Hf. cbn beta in Hf.
      destruct (inv_os _ _ Hinv) as [Hpos _].
      destruct (Hpos a k Hb) as (_ & _ & Hk & _).
      rewrite PAGE_SZ_val in Hf. lia.
    + intros b k x Hb Hx _.
      destruct (fresh_outside _ _ _ _ _ _ Hok Hb Hx) as [Hout _].
      rewrite PAGE_SZ_val in Hout.
      rewrite F2 by lia. rewrite E2, read8_zero_region.
      destruct (decide _) as [Hin|_]; [rewrite PAGE_SZ_val in Hin; lia|].
      reflexivity.
Qed.

Lemma malloc_small_delta st g fuel c p st' :
  inv st g -> 0 <= c < CLASS_NUM ->
  (let* bin := get_heap c in
   let* r := malloc_walk fuel (head bin) in
   if negb (r =? 0) then ret r
   else
     let* alloc := get_pageblock (class_pages c) in
     if alloc =? 0 then ret 0
     else
       let* tid := gets (fun st => thread_id (thread_data st)) in
       let* page := page_internal_init alloc c (class_pages c) tid in
       insert_front_dq c page;;;
       page_internal_alloc fuel page) st = Ok (p, st') ->
  store_kept (p - 1) st st'.
Proof.
  intros Hinv Hc H.
  destruct (inv_heaps _ _ Hinv c Hc) as (h & Hh & Hdl & Hnd & Hroles).
  rewrite (bind_Ok _ _ _ _ _ (get_heap_run _ _ _ Hh)) in H.
  destruct Hdl as (Hhd & _ & Hd). rewrite Hhd in H.
  apply bind_inv in H as (r & s1 & Hw & H).
  destruct (malloc_walk_delta st g c Hinv Hc _ 0 fuel r s1 Hd
              (fun b Hb => Hb) Hw) as (W1 & W2 & W3).
  destruct (Z.eqb_spec r 0) as [Er|Hr]; cbn [negb] in H.
  2:{ apply ret_inv in H as [<- <-]. split.
      - rewrite W1. intros b n Hb. exact Hb.
      - intros b n x _ _ Hx. apply W2. exact Hx. }
  specialize (W3 Er). subst s1. clear W1 W2 Hw.
  destruct (get_pageblock_inv st g c Hinv Hc)
    as (a & st2 & Hget & [[-> Hinv2]
                         |(Ha0 & g2 & Hinv2 & Hrole2 & Hmp2 & Hsame)]).
  { rewrite (bind_Ok _ _ _ _ _ Hget) in H. cbn [Z.eqb] in H.
    apply ret_inv in H as [_ <-].
    apply (store_kept_supply _ _ _ _ _ _ Hinv Hget). }
  rewrite (bind_Ok _ _ _ _ _ Hget) in H.
  destruct (Z.eqb_spec a 0) as [E|_]; [contradiction|].
  unfold gets at 1 in H. unfold bind at 1 in H.
  destruct (install_block st2 g2 c a Hinv2 Hc Hrole2 Hmp2)
    as (st3 & st4 & Hinit & Hins & Htid & Hinv4).
  rewrite (bind_Ok _ _ _ _ _ Hinit) in H.
  rewrite (bind_Ok _ _ _ _ _ Hins) in H.
  set (g4 := set_g_block a 0 [] []
               (set_g_role (fupd (g_role g2) a (Some (InClass c)))
                  (set_g_list (fupd (g_list g2) c (a :: g_list g2 c)) g2)))
    in *.
  assert (Ha4 : a ∈ g_list g4 c).
  { unfold g4. gst. rewrite fupd_eq. ehere. }
  destruct (alloc_delta st4 g4 c a fuel p st' Hinv4 Hc Ha4 H) as [A1 A2].
  destruct (ks_page_internal_init _ _ _ _ _ _ _ Hinit) as [I1 I2].
  destruct (ks_insert_front_dq _ _ _ _ _ Hins) as [J1 J2].
  destruct (store_kept_supply (p - 1) _ _ _ _ _ Hinv Hget) as [S1 S2].
  split.
  - intros b n Hb. rewrite A1, J2, I2. apply S1. exact Hb.
  - intros b n x Hb Hx Hne. rewrite (A2 x Hne), J1, I1.
    apply (S2 b n x Hb Hx Hne).
Qed.

Lemma malloc_delta st g fuel sz p st' :
  inv st g -> 0 <= sz -> malloc fuel sz st = Ok (p, st') ->
  store_kept (p - 1) st st'.
Proof.
  intros Hinv Hsz H. unfold malloc in H.
  destruct (Z.eqb_spec sz 0) as [->|Hnz].
  { apply ret_inv in H as [_ <-]. apply store_kept_refl. }
  rewrite SMALL_ALLOCATION_LIMIT_val in H.
  destruct (Z.ltb_spec sz 2048) as [Hsmall|Hbig].
  - destruct (class_size_decode_total sz ltac:(lia)) as (c & pb & Hdec).
    destruct (class_size_decode_small sz c pb ltac:(lia) Hdec) as [Hc ->].
    rewrite Hdec in H.
    apply (malloc_small_delta st g fuel c p st' Hinv Hc H).
  - apply (large_alloc_delta _ sz st g p st' Hinv H).
Qed.

(** ** Where [malloc] leaves the objects that are live *)

Lemma places_kept_refl g : places_kept g g.
Proof. split; [intros q H; exact H|]. intros c b q _ Hb Hq. split; assumption. Qed.

Lemma places_kept_live g g' q : places_kept g g' -> live_in g q -> live_in g' q.
Proof.
  intros [Hl Hs] [H|(c & b & Hc & Hb & Hq)]; [left; apply Hl, H|].
  right. exists c, b. destruct (Hs c b q Hc Hb Hq) as [H1 H2].
  split; [exact Hc|]. split; assumption.
Qed.

Lemma places_kept_push g b k fr r :
  places_kept g (set_g_block b k fr (r :: g_live g b) g).
Proof.
  split; [intros q H; exact H|]. intros c b' q _ Hb Hq. gst.
  split; [exact Hb|]. unfold fupd. destruct (decide (b' = b)) as [->|_].
  - efurther. exact Hq.
  - exact Hq.
Qed.

Lemma places_kept_trans g1 g2 g3 :
  places_kept g1 g2 -> places_kept g2 g3 -> places_kept g1 g3.
Proof.
  intros [A1 A2] [B1 B2]. split; [intros q H; apply B1, A1, H|].
  intros c b q Hc Hb Hq. destruct (A2 c b q Hc Hb Hq) as [H1 H2].
  apply (B2 c b q Hc H1 H2).
Qed.

Lemma malloc_small_places st g fuel c p st' :
  inv st g -> 0 <= c < CLASS_NUM ->
  (let* bin := get_heap c in
   let* r := malloc_walk fuel (head bin) in
   if negb (r =? 0) then ret r
   else
     let* alloc := get_pageblock (class_pages c) in
     if alloc =? 0 then ret 0
     else
       let* tid := gets (fun st => thread_id (thread_data st)) in
       let* page := page_internal_init alloc c (class_pages c) tid in
       insert_front_dq c page;;;
       page_internal_alloc fuel page) st = Ok (p, st') ->
  exists g', inv st' g' /\ places_kept g g'.
Proof.
  intros Hinv Hc H.
  destruct (inv_heaps _ _ Hinv c Hc) as (h & Hh & Hdl & Hnd & Hroles).
  rewrite (bind_Ok _ _ _ _ _ (get_heap_run _ _ _ Hh)) in H.
  destruct Hdl as (Hhd & _ & Hd). rewrite Hhd in H.
  destruct (malloc_walk_inv st g c Hinv Hc _ 0 fuel Hd (fun b H => H))
    as [[Ho Hlt]|(r & st1 & Hw & Hcase)].
  { unfold bind at 1 in H. rewrite Ho in H. discriminate. }
  rewrite (bind_Ok _ _ _ _ _ Hw) in H.
  destruct Hcase as [[-> ->]|(Hr0 & Hr16 & b & k & fr & Hb & Hinv1)].
  2:{ destruct (Z.eqb_spec r 0) as [E|_]; [contradiction|]. cbn [negb] in H.
      apply ret_inv in H as [_ ->].
      eexists. split; [exact Hinv1|]. apply places_kept_push. }
  cbn [Z.eqb negb] in H.
  destruct (get_pageblock_inv st g c Hinv Hc)
    as (a & st2 & Hget & [[-> Hinv2]
                         |(Ha0 & g2 & Hinv2 & Hrole2 & Hmp2 & Hsame)]).
  { rewrite (bind_Ok _ _ _ _ _ Hget) in H. cbn [Z.eqb] in H.
    apply ret_inv in H as [_ ->].
    exists g. split; [exact Hinv2|apply places_kept_refl]. }
  rewrite (bind_Ok _ _ _ _ _ Hget) in H.
  destruct (Z.eqb_spec a 0) as [E|_]; [contradiction|].
  unfold gets at 1 in H. unfold bind at 1 in H.
  destruct (install_block st2 g2 c a Hinv2 Hc Hrole2 Hmp2)
    as (st3 & st4 & Hinit & Hins & Htid & Hinv4).
  rewrite (bind_Ok _ _ _ _ _ Hinit) in H.
  rewrite (bind_Ok _ _ _ _ _ Hins) in H.
  set (g4 := set_g_block a 0 [] []
               (set_g_role (fupd (g_role g2) a (Some (InClass c)))
                  (set_g_list (fupd (g_list g2) c (a :: g_list g2 c)) g2)))
    in *.
  assert (Ha4 : a ∈ g_list g4 c).
  { unfold g4. gst. rewrite fupd_eq. ehere. }
  assert (Hpl4 : places_kept g g4).
  { destruct Hsame as (E1 & _ & _ & E4 & E5). split.
    - intros q Hq. unfold g4. gst. rewrite E5. exact Hq.
    - intros c' b' q Hc' Hb' Hq. rewrite <- E1 in Hb'. rewrite <- E4 in Hq.
      assert (Hne : b' <> a).
      { intros ->. destruct (heap_block _ _ _ _ Hinv2 Hc' Hb') as [Hr _].
        pose proof (role_apart _ _ _ _ Hrole2 Hr). discriminate. }
      unfold g4. gst. split.
      + unfold fupd at 1. destruct (decide (c' = c)) as [->|_]; [|exact Hb'].
        efurther. exact Hb'.
      + rewrite fupd_ne by exact Hne. exact Hq. }
  destruct (alloc_in_block st4 g4 c a fuel Hinv4 Hc Ha4)
    as (r & st5 & Hrun & [[-> ->]|(Hr0 & Hr16 & k & fr & Hinv5)]).
  - rewrite Hrun in H. injection H as _ <-.
    exists g4. split; [exact Hinv4|exact Hpl4].
  - rewrite Hrun in H. injection H as _ <-.
    eexists. split; [exact Hinv5|].
    apply (places_kept_trans _ _ _ Hpl4). apply places_kept_push.
Qed.

Lemma malloc_places st g fuel sz p st' :
  inv st g -> 0 <= sz -> malloc fuel sz st = Ok (p, st') ->
  exists g', inv st' g' /\ places_kept g g'.
Proof.
  intros Hinv Hsz H. unfold malloc in H.
  destruct (Z.eqb_spec sz 0) as [->|Hnz].
  { apply ret_inv in H as [_ ->]. exists g.
    split; [exact Hinv|apply places_kept_refl]. }
  rewrite SMALL_ALLOCATION_LIMIT_val in H.
  destruct (Z.ltb_spec sz 2048) as [Hsmall|Hbig].
  - destruct (class_size_decode_total sz ltac:(lia)) as (c & pb & Hdec).
    destruct (class_size_decode_small sz c pb ltac:(lia) Hdec) as [Hc ->].
    rewrite Hdec in H.
    apply (malloc_small_places st g fuel c p st' Hinv Hc H).
  - destruct (large_alloc_inv st g sz Hinv)
      as (r & st1 & Hrun & [[-> Hinv']
                           |(Hr0 & Hr16 & g' & Hinv' & El & Elv & Elg)]);
      rewrite Hrun in H; injection H as _ <-.
    + exists g. split; [exact Hinv'|apply places_kept_refl].
    + exists g'. split; [exact Hinv'|]. split.
      * intros q Hq. rewrite Elg. efurther. exact Hq.
      * intros c b q _ Hb Hq. rewrite El, Elv. split; assumption.
Qed.

(** The old size that [realloc] reads for a live object is the same after
    a call that keeps the object in its place. *)
Lemma old_sz_stable st g st' g' q old :
  inv st g -> inv st' g' -> places_kept g g' ->
  (forall b n, mapped st !! b = Some n -> mapped st' !! b = Some n) ->
  live_in g q -> realloc_old_sz q st = Ok (old, st) ->
  realloc_old_sz q st' = Ok (old, st').
Proof.
  intros Hinv Hinv' [Pl Ps] Hmp [Hl|(c & b & Hc & Hb & Hq)] Hold.
  - destruct (live_large_region _ _ _ Hinv Hl) as (n & Hn & _ & _ & E).
    rewrite E in Hold. injection Hold as <-.
    destruct (live_large_region _ _ _ Hinv' (Pl q Hl))
      as (n' & Hn' & _ & _ & E').
    rewrite (Hmp _ _ Hn) in Hn'. injection Hn' as <-. exact E'.
  - destruct (live_small_region _ _ _ _ _ Hinv Hc Hb Hq)
      as (csz & i & Hcs & _ & _ & _ & _ & _ & E).
    rewrite E in Hold. injection Hold as <-.
    destruct (Ps c b q Hc Hb Hq) as [Hb' Hq'].
    destruct (live_small_region _ _ _ _ _ Hinv' Hc Hb' Hq')
      as (csz' & i' & Hcs' & _ & _ & _ & _ & _ & E').
    rewrite Hcs in Hcs'. injection Hcs' as <-. exact E'.
Qed.

(** ** What [free] leaves alone *)

Lemma keeps_STACK_PUSH_OBJECT_out a page obj off :
  a < obj \/ obj + 4 <= a -> keeps_byte a (STACK_PUSH_OBJECT page obj off).
Proof.
  intros H. unfold STACK_PUSH_OBJECT. keeps. apply keeps_store32. lia.
Qed.

Lemma keeps_remote_free_cas_out a n : forall page obj off tid,
  a < obj \/ obj + 8 <= a ->
  keeps_byte a (remote_free_cas n page obj off tid).
Proof.
  induction n as [|k IH]; intros page obj off tid H; cbn [remote_free_cas].
  - keeps.
  - keeps; try (apply keeps_store64; lia). apply IH. exact H.
Qed.

Lemma keeps_page_internal_free_out a c page obj tid :
  a < obj \/ obj + 8 <= a -> keeps_byte a (page_internal_free c page obj tid).
Proof.
  intros H. unfold page_internal_free.
  apply keeps_bind; [apply keeps_get_page|].
  intros pg. destruct (rf_thread_id (sync pg) =? tid).
  - apply keeps_bind; [apply keeps_STACK_PUSH_OBJECT_out; lia|]. intros _.
    keeps.
    + apply keeps_remove_node_dq.
    + apply keeps_ret_pageblock.
  - keeps.
    + apply keeps_remote_free_cas_out. exact H.
    + apply keeps_insert_front_dq.
Qed.

Lemma keeps_large_free_all a obj : keeps_byte a (large_free obj).
Proof. unfold large_free, GET_LARGER_ALLOC_SZ. keeps. Qed.

(** A [free] that returns has written inside the first eight bytes of its
    object at most. *)
Lemma free_keeps_out a obj st u st' :
  a < obj \/ obj + 8 <= a ->
  free obj st = Ok (u, st') -> read8 (mem st') a = read8 (mem st) a.
Proof.
  intros Ha H. destruct (Z.eq_dec obj 0) as [->|Hobj].
  { cbn in H. injection H as _ <-. reflexivity. }
  rewrite (free_by_type obj st Hobj) in H. cbv zeta in H.
  set (hd := read8 (mem st) (obj - 1)) in *.
  set (ty := if HEADER_IS_BLOCK_VALID hd then HEADER_PAGE_GET_TYPE hd else -1)
    in *.
  destruct (ty =? CLASS_SMALL).
  { assert (K : keeps_byte a
                  (let* pg := get_page
                                (GET_PAGE_START obj (HEADER_PAGE_OFFSET_GET hd)) in
                   match class_size_decode (u64 (object_size pg - 1)) with
                   | None => fault
                   | Some (c, _) =>
                       let* tid := gets (fun st => thread_id (thread_data st)) in
                       page_internal_free c
                         (GET_PAGE_START obj (HEADER_PAGE_OFFSET_GET hd)) obj tid
                   end)).
    { keeps. destruct (class_size_decode _) as [[c pn]|]; keeps.
      apply keeps_page_internal_free_out. exact Ha. }
    specialize (K st). cbv beta in K. rewrite H in K. exact K. }
  destruct (ty =? CLASS_LARGE).
  { pose proof (keeps_large_free_all a obj st) as K. rewrite H in K. exact K. }
  cbn in H. discriminate.
Qed.

(** ** The bytes of a live object *)

(** [malloc] keeps the bytes of every object that is live, its header byte
    included, and the old size that [realloc] reads for it. *)
Lemma malloc_keeps_live_inv st g fuel sz p st' q :
  inv st g -> 0 <= sz -> live_in g q ->
  malloc fuel sz st = Ok (p, st') ->
  exists old,
    realloc_old_sz q st = Ok (old, st)
    /\ realloc_old_sz q st' = Ok (old, st')
    /\ 0 < old
    /\ forall x, q - 1 <= x < q + old ->
         read8 (mem st') x = read8 (mem st) x.
Proof.
  intros Hinv Hsz Hq H.
  destruct (live_in_bounds st g q Hinv Hq)
    as (old & b & n & Hold & Hpos & Hmp & Hbq & Hend).
  destruct (malloc_delta st g fuel sz p st' Hinv Hsz H) as [Hmaps Hbytes].
  destruct (malloc_places st g fuel sz p st' Hinv Hsz H)
    as (g1 & Hinv1 & Hpl).
  pose proof (old_sz_stable st g st' g1 q old Hinv Hinv1 Hpl Hmaps Hq Hold)
    as Hold'.
  exists old. split; [exact Hold|]. split; [exact Hold'|].
  split; [exact Hpos|]. intros x Hx.
  apply (Hbytes b n x Hmp); [lia|].
  destruct (inv_os _ _ Hinv) as [Hpos_b _].
  destruct (Hpos_b b n Hmp) as (Hb0 & _).
  destruct (Z.eq_dec p 0) as [->|Hp0]; [lia|].
  destruct (malloc_strong st g fuel sz Hinv Hsz)
    as [[Ho _]|(p2 & st2 & g2 & Hrun & Hinv2 & Hkeep & Hnew)].
  { rewrite Ho in H. discriminate. }
  rewrite Hrun in H. injection H as -> ->.
  destruct (Hnew Hp0) as (Hlp & Hfresh & _).
  assert (Hne : p <> q) by (intros ->; contradiction).
  destruct (live_apart st' g2 p q Hinv2 Hlp (Hkeep q Hq) Hne)
    as (op & oq & Eop & Eoq & Hap).
  rewrite Hold' in Eoq. injection Eoq as <-.
  destruct (old_sz_live st' g2 p Hinv2 Hlp) as (_ & op' & Eop' & Hop).
  rewrite Eop in Eop'. injection Eop' as <-.
  lia.
Qed.

Lemma aligned_gap p r : p mod 16 = 0 -> r mod 16 = 0 -> p < r -> p + 16 <= r.
Proof.
  intros Hp Hr Hlt.
  pose proof (Z.div_mod p 16 ltac:(lia)) as Ep.
  pose proof (Z.div_mod r 16 ltac:(lia)) as Er.
  rewrite Hp in Ep. rewrite Hr in Er. lia.
Qed.

(** Where [malloc] puts a new object, seen from an object that was live:
    the [old] bytes of the live one and the [sz] bytes of the new one do
    not meet. *)
Lemma malloc_beside st g fuel sz r st' p old :
  inv st g -> live_in g p ->
  0 <= sz -> sz + LARGE_HEADER_SIZE < 2 ^ 64 ->
  realloc_old_sz p st = Ok (old, st) ->
  malloc fuel sz st = Ok (r, st') -> r <> 0 ->
  r mod 16 = 0 /\ r <> p /\ (r + sz < p \/ p + old <= r).
Proof.
  intros Hinv Hp Hsz Hwrap Hold H Hr.
  destruct (malloc_keeps_live_inv st g fuel sz r st' p Hinv Hsz Hp H)
    as (old' & E & Hold' & Hpos & _).
  rewrite Hold in E. injection E as <-.
  destruct (malloc_cases st g fuel sz Hinv Hsz)
    as [[Ho _]|(r1 & s1 & g1 & Hrun1 & _ & _ & Hal)].
  { rewrite Ho in H. discriminate. }
  rewrite H in Hrun1. injection Hrun1 as <- <-.
  destruct (Hal Hr) as [Hr16 _].
  destruct (malloc_strong st g fuel sz Hinv Hsz)
    as [[Ho _]|(r2 & s2 & g2 & Hrun & Hinv2 & Hkeep & Hnew)].
  { rewrite Ho in H. discriminate. }
  rewrite H in Hrun. injection Hrun as <- <-.
  destruct (Hnew Hr) as (Hlr & Hfresh & Hkind).
  assert (Hne : r <> p) by (intros ->; contradiction).
  split; [exact Hr16|]. split; [exact Hne|].
  destruct Hkind as [(Hsmall & c & pb & b & Hdec & Hc & Hb & Hrb)
                    |(Hbig & Hlg & Hmp)].
  - assert (Hs1 : 1 <= sz <= 2047).
    { rewrite SMALL_ALLOCATION_LIMIT_val in Hsmall.
      destruct (Z.eq_dec sz 0) as [->|Hnz]; [|lia].
      cbn in H. injection H as <- _. contradiction. }
    destruct (live_small_region _ _ _ _ _ Hinv2 Hc Hb Hrb)
      as (csz & i & Hcs & _ & _ & _ & _ & _ & Er).
    pose proof (class_size_fits sz c pb csz Hs1 Hdec Hcs) as Hfit.
    destruct (live_apart st' g2 r p Hinv2 Hlr (Hkeep p Hp) Hne)
      as (or & op & Eor & Eop & Hap).
    rewrite Er in Eor. injection Eor as <-.
    rewrite Hold' in Eop. injection Eop as <-.
    lia.
  - rewrite (malloc_large_run fuel sz st Hbig) in H.
    destruct (large_alloc_mapped sz st r st' H Hr) as [Hok _].
    destruct (live_in_bounds st g p Hinv Hp)
      as (old2 & b & n & E2 & _ & Hb & Hbp & Hend).
    rewrite Hold in E2. injection E2 as <-.
    destruct (region_ok_spec _ _ _ Hok) as (_ & _ & _ & _ & Hfree).
    pose proof (Hfree b n Hb) as Hf. cbn beta in Hf.
    assert (Eu : u64 (sz + LARGE_HEADER_SIZE) = sz + LARGE_HEADER_SIZE).
    { unfold u64. apply Z.mod_small. change LARGE_HEADER_SIZE with 16 in *.
      lia. }
    rewrite Eu in Hf.
    pose proof (GET_PAGE_NUM_covers (sz + LARGE_HEADER_SIZE)
                  ltac:(change LARGE_HEADER_SIZE with 16; lia)) as Hcov.
    change LARGE_HEADER_SIZE with 16 in *. lia.
Qed.

(** When [realloc] moves an object, the new one begins with the bytes of
    the old one, as many as the old size that [realloc] read. *)
Lemma realloc_contents_inv st g fuel p sz old r st' :
  inv st g -> live_in g p -> p mod 16 = 0 ->
  0 <= sz -> sz + LARGE_HEADER_SIZE < 2 ^ 64 ->
  realloc_old_sz p st = Ok (old, st) -> old <= sz ->
  realloc fuel p sz st = Ok (r, st') -> r <> 0 ->
  r <> p
  /\ forall i, 0 <= i < old ->
       read8 (mem st') (r + i) = u8 (read8 (mem st) (p + i)).
Proof.
  intros Hinv Hp Hp16 Hsz Hwrap Hold Hle H Hr.
  destruct (old_sz_live st g p Hinv Hp) as (Hp0 & _).
  rewrite (realloc_run fuel p sz st old Hp0 Hold) in H.
  rewrite Z.gtb_ltb in H.
  destruct (Z.ltb_spec sz old) as [Hlt|_]; [lia|].
  apply bind_inv in H as (r0 & st1 & Hm & H).
  destruct (Z.eqb_spec r0 0) as [->|Hr0]; cbn [negb] in H.
  { apply ret_inv in H as [-> _]. contradiction. }
  apply bind_inv in H as (u1 & st2 & Hcp & H).
  apply memcpy_inv in Hcp as (Hcp & _ & _).
  apply bind_inv in H as (u2 & st3 & Hfr & H).
  apply ret_inv in H as [-> ->].
  destruct (malloc_keeps_live_inv st g fuel sz r0 st1 p Hinv Hsz Hp Hm)
    as (old' & E & _ & Hpos & Hkeep).
  rewrite Hold in E. injection E as <-.
  destruct (malloc_beside st g fuel sz r0 st1 p old Hinv Hp Hsz Hwrap Hold
              Hm Hr0) as (Hr16 & Hne & Hgeo).
  split; [exact Hne|]. intros i Hi.
  assert (Hfar : r0 + i < p \/ p + 8 <= r0 + i).
  { destruct Hgeo as [Hg|Hg]; [lia|].
    pose proof (aligned_gap p r0 Hp16 Hr16 ltac:(lia)). lia. }
  rewrite (free_keeps_out (r0 + i) p st2 u2 st3 Hfar Hfr).
  rewrite Hcp. sst.
  rewrite read8_copy_bytes by (rewrite Z2Nat.id by lia; lia).
  rewrite Z2Nat.id by lia.
  destruct (decide (r0 <= r0 + i < r0 + old)) as [_|Hout]; [|lia].
  replace (p + (r0 + i - r0)) with (p + i) by lia.
  rewrite (Hkeep (p + i)) by lia. reflexivity.
Qed.

(** ** The cells of the byte store *)

Lemma u8_range v : 0 <= u8 v < 256.
Proof. unfold u8. apply Z.mod_pos_bound. lia. Qed.

Lemma byte_cells_empty : byte_cells ∅.
Proof. intros a. unfold read8. rewrite lookup_empty. cbn. lia. Qed.

Lemma byte_cells_write8 m a v : byte_cells m -> byte_cells (write8 m a v).
Proof.
  intros H b. rewrite read8_write8. destruct (decide (a = b)); [|apply H].
  apply u8_range.
Qed.

Lemma byte_cells_write_le n : forall m a v,
  byte_cells m -> byte_cells (write_le n m a v).
Proof.
  induction n as [|k IH]; intros m a v H; cbn [write_le]; [exact H|].
  apply IH, byte_cells_write8, H.
Qed.

Lemma byte_cells_copy_bytes n : forall m dst src,
  byte_cells m -> byte_cells (copy_bytes n m dst src).
Proof.
  induction n as [|k IH]; intros m dst src H; cbn [copy_bytes]; [exact H|].
  apply IH, byte_cells_write8, H.
Qed.

Lemma byte_cells_fill_bytes n : forall m dst v,
  byte_cells m -> byte_cells (fill_bytes n m dst v).
Proof.
  induction n as [|k IH]; intros m dst v H; cbn [fill_bytes]; [exact H|].
  apply IH, byte_cells_write8, H.
Qed.

Lemma byte_cells_zero_region m a len :
  byte_cells m -> byte_cells (zero_region m a len).
Proof.
  intros H b. rewrite read8_zero_region. destruct (decide _); [lia|apply H].
Qed.

Lemma byte_cells_u8 m a : byte_cells m -> u8 (read8 m a) = read8 m a.
Proof. intros H. unfold u8. apply Z.mod_small. apply H. Qed.

Lemma kc_store {A} (m : M A) : keeps_store m -> keeps_cells m.
Proof. intros K st x st' H Hb. destruct (K _ _ _ H) as [-> _]. exact Hb. Qed.

Lemma kc_bind {A B} (m : M A) (f : A -> M B) :
  keeps_cells m -> (forall x, keeps_cells (f x)) -> keeps_cells (bind m f).
Proof.
  intros Hm Hf st y st' H Hb. apply bind_inv in H as (x & s & H1 & H2).
  exact (Hf x _ _ _ H2 (Hm _ _ _ H1 Hb)).
Qed.

Lemma kc_modify f :
  (forall st, byte_cells (mem st) -> byte_cells (mem (f st))) ->
  keeps_cells (modify f).
Proof. intros Hf st y st' H Hb. apply modify_inv in H. subst st'. apply Hf, Hb. Qed.

Lemma kc_store8 a v : keeps_cells (store8 a v).
Proof. apply kc_modify. intros st H. sst. apply byte_cells_write8, H. Qed.

Lemma kc_store32 a v : keeps_cells (store32 a v).
Proof. apply kc_modify. intros st H. sst. apply byte_cells_write_le, H. Qed.

Lemma kc_store64 a v : keeps_cells (store64 a v).
Proof. apply kc_modify. intros st H. sst. apply byte_cells_write_le, H. Qed.

Lemma kc_memcpy dst src n : keeps_cells (memcpy dst src n).
Proof.
  intros st u st' H Hb. apply memcpy_inv in H as (-> & _ & _). sst.
  apply byte_cells_copy_bytes, Hb.
Qed.

Lemma kc_memset dst v n : keeps_cells (memset dst v n).
Proof.
  intros st u st' H Hb. apply memset_inv in H as (-> & _). sst.
  apply byte_cells_fill_bytes, Hb.
Qed.

Lemma kc_mmap_wrap n : keeps_cells (mmap_wrap n).
Proof.
  intros st a st' H Hb.
  destruct (mmap_wrap_delta _ _ _ _ H) as [(_ & -> & _)|(_ & _ & _ & ->)];
    [exact Hb|apply byte_cells_zero_region, Hb].
Qed.

Lemma kc_munmap_wrap b n : keeps_cells (munmap_wrap b n).
Proof.
  intros st u st' H Hb. unfold munmap_wrap in H.
  destruct (mapped st !! b) as [k|]; [|discriminate].
  destruct (k =? n); [|discriminate]. injection H as _ <-. exact Hb.
Qed.

Ltac kc :=
  repeat match goal with
    | |- keeps_cells (bind _ _) => apply kc_bind; [|intros ?]
    | |- keeps_cells (if ?b then _ else _) => destruct b
    | |- keeps_cells (ret _) => apply kc_store, ks_ret
    | |- keeps_cells (gets _) => apply kc_store, ks_gets
    | |- keeps_cells attempts => apply kc_store, ks_gets
    | |- keeps_cells (load8 _) => apply kc_store, ks_gets
    | |- keeps_cells (load32 _) => apply kc_store, ks_gets
    | |- keeps_cells (load64 _) => apply kc_store, ks_gets
    | |- keeps_cells fault => apply kc_store, ks_fault
    | |- keeps_cells out_of_fuel => apply kc_store, ks_out_of_fuel
    | |- keeps_cells (get_page _) => apply kc_store, ks_get_page
    | |- keeps_cells (put_page _ _) => apply kc_store, ks_put_page
    | |- keeps_cells (upd_page _ _) => apply kc_store, ks_upd_page
    | |- keeps_cells (get_heap _) => apply kc_store, ks_get_heap
    | |- keeps_cells (put_heap _ _) => apply kc_store, ks_put_heap
    | |- keeps_cells (load_word _) => apply kc_store, ks_load_word
    | |- keeps_cells (store_word _ _) => apply kc_store, ks_store_word
    | |- keeps_cells (ATOMIC_CAS _ _ _) => apply kc_store, ks_ATOMIC_CAS
    | |- keeps_cells (store8 _ _) => apply kc_store8
    | |- keeps_cells (store32 _ _) => apply kc_store32
    | |- keeps_cells (store64 _ _) => apply kc_store64
    | |- keeps_cells (mmap_wrap _) => apply kc_mmap_wrap
    | |- keeps_cells (munmap_wrap _ _) => apply kc_munmap_wrap
    | |- keeps_cells (stack_remove _) => apply kc_store, ks_stack_remove
    | |- keeps_cells (stack_remove_atomic _) =>
        apply kc_store, ks_stack_remove_atomic
    | |- keeps_cells (stack_insert _ _) => apply kc_store, ks_stack_insert
    | |- keeps_cells (stack_insert_atomic _ _) =>
        apply kc_store, ks_stack_insert_atomic
    | |- keeps_cells (insert_front_dq _ _) =>
        apply kc_store, ks_insert_front_dq
    | |- keeps_cells (remove_node_dq _ _) =>
        apply kc_store, ks_remove_node_dq
    | |- keeps_cells (page_internal_init _ _ _ _) =>
        apply kc_store, ks_page_internal_init
    end.

Lemma kc_STACK_PUSH_OBJECT page obj off :
  keeps_cells (STACK_PUSH_OBJECT page obj off).
Proof. unfold STACK_PUSH_OBJECT. kc. Qed.

Lemma kc_STACK_POP_OBJECT page : keeps_cells (STACK_POP_OBJECT page).
Proof. unfold STACK_POP_OBJECT. kc. Qed.

Lemma kc_drain_cas n : forall page, keeps_cells (drain_cas n page).
Proof.
  induction n as [|k IH]; intros page; cbn [drain_cas].
  - kc.
  - kc. apply IH.
Qed.

Lemma kc_drain_list fuel : forall page cur,
  keeps_cells (drain_list fuel page cur).
Proof.
  induction fuel as [|k IH]; intros page cur; cbn [drain_list].
  - kc.
  - kc. + apply kc_STACK_PUSH_OBJECT. + apply IH.
Qed.

Lemma kc_page_internal_alloc fuel page :
  keeps_cells (page_internal_alloc fuel page).
Proof.
  unfold page_internal_alloc, header_write_small. kc;
    first [apply kc_drain_cas | apply kc_drain_list
          | apply kc_STACK_POP_OBJECT].
Qed.

Lemma kc_malloc_walk fuel : forall cur, keeps_cells (malloc_walk fuel cur).
Proof.
  induction fuel as [|k IH]; intros cur; cbn [malloc_walk].
  - kc.
  - kc. + apply kc_page_internal_alloc. + apply IH.
Qed.

Lemma kc_get_pageblock n : keeps_cells (get_pageblock n).
Proof. unfold get_pageblock. kc. Qed.

Lemma kc_ret_pageblock b n : keeps_cells (ret_pageblock b n).
Proof. unfold ret_pageblock. kc. Qed.

Lemma kc_large_alloc sz : keeps_cells (large_alloc sz).
Proof. unfold large_alloc, header_write_large. kc. Qed.

Lemma kc_large_free obj : keeps_cells (large_free obj).
Proof. unfold large_free, GET_LARGER_ALLOC_SZ. kc. Qed.

Lemma kc_malloc fuel sz : keeps_cells (malloc fuel sz).
Proof.
  unfold malloc. kc; [|apply kc_large_alloc].
  destruct (class_size_decode sz) as [[c pn]|]; kc;
    first [apply kc_malloc_walk | apply kc_get_pageblock
          | apply kc_page_internal_alloc].
Qed.

Lemma kc_remote_free_cas n : forall page obj off tid,
  keeps_cells (remote_free_cas n page obj off tid).
Proof.
  induction n as [|k IH]; intros page obj off tid; cbn [remote_free_cas].
  - kc.
  - kc. apply IH.
Qed.

Lemma kc_page_internal_free c page obj tid :
  keeps_cells (page_internal_free c page obj tid).
Proof.
  unfold page_internal_free. kc;
    first [apply kc_STACK_PUSH_OBJECT | apply kc_ret_pageblock
          | apply kc_remote_free_cas].
Qed.

Lemma kc_free obj : keeps_cells (free obj).
Proof.
  unfold free, object_type_decode, PANIC_ERR. kc;
    try apply kc_large_free; try (intros ? ? ? H; discriminate).
  destruct (class_size_decode _) as [[c pn]|]; kc.
  apply kc_page_internal_free.
Qed.

(** In a history of [malloc] and [free] every cell holds a byte. *)
Lemma reachable_cells tid choices st live :
  reachable (init_state tid choices) st live -> byte_cells (mem st).
Proof.
  induction 1 as [|st live fuel sz p st' _ IH _ Hrun
                  |st live p st' _ IH _ Hrun].
  - apply byte_cells_empty.
  - exact (kc_malloc fuel sz _ _ _ Hrun IH).
  - exact (kc_free p _ _ _ Hrun IH).
Qed.

(** ** Stores into the payload of a live object *)

Lemma caches_set_mem st g m' :
  inv st g ->
  (forall i, 0 <= i < CLASS_PAGES_NUM ->
     cache_ok (set_mem m' st) g (top (thread_data st)) (g_lcache g) InLocal i)
  /\ (forall i, 0 <= i < CLASS_PAGES_NUM ->
        cache_ok (set_mem m' st) g (global_freeheap st) (g_gcache g)
                 InGlobal i).
Proof.
  intros Hinv. split; intros i Hi.
  - apply (cache_ok_frame st _ g g _ _ _ _ _ _ (inv_local _ _ Hinv i Hi));
      try reflexivity.
    intros b _. split_and!; reflexivity.
  - apply (cache_ok_frame st _ g g _ _ _ _ _ _ (inv_global _ _ Hinv i Hi));
      try reflexivity.
    intros b _. split_and!; reflexivity.
Qed.

(** The program may write what it likes into a live small object: the
    heap stays well formed. *)
Lemma inv_payload_small st g c b p csz m' :
  inv st g -> 0 <= c < CLASS_NUM -> b ∈ g_list g c -> p ∈ g_live g b ->
  class_sizes !! Z.to_nat c = Some csz ->
  (forall x, x < p \/ p + csz - 1 <= x -> read8 m' x = read8 (mem st) x) ->
  inv (set_mem m' st) g.
Proof.
  intros Hinv Hc Hb Hp Hcs Hm.
  destruct (heap_block _ _ _ _ Hinv Hc Hb) as [Hrole Hbo].
  destruct (live_small_region _ _ _ _ _ Hinv Hc Hb Hp)
    as (csz1 & i & Hcs1 & Hcb & Hmp & Hi & Ep & Hend & _).
  rewrite Hcs in Hcs1. injection Hcs1 as <-.
  destruct (caches_set_mem st g m' Hinv) as [Hloc Hglo].
  apply (inv_change st _ g g b); sst; try assumption; try reflexivity.
  - apply (inv_env _ _ Hinv).
  - apply (inv_os _ _ Hinv).
  - intros r Hr. exact (inv_role _ _ Hinv b r Hr).
  - intros z _. split_and!; reflexivity.
  - intros x. destruct (decide (p <= x < p + csz - 1)) as [Hin|Hout].
    + right. exists (class_pages c). split; [left; exact Hmp|].
      change FIRST_PAYLOAD with 48 in Ep. rewrite PAGE_SZ_val in *. nia.
    + left. apply Hm. lia.
  - exact (inv_heaps _ _ Hinv).
  - intros c' Hr'. pose proof (role_apart _ _ _ _ Hrole Hr') as E.
    injection E as <-. split; [exact Hc|].
    destruct Hbo as (pg & csz0 & Hpg & Hcs0 & Hmp0 & Hos & Hpn & Hsy & Hk0
                     & Hun & Hlim & Hal & Hlen & Hnd & Hsl & Hhd & Hch).
    rewrite Hcs in Hcs0. injection Hcs0 as <-.
    assert (Hplace : forall a, a ∈ g_live g b ++ g_free g b -> a <> p ->
                       a + csz <= p \/ p + csz <= a).
    { intros a Ha Hne. destruct (Hsl a Ha) as (j & Hj & ->).
      destruct (slot_cases i j csz ltac:(lia)) as [E|[E|E]].
      - exfalso. apply Hne. rewrite Ep, E. reflexivity.
      - right. lia.
      - left. lia. }
    exists pg, csz. sst. split_and!; try assumption.
    + intros a Ha. rewrite Hm; [exact (Hhd a Ha)|].
      destruct (decide (a = p)) as [->|Hne]; [lia|].
      destruct (Hplace a Ha Hne); lia.
    + apply (free_chain_frame (mem st)); [|exact Hch].
      intros a Ha. apply read_le_ext. intros x Hx.
      change (Z.of_nat 4) with 4 in Hx.
      assert (Hne : a <> p).
      { intros ->. apply NoDup_app in Hnd as (_ & Hdis & _).
        exact (Hdis p Hp Ha). }
      apply Hm.
      destruct (Hplace a ltac:(apply elem_of_app; right; exact Ha) Hne); lia.
  - intros q Hq. left. split; [|exact Hq].
    intros E. destruct (inv_large _ _ Hinv q Hq) as (Hr & _).
    rewrite E in Hr. pose proof (role_apart _ _ _ _ Hrole Hr). discriminate.
Qed.

(** The same for a large object, up to the end of its mapping. *)
Lemma inv_payload_large st g p n m' :
  inv st g -> p ∈ g_large g ->
  mapped st !! (p - LARGE_HEADER_SIZE) = Some n ->
  (forall x, x < p \/ p - LARGE_HEADER_SIZE + n * PAGE_SZ <= x ->
             read8 m' x = read8 (mem st) x) ->
  inv (set_mem m' st) g.
Proof.
  intros Hinv Hp Hmp Hm.
  destruct (inv_large _ _ Hinv p Hp) as (Hrole & _).
  destruct (caches_set_mem st g m' Hinv) as [Hloc Hglo].
  apply (inv_change st _ g g (p - LARGE_HEADER_SIZE)); sst;
    try assumption; try reflexivity.
  - apply (inv_env _ _ Hinv).
  - apply (inv_os _ _ Hinv).
  - intros r Hr. exact (inv_role _ _ Hinv _ r Hr).
  - intros z _. split_and!; reflexivity.
  - intros x.
    destruct (decide (p <= x < p - LARGE_HEADER_SIZE + n * PAGE_SZ))
      as [Hin|Hout].
    + right. exists n. split; [left; exact Hmp|].
      change LARGE_HEADER_SIZE with 16 in *. lia.
    + left. apply Hm. lia.
  - exact (inv_heaps _ _ Hinv).
  - intros c Hr. pose proof (role_apart _ _ _ _ Hrole Hr). discriminate.
  - intros q Hq.
    destruct (decide (q - LARGE_HEADER_SIZE = p - LARGE_HEADER_SIZE))
      as [E|Hne]; [|left; split; assumption].
    right. assert (q = p) by lia. subst q.
    apply (large_ok_frame st _ g g p (inv_large _ _ Hinv p Hp));
      try reflexivity.
    intros x Hx. sst. apply Hm. lia.
Qed.

(** ** Every state of a history is well formed *)

(** What a caller may write into the object that [malloc] has just
    returned: the [sz] bytes it asked for. *)
Lemma malloc_then_write st g fuel sz p st' m' :
  inv st g -> 0 <= sz -> sz + LARGE_HEADER_SIZE < 2 ^ 64 ->
  malloc fuel sz st = Ok (p, st') -> p <> 0 ->
  (forall x, x < p \/ p + sz <= x -> read8 m' x = read8 (mem st') x) ->
  exists g',
    inv (set_mem m' st') g'
    /\ (forall q, live_in g q -> live_in g' q)
    /\ live_in g' p /\ ~ live_in g p /\ p mod 16 = 0.
Proof.
  intros Hinv Hsz Hwrap H Hp Hm.
  destruct (malloc_cases st g fuel sz Hinv Hsz)
    as [[Ho _]|(r1 & s1 & g1 & Hrun1 & _ & _ & Hal)].
  { rewrite Ho in H. discriminate. }
  rewrite H in Hrun1. injection Hrun1 as <- <-.
  destruct (Hal Hp) as [Hp16 _].
  destruct (malloc_strong st g fuel sz Hinv Hsz)
    as [[Ho _]|(r2 & s2 & g2 & Hrun & Hinv2 & Hkeep & Hnew)].
  { rewrite Ho in H. discriminate. }
  rewrite H in Hrun. injection Hrun as <- <-.
  destruct (Hnew Hp) as (Hlp & Hfresh & Hkind).
  exists g2. split; [|split_and!; assumption].
  destruct Hkind as [(Hsmall & c & pb & b & Hdec & Hc & Hb & Hpb)
                    |(Hbig & Hlg & Hmp)].
  - assert (Hs1 : 1 <= sz <= 2047).
    { rewrite SMALL_ALLOCATION_LIMIT_val in Hsmall.
      destruct (Z.eq_dec sz 0) as [->|Hnz]; [|lia].
      cbn in H. injection H as <- _. contradiction. }
    destruct (live_small_region _ _ _ _ _ Hinv2 Hc Hb Hpb)
      as (csz & i & Hcs & _).
    pose proof (class_size_fits sz c pb csz Hs1 Hdec Hcs) as Hfit.
    apply (inv_payload_small st' g2 c b p csz m' Hinv2 Hc Hb Hpb Hcs).
    intros x Hx. apply Hm. lia.
  - apply (inv_payload_large st' g2 p _ m' Hinv2 Hlg Hmp).
    intros x Hx. apply Hm.
    change LARGE_HEADER_SIZE with 16 in *.
    rewrite u64_small in Hx by lia.
    pose proof (GET_PAGE_NUM_covers (sz + 16) ltac:(lia)). lia.
Qed.

(** The [sz] bytes of the object that [malloc] has just returned lie in
    one mapping. *)
Lemma malloc_room st g fuel sz p st' :
  inv st g -> 0 <= sz -> sz + LARGE_HEADER_SIZE < 2 ^ 64 ->
  malloc fuel sz st = Ok (p, st') -> p <> 0 ->
  exists b k,
    mapped st' !! b = Some k /\ b <= p /\ p + sz <= b + k * PAGE_SZ.
Proof.
  intros Hinv Hsz Hwrap H Hp.
  destruct (malloc_strong st g fuel sz Hinv Hsz)
    as [[Ho _]|(r2 & s2 & g2 & Hrun & Hinv2 & Hkeep & Hnew)].
  { rewrite Ho in H. discriminate. }
  rewrite H in Hrun. injection Hrun as <- <-.
  destruct (Hnew Hp) as (Hlp & Hfresh & Hkind).
  destruct Hkind as [(Hsmall & c & pb & b & Hdec & Hc & Hb & Hpb)
                    |(Hbig & Hlg & Hmp)].
  - assert (Hs1 : 1 <= sz <= 2047).
    { rewrite SMALL_ALLOCATION_LIMIT_val in Hsmall.
      destruct (Z.eq_dec sz 0) as [->|Hnz]; [|lia].
      cbn in H. injection H as <- _. contradiction. }
    destruct (live_small_region _ _ _ _ _ Hinv2 Hc Hb Hpb)
      as (csz & i & Hcs & Hcb & Hmb & Hi & Ep & Hend & _).
    pose proof (class_size_fits sz c pb csz Hs1 Hdec Hcs) as Hfit.
    exists b, (class_pages c). change FIRST_PAYLOAD with 48 in Ep.
    assert (0 <= i * csz) by nia.
    split_and!; [exact Hmb|lia|lia].
  - exists (p - LARGE_HEADER_SIZE), (GET_PAGE_NUM (u64 (sz + LARGE_HEADER_SIZE))).
    change LARGE_HEADER_SIZE with 16 in *.
    rewrite u64_small by lia.
    pose proof (GET_PAGE_NUM_covers (sz + 16) ltac:(lia)).
    rewrite u64_small in Hmp by lia.
    split_and!; [exact Hmp|lia|lia].
Qed.

Lemma calloc_inv st g fuel nmemb sz p st' :
  inv st g -> 0 <= nmemb < 2 ^ 64 -> 0 <= sz < 2 ^ 64 ->
  nmemb * sz + LARGE_HEADER_SIZE < 2 ^ 64 \/ 2 ^ 64 <= nmemb * sz ->
  calloc fuel nmemb sz st = Ok (p, st') ->
  exists g',
    inv st' g'
    /\ (forall q, live_in g q -> live_in g' q)
    /\ (p <> 0 -> live_in g' p /\ ~ live_in g p /\ p mod 16 = 0).
Proof.
  intros Hinv Hn Hs Hfit H. unfold calloc in H.
  rewrite (calloc_guard nmemb sz Hn Hs) in H.
  destruct (Z.leb_spec (2 ^ 64) (nmemb * sz)) as [Hov|Hok].
  { apply ret_inv in H as [-> ->]. exists g. split; [exact Hinv|].
    split; [intros q Hq; exact Hq|]. intros E. contradiction. }
  destruct Hfit as [Hfit|Hfit]; [|lia].
  assert (Hprod : 0 <= nmemb * sz) by nia.
  rewrite (u64_small (nmemb * sz)) in H by lia.
  apply bind_inv in H as (p0 & st1 & Hm & H).
  apply bind_inv in H as (u & st2 & Hset & H).
  apply ret_inv in H as [-> ->].
  destruct (Z.eqb_spec p0 0) as [->|Hp0]; cbn [negb] in Hset.
  - apply ret_inv in Hset as [_ ->].
    destruct (malloc_cases st g fuel (nmemb * sz) Hinv Hprod)
      as [[Ho _]|(r1 & s1 & g1 & Hrun1 & Hinv1 & Hkeep & _)].
    { rewrite Ho in Hm. discriminate. }
    rewrite Hm in Hrun1. injection Hrun1 as <- <-.
    exists g1. split; [exact Hinv1|]. split; [exact Hkeep|].
    intros E. contradiction.
  - apply memset_inv in Hset as [-> _].
    destruct (malloc_then_write st g fuel (nmemb * sz) p0 st1
                (fill_bytes (Z.to_nat (nmemb * sz)) (mem st1) p0 0)
                Hinv Hprod Hfit Hm Hp0) as (g' & Hinv' & Hkeep & Hnew).
    { intros x Hx. rewrite read8_fill_bytes.
      destruct (decide _) as [Hin|_]; [|reflexivity].
      rewrite Z2Nat.id in Hin by lia. lia. }
    exists g'. split; [exact Hinv'|]. split; [exact Hkeep|].
    intros _. exact Hnew.
Qed.

Lemma realloc_inv st g fuel p sz r st' :
  inv st g -> live_in g p ->
  0 <= sz -> sz + LARGE_HEADER_SIZE < 2 ^ 64 ->
  realloc fuel p sz st = Ok (r, st') ->
  exists g',
    inv st' g'
    /\ (forall q, live_in g q -> q <> p -> live_in g' q)
    /\ (r = 0 \/ r = p -> live_in g' p)
    /\ (r <> 0 -> live_in g' r /\ r mod 16 = 0).
Proof.
  intros Hinv Hp Hsz Hwrap H.
  destruct (old_sz_live st g p Hinv Hp) as (Hp0 & old & Hold & Hpos).
  assert (Hp16 : p mod 16 = 0).
  { destruct Hp as [Hl|(c & b & Hc & Hb & Hpb)].
    - destruct (live_large_region _ _ _ Hinv Hl) as (n & Hmp & _).
      destruct (inv_os _ _ Hinv) as [Hreg _].
      destruct (Hreg _ _ Hmp) as (_ & Hal & _).
      rewrite PAGE_SZ_val in Hal. change LARGE_HEADER_SIZE with 16 in Hal.
      pose proof (Z.div_mod (p - 16) 4096 ltac:(lia)) as E.
      rewrite Hal in E.
      replace p with ((256 * ((p - 16) / 4096) + 1) * 16) by lia.
      apply Z.mod_mul. lia.
    - destruct (live_small_locate _ _ _ _ _ Hinv Hc Hb Hpb)
        as (pg & csz & _ & _ & _ & _ & _ & H16 & _). exact H16. }
  rewrite (realloc_run fuel p sz st old Hp0 Hold) in H.
  rewrite Z.gtb_ltb in H.
  destruct (Z.ltb_spec sz old) as [Hlt|Hle].
  { injection H as <- <-. exists g. split; [exact Hinv|].
    split; [intros q Hq _; exact Hq|]. split; [intros _; exact Hp|].
    intros _. split; assumption. }
  apply bind_inv in H as (r0 & st1 & Hm & H).
  destruct (Z.eqb_spec r0 0) as [->|Hr0]; cbn [negb] in H.
  { apply ret_inv in H as [-> ->].
    destruct (malloc_cases st g fuel sz Hinv Hsz)
      as [[Ho _]|(r1 & s1 & g1 & Hrun1 & Hinv1 & Hkeep & _)].
    { rewrite Ho in Hm. discriminate. }
    rewrite Hm in Hrun1. injection Hrun1 as <- <-.
    exists g1. split; [exact Hinv1|].
    split; [intros q Hq _; apply Hkeep, Hq|].
    split; [intros _; apply Hkeep, Hp|]. intros E. contradiction. }
  apply bind_inv in H as (u1 & st2 & Hcp & H).
  apply memcpy_inv in Hcp as (-> & _ & _).
  apply bind_inv in H as (u2 & st3 & Hfr & H).
  apply ret_inv in H as [-> ->].
  destruct (malloc_then_write st g fuel sz r0 st1
              (copy_bytes (Z.to_nat old) (mem st1) r0 p)
              Hinv Hsz Hwrap Hm Hr0)
    as (g2 & Hinv2 & Hkeep & Hlr & Hfresh & Hr16).
  { destruct (malloc_beside st g fuel sz r0 st1 p old Hinv Hp Hsz Hwrap Hold
                Hm Hr0) as (_ & _ & Hgeo).
    intros x Hx. rewrite read8_copy_bytes by (rewrite Z2Nat.id by lia; lia).
    destruct (decide _) as [Hin|_]; [|reflexivity].
    rewrite Z2Nat.id in Hin by lia. lia. }
  assert (Hne : r0 <> p) by (intros ->; contradiction).
  destruct (free_inv _ g2 p Hinv2 (Hkeep p Hp))
    as (st4 & g3 & Hrun & Hinv3 & Hkeep3).
  rewrite Hrun in Hfr. injection Hfr as _ <-.
  exists g3. split; [exact Hinv3|].
  split; [intros q Hq Hqp; apply Hkeep3; [apply Hkeep, Hq|exact Hqp]|].
  split; [intros [E|E]; contradiction|].
  intros _. split; [|exact Hr16]. apply Hkeep3; assumption.
Qed.

(** An object that begins 16 bytes into a mapping is a large one. *)
Lemma live_at_prefix st g p n :
  inv st g -> live_in g p ->
  mapped st !! (p - LARGE_HEADER_SIZE) = Some n -> p ∈ g_large g.
Proof.
  intros Hinv [Hl|(c & b & Hc & Hb & Hp)] Hmp; [exact Hl|exfalso].
  destruct (live_small_region _ _ _ _ _ Hinv Hc Hb Hp)
    as (csz & i & _ & Hcb & Hmb & Hi & Ep & Hend & _).
  destruct (inv_os _ _ Hinv) as [Hreg _].
  destruct (Hreg _ _ Hmp) as (_ & _ & Hn & _).
  change FIRST_PAYLOAD with 48 in Ep. change LARGE_HEADER_SIZE with 16 in *.
  assert (E : b = p - 16).
  { apply (region_unique (mapped st) b (class_pages c) (p - 16) n (p - 16)
             (inv_os _ _ Hinv) Hmb Hmp); rewrite PAGE_SZ_val in *; nia. }
  nia.
Qed.

Lemma store_inv st g p old i v :
  inv st g -> live_in g p ->
  realloc_old_sz p st = Ok (old, st) -> 0 <= i < old ->
  inv (set_mem (write8 (mem st) (p + i) v) st) g.
Proof.
  intros Hinv Hp Hold Hi.
  assert (Hw : forall x, x <> p + i ->
             read8 (write8 (mem st) (p + i) v) x = read8 (mem st) x).
  { intros x Hx. rewrite read8_write8.
    destruct (decide (p + i = x)); [lia|reflexivity]. }
  destruct Hp as [Hl|(c & b & Hc & Hb & Hpb)].
  - destruct (live_large_region _ _ _ Hinv Hl) as (n & Hmp & Hn & _ & E).
    rewrite E in Hold. injection Hold as <-.
    apply (inv_payload_large st g p n _ Hinv Hl Hmp).
    intros x Hx. apply Hw. change LARGE_HEADER_SIZE with 16 in *.
    rewrite PAGE_SZ_val in *. lia.
  - destruct (live_small_region _ _ _ _ _ Hinv Hc Hb Hpb)
      as (csz & j & Hcs & _ & _ & _ & _ & _ & E).
    rewrite E in Hold. injection Hold as <-.
    apply (inv_payload_small st g c b p csz _ Hinv Hc Hb Hpb Hcs).
    intros x Hx. apply Hw. lia.
Qed.

Lemma store_large_inv st g p n i v :
  inv st g -> live_in g p ->
  mapped st !! (p - LARGE_HEADER_SIZE) = Some n ->
  0 <= i < n * PAGE_SZ - LARGE_HEADER_SIZE ->
  inv (set_mem (write8 (mem st) (p + i) v) st) g.
Proof.
  intros Hinv Hp Hmp Hi.
  pose proof (live_at_prefix st g p n Hinv Hp Hmp) as Hl.
  apply (inv_payload_large st g p n _ Hinv Hl Hmp).
  intros x Hx. rewrite read8_write8.
  destruct (decide (p + i = x)); [lia|reflexivity].
Qed.

Lemma history_inv tid choices st live :
  0 <= tid < 2 ^ THREAD_ID_BITS ->
  history (init_state tid choices) st live ->
  exists g, inv st g /\ forall p, p ∈ live -> live_in g p /\ p mod 16 = 0.
Proof.
  intros Htid Hh. induction Hh as
    [|st live fuel sz p st' Hh IH Hsz Hrun
     |st live fuel nmemb sz p st' Hh IH Hn Hsz Hfit Hrun
     |st live fuel p sz r st' Hh IH Hp Hsz Hwrap Hrun
     |st live p st' Hh IH Hp Hrun
     |st live p old i v Hh IH Hp Hold Hi
     |st live p n i v Hh IH Hp Hmp Hi].
  - exists empty_ghost. split; [apply init_inv; exact Htid|].
    intros p Hp. apply elem_of_nil in Hp. contradiction.
  - destruct IH as (g & Hinv & Hlive).
    destruct (malloc_cases st g fuel sz Hinv ltac:(lia))
      as [[Ho _]|(p' & st1 & g' & Hrun' & Hinv' & Hold & Hnew)].
    { rewrite Ho in Hrun. discriminate. }
    rewrite Hrun' in Hrun. injection Hrun as -> ->.
    exists g'. split; [exact Hinv'|].
    intros q Hq. destruct (decide (p = 0)) as [E|Hne].
    + destruct (Hlive q Hq) as [H1 H2]. split; [apply Hold; exact H1|exact H2].
    + apply elem_of_cons in Hq as [->|Hq].
      * destruct (Hnew Hne) as [H1 H2]. split; assumption.
      * destruct (Hlive q Hq) as [H1 H2].
        split; [apply Hold; exact H1|exact H2].
  - destruct IH as (g & Hinv & Hlive).
    destruct (calloc_inv st g fuel nmemb sz p st' Hinv Hn Hsz Hfit Hrun)
      as (g' & Hinv' & Hold & Hnew).
    exists g'. split; [exact Hinv'|].
    intros q Hq. destruct (decide (p = 0)) as [E|Hne].
    + destruct (Hlive q Hq) as [H1 H2]. split; [apply Hold; exact H1|exact H2].
    + apply elem_of_cons in Hq as [->|Hq].
      * destruct (Hnew Hne) as (H1 & _ & H2). split; assumption.
      * destruct (Hlive q Hq) as [H1 H2].
        split; [apply Hold; exact H1|exact H2].
  - destruct IH as (g & Hinv & Hlive).
    destruct (realloc_inv st g fuel p sz r st' Hinv (proj1 (Hlive p Hp))
                Hsz Hwrap Hrun) as (g' & Hinv' & Hkeep & Hsame & Hnew).
    exists g'. split; [exact Hinv'|].
    assert (Hall : r = 0 \/ r = p -> forall q, q ∈ live ->
                     live_in g' q /\ q mod 16 = 0).
    { intros Hr q Hq. destruct (Hlive q Hq) as [H1 H2]. split; [|exact H2].
      destruct (decide (q = p)) as [->|Hne]; [apply Hsame, Hr|].
      apply Hkeep; assumption. }
    intros q Hq. destruct (decide (r = 0)) as [E|Hr0].
    { apply Hall; [left; exact E|exact Hq]. }
    destruct (decide (r = p)) as [E|Hrp].
    { apply Hall; [right; exact E|exact Hq]. }
    apply elem_of_cons in Hq as [->|Hq]; [exact (Hnew Hr0)|].
    apply list_elem_of_filter in Hq as [Hne Hq].
    destruct (Hlive q Hq) as [H1 H2]. split; [|exact H2].
    apply Hkeep; assumption.
  - destruct IH as (g & Hinv & Hlive).
    destruct (free_inv st g p Hinv (proj1 (Hlive p Hp)))
      as (st1 & g' & Hrun' & Hinv' & Hkeep).
    rewrite Hrun' in Hrun. injection Hrun as <-.
    exists g'. split; [exact Hinv'|].
    intros q Hq. apply list_elem_of_filter in Hq as [Hne Hq].
    destruct (Hlive q Hq) as [H1 H2]. split; [|exact H2].
    apply Hkeep; assumption.
  - destruct IH as (g & Hinv & Hlive). exists g.
    split; [|exact Hlive].
    exact (store_inv st g p old i v Hinv (proj1 (Hlive p Hp)) Hold Hi).
  - destruct IH as (g & Hinv & Hlive). exists g.
    split; [|exact Hlive].
    exact (store_large_inv st g p n i v Hinv (proj1 (Hlive p Hp)) Hmp Hi).
Qed.

Lemma reachable_history st0 st live :
  reachable st0 st live -> history st0 st live.
Proof.
  induction 1 as [|st live fuel sz p st' _ IH Hsz Hrun
                  |st live p st' _ IH Hp Hrun].
  - apply hist_init.
  - exact (hist_malloc st0 st live fuel sz p st' IH Hsz Hrun).
  - exact (hist_free st0 st live p st' IH Hp Hrun).
Qed.

Lemma kc_calloc fuel nmemb sz : keeps_cells (calloc fuel nmemb sz).
Proof. unfold calloc. kc; first [apply kc_malloc | apply kc_memset]. Qed.

Lemma kc_realloc fuel p sz : keeps_cells (realloc fuel p sz).
Proof.
  unfold realloc, realloc_old_sz, object_type_decode, GET_LARGER_ALLOC_SZ,
    PANIC_ERR.
  kc; try apply kc_malloc; try apply kc_memcpy; try apply kc_free;
    try (intros ? ? ? H; discriminate).
Qed.

Lemma history_cells tid choices st live :
  history (init_state tid choices) st live -> byte_cells (mem st).
Proof.
  induction 1 as
    [|st live fuel sz p st' _ IH _ Hrun
     |st live fuel nmemb sz p st' _ IH _ _ _ Hrun
     |st live fuel p sz r st' _ IH _ _ _ Hrun
     |st live p st' _ IH _ Hrun
     |st live p old i v _ IH _ _ _
     |st live p n i v _ IH _ _ _].
  - apply byte_cells_empty.
  - exact (kc_malloc fuel sz _ _ _ Hrun IH).
  - exact (kc_calloc fuel nmemb sz _ _ _ Hrun IH).
  - exact (kc_realloc fuel p sz _ _ _ Hrun IH).
  - exact (kc_free p _ _ _ Hrun IH).
  - sst. apply byte_cells_write8, IH.
  - sst. apply byte_cells_write8, IH.
Qed.

(** ** With enough fuel [calloc] and [realloc] return *)

Lemma calloc_returns st g fuel nmemb sz :
  inv st g -> 0 <= nmemb < 2 ^ 64 -> 0 <= sz < 2 ^ 64 ->
  nmemb * sz + LARGE_HEADER_SIZE < 2 ^ 64 \/ 2 ^ 64 <= nmemb * sz ->
  (walk_bound g <= fuel)%nat ->
  exists p st', calloc fuel nmemb sz st = Ok (p, st').
Proof.
  intros Hinv Hn Hs Hfit Hfuel. unfold calloc.
  rewrite (calloc_guard nmemb sz Hn Hs).
  destruct (Z.leb_spec (2 ^ 64) (nmemb * sz)) as [Hov|Hok].
  { eexists _, _. reflexivity. }
  destruct Hfit as [Hfit|Hfit]; [|lia].
  assert (Hprod : 0 <= nmemb * sz) by nia.
  rewrite (u64_small (nmemb * sz)) by lia.
  destruct (malloc_returns st g (nmemb * sz) fuel Hinv Hprod Hfuel)
    as (p & st1 & g1 & Hrun & _).
  rewrite (bind_Ok _ _ _ _ _ Hrun).
  destruct (Z.eqb_spec p 0) as [->|Hp]; cbn [negb].
  { eexists _, _. reflexivity. }
  destruct (malloc_room st g fuel (nmemb * sz) p st1 Hinv Hprod Hfit Hrun Hp)
    as (b & k & Hb & Hlo & Hhi).
  erewrite bind_Ok; [eexists _, _; reflexivity|].
  apply memset_run. intros x Hx. exists b, k. split; [exact Hb|lia].
Qed.

Lemma realloc_returns st g fuel p sz :
  inv st g -> live_in g p ->
  0 <= sz -> sz + LARGE_HEADER_SIZE < 2 ^ 64 ->
  (walk_bound g <= fuel)%nat ->
  exists r st', realloc fuel p sz st = Ok (r, st').
Proof.
  intros Hinv Hp Hsz Hwrap Hfuel.
  destruct (old_sz_live st g p Hinv Hp) as (Hp0 & old & Hold & Hpos).
  rewrite (realloc_run fuel p sz st old Hp0 Hold).
  rewrite Z.gtb_ltb.
  destruct (Z.ltb_spec sz old) as [Hlt|Hle]; [eexists _, _; reflexivity|].
  destruct (malloc_returns st g sz fuel Hinv Hsz Hfuel)
    as (r0 & st1 & g1 & Hm & Hinv1 & Hkeep1 & _).
  rewrite (bind_Ok _ _ _ _ _ Hm).
  destruct (Z.eqb_spec r0 0) as [->|Hr0]; cbn [negb];
    [eexists _, _; reflexivity|].
  destruct (malloc_then_write st g fuel sz r0 st1
              (copy_bytes (Z.to_nat old) (mem st1) r0 p)
              Hinv Hsz Hwrap Hm Hr0)
    as (g2 & Hinv2 & Hkeep & _).
  { destruct (malloc_beside st g fuel sz r0 st1 p old Hinv Hp Hsz Hwrap Hold
                Hm Hr0) as (_ & _ & Hgeo).
    intros x Hx. rewrite read8_copy_bytes by (rewrite Z2Nat.id by lia; lia).
    destruct (decide _) as [Hin|_]; [|reflexivity].
    rewrite Z2Nat.id in Hin by lia. lia. }
  destruct (free_inv _ g2 p Hinv2 (Hkeep p Hp)) as (st4 & g3 & Hrun & _).
  destruct (malloc_keeps_live_inv st g fuel sz r0 st1 p Hinv Hsz Hp Hm)
    as (old' & E & Hold1 & _).
  rewrite Hold in E. injection E as <-.
  destruct (live_in_bounds st1 g1 p Hinv1 (Hkeep1 p Hp))
    as (old2 & b & n & E2 & _ & Hb & Hbp & Hend).
  rewrite Hold1 in E2. injection E2 as <-.
  destruct (malloc_room st g fuel sz r0 st1 Hinv Hsz Hwrap Hm Hr0)
    as (b' & k' & Hb' & Hlo' & Hhi').
  erewrite bind_Ok; [|apply memcpy_run; intros x Hx;
                      [exists b, n|exists b', k']; (split; [assumption|lia])].
  rewrite (bind_Ok _ _ _ _ _ Hrun). eexists _, _. reflexivity.
Qed.

(** ** An object freed by another thread goes back to its owner *)

Lemma owner_word_range tid : 0 <= owner_word tid < 2 ^ 64.
Proof.
  unfold owner_word, set_rf_count, set_rf_remotely_freed, set_rf_thread_id.
  change REMOTELY_FREED_COUNT_BITS with 16.
  change REMOTELY_FREED_OFFSET_BITS with 24. change THREAD_ID_BITS with 24.
  repeat apply set_field_lt; lia.
Qed.

(** What [drain_cas] installs is the word of an owner nobody has freed
    into. *)
Lemma drained_owner_word t :
  set_rf_remotely_freed (set_rf_count (set_rf_thread_id 0 t) 0) 0
  = owner_word t.
Proof.
  unfold owner_word, set_rf_count, set_rf_remotely_freed, set_rf_thread_id.
  change REMOTELY_FREED_COUNT_BITS with 16.
  change REMOTELY_FREED_OFFSET_BITS with 24. change THREAD_ID_BITS with 24.
  apply Z.bits_inj'. intros i Hi.
  rewrite !set_field_spec by lia.
  destruct (Z.leb_spec 16 i), (Z.ltb_spec i (16 + 24)), (Z.leb_spec 0 i),
    (Z.ltb_spec i (0 + 16)); cbn [andb]; try reflexivity; lia.
Qed.

Lemma CAS_sync_quiet b pg new st :
  env st = [] -> pages st !! b = Some pg ->
  ATOMIC_CAS (PageSync b) new (sync pg) st =
    Ok ((true, sync pg),
        set_cas_log ((PageSync b, sync pg, new) :: cas_log st)
          (set_pages (<[b := set_sync new pg]> (pages st)) st)).
Proof.
  intros He Hpg.
  rewrite (ATOMIC_CAS_quiet (PageSync b) new (sync pg) st tt
             (set_pages (<[b := set_sync new pg]> (pages st)) st) He).
  - reflexivity.
  - unfold load_word. rewrite Hpg. reflexivity.
  - unfold store_word. rewrite Hpg. reflexivity.
Qed.

Lemma remote_free_cas_quiet_run b p off tid st pg :
  env st = [] -> pages st !! b = Some pg ->
  0 <= sync pg < 2 ^ 64 ->
  rf_thread_id (sync pg) <> ORPHAN_ID ->
  remote_free_cas 1 b p off tid st =
    Ok (false,
        set_cas_log
          ((PageSync b, sync pg,
            set_rf_count (set_rf_remotely_freed (sync pg) off)
              (rf_count (set_rf_remotely_freed (sync pg) off) + 1))
           :: cas_log st)
          (set_pages
             (<[b := set_sync
                       (set_rf_count (set_rf_remotely_freed (sync pg) off)
                          (rf_count (set_rf_remotely_freed (sync pg) off)
                           + 1)) pg]> (pages st))
             (set_mem (write_le 8 (mem st) p (sync pg)) st))).
Proof.
  intros He Hpg Hrange Horph. cbn [remote_free_cas].
  erewrite bind_Ok; [|unfold load_word; rewrite Hpg; reflexivity].
  erewrite bind_Ok; [|reflexivity].
  erewrite bind_Ok; [|reflexivity]. sst.
  erewrite bind_Ok; [|reflexivity]. sst.
  rewrite read_le_write_le_same.
  change (256 ^ Z.of_nat 8) with (2 ^ 64). rewrite (Z.mod_small _ _ Hrange).
  destruct (Z.eqb_spec (rf_thread_id (sync pg)) ORPHAN_ID) as [E|_];
    [contradiction|].
  erewrite bind_Ok; [|apply CAS_sync_quiet; sst; [exact He|exact Hpg]].
  reflexivity.
Qed.

(** A free by a thread that does not own the block, with nobody else at
    work: the object holds the sync word it replaced, the new word has the
    object as head of the remote LIFO and counts one more. *)
Lemma remote_free_quiet_run c b p tid st pg :
  env st = [] -> pages st !! b = Some pg ->
  0 <= sync pg < 2 ^ 64 ->
  rf_thread_id (sync pg) <> tid -> rf_thread_id (sync pg) <> ORPHAN_ID ->
  page_internal_free c b p tid st =
    Ok (tt,
        set_cas_log
          ((PageSync b, sync pg,
            set_rf_count (set_rf_remotely_freed (sync pg) (u32 (p - b)))
              (rf_count (set_rf_remotely_freed (sync pg) (u32 (p - b))) + 1))
           :: cas_log st)
          (set_pages
             (<[b := set_sync
                       (set_rf_count
                          (set_rf_remotely_freed (sync pg) (u32 (p - b)))
                          (rf_count
                             (set_rf_remotely_freed (sync pg) (u32 (p - b)))
                           + 1)) pg]> (pages st))
             (set_mem (write_le 8 (mem st) p (sync pg)) st))).
Proof.
  intros He Hpg Hrange Hown Horph. unfold page_internal_free.
  rewrite (bind_Ok _ _ _ _ _ (get_page_run _ _ _ Hpg)).
  destruct (Z.eqb_spec (rf_thread_id (sync pg)) tid) as [E|_];
    [contradiction|].
  erewrite bind_Ok; [|unfold attempts, gets; rewrite He; reflexivity].
  cbn [length].
  rewrite (bind_Ok _ _ _ _ _
             (remote_free_cas_quiet_run b p (u32 (p - b)) tid st pg He Hpg
                Hrange Horph)).
  erewrite bind_Ok; [|apply get_page_run; sst; apply lookup_insert_eq].
  cbn [andb]. reflexivity.
Qed.

Lemma drain_list_done fuel page : drain_list fuel page 0 = ret tt.
Proof. destruct fuel; reflexivity. Qed.

(** The owner's next allocation from a block with one object on the remote
    LIFO: the LIFO is emptied into the local one, and the object comes
    back. *)
Lemma page_internal_alloc_drain_run fuel b st pg p :
  env st = [] -> pages st !! b = Some pg ->
  rf_remotely_freed (sync pg) = p - b -> 0 < p - b < 2 ^ 32 ->
  rf_remotely_freed (read_le 8 (mem st) p) = 0 ->
  0 <= freed pg < 2 ^ 32 -> 1 <= allocated_objects pg < 2 ^ 32 ->
  match page_internal_alloc (S fuel) b st with
  | Ok (r, st') =>
      r = p
      /\ pages st' !! b
         = Some (set_sync (owner_word (rf_thread_id (sync pg))) pg)
      /\ (forall b', b' <> b -> pages st' !! b' = pages st !! b')
      /\ thread_data st' = thread_data st
      /\ global_freeheap st' = global_freeheap st
      /\ mapped st' = mapped st
      /\ mem st' = write_le 4 (mem st) p (freed pg)
  | _ => False
  end.
Proof.
  intros He Hpg Hrf Hoff Hnxt Hfr Hal. unfold page_internal_alloc.
  rewrite (bind_Ok _ _ _ _ _ (get_page_run _ _ _ Hpg)).
  rewrite Hrf. destruct (Z.eqb_spec (p - b) 0) as [E|_]; [lia|].
  cbn [negb].
  set (D := set_rf_remotely_freed
              (set_rf_count (set_rf_thread_id 0 (rf_thread_id (sync pg))) 0)
              0).
  set (s1 := set_cas_log ((PageSync b, sync pg, D) :: cas_log st)
               (set_pages (<[b := set_sync D pg]> (pages st)) st)).
  assert (Hdrain : drain_cas 1 b st = Ok (sync pg, s1)).
  { cbn [drain_cas].
    erewrite bind_Ok; [|unfold load_word; rewrite Hpg; reflexivity].
    erewrite bind_Ok; [|apply CAS_sync_quiet; [exact He|exact Hpg]].
    reflexivity. }
  assert (Hpg1 : pages s1 !! b = Some (set_sync D pg))
    by (unfold s1; sst; apply lookup_insert_eq).
  set (s2 := set_pages
               (<[b := set_allocated_objects
                         (u32 (allocated_objects (set_sync D pg) - 1))
                         (set_freed (u32 (p - b)) (set_sync D pg))]>
                  (pages s1))
               (set_mem (write_le 4 (mem s1) p (freed (set_sync D pg))) s1)).
  assert (Hlist : drain_list (S fuel) b (p - b) s1 = Ok (tt, s2)).
  { cbn [drain_list]. destruct (Z.eqb_spec (p - b) 0) as [E|_]; [lia|].
    replace (b + (p - b)) with p by lia.
    erewrite bind_Ok; [|reflexivity].
    assert (Em : mem s1 = mem st) by reflexivity. rewrite Em, Hnxt.
    rewrite (bind_Ok _ _ _ _ _ (STACK_PUSH_OBJECT_run b p (p - b) s1 _ Hpg1)).
    rewrite drain_list_done. reflexivity. }
  assert (Hpre :
    (let* n := attempts in
     let* old_head := drain_cas n b in
     drain_list (S fuel) b (rf_remotely_freed old_head)) st = Ok (tt, s2)).
  { erewrite bind_Ok; [|unfold attempts, gets; rewrite He; reflexivity].
    cbn [length]. rewrite (bind_Ok _ _ _ _ _ Hdrain). rewrite Hrf.
    exact Hlist. }
  rewrite (bind_Ok _ _ _ _ _ Hpre).
  assert (Hpg2 : pages s2 !! b
                 = Some (set_allocated_objects
                           (u32 (allocated_objects (set_sync D pg) - 1))
                           (set_freed (u32 (p - b)) (set_sync D pg))))
    by (unfold s2; sst; apply lookup_insert_eq).
  rewrite (bind_Ok _ _ _ _ _ (get_page_run _ _ _ Hpg2)). sst.
  rewrite (u32_small (p - b)) by lia.
  destruct (Z.eqb_spec (p - b) 0) as [E|_]; [lia|]. cbn [negb].
  unfold STACK_POP_OBJECT.
  rewrite (bind_Ok _ _ _ _ _ (get_page_run _ _ _ Hpg2)). sst.
  rewrite (u32_small (p - b)) by lia.
  replace (b + (p - b)) with p by lia.
  erewrite bind_Ok; [|reflexivity].
  assert (Ev : read_le 4 (mem s2) p = freed pg).
  { unfold s2. sst. rewrite read_le_write_le_same.
    change (256 ^ Z.of_nat 4) with (2 ^ 32). apply Z.mod_small. exact Hfr. }
  rewrite Ev.
  erewrite bind_Ok; [|apply upd_page_run; exact Hpg2].
  erewrite bind_Ok; [|apply upd_page_run; sst; apply lookup_insert_eq].
  unfold ret. sst.
  rewrite (u32_small (allocated_objects pg - 1)) by lia.
  replace (allocated_objects pg - 1 + 1) with (allocated_objects pg) by lia.
  rewrite (u32_small (allocated_objects pg)) by lia.
  split; [reflexivity|]. split.
  { rewrite lookup_insert_eq. unfold D. rewrite drained_owner_word.
    destruct pg. reflexivity. }
  split.
  { intros b' Hne. unfold s2, s1. sst.
    rewrite !lookup_insert_ne by congruence. reflexivity. }
  unfold s2, s1. sst. split_and!; reflexivity.
Qed.

Lemma remote_free_then_alloc st g c b p h pg td2 fuel sz pb :
  inv st g -> 0 <= c < CLASS_NUM -> b ∈ g_list g c -> p ∈ g_live g b ->
  idx_get (private_heap (thread_data st)) c = Some h -> head h = b ->
  pages st !! b = Some pg ->
  thread_id (thread_data st) <> ORPHAN_ID ->
  thread_id td2 <> thread_id (thread_data st) ->
  1 <= sz <= 2047 -> class_size_decode sz = Some (c, pb) ->
  exists st1 st2 pg1,
    free p (set_thread_data td2 st) = Ok (tt, st1)
    /\ thread_data st1 = td2
    /\ pages st1 !! b = Some pg1
    /\ rf_count (sync pg1) = 1
    /\ rf_remotely_freed (sync pg1) = p - b
    /\ rf_thread_id (sync pg1) = thread_id (thread_data st)
    /\ allocated_objects pg1 = allocated_objects pg
    /\ read_le 8 (mem st1) p = sync pg
    /\ malloc (S fuel) sz (set_thread_data (thread_data st) st1) = Ok (p, st2)
    /\ pages st2 !! b = Some pg
    /\ thread_data st2 = thread_data st
    /\ mapped st2 = mapped st.
Proof.
  intros Hinv Hc Hb Hp Hh Hhead Hpg Horph Hother Hsz Hdsz.
  destruct (heap_block _ _ _ _ Hinv Hc Hb) as [Hrole Hbo].
  destruct Hbo as (pg0 & csz & Hpg0 & Hcs & Hmp & Hos & Hpn & Hsy & Hk0 & Hun
                   & Hlim & Hal & Hlen & Hnd & Hsl & Hhd & Hch).
  rewrite Hpg in Hpg0. injection Hpg0 as <-.
  pose proof (class_sizes_bounds _ _ Hcs) as [Hcb Hcm].
  pose proof (class_pages_bytes c) as (Hbytes & Hu32 & Hcp).
  destruct (mapped_block _ _ _ _ Hinv Hmp) as (Hb0 & Hbal & Hbtop).
  pose proof (owner_word_fields _ (inv_tid _ _ Hinv)) as (Htid & Hrf & Hcnt).
  rewrite <- Hsy in Htid, Hrf, Hcnt.
  pose proof (owner_word_range (thread_id (thread_data st))) as Hrange.
  rewrite <- Hsy in Hrange.
  destruct (live_small_locate _ _ _ _ _ Hinv Hc Hb Hp)
    as (pg0 & csz0 & Hpg0 & Hcs0 & _ & _ & Hp0 & _ & Hdec & Hstart & Hcls
        & _).
  rewrite Hcs in Hcs0. injection Hcs0 as <-. clear pg0 Hpg0.
  assert (Hkb : g_slots g b < 2 ^ 13).
  { apply (slots_bound _ csz (class_pages c * PAGE_SZ)); lia. }
  destruct (Hsl p ltac:(apply elem_of_app; left; exact Hp)) as (j & Hj & Ep).
  pose proof (slot_step j (g_slots g b) csz ltac:(lia) ltac:(lia)) as Hjs.
  assert (Hlive : 1 <= Z.of_nat (length (g_live g b))).
  { destruct (g_live g b); [apply elem_of_nil in Hp; contradiction|].
    cbn [length]. lia. }
  assert (Hfr : 0 <= freed pg < 2 ^ 32).
  { destruct (g_free g b) as [|a fr] eqn:Efr; cbn [free_chain] in Hch.
    - lia.
    - destruct Hch as [-> _].
      destruct (Hsl a) as (i & Hi & ->).
      { apply elem_of_app. right. ehere. }
      pose proof (slot_step i (g_slots g b) csz ltac:(lia) ltac:(lia)).
      change FIRST_PAYLOAD with 48 in *. rewrite PAGE_SZ_val in *. lia. }
  change FIRST_PAYLOAD with 48 in *. rewrite PAGE_SZ_val in *.
  assert (Hoff : 48 <= p - b < 2 ^ 17) by nia.
  set (N := set_rf_count (set_rf_remotely_freed (sync pg) (u32 (p - b)))
              (rf_count (set_rf_remotely_freed (sync pg) (u32 (p - b))) + 1)).
  assert (HN : rf_count N = 1 /\ rf_remotely_freed N = p - b
               /\ rf_thread_id N = thread_id (thread_data st)).
  { unfold N. autorewrite with fields. rewrite Hcnt, Htid.
    rewrite (u32_small (p - b)) by lia.
    split; [reflexivity|]. split; [apply Z.mod_small; lia|reflexivity]. }
  destruct HN as (HN1 & HN2 & HN3).
  set (st1 := set_cas_log ((PageSync b, sync pg, N) :: cas_log st)
                (set_pages (<[b := set_sync N pg]> (pages st))
                   (set_mem (write_le 8 (mem st) p (sync pg))
                      (set_thread_data td2 st)))).
  assert (Hfree : free p (set_thread_data td2 st) = Ok (tt, st1)).
  { unfold free. destruct (Z.eqb_spec p 0) as [E|_]; [contradiction|].
    rewrite object_type_decode_run in Hdec. injection Hdec as Ety Eoff.
    rewrite (bind_Ok _ _ _ _ _
               (object_type_decode_run p (set_thread_data td2 st))).
    sst. rewrite Ety, Eoff. cbn [fst snd]. rewrite Z.eqb_refl, Hstart.
    erewrite bind_Ok; [|apply get_page_run; sst; exact Hpg].
    rewrite Hos, Hcls.
    erewrite bind_Ok; [|reflexivity]. sst.
    rewrite (remote_free_quiet_run c b p (thread_id td2)
               (set_thread_data td2 st) pg); sst;
      try assumption; try reflexivity.
    - apply (inv_env _ _ Hinv).
    - rewrite Htid. congruence.
    - rewrite Htid. exact Horph. }
  set (st4 := set_thread_data (thread_data st) st1).
  assert (Hpg4 : pages st4 !! b = Some (set_sync N pg))
    by (unfold st4, st1; sst; apply lookup_insert_eq).
  assert (Hmem4 : read_le 8 (mem st4) p = sync pg).
  { unfold st4, st1. sst. rewrite read_le_write_le_same.
    change (256 ^ Z.of_nat 8) with (2 ^ 64). apply Z.mod_small. exact Hrange. }
  pose proof (page_internal_alloc_drain_run fuel b st4 (set_sync N pg) p)
    as Hrun.
  cbn [sync set_sync freed allocated_objects] in Hrun.
  specialize (Hrun (inv_env _ _ Hinv) Hpg4 HN2 ltac:(lia)
                ltac:(rewrite Hmem4; exact Hrf) Hfr ltac:(lia)).
  destruct (page_internal_alloc (S fuel) b st4) as [[r st5]| | |] eqn:Ealloc;
    try contradiction.
  destruct Hrun as (-> & Hpg5 & _ & Htd5 & _ & Hmp5 & _).
  exists st1, st5, (set_sync N pg).
  split; [exact Hfree|]. split; [reflexivity|].
  split; [unfold st1; sst; apply lookup_insert_eq|].
  cbn [sync set_sync allocated_objects].
  split; [exact HN1|]. split; [exact HN2|]. split; [exact HN3|].
  split; [reflexivity|]. split; [exact Hmem4|].
  split.
  { change (set_thread_data (thread_data st) st1) with st4.
    unfold malloc. destruct (Z.eqb_spec sz 0) as [E|_]; [lia|].
    rewrite SMALL_ALLOCATION_LIMIT_val.
    destruct (Z.ltb_spec sz 2048) as [_|E]; [|lia].
    rewrite Hdsz.
    erewrite bind_Ok; [|apply get_heap_run; unfold st4; sst; exact Hh].
    rewrite Hhead.
    unfold bind at 1. rewrite (malloc_walk_step fuel b st4 ltac:(lia)).
    rewrite Ealloc. cbv beta iota.
    assert (E0 : (p =? 0) = false) by (apply Z.eqb_neq; lia).
    rewrite E0. cbn [negb]. cbv beta iota. rewrite E0. cbn [negb].
    reflexivity. }
  split.
  { rewrite Hpg5, HN3, <- Hsy. destruct pg. reflexivity. }
  split; [rewrite Htd5; reflexivity|]. rewrite Hmp5. reflexivity.
Qed.

(** ** The end of a thread *)

Lemma is_Some_idx_set {A} (l : list A) i j x :
  is_Some (idx_get l i) -> is_Some (idx_get l j) ->
  is_Some (idx_get (idx_set l i x) j).
Proof.
  intros [y Hy] [z Hz]. destruct (decide (i = j)) as [->|Hne].
  - rewrite (idx_get_set_eq l j x z Hz). eexists. reflexivity.
  - rewrite idx_get_set_ne; [eexists; exact Hz| | |exact Hne].
    + exact (idx_get_nonneg _ _ _ Hy).
    + exact (idx_get_nonneg _ _ _ Hz).
Qed.

Lemma exit_frame_refl P st : exit_frame P st st.
Proof.
  unfold exit_frame. split_and!; try reflexivity.
  - intros i H. exact H.
  - intros b _. split; reflexivity.
Qed.

Lemma exit_frame_trans (P Q R : Z -> Prop) st1 st2 st3 :
  (forall b, P b -> R b) -> (forall b, Q b -> R b) ->
  exit_frame P st1 st2 -> exit_frame Q st2 st3 -> exit_frame R st1 st3.
Proof.
  intros HP HQ (A1 & A2 & A3 & A4 & A5 & A6) (B1 & B2 & B3 & B4 & B5 & B6).
  unfold exit_frame. split_and!; try congruence.
  - intros i H. apply B5, A5, H.
  - intros b Hb.
    destruct (A6 b (fun H => Hb (HP b H))) as [E1 E2].
    destruct (B6 b (fun H => Hb (HQ b H))) as [E3 E4].
    split; congruence.
Qed.

Lemma release_block_run st cur pg :
  env st = [] -> pages st !! cur = Some pg ->
  mapped st !! cur = Some (page_num pg) ->
  is_Some (idx_get (global_freeheap st) (IDX_BY_PAGE_SZ (page_num pg))) ->
  exists st',
    release_block cur st = Ok (tt, st')
    /\ exit_frame (fun b => b = cur) st st'
    /\ top (thread_data st') = top (thread_data st).
Proof.
  intros He Hpg Hmp [w Hw]. unfold release_block.
  rewrite (bind_Ok _ _ _ _ _ (get_page_run _ _ _ Hpg)).
  unfold bind at 1.
  rewrite (stack_insert_atomic_run _ cur st w pg He Hw Hpg).
  destruct (dq_count w =? COUNT_MAX).
  - cbn [Z.eqb]. rewrite (bind_Ok _ _ _ _ _ (get_page_run _ _ _ Hpg)).
    unfold munmap_wrap. rewrite Hmp, Z.eqb_refl.
    eexists. split; [reflexivity|]. split; [|reflexivity].
    unfold exit_frame. sst. split_and!; try reflexivity.
    + intros i H. exact H.
    + intros b Hb. rewrite !lookup_delete_ne by congruence.
      split; reflexivity.
  - cbv zeta. cbn [Z.eqb].
    eexists. split; [reflexivity|]. split; [|reflexivity].
    unfold exit_frame. sst. split_and!; try reflexivity.
    + intros i H. apply is_Some_idx_set; [eexists; exact Hw|exact H].
    + intros b Hb. rewrite lookup_insert_ne by congruence.
      split; reflexivity.
Qed.

Lemma orphan_cas_quiet_run st cur pg :
  env st = [] -> pages st !! cur = Some pg ->
  rf_count (sync pg) <> allocated_objects pg ->
  orphan_cas 1 cur st =
    Ok (true,
        set_cas_log
          ((PageSync cur, sync pg, set_rf_thread_id (sync pg) ORPHAN_ID)
           :: cas_log st)
          (set_pages (<[cur := orphan pg]> (pages st)) st)).
Proof.
  intros He Hpg Hne. cbn [orphan_cas].
  erewrite bind_Ok; [|unfold load_word; rewrite Hpg; reflexivity].
  rewrite (bind_Ok _ _ _ _ _ (get_page_run _ _ _ Hpg)).
  destruct (Z.eqb_spec (rf_count (sync pg)) (allocated_objects pg)) as [E|_];
    [contradiction|].
  erewrite bind_Ok; [|apply CAS_sync_quiet; [exact He|exact Hpg]].
  reflexivity.
Qed.

Lemma exit_block_run st cur pg :
  env st = [] -> pages st !! cur = Some pg ->
  mapped st !! cur = Some (page_num pg) ->
  rf_count (sync pg) = 0 ->
  is_Some (idx_get (global_freeheap st) (IDX_BY_PAGE_SZ (page_num pg))) ->
  exists st',
    exit_block cur st = Ok (tt, st')
    /\ exit_frame (fun b => b = cur) st st'
    /\ top (thread_data st') = top (thread_data st)
    /\ (allocated_objects pg <> 0 ->
          pages st' !! cur = Some (orphan pg)
          /\ mapped st' !! cur = Some (page_num pg)).
Proof.
  intros He Hpg Hmp Hcnt Hgl. unfold exit_block.
  rewrite (bind_Ok _ _ _ _ _ (get_page_run _ _ _ Hpg)).
  rewrite Hcnt.
  destruct (Z.eqb_spec (allocated_objects pg) 0) as [E|Hne].
  - cbn [negb andb]. unfold ret at 1. unfold bind at 1.
    destruct (release_block_run st cur pg He Hpg Hmp Hgl)
      as (st' & Hrun & Hfr & Htop).
    exists st'. split; [exact Hrun|]. split; [exact Hfr|].
    split; [exact Htop|]. intros H. contradiction.
  - destruct (Z.eqb_spec 0 (allocated_objects pg)) as [E|_]; [lia|].
    cbn [negb andb].
    assert (Hrun :
      (let* n := attempts in orphan_cas n cur) st =
        Ok (true,
            set_cas_log
              ((PageSync cur, sync pg, set_rf_thread_id (sync pg) ORPHAN_ID)
               :: cas_log st)
              (set_pages (<[cur := orphan pg]> (pages st)) st))).
    { erewrite bind_Ok; [|unfold attempts, gets; rewrite He; reflexivity].
      cbn [length]. apply orphan_cas_quiet_run; [exact He|exact Hpg|].
      rewrite Hcnt. lia. }
    rewrite (bind_Ok _ _ _ _ _ Hrun).
    eexists. split; [reflexivity|]. split; [|split; [reflexivity|]].
    + unfold exit_frame. sst. split_and!; try reflexivity.
      * intros i H. exact H.
      * intros b Hb. rewrite lookup_insert_ne by congruence.
        split; reflexivity.
    + intros _. sst. split; [apply lookup_insert_eq|exact Hmp].
Qed.

Lemma exit_list_done fuel : exit_list fuel 0 = ret tt.
Proof. destruct fuel; reflexivity. Qed.

Lemma exit_ready_frame (P : Z -> Prop) st st' b :
  exit_frame P st st' -> ~ P b -> exit_ready st b -> exit_ready st' b.
Proof.
  intros (_ & _ & _ & _ & Hgl & Hsame) Hb (Hb0 & pg & Hpg & Hmp & Hcnt & Hi).
  destruct (Hsame b Hb) as [E1 E2].
  split; [exact Hb0|]. exists pg. rewrite E1, E2.
  split_and!; try assumption. apply Hgl, Hi.
Qed.

(** The walk over a class list: every block with objects is orphaned in
    place. *)
Lemma exit_list_spec : forall l st pv fuel,
  env st = [] -> dl_from (pages st) pv l -> NoDup l ->
  (forall b, b ∈ l -> exit_ready st b) ->
  (length l <= fuel)%nat ->
  exists st',
    exit_list fuel (hd 0 l) st = Ok (tt, st')
    /\ exit_frame (fun b => b ∈ l) st st'
    /\ top (thread_data st') = top (thread_data st)
    /\ forall b pg, b ∈ l -> pages st !! b = Some pg ->
         allocated_objects pg <> 0 ->
         pages st' !! b = Some (orphan pg)
         /\ mapped st' !! b = mapped st !! b.
Proof.
  induction l as [|b l IH]; intros st pv fuel He Hd Hnd Hready Hfuel.
  - cbn [hd]. rewrite exit_list_done. exists st.
    split; [reflexivity|]. split; [apply exit_frame_refl|].
    split; [reflexivity|].
    intros b pg Hb. apply elem_of_nil in Hb. contradiction.
  - cbn [hd]. destruct fuel as [|k]; [cbn [length] in Hfuel; lia|].
    destruct (Hready b ltac:(ehere)) as (Hb0 & pg & Hpg & Hmp & Hcnt & Hgl).
    cbn [exit_list]. destruct (Z.eqb_spec b 0) as [E|_]; [contradiction|].
    rewrite (bind_Ok _ _ _ _ _ (get_page_run _ _ _ Hpg)).
    cbn [dl_from] in Hd. destruct Hd as (pg0 & Hpg0 & _ & Hnx & Hrest).
    rewrite Hpg in Hpg0. injection Hpg0 as <-.
    destruct (exit_block_run st b pg He Hpg Hmp Hcnt Hgl)
      as (st1 & Hrun & Hfr & Htop & Horph).
    rewrite (bind_Ok _ _ _ _ _ Hrun). rewrite Hnx.
    apply NoDup_cons in Hnd as [Hnin Hnd].
    assert (Hsame : forall x, x ∈ l ->
              pages st1 !! x = pages st !! x
              /\ mapped st1 !! x = mapped st !! x).
    { intros x Hx. destruct Hfr as (_ & _ & _ & _ & _ & Hs).
      apply Hs. intros ->. contradiction. }
    destruct (IH st1 b k) as (st2 & Hrun2 & Hfr2 & Htop2 & Horph2).
    + destruct Hfr as (_ & _ & _ & E & _). rewrite E. exact He.
    + apply (dl_from_frame (pages st)); [|exact Hrest].
      intros x Hx. rewrite (proj1 (Hsame x Hx)). reflexivity.
    + exact Hnd.
    + intros x Hx. apply (exit_ready_frame _ st st1 x Hfr).
      * intros ->. contradiction.
      * apply Hready. efurther. exact Hx.
    + cbn [length] in Hfuel. lia.
    + exists st2. split; [exact Hrun2|]. split.
      { apply (exit_frame_trans (fun x => x = b) (fun x => x ∈ l) _
                 st st1 st2); try assumption.
        - intros x ->. ehere.
        - intros x Hx. efurther. exact Hx. }
      split; [congruence|].
      intros x pgx Hx Hpgx Hal.
      apply elem_of_cons in Hx as [->|Hx].
      * rewrite Hpg in Hpgx. injection Hpgx as <-.
        destruct (Horph Hal) as [E1 E2].
        destruct Hfr2 as (_ & _ & _ & _ & _ & Hs).
        destruct (Hs b Hnin) as [F1 F2].
        rewrite F1, F2, E1, E2, Hmp. split; reflexivity.
      * destruct (Hsame x Hx) as [E1 E2].
        rewrite <- E1 in Hpgx.
        destruct (Horph2 x pgx Hx Hpgx Hal) as [F1 F2].
        rewrite F1, F2, E2. split; reflexivity.
Qed.

Lemma exit_classes_spec (L : Z -> list Z) : forall n i st fuel,
  env st = [] ->
  (forall c, i <= c < i + Z.of_nat n ->
     exists h, idx_get (private_heap (thread_data st)) c = Some h
               /\ head h = hd 0 (L c)
               /\ dl_from (pages st) 0 (L c)
               /\ NoDup (L c)
               /\ (length (L c) <= fuel)%nat
               /\ forall b, b ∈ L c -> exit_ready st b) ->
  (forall c c' b, c <> c' -> b ∈ L c -> ~ b ∈ L c') ->
  exists st',
    exit_classes fuel n i st = Ok (tt, st')
    /\ exit_frame (fun b => exists c, i <= c < i + Z.of_nat n /\ b ∈ L c)
                  st st'
    /\ top (thread_data st') = top (thread_data st)
    /\ forall c b pg, i <= c < i + Z.of_nat n -> b ∈ L c ->
         pages st !! b = Some pg -> allocated_objects pg <> 0 ->
         pages st' !! b = Some (orphan pg)
         /\ mapped st' !! b = mapped st !! b.
Proof.
  induction n as [|n IH]; intros i st fuel He Hcls Hdis.
  - exists st. split; [reflexivity|]. split; [apply exit_frame_refl|].
    split; [reflexivity|]. intros c b pg Hc. cbn in Hc. lia.
  - cbn [exit_classes].
    destruct (Hcls i ltac:(lia)) as (h & Hh & Hhd & Hd & Hnd & Hlen & Hready).
    rewrite (bind_Ok _ _ _ _ _ (get_heap_run _ _ _ Hh)). rewrite Hhd.
    destruct (exit_list_spec (L i) st 0 fuel He Hd Hnd Hready Hlen)
      as (st1 & Hrun & Hfr & Htop & Horph).
    rewrite (bind_Ok _ _ _ _ _ Hrun).
    assert (Hsame : forall c x, c <> i -> x ∈ L c ->
              pages st1 !! x = pages st !! x
              /\ mapped st1 !! x = mapped st !! x).
    { intros c x Hc Hx. destruct Hfr as (_ & _ & _ & _ & _ & Hs).
      apply Hs. exact (Hdis c i x Hc Hx). }
    destruct (IH (i + 1) st1 fuel) as (st2 & Hrun2 & Hfr2 & Htop2 & Horph2).
    + destruct Hfr as (_ & _ & _ & E & _). rewrite E. exact He.
    + intros c Hc.
      destruct (Hcls c ltac:(lia))
        as (hc & Hhc & Hhdc & Hdc & Hndc & Hlenc & Hreadyc).
      exists hc. rewrite (proj1 (proj2 (proj2 Hfr))).
      split_and!; try assumption.
      * apply (dl_from_frame (pages st)); [|exact Hdc].
        intros x Hx. rewrite (proj1 (Hsame c x ltac:(lia) Hx)). reflexivity.
      * intros x Hx.
        exact (exit_ready_frame _ st st1 x Hfr (Hdis c i x ltac:(lia) Hx)
                 (Hreadyc x Hx)).
    + exact Hdis.
    + exists st2. split; [exact Hrun2|]. split.
      { apply (exit_frame_trans (fun x => x ∈ L i)
                 (fun x => exists c, i + 1 <= c < i + 1 + Z.of_nat n
                                     /\ x ∈ L c) _ st st1 st2);
          try assumption.
        - intros x Hx. exists i. split; [lia|exact Hx].
        - intros x (c & Hc & Hx). exists c. split; [lia|exact Hx]. }
      split; [congruence|].
      intros c x pgx Hc Hx Hpgx Hal.
      destruct (decide (c = i)) as [->|Hne].
      * destruct (Horph x pgx Hx Hpgx Hal) as [E1 E2].
        destruct Hfr2 as (_ & _ & _ & _ & _ & Hs).
        destruct (Hs x) as [F1 F2].
        { intros (c' & Hc' & Hx'). exact (Hdis i c' x ltac:(lia) Hx Hx'). }
        rewrite F1, F2, E1, E2. split; reflexivity.
      * destruct (Hsame c x Hne Hx) as [E1 E2].
        rewrite <- E1 in Hpgx.
        destruct (Horph2 c x pgx ltac:(lia) Hx Hpgx Hal) as [F1 F2].
        rewrite F1, F2, E2. split; reflexivity.
Qed.

Lemma stack_chain_count ps w l :
  stack_chain ps w l ->
  dq_count w = Z.of_nat (length l) /\ Z.of_nat (length l) <= COUNT_MAX.
Proof.
  destruct l; cbn [stack_chain]; intros (H1 & H2 & _); split; assumption.
Qed.

Lemma stack_is_empty_run i st w :
  idx_get (top (thread_data st)) i = Some w ->
  stack_is_empty (LocalTop i) st = Ok (dq_count w =? 0, st).
Proof.
  intros Hw. unfold stack_is_empty.
  rewrite (bind_Ok _ _ _ _ _ (load_word_local _ _ _ Hw)). reflexivity.
Qed.

(** The thread's cache of one page class, emptied into the global one. *)
Lemma exit_cache_spec i : forall l st w fuel,
  env st = [] ->
  idx_get (top (thread_data st)) i = Some w ->
  stack_chain (pages st) w l -> NoDup l ->
  (forall b, b ∈ l ->
     0 < b /\ b mod PAGE_SZ = 0 /\ b < ADDR_LIMIT
     /\ mapped st !! b = Some (PAGE_SZ_BY_IDX i)) ->
  is_Some (idx_get (global_freeheap st) i) ->
  (length l < fuel)%nat ->
  exists st' w',
    exit_cache fuel i st = Ok (tt, st')
    /\ exit_frame (fun b => b ∈ l) st st'
    /\ idx_get (top (thread_data st')) i = Some w' /\ dq_count w' = 0
    /\ forall j, j <> i ->
         idx_get (top (thread_data st')) j = idx_get (top (thread_data st)) j.
Proof.
  induction l as [|b l IH]; intros st w fuel He Hw Hch Hnd Hblk Hgl Hfuel.
  - destruct fuel as [|k]; [cbn [length] in Hfuel; lia|].
    destruct (stack_chain_count _ _ _ Hch) as [Hc _]. cbn [length] in Hc.
    cbn [exit_cache].
    rewrite (bind_Ok _ _ _ _ _ (stack_is_empty_run _ _ _ Hw)).
    rewrite Hc. cbn [Z.of_nat Z.eqb].
    exists st, w. split; [reflexivity|]. split; [apply exit_frame_refl|].
    split; [exact Hw|]. split; [exact Hc|]. intros j _. reflexivity.
  - destruct fuel as [|k]; [cbn [length] in Hfuel; lia|].
    destruct (stack_chain_count _ _ _ Hch) as [Hc Hmax].
    cbn [length] in Hc, Hmax. rewrite Nat2Z.inj_succ in Hc, Hmax.
    cbn [stack_chain] in Hch.
    destruct Hch as (_ & _ & Hn & pg & Hpg & Hrest).
    destruct (stack_chain_count _ _ _ Hrest) as [Hc' _].
    destruct (Hblk b ltac:(ehere)) as (Hb0 & Hbal & Hbtop & Hmp).
    destruct (block_ptr b Hb0 Hbal Hbtop) as (_ & _ & Hptr).
    apply NoDup_cons in Hnd as [Hnin Hnd].
    rewrite COUNT_MAX_val in Hmax.
    cbn [exit_cache].
    rewrite (bind_Ok _ _ _ _ _ (stack_is_empty_run _ _ _ Hw)).
    destruct (Z.eqb_spec (dq_count w) 0) as [E|_]; [lia|].
    set (w1 := set_dq_count (set_dq_nxt w (dq_nxt (next pg)))
                            (dq_count w - 1)).
    set (s1 := set_thread_data
                 (set_top (idx_set (top (thread_data st)) i w1)
                          (thread_data st)) st).
    assert (Hpop : stack_remove (LocalTop i) st = Ok (b, s1)).
    { rewrite (stack_remove_run i st w Hw).
      destruct (Z.eqb_spec (dq_count w) 0) as [E|_]; [lia|].
      rewrite Hn, Hptr, Hpg. reflexivity. }
    rewrite (bind_Ok _ _ _ _ _ Hpop).
    destruct Hgl as [wg Hwg].
    assert (Hw1 : idx_get (top (thread_data s1)) i = Some w1).
    { unfold s1. sst. apply (idx_get_set_eq _ _ _ _ Hw). }
    assert (Hcnt1 : dq_count w1 = dq_count (next pg)).
    { unfold w1. autorewrite with fields. rewrite Hc, Hc'.
      rewrite Z.mod_small by lia. lia. }
    assert (Hnxt1 : dq_nxt w1 = dq_nxt (next pg)).
    { unfold w1. autorewrite with fields. apply Z.mod_small.
      unfold dq_nxt. apply get_field_range; cbv; discriminate. }
    assert (Hothers : forall j, j <> i ->
              idx_get (top (thread_data s1)) j
              = idx_get (top (thread_data st)) j).
    { intros j Hj. unfold s1. sst.
      destruct (Z.leb_spec 0 j) as [Hj0|Hj0].
      - apply idx_get_set_ne; [exact (idx_get_nonneg _ _ _ Hw)|exact Hj0|].
        congruence.
      - unfold idx_get. destruct (Z.leb_spec 0 j); [lia|reflexivity]. }
    unfold bind at 1.
    rewrite (stack_insert_atomic_run i b s1 wg pg He Hwg Hpg).
    assert (Hnext : forall s2,
              env s2 = [] ->
              thread_data s2 = thread_data s1 ->
              mem s2 = mem st ->
              (forall j, is_Some (idx_get (global_freeheap st) j) ->
                         is_Some (idx_get (global_freeheap s2) j)) ->
              (forall x, x <> b ->
                 pages s2 !! x = pages st !! x
                 /\ mapped s2 !! x = mapped st !! x) ->
              exists st' w',
                exit_cache k i s2 = Ok (tt, st')
                /\ exit_frame (fun x => x ∈ b :: l) st st'
                /\ idx_get (top (thread_data st')) i = Some w'
                /\ dq_count w' = 0
                /\ forall j, j <> i ->
                     idx_get (top (thread_data st')) j
                     = idx_get (top (thread_data st)) j).
    { intros s2 He2 Htd2 Hmem2 Hgl2 Hsame2.
      destruct (IH s2 w1 k) as (st' & w' & Hrun & Hfr & Hw' & Hz & Hoth).
      - exact He2.
      - rewrite Htd2. exact Hw1.
      - apply (stack_chain_word _ (next pg)); [exact Hcnt1|exact Hnxt1|].
        apply (stack_chain_frame (pages st)); [|exact Hrest].
        intros x Hx. rewrite (proj1 (Hsame2 x ltac:(intros ->; contradiction))).
        reflexivity.
      - exact Hnd.
      - intros x Hx. destruct (Hblk x ltac:(efurther; exact Hx))
          as (H1 & H2 & H3 & H4).
        rewrite (proj2 (Hsame2 x ltac:(intros ->; contradiction))).
        split_and!; assumption.
      - apply Hgl2. eexists. exact Hwg.
      - cbn [length] in Hfuel. lia.
      - exists st', w'. split; [exact Hrun|]. split.
        + apply (exit_frame_trans (fun x => x = b) (fun x => x ∈ l) _
                   st s2 st'); try assumption.
          * intros x ->. ehere.
          * intros x Hx. efurther. exact Hx.
          * unfold exit_frame. rewrite Htd2. unfold s1. sst.
            split_and!; try assumption; try reflexivity;
              try (rewrite He2, He; reflexivity).
        + split; [exact Hw'|]. split; [exact Hz|].
          intros j Hj. rewrite (Hoth j Hj), Htd2. exact (Hothers j Hj). }
    destruct (dq_count wg =? COUNT_MAX).
    + cbn [Z.eqb]. unfold munmap_wrap at 1. unfold bind at 1.
      assert (Hmp1 : mapped s1 !! b = Some (PAGE_SZ_BY_IDX i)) by exact Hmp.
      rewrite Hmp1, Z.eqb_refl.
      apply Hnext; sst; try reflexivity; try assumption.
      * intros j H. exact H.
      * intros x Hx. rewrite !lookup_delete_ne by congruence.
        split; reflexivity.
    + cbv zeta. cbn [Z.eqb]. unfold ret at 1. unfold bind at 1.
      apply Hnext; sst; try reflexivity; try assumption.
      * intros j H. apply is_Some_idx_set; [eexists; exact Hwg|exact H].
      * intros x Hx. rewrite lookup_insert_ne by congruence.
        split; reflexivity.
Qed.

Lemma exit_caches_spec (C : Z -> list Z) : forall n i st fuel,
  env st = [] ->
  (forall j, i <= j < i + Z.of_nat n ->
     exists w, idx_get (top (thread_data st)) j = Some w
               /\ stack_chain (pages st) w (C j)
               /\ NoDup (C j)
               /\ (length (C j) < fuel)%nat
               /\ is_Some (idx_get (global_freeheap st) j)
               /\ forall b, b ∈ C j ->
                    0 < b /\ b mod PAGE_SZ = 0 /\ b < ADDR_LIMIT
                    /\ mapped st !! b = Some (PAGE_SZ_BY_IDX j)) ->
  (forall j j' b, j <> j' -> b ∈ C j -> ~ b ∈ C j') ->
  exists st',
    exit_caches fuel n i st = Ok (tt, st')
    /\ exit_frame (fun b => exists j, i <= j < i + Z.of_nat n /\ b ∈ C j)
                  st st'
    /\ (forall j, i <= j < i + Z.of_nat n ->
          exists w', idx_get (top (thread_data st')) j = Some w'
                     /\ dq_count w' = 0)
    /\ (forall j, ~ (i <= j < i + Z.of_nat n) ->
          idx_get (top (thread_data st')) j
          = idx_get (top (thread_data st)) j).
Proof.
  induction n as [|n IH]; intros i st fuel He Hc Hdis.
  - exists st. split; [reflexivity|]. split; [apply exit_frame_refl|].
    split; [intros j Hj; cbn in Hj; lia|]. intros j _. reflexivity.
  - cbn [exit_caches].
    destruct (Hc i ltac:(lia)) as (w & Hw & Hch & Hnd & Hlen & Hgl & Hblk).
    destruct (exit_cache_spec i (C i) st w fuel He Hw Hch Hnd Hblk Hgl Hlen)
      as (st1 & w1 & Hrun & Hfr & Hw1 & Hz & Hoth).
    rewrite (bind_Ok _ _ _ _ _ Hrun).
    assert (Hsame : forall j x, j <> i -> x ∈ C j ->
              pages st1 !! x = pages st !! x
              /\ mapped st1 !! x = mapped st !! x).
    { intros j x Hj Hx. destruct Hfr as (_ & _ & _ & _ & _ & Hs).
      apply Hs. exact (Hdis j i x Hj Hx). }
    destruct (IH (i + 1) st1 fuel) as (st2 & Hrun2 & Hfr2 & Hz2 & Hoth2).
    + destruct Hfr as (_ & _ & _ & E & _). rewrite E. exact He.
    + intros j Hj.
      destruct (Hc j ltac:(lia))
        as (wj & Hwj & Hchj & Hndj & Hlenj & Hglj & Hblkj).
      exists wj. rewrite (Hoth j ltac:(lia)).
      split_and!; try assumption.
      * apply (stack_chain_frame (pages st)); [|exact Hchj].
        intros x Hx. rewrite (proj1 (Hsame j x ltac:(lia) Hx)). reflexivity.
      * destruct Hfr as (_ & _ & _ & _ & Hg & _). apply Hg, Hglj.
      * intros x Hx. destruct (Hblkj x Hx) as (H1 & H2 & H3 & H4).
        rewrite (proj2 (Hsame j x ltac:(lia) Hx)).
        split_and!; assumption.
    + exact Hdis.
    + exists st2. split; [exact Hrun2|]. split.
      { apply (exit_frame_trans (fun x => x ∈ C i)
                 (fun x => exists j, i + 1 <= j < i + 1 + Z.of_nat n
                                     /\ x ∈ C j) _ st st1 st2);
          try assumption.
        - intros x Hx. exists i. split; [lia|exact Hx].
        - intros x (j & Hj & Hx). exists j. split; [lia|exact Hx]. }
      split.
      * intros j Hj. destruct (decide (j = i)) as [->|Hne].
        -- exists w1. rewrite (Hoth2 i ltac:(lia)). split; assumption.
        -- apply Hz2. lia.
      * intros j Hj. rewrite (Hoth2 j ltac:(lia)). apply Hoth. lia.
Qed.

Lemma exit_bound_cache g i :
  0 <= i < CLASS_PAGES_NUM -> (length (g_lcache g i) < exit_bound g)%nat.
Proof.
  intros Hi. unfold exit_bound.
  pose proof (proj1 (list_max_le
    (map (fun i => length (g_lcache g (Z.of_nat i)))
         (seq 0 (Z.to_nat CLASS_PAGES_NUM))) _) (Nat.le_refl _)) as Hall.
  rewrite List.Forall_forall in Hall.
  assert (Hin : (length (g_lcache g i)
                 <= list_max (map (fun i => length (g_lcache g (Z.of_nat i)))
                                  (seq 0 (Z.to_nat CLASS_PAGES_NUM))))%nat).
  { apply Hall. apply in_map_iff. exists (Z.to_nat i). split.
    - rewrite Z2Nat.id by lia. reflexivity.
    - apply in_seq. change CLASS_PAGES_NUM with 3 in *. lia. }
  lia.
Qed.

Lemma exit_bound_list g c :
  0 <= c < CLASS_NUM -> (length (g_list g c) <= exit_bound g)%nat.
Proof.
  intros Hc. pose proof (walk_bound_le g c Hc). unfold exit_bound. lia.
Qed.

(** The destructor of a thread whose heap is well formed. *)
Lemma dtor_spec st g fuel :
  inv st g -> (exit_bound g <= fuel)%nat ->
  exists st',
    thread_data_struct_dtor fuel st = Ok (tt, st')
    /\ exit_frame
         (fun b => (exists c, 0 <= c < CLASS_NUM /\ b ∈ g_list g c)
                   \/ (exists i, 0 <= i < CLASS_PAGES_NUM
                                 /\ b ∈ g_lcache g i)) st st'
    /\ (forall i, 0 <= i < CLASS_PAGES_NUM ->
          exists w, idx_get (top (thread_data st')) i = Some w
                    /\ dq_count w = 0)
    /\ (forall c b pg, 0 <= c < CLASS_NUM -> b ∈ g_list g c ->
          pages st !! b = Some pg -> allocated_objects pg <> 0 ->
          pages st' !! b = Some (orphan pg)
          /\ mapped st' !! b = mapped st !! b).
Proof.
  intros Hinv Hfuel. unfold thread_data_struct_dtor.
  set (L := fun c => if decide (0 <= c < CLASS_NUM) then g_list g c else []).
  set (C := fun i => if decide (0 <= i < CLASS_PAGES_NUM)
                     then g_lcache g i else []).
  assert (HL : forall c, 0 <= c < CLASS_NUM -> L c = g_list g c).
  { intros c Hc. unfold L. destruct (decide _); [reflexivity|lia]. }
  assert (HC : forall i, 0 <= i < CLASS_PAGES_NUM -> C i = g_lcache g i).
  { intros i Hi. unfold C. destruct (decide _); [reflexivity|lia]. }
  assert (HLin : forall c b, b ∈ L c ->
                   0 <= c < CLASS_NUM /\ b ∈ g_list g c).
  { intros c b Hb. unfold L in Hb.
    destruct (decide _); [split; assumption|].
    apply elem_of_nil in Hb. contradiction. }
  assert (HCin : forall i b, b ∈ C i ->
                   0 <= i < CLASS_PAGES_NUM /\ b ∈ g_lcache g i).
  { intros i b Hb. unfold C in Hb.
    destruct (decide _); [split; assumption|].
    apply elem_of_nil in Hb. contradiction. }
  assert (Hrole_list : forall c b, 0 <= c < CLASS_NUM -> b ∈ g_list g c ->
                         g_role g b = Some (InClass c)).
  { intros c b Hc Hb.
    destruct (inv_heaps _ _ Hinv c Hc) as (_ & _ & _ & _ & Hr).
    exact (Hr b Hb). }
  assert (Hrole_cache : forall i b, 0 <= i < CLASS_PAGES_NUM ->
                          b ∈ g_lcache g i ->
                          g_role g b = Some (InLocal i)).
  { intros i b Hi Hb.
    destruct (inv_local _ _ Hinv i Hi) as (_ & _ & _ & _ & Hr).
    exact (proj1 (Hr b Hb)). }
  destruct (exit_classes_spec L (Z.to_nat CLASS_NUM) 0 st fuel
              (inv_env _ _ Hinv)) as (st1 & Hrun1 & Hfr1 & Htop1 & Horph1).
  { intros c Hc. rewrite Z2Nat.id in Hc by (cbv; discriminate).
    assert (Hc' : 0 <= c < CLASS_NUM) by lia.
    destruct (inv_heaps _ _ Hinv c Hc') as (h & Hh & Hdl & Hnd & Hr).
    destruct Hdl as (Hhd & _ & Hd).
    exists h. rewrite (HL c Hc'). split_and!; try assumption.
    - pose proof (exit_bound_list g c Hc'). lia.
    - intros b Hb. split; [exact (mapped_nonzero _ _ _ _ Hinv (Hr b Hb))|].
      destruct (inv_blocks _ _ Hinv c b (Hr b Hb)) as [_ Hbo].
      destruct Hbo as (pg & csz & Hpg & _ & Hmp & _ & Hpn & Hsy & _).
      exists pg. rewrite Hpn. split_and!; try assumption.
      + rewrite Hsy.
        exact (proj2 (proj2 (owner_word_fields _ (inv_tid _ _ Hinv)))).
      + destruct (class_entry c Hc') as (_ & _ & _ & _ & _ & _ & Hidx).
        destruct (inv_global _ _ Hinv _ Hidx) as (w & Hw & _).
        eexists. exact Hw. }
  { intros c c' b Hne Hb Hb'.
    destruct (HLin c b Hb) as [Hc Hbl].
    destruct (HLin c' b Hb') as [Hc' Hbl'].
    pose proof (role_apart _ _ _ _ (Hrole_list c b Hc Hbl)
                  (Hrole_list c' b Hc' Hbl')) as E.
    injection E as E. contradiction. }
  rewrite (bind_Ok _ _ _ _ _ Hrun1).
  assert (Hnotlist : forall i b, 0 <= i < CLASS_PAGES_NUM ->
            b ∈ g_lcache g i ->
            ~ (exists c, 0 <= c < 0 + Z.of_nat (Z.to_nat CLASS_NUM)
                         /\ b ∈ L c)).
  { intros i b Hi Hb (c & _ & Hbc).
    destruct (HLin c b Hbc) as [Hc Hbl].
    pose proof (role_apart _ _ _ _ (Hrole_list c b Hc Hbl)
                  (Hrole_cache i b Hi Hb)). discriminate. }
  destruct (exit_caches_spec C (Z.to_nat CLASS_PAGES_NUM) 0 st1 fuel)
    as (st2 & Hrun2 & Hfr2 & Hz2 & _).
  { destruct Hfr1 as (_ & _ & _ & E & _). rewrite E.
    exact (inv_env _ _ Hinv). }
  { intros i Hi. rewrite Z2Nat.id in Hi by (cbv; discriminate).
    assert (Hi' : 0 <= i < CLASS_PAGES_NUM) by lia.
    destruct (inv_local _ _ Hinv i Hi') as (w & Hw & Hch & Hnd & Hblk).
    exists w. rewrite (HC i Hi').
    unfold idx_get in *. rewrite Htop1.
    split; [exact Hw|].
    pose proof Hfr1 as (_ & _ & _ & _ & Hg & Hs).
    split.
    { apply (stack_chain_frame (pages st)); [|exact Hch].
      intros x Hx.
      rewrite (proj1 (Hs x (Hnotlist i x Hi' Hx))). reflexivity. }
    split; [exact Hnd|].
    split; [pose proof (exit_bound_cache g i Hi'); lia|].
    split.
    { apply Hg. destruct (inv_global _ _ Hinv i Hi') as (wg & Hwg & _).
      eexists. exact Hwg. }
    intros x Hx. destruct (Hblk x Hx) as [_ Hmp].
    destruct (mapped_block _ _ _ _ Hinv Hmp) as (H1 & H2 & H3).
    rewrite (proj2 (Hs x (Hnotlist i x Hi' Hx))).
    split_and!; assumption. }
  { intros i i' b Hne Hb Hb'.
    destruct (HCin i b Hb) as [Hi Hbl].
    destruct (HCin i' b Hb') as [Hi' Hbl'].
    pose proof (role_apart _ _ _ _ (Hrole_cache i b Hi Hbl)
                  (Hrole_cache i' b Hi' Hbl')) as E.
    injection E as E. contradiction. }
  exists st2. split; [exact Hrun2|]. split.
  { eapply exit_frame_trans; [| |exact Hfr1|exact Hfr2]; cbv beta.
    - intros b (c & _ & Hb). left. exists c. exact (HLin c b Hb).
    - intros b (i & _ & Hb). right. exists i. exact (HCin i b Hb). }
  split.
  { intros i Hi. apply Hz2. change CLASS_PAGES_NUM with 3 in *. lia. }
  intros c b pg Hc Hb Hpg Hal.
  destruct (Horph1 c b pg) as [E1 E2]; try assumption.
  { rewrite (HL c Hc). exact Hb. }
  destruct Hfr2 as (_ & _ & _ & _ & _ & Hs).
  destruct (Hs b) as [F1 F2].
  { intros (i & _ & Hbi). destruct (HCin i b Hbi) as [Hi Hbc].
    pose proof (role_apart _ _ _ _ (Hrole_list c b Hc Hb)
                  (Hrole_cache i b Hi Hbc)). discriminate. }
  rewrite F1, F2, E1, E2. split; reflexivity.
Qed.

(** What the destructor leaves of the objects that are live. *)
Lemma dtor_live st g fuel :
  inv st g -> (exit_bound g <= fuel)%nat ->
  exists st',
    thread_data_struct_dtor fuel st = Ok (tt, st')
    /\ mem st' = mem st /\ env st' = []
    /\ (forall i, 0 <= i < CLASS_PAGES_NUM ->
          exists w, idx_get (top (thread_data st')) i = Some w
                    /\ dq_count w = 0)
    /\ (forall p b k, live_in g p -> mapped st !! b = Some k ->
          b <= p < b + k * PAGE_SZ -> mapped st' !! b = Some k)
    /\ (forall c b p pg, 0 <= c < CLASS_NUM -> b ∈ g_list g c ->
          p ∈ g_live g b -> pages st !! b = Some pg ->
          pages st' !! b = Some (orphan pg)).
Proof.
  intros Hinv Hfuel.
  destruct (dtor_spec st g fuel Hinv Hfuel)
    as (st' & Hrun & Hfr & Hz & Horph).
  assert (Hsmall : forall c b p pg, 0 <= c < CLASS_NUM -> b ∈ g_list g c ->
            p ∈ g_live g b -> pages st !! b = Some pg ->
            pages st' !! b = Some (orphan pg)
            /\ mapped st' !! b = mapped st !! b).
  { intros c b p pg Hc Hb Hp Hpg. apply (Horph c b pg Hc Hb Hpg).
    destruct (live_small_locate _ _ _ _ _ Hinv Hc Hb Hp)
      as (pg0 & csz & Hpg0 & _ & _ & _ & _ & _ & _ & _ & _ & _ & Hal).
    rewrite Hpg in Hpg0. injection Hpg0 as <-. rewrite Hal.
    destruct (g_live g b); [apply elem_of_nil in Hp; contradiction|].
    cbn [length]. lia. }
  exists st'. split; [exact Hrun|].
  pose proof Hfr as (Hmem & _ & _ & Henv & _ & Hsame).
  split; [exact Hmem|]. split; [rewrite Henv; exact (inv_env _ _ Hinv)|].
  split; [exact Hz|]. split.
  - intros p b k [Hl|(c & b0 & Hc & Hb0 & Hp)] Hmp Hin.
    + destruct (live_large_region _ _ _ Hinv Hl) as (n & Hn & Hn0 & Hrole & _).
      assert (E : b = p - LARGE_HEADER_SIZE).
      { apply (region_unique (mapped st) b k (p - LARGE_HEADER_SIZE) n p
                 (inv_os _ _ Hinv) Hmp Hn Hin).
        change LARGE_HEADER_SIZE with 16. rewrite PAGE_SZ_val. lia. }
      subst b. rewrite <- Hmp. apply Hsame.
      intros [(c & Hc & Hb)|(i & Hi & Hb)].
      * destruct (inv_heaps _ _ Hinv c Hc) as (_ & _ & _ & _ & Hr).
        pose proof (role_apart _ _ _ _ Hrole (Hr _ Hb)). discriminate.
      * destruct (inv_local _ _ Hinv i Hi) as (_ & _ & _ & _ & Hr).
        pose proof (role_apart _ _ _ _ Hrole (proj1 (Hr _ Hb))).
        discriminate.
    + destruct (live_small_region _ _ _ _ _ Hinv Hc Hb0 Hp)
        as (csz & i & _ & Hcb & Hmp0 & Hi & Ep & Hend & _).
      assert (E : b = b0).
      { apply (region_unique (mapped st) b k b0 (class_pages c) p
                 (inv_os _ _ Hinv) Hmp Hmp0 Hin).
        change FIRST_PAYLOAD with 48 in Ep. rewrite PAGE_SZ_val in *. nia. }
      subst b.
      destruct (heap_block _ _ _ _ Hinv Hc Hb0) as [_ Hbo].
      destruct Hbo as (pg & _ & Hpg & _).
      rewrite (proj2 (Hsmall c b0 p pg Hc Hb0 Hp Hpg)). exact Hmp.
  - intros c b p pg Hc Hb Hp Hpg.
    exact (proj1 (Hsmall c b p pg Hc Hb Hp Hpg)).
Qed.

(** ** An orphan finds a new owner *)

Lemma remote_free_cas_orphan_run b p off tid st pg :
  env st = [] -> pages st !! b = Some pg ->
  0 <= sync pg < 2 ^ 64 ->
  rf_thread_id (sync pg) = ORPHAN_ID ->
  remote_free_cas 1 b p off tid st =
    Ok (true,
        set_cas_log
          ((PageSync b, sync pg,
            set_rf_count
              (set_rf_remotely_freed (set_rf_thread_id (sync pg) tid) off)
              (rf_count
                 (set_rf_remotely_freed (set_rf_thread_id (sync pg) tid) off)
               + 1))
           :: cas_log st)
          (set_pages
             (<[b := set_sync
                       (set_rf_count
                          (set_rf_remotely_freed
                             (set_rf_thread_id (sync pg) tid) off)
                          (rf_count
                             (set_rf_remotely_freed
                                (set_rf_thread_id (sync pg) tid) off)
                           + 1)) pg]> (pages st))
             (set_mem (write_le 8 (mem st) p (sync pg)) st))).
Proof.
  intros He Hpg Hrange Horph. cbn [remote_free_cas].
  erewrite bind_Ok; [|unfold load_word; rewrite Hpg; reflexivity].
  erewrite bind_Ok; [|reflexivity].
  erewrite bind_Ok; [|reflexivity]. sst.
  erewrite bind_Ok; [|reflexivity]. sst.
  rewrite read_le_write_le_same.
  change (256 ^ Z.of_nat 8) with (2 ^ 64). rewrite (Z.mod_small _ _ Hrange).
  rewrite Horph, Z.eqb_refl.
  erewrite bind_Ok; [|apply CAS_sync_quiet; sst; [exact He|exact Hpg]].
  reflexivity.
Qed.

Lemma insert_front_dq_empty_run c b st h pg :
  idx_get (private_heap (thread_data st)) c = Some h -> head h = 0 ->
  pages st !! b = Some pg ->
  insert_front_dq c b st =
    Ok (tt,
        set_pages (<[b := set_prev 0 (set_next 0 pg)]> (pages st))
          (set_thread_data
             (set_private_heap
                (idx_set (private_heap (thread_data st)) c (mk_heap b b))
                (thread_data st)) st)).
Proof.
  intros Hh Hhd Hpg. unfold insert_front_dq.
  rewrite (bind_Ok _ _ _ _ _ (get_heap_run _ _ _ Hh)).
  rewrite Hhd. cbn [Z.eqb].
  rewrite (bind_Ok _ _ _ _ _ (put_heap_run _ _ _ _ Hh)).
  erewrite upd_page_run; [reflexivity|]. sst. exact Hpg.
Qed.

(** A thread with no block of the class frees an object of an orphan: it
    becomes the owner, the block heads its list, and its next allocation
    of that class is the object. *)
Lemma adopt_then_alloc s td2 c b p off pgo pn h2 fuel sz pb :
  env s = [] -> pages s !! b = Some pgo ->
  0 <= sync pgo < 2 ^ 64 ->
  rf_thread_id (sync pgo) = ORPHAN_ID ->
  rf_remotely_freed (sync pgo) = 0 -> rf_count (sync pgo) = 0 ->
  object_type_decode p s = Ok ((CLASS_SMALL, off), s) ->
  GET_PAGE_START p off = b ->
  class_size_decode (u64 (object_size pgo - 1)) = Some (c, pn) ->
  p <> 0 -> b <> 0 -> 0 < p - b < 2 ^ 24 ->
  0 <= freed pgo < 2 ^ 32 -> 1 <= allocated_objects pgo < 2 ^ 32 ->
  0 <= thread_id td2 < 2 ^ THREAD_ID_BITS -> thread_id td2 <> ORPHAN_ID ->
  idx_get (private_heap td2) c = Some h2 -> head h2 = 0 ->
  1 <= sz <= 2047 -> class_size_decode sz = Some (c, pb) ->
  exists st1 st2 pg1 h1,
    free p (set_thread_data td2 s) = Ok (tt, st1)
    /\ idx_get (private_heap (thread_data st1)) c = Some h1 /\ head h1 = b
    /\ pages st1 !! b = Some pg1
    /\ rf_thread_id (sync pg1) = thread_id td2
    /\ rf_count (sync pg1) = 1
    /\ rf_remotely_freed (sync pg1) = p - b
    /\ malloc (S fuel) sz st1 = Ok (p, st2)
    /\ pages st2 !! b
       = Some (set_sync (owner_word (thread_id td2))
                 (set_prev 0 (set_next 0 pgo))).
Proof.
  intros He Hpg Hrange Horph Hrf0 Hcnt0 Hdec Hstart Hcls Hp0 Hb0 Hoff Hfr Hal
         Htid2 Hno Hh2 Hhd2 Hsz Hdsz.
  change THREAD_ID_BITS with 24 in Htid2.
  set (N := set_rf_count
              (set_rf_remotely_freed
                 (set_rf_thread_id (sync pgo) (thread_id td2))
                 (u32 (p - b)))
              (rf_count
                 (set_rf_remotely_freed
                    (set_rf_thread_id (sync pgo) (thread_id td2))
                    (u32 (p - b))) + 1)).
  assert (HN : rf_count N = 1 /\ rf_remotely_freed N = p - b
               /\ rf_thread_id N = thread_id td2).
  { unfold N. autorewrite with fields. rewrite Hcnt0.
    rewrite (u32_small (p - b)) by lia.
    split; [reflexivity|]. split; apply Z.mod_small; lia. }
  destruct HN as (HN1 & HN2 & HN3).
  set (s0 := set_thread_data td2 s).
  set (s1 := set_cas_log ((PageSync b, sync pgo, N) :: cas_log s0)
               (set_pages (<[b := set_sync N pgo]> (pages s0))
                  (set_mem (write_le 8 (mem s0) p (sync pgo)) s0))).
  set (pg3 := set_prev 0 (set_next 0 (set_sync N pgo))).
  set (s3 := set_pages (<[b := pg3]> (pages s1))
               (set_thread_data
                  (set_private_heap
                     (idx_set (private_heap (thread_data s1)) c
                              (mk_heap b b))
                     (thread_data s1)) s1)).
  assert (Hfree : free p s0 = Ok (tt, s3)).
  { unfold free. destruct (Z.eqb_spec p 0) as [E|_]; [contradiction|].
    rewrite object_type_decode_run in Hdec. injection Hdec as Ety Eoff.
    rewrite (bind_Ok _ _ _ _ _ (object_type_decode_run p s0)).
    change (mem s0) with (mem s). rewrite Ety, Eoff. cbn [fst snd].
    rewrite Z.eqb_refl, Hstart.
    erewrite bind_Ok; [|apply get_page_run; unfold s0; sst; exact Hpg].
    rewrite Hcls.
    erewrite bind_Ok; [|reflexivity]. unfold s0 at 1. sst.
    unfold page_internal_free.
    erewrite bind_Ok; [|apply get_page_run; unfold s0; sst; exact Hpg].
    rewrite Horph.
    destruct (Z.eqb_spec ORPHAN_ID (thread_id td2)) as [E|_];
      [symmetry in E; contradiction|].
    erewrite bind_Ok;
      [|unfold attempts, gets, s0; sst; rewrite He; reflexivity].
    cbn [length].
    rewrite (bind_Ok _ _ _ _ _
               (remote_free_cas_orphan_run b p (u32 (p - b)) (thread_id td2)
                  s0 pgo He Hpg Hrange Horph)).
    fold N. fold s1.
    erewrite bind_Ok; [|apply get_page_run; unfold s1; sst;
                        apply lookup_insert_eq].
    sst. rewrite HN3, Z.eqb_refl. cbn [andb].
    apply (insert_front_dq_empty_run c b s1 h2 (set_sync N pgo)).
    - exact Hh2.
    - exact Hhd2.
    - unfold s1. sst. apply lookup_insert_eq. }
  assert (Hpg3 : pages s3 !! b = Some pg3)
    by (unfold s3; sst; apply lookup_insert_eq).
  assert (Hh3 : idx_get (private_heap (thread_data s3)) c
                = Some (mk_heap b b)).
  { unfold s3. sst. apply (idx_get_set_eq _ _ _ _ Hh2). }
  assert (Hmem3 : read_le 8 (mem s3) p = sync pgo).
  { unfold s3, s1. sst. rewrite read_le_write_le_same.
    change (256 ^ Z.of_nat 8) with (2 ^ 64). apply Z.mod_small. exact Hrange. }
  pose proof (page_internal_alloc_drain_run fuel b s3 pg3 p) as Hrun.
  cbn [sync set_sync set_prev set_next freed allocated_objects pg3] in Hrun.
  specialize (Hrun He Hpg3 HN2 ltac:(lia)
                ltac:(rewrite Hmem3; exact Hrf0) Hfr Hal).
  destruct (page_internal_alloc (S fuel) b s3) as [[r st5]| | |] eqn:Ealloc;
    try contradiction.
  destruct Hrun as (-> & Hpg5 & _).
  exists s3, st5, pg3, (mk_heap b b).
  split; [exact Hfree|]. split; [exact Hh3|]. split; [reflexivity|].
  split; [exact Hpg3|].
  cbn [sync set_sync set_prev set_next pg3].
  split; [exact HN3|]. split; [exact HN1|]. split; [exact HN2|].
  split.
  { unfold malloc. destruct (Z.eqb_spec sz 0) as [E|_]; [lia|].
    rewrite SMALL_ALLOCATION_LIMIT_val.
    destruct (Z.ltb_spec sz 2048) as [_|E]; [|lia].
    rewrite Hdsz.
    rewrite (bind_Ok _ _ _ _ _ (get_heap_run _ _ _ Hh3)).
    cbn [head].
    unfold bind at 1. rewrite (malloc_walk_step fuel b s3 Hb0).
    rewrite Ealloc. cbv beta iota.
    assert (E0 : (p =? 0) = false) by (apply Z.eqb_neq; exact Hp0).
    rewrite E0. cbn [negb]. cbv beta iota. rewrite E0. cbn [negb].
    reflexivity. }
  rewrite Hpg5, HN3. destruct pgo. reflexivity.
Qed.

Lemma live_block_facts st g c b p pg :
  inv st g -> 0 <= c < CLASS_NUM -> b ∈ g_list g c -> p ∈ g_live g b ->
  pages st !! b = Some pg ->
  48 <= p - b < 2 ^ 17 /\ 0 <= freed pg < 2 ^ 32
  /\ 1 <= allocated_objects pg < 2 ^ 13 /\ 0 < b
  /\ sync pg = owner_word (thread_id (thread_data st)).
Proof.
  intros Hinv Hc Hb Hp Hpg.
  destruct (heap_block _ _ _ _ Hinv Hc Hb) as [Hrole Hbo].
  destruct Hbo as (pg0 & csz & Hpg0 & Hcs & Hmp & Hos & Hpn & Hsy & Hk0 & Hun
                   & Hlim & Hal & Hlen & Hnd & Hsl & Hhd & Hch).
  rewrite Hpg in Hpg0. injection Hpg0 as <-.
  pose proof (class_sizes_bounds _ _ Hcs) as [Hcb Hcm].
  pose proof (class_pages_bytes c) as (Hbytes & Hu32 & Hcp).
  destruct (mapped_block _ _ _ _ Hinv Hmp) as (Hb0 & Hbal & Hbtop).
  assert (Hkb : g_slots g b < 2 ^ 13).
  { apply (slots_bound _ csz (class_pages c * PAGE_SZ)); lia. }
  destruct (Hsl p ltac:(apply elem_of_app; left; exact Hp)) as (j & Hj & Ep).
  pose proof (slot_step j (g_slots g b) csz ltac:(lia) ltac:(lia)) as Hjs.
  assert (Hlive : 1 <= Z.of_nat (length (g_live g b))).
  { destruct (g_live g b); [apply elem_of_nil in Hp; contradiction|].
    cbn [length]. lia. }
  assert (Hfr : 0 <= freed pg < 2 ^ 32).
  { destruct (g_free g b) as [|a fr] eqn:Efr; cbn [free_chain] in Hch.
    - lia.
    - destruct Hch as [-> _].
      destruct (Hsl a) as (i & Hi & ->).
      { apply elem_of_app. right. ehere. }
      pose proof (slot_step i (g_slots g b) csz ltac:(lia) ltac:(lia)).
      change FIRST_PAYLOAD with 48 in *. rewrite PAGE_SZ_val in *. lia. }
  change FIRST_PAYLOAD with 48 in *. rewrite PAGE_SZ_val in *.
  split; [nia|]. split; [exact Hfr|]. split; [lia|].
  split; [exact Hb0|exact Hsy].
Qed.

Lemma orphan_word_fields tid :
  0 <= tid < 2 ^ THREAD_ID_BITS ->
  0 <= set_rf_thread_id (owner_word tid) ORPHAN_ID < 2 ^ 64
  /\ rf_thread_id (set_rf_thread_id (owner_word tid) ORPHAN_ID) = ORPHAN_ID
  /\ rf_remotely_freed (set_rf_thread_id (owner_word tid) ORPHAN_ID) = 0
  /\ rf_count (set_rf_thread_id (owner_word tid) ORPHAN_ID) = 0.
Proof.
  intros Ht. pose proof (owner_word_fields tid Ht) as (_ & H2 & H3).
  pose proof (owner_word_range tid) as Hr.
  split.
  { unfold set_rf_thread_id.
    change REMOTELY_FREED_COUNT_BITS with 16.
    change REMOTELY_FREED_OFFSET_BITS with 24. change THREAD_ID_BITS with 24.
    apply set_field_lt; lia. }
  autorewrite with fields. rewrite H2, H3.
  split; [reflexivity|]. split; reflexivity.
Qed.

(** From the end of the owner to the next use of the object. *)
Lemma exit_adopt_reuse st g c b p pg td2 h2 fuel fuel2 sz pb :
  inv st g -> 0 <= c < CLASS_NUM -> b ∈ g_list g c -> p ∈ g_live g b ->
  pages st !! b = Some pg ->
  (exit_bound g <= fuel)%nat ->
  0 <= thread_id td2 < 2 ^ THREAD_ID_BITS -> thread_id td2 <> ORPHAN_ID ->
  idx_get (private_heap td2) c = Some h2 -> head h2 = 0 ->
  1 <= sz <= 2047 -> class_size_decode sz = Some (c, pb) ->
  exists st' st1 st2 pg1 h1,
    thread_data_struct_dtor fuel st = Ok (tt, st')
    /\ pages st' !! b = Some (orphan pg)
    /\ free p (set_thread_data td2 st') = Ok (tt, st1)
    /\ idx_get (private_heap (thread_data st1)) c = Some h1 /\ head h1 = b
    /\ pages st1 !! b = Some pg1
    /\ rf_thread_id (sync pg1) = thread_id td2
    /\ rf_count (sync pg1) = 1
    /\ rf_remotely_freed (sync pg1) = p - b
    /\ malloc (S fuel2) sz st1 = Ok (p, st2)
    /\ pages st2 !! b
       = Some (set_sync (owner_word (thread_id td2))
                 (set_prev 0 (set_next 0 pg))).
Proof.
  intros Hinv Hc Hb Hp Hpg Hfuel Htid2 Hno Hh2 Hhd2 Hsz Hdsz.
  destruct (dtor_live st g fuel Hinv Hfuel)
    as (st' & Hrun & Hmem & Henv & _ & _ & Horph).
  pose proof (Horph c b p pg Hc Hb Hp Hpg) as Hpg'.
  destruct (live_block_facts st g c b p pg Hinv Hc Hb Hp Hpg)
    as (Hoff & Hfr & Hal & Hb0 & Hsy).
  destruct (orphan_word_fields _ (inv_tid _ _ Hinv)) as (Hr & F1 & F2 & F3).
  rewrite <- Hsy in Hr, F1, F2, F3.
  destruct (live_small_locate _ _ _ _ _ Hinv Hc Hb Hp)
    as (pg0 & csz & Hpg0 & _ & Hos & _ & Hp0 & _ & Hdec & Hstart & Hcls & _).
  rewrite Hpg in Hpg0. injection Hpg0 as <-.
  assert (Hdec' : object_type_decode p st'
                  = Ok ((CLASS_SMALL, (p - b) / PAGE_SZ), st')).
  { rewrite object_type_decode_run in Hdec. injection Hdec as Ety Eoff.
    rewrite object_type_decode_run, Hmem, Ety, Eoff. reflexivity. }
  destruct (adopt_then_alloc st' td2 c b p ((p - b) / PAGE_SZ) (orphan pg)
              (class_pages c) h2 fuel2 sz pb Henv Hpg')
    as (st1 & st2 & pg1 & h1 & Hfree & Hh1 & Hhd1 & Hpg1 & G1 & G2 & G3
        & Hm & Hpg2);
    try assumption; try (cbn [orphan sync set_sync freed allocated_objects
                              object_size]; first [assumption | lia]).
  - cbn [orphan object_size set_sync]. rewrite Hos. exact Hcls.
  - exists st', st1, st2, pg1, h1.
    split_and!; assumption.
Qed.

(** ** The two ends of a class list *)

Lemma heap_eta h : mk_heap (head h) (tail h) = h.
Proof. destruct h. reflexivity. Qed.

Lemma idx_set_twice {A} (l : list A) i x y :
  idx_set (idx_set l i x) i y = idx_set l i y.
Proof. unfold idx_set. apply list_insert_insert_eq. Qed.

Lemma idx_set_same {A} (l : list A) i x :
  idx_get l i = Some x -> idx_set l i x = l.
Proof.
  unfold idx_get, idx_set. destruct (0 <=? i); [|discriminate].
  apply list_insert_id.
Qed.

Lemma thread_eta td :
  mk_thread (thread_id td) (private_heap td) (top td) = td.
Proof. destruct td. reflexivity. Qed.

(** Putting a heap entry back restores the thread's private data. *)
Lemma put_back st c h x :
  idx_get (private_heap (thread_data st)) c = Some h ->
  set_private_heap
    (idx_set (idx_set (private_heap (thread_data st)) c x) c h)
    (thread_data st) = thread_data st.
Proof.
  intros Hh. rewrite idx_set_twice, (idx_set_same _ _ _ Hh).
  destruct (thread_data st). reflexivity.
Qed.

Lemma remove_front_dq_single_run c st h :
  idx_get (private_heap (thread_data st)) c = Some h ->
  head h = tail h ->
  remove_front_dq c st =
    Ok (head h,
        set_thread_data
          (set_private_heap
             (idx_set (private_heap (thread_data st)) c (mk_heap 0 0))
             (thread_data st)) st).
Proof.
  intros Hh E. unfold remove_front_dq.
  rewrite (bind_Ok _ _ _ _ _ (get_heap_run _ _ _ Hh)).
  rewrite E, Z.eqb_refl.
  rewrite (bind_Ok _ _ _ _ _ (put_heap_run _ _ _ _ Hh)). reflexivity.
Qed.

Lemma remove_tail_dq_single_run c st h :
  idx_get (private_heap (thread_data st)) c = Some h ->
  tail h = head h ->
  remove_tail_dq c st =
    Ok (tail h,
        set_thread_data
          (set_private_heap
             (idx_set (private_heap (thread_data st)) c (mk_heap 0 0))
             (thread_data st)) st).
Proof.
  intros Hh E. unfold remove_tail_dq.
  rewrite (bind_Ok _ _ _ _ _ (get_heap_run _ _ _ Hh)).
  rewrite E, Z.eqb_refl.
  rewrite (bind_Ok _ _ _ _ _ (put_heap_run _ _ _ _ Hh)). reflexivity.
Qed.

Lemma remove_front_dq_run c st h pg hp :
  idx_get (private_heap (thread_data st)) c = Some h ->
  head h <> tail h ->
  pages st !! head h = Some pg ->
  next pg <> head h ->
  pages st !! next pg = Some hp ->
  remove_front_dq c st =
    Ok (head h,
        set_pages
          (<[head h := set_next 0 pg]>
             (<[next pg := set_prev 0 hp]> (pages st)))
          (set_thread_data
             (set_private_heap
                (idx_set (private_heap (thread_data st)) c
                         (mk_heap (next pg) (tail h)))
                (thread_data st)) st)).
Proof.
  intros Hh Hne Hpg Hnx Hhp. unfold remove_front_dq.
  rewrite (bind_Ok _ _ _ _ _ (get_heap_run _ _ _ Hh)).
  destruct (Z.eqb_spec (head h) (tail h)) as [E|_]; [contradiction|].
  erewrite bind_Ok; [reflexivity|].
  rewrite (bind_Ok _ _ _ _ _ (get_page_run _ _ _ Hpg)).
  rewrite (bind_Ok _ _ _ _ _ (put_heap_run _ _ _ _ Hh)).
  erewrite bind_Ok;
    [|apply get_heap_run; sst; apply (idx_get_set_eq _ _ _ _ Hh)].
  cbn [head].
  erewrite bind_Ok; [|apply upd_page_run; sst; exact Hhp].
  erewrite upd_page_run; [reflexivity|]. sst.
  rewrite lookup_insert_ne by congruence. exact Hpg.
Qed.

Lemma remove_tail_dq_run c st h pg tp :
  idx_get (private_heap (thread_data st)) c = Some h ->
  tail h <> head h ->
  pages st !! tail h = Some pg ->
  prev pg <> tail h ->
  pages st !! prev pg = Some tp ->
  remove_tail_dq c st =
    Ok (tail h,
        set_pages
          (<[tail h := set_prev 0 pg]>
             (<[prev pg := set_next 0 tp]> (pages st)))
          (set_thread_data
             (set_private_heap
                (idx_set (private_heap (thread_data st)) c
                         (mk_heap (head h) (prev pg)))
                (thread_data st)) st)).
Proof.
  intros Hh Hne Hpg Hnx Htp. unfold remove_tail_dq.
  rewrite (bind_Ok _ _ _ _ _ (get_heap_run _ _ _ Hh)).
  destruct (Z.eqb_spec (tail h) (head h)) as [E|_]; [contradiction|].
  erewrite bind_Ok; [reflexivity|].
  rewrite (bind_Ok _ _ _ _ _ (get_page_run _ _ _ Hpg)).
  rewrite (bind_Ok _ _ _ _ _ (put_heap_run _ _ _ _ Hh)).
  erewrite bind_Ok;
    [|apply get_heap_run; sst; apply (idx_get_set_eq _ _ _ _ Hh)].
  cbn [tail].
  erewrite bind_Ok; [|apply upd_page_run; sst; exact Htp].
  erewrite upd_page_run; [reflexivity|]. sst.
  rewrite lookup_insert_ne by congruence. exact Hpg.
Qed.

Lemma insert_tail_dq_empty_run c b st h pg :
  idx_get (private_heap (thread_data st)) c = Some h -> head h = 0 ->
  pages st !! b = Some pg ->
  insert_tail_dq c b st =
    Ok (tt,
        set_pages (<[b := set_prev 0 (set_next 0 pg)]> (pages st))
          (set_thread_data
             (set_private_heap
                (idx_set (private_heap (thread_data st)) c (mk_heap b b))
                (thread_data st)) st)).
Proof.
  intros Hh Hhd Hpg. unfold insert_tail_dq.
  rewrite (bind_Ok _ _ _ _ _ (get_heap_run _ _ _ Hh)).
  rewrite Hhd. cbn [Z.eqb].
  rewrite (bind_Ok _ _ _ _ _ (put_heap_run _ _ _ _ Hh)).
  erewrite upd_page_run; [reflexivity|]. sst. exact Hpg.
Qed.

Lemma insert_tail_dq_run c b st h pg tp :
  idx_get (private_heap (thread_data st)) c = Some h -> head h <> 0 ->
  pages st !! b = Some pg -> tail h <> b ->
  pages st !! tail h = Some tp ->
  insert_tail_dq c b st =
    Ok (tt,
        set_thread_data
          (set_private_heap
             (idx_set (private_heap (thread_data st)) c (mk_heap (head h) b))
             (thread_data st))
          (set_pages
             (<[b := set_prev (tail h) pg]>
                (<[tail h := set_next b tp]> (pages st))) st)).
Proof.
  intros Hh Hhd Hpg Hne Htp. unfold insert_tail_dq.
  rewrite (bind_Ok _ _ _ _ _ (get_heap_run _ _ _ Hh)).
  destruct (Z.eqb_spec (head h) 0) as [E|_]; [contradiction|].
  rewrite (bind_Ok _ _ _ _ _ (upd_page_run _ _ _ _ Htp)).
  erewrite bind_Ok; [|apply get_heap_run; sst; exact Hh].
  erewrite bind_Ok;
    [|apply upd_page_run; sst; rewrite lookup_insert_ne by congruence;
      exact Hpg].
  erewrite bind_Ok; [|apply get_heap_run; sst; exact Hh].
  erewrite put_heap_run; [reflexivity|]. sst. exact Hh.
Qed.

Lemma idx_get_set_other {A} (l : list A) c c' x y :
  idx_get l c = Some y -> c' <> c ->
  idx_get (idx_set l c x) c' = idx_get l c'.
Proof.
  intros Hc Hne. unfold idx_get, idx_set in *.
  destruct (Z.leb_spec 0 c); [|discriminate].
  destruct (Z.leb_spec 0 c'); [|reflexivity].
  apply list_lookup_insert_ne. lia.
Qed.

Lemma dl_from_snoc ps b pg tp : forall l x pv,
  NoDup ((x :: l) ++ [b]) ->
  dl_from ps pv (x :: l) ->
  ps !! b = Some pg -> next pg = 0 ->
  ps !! List.last (x :: l) 0 = Some tp ->
  dl_from (<[b := set_prev (List.last (x :: l) 0) pg]>
             (<[List.last (x :: l) 0 := set_next b tp]> ps))
          pv ((x :: l) ++ [b]).
Proof.
  induction l as [|y l IH]; intros x pv Hnd Hd Hb Hnx Ht.
  - cbn [List.last app] in *. cbn [dl_from] in Hd.
    destruct Hd as (px & Hpx & Hpv & Hxn & _).
    rewrite Hpx in Ht. injection Ht as <-.
    apply NoDup_cons in Hnd as [Hx _].
    apply not_elem_of_cons in Hx as [Hxb _].
    cbn [dl_from]. exists (set_next b px). split_and!; sst.
    + rewrite lookup_insert_ne by congruence. apply lookup_insert_eq.
    + exact Hpv.
    + reflexivity.
    + exists (set_prev x pg). split_and!; sst.
      * apply lookup_insert_eq.
      * reflexivity.
      * exact Hnx.
      * exact I.
  - change (List.last (x :: y :: l) 0) with (List.last (y :: l) 0) in *.
    change ((x :: y :: l) ++ [b]) with (x :: ((y :: l) ++ [b])) in *.
    apply NoDup_cons in Hnd as [Hx Hnd].
    cbn [dl_from] in Hd. destruct Hd as (px & Hpx & Hpv & Hxn & Hrest).
    assert (Hxb : x <> b).
    { intros ->. apply Hx. apply elem_of_app. right. ehere. }
    assert (Hxl : x <> List.last (y :: l) 0).
    { intros E. apply Hx. apply elem_of_app. left. rewrite E.
      apply last_elem_of. }
    change (dl_from ?p pv (x :: ?r))
      with (exists q, p !! x = Some q /\ prev q = pv /\ next q = hd 0 r
                      /\ dl_from p x r).
    exists px. split_and!.
    + rewrite !lookup_insert_ne by congruence. exact Hpx.
    + exact Hpv.
    + exact Hxn.
    + apply IH; assumption.
Qed.

Lemma last_snoc_cons (x : Z) l b d : List.last ((x :: l) ++ [b]) d = b.
Proof. rewrite last_app_cons. reflexivity. Qed.

Lemma insert_front_dq_list st c l b pg :
  class_list st c l -> b ∉ l -> b <> 0 ->
  pages st !! b = Some pg -> prev pg = 0 ->
  exists st', insert_front_dq c b st = Ok (tt, st')
    /\ class_list st' c (b :: l) /\ dq_frame c (b :: l) st st'.
Proof.
  intros (h & Hh & Hdl & Htl & Hnd & Hnz) Hnin Hb0 Hpg Hpv.
  destruct (dlist_cons _ _ _ _ _ Hdl Hnin Hb0 Hnd Hnz Hpg Hpv)
    as (ps' & h' & Hcase & Hdl').
  rewrite (insert_front_dq_run c b st h pg Hh Hpg).
  destruct (Z.eqb_spec (head h) 0) as [E|E].
  - destruct Hcase as [-> ->]. eexists. split; [reflexivity|].
    assert (Hl : l = []).
    { destruct l as [|x l]; [reflexivity|]. destruct Hdl as (Hhd & _).
      cbn [hd] in Hhd. exfalso. apply (Hnz x); [ehere|congruence]. }
    subst l. split.
    + exists (mk_heap b b). sst. split_and!.
      * apply (idx_get_set_eq _ _ _ _ Hh).
      * exact Hdl'.
      * reflexivity.
      * apply NoDup_singleton.
      * intros x Hx. apply list_elem_of_singleton in Hx. congruence.
    + split_and!; sst.
      * reflexivity.
      * intros c' Hc'. apply (idx_get_set_other _ _ _ _ _ Hh Hc').
      * intros x Hx. apply not_elem_of_cons in Hx as [Hx _].
        rewrite lookup_insert_ne by congruence. reflexivity.
      * intros x. apply (body_insert _ _ _ _ _ Hpg). reflexivity.
  - destruct Hcase as (hp & Hhp & -> & ->). rewrite Hhp.
    eexists. split; [reflexivity|].
    destruct l as [|x l].
    { destruct Hdl as (Hhd & _). cbn [hd] in Hhd. contradiction. }
    assert (Hhx : head h = x) by (destruct Hdl as (Hhd & _); exact Hhd).
    split.
    + exists (mk_heap b (tail h)). sst. split_and!.
      * apply (idx_get_set_eq _ _ _ _ Hh).
      * exact Hdl'.
      * rewrite Htl. reflexivity.
      * apply NoDup_cons. split; assumption.
      * intros y Hy. apply elem_of_cons in Hy as [->|Hy];
          [exact Hb0|apply Hnz; exact Hy].
    + split_and!; sst.
      * reflexivity.
      * intros c' Hc'. apply (idx_get_set_other _ _ _ _ _ Hh Hc').
      * intros y Hy. apply not_elem_of_cons in Hy as [Hyb Hy].
        apply not_elem_of_cons in Hy as [Hyx _].
        rewrite !lookup_insert_ne by congruence. reflexivity.
      * intros y. rewrite (body_insert _ _ _ _ _ Hhp) by reflexivity.
        apply (body_insert _ _ _ _ _ Hpg). reflexivity.
Qed.

Lemma insert_tail_dq_list st c l b pg :
  class_list st c l -> b ∉ l -> b <> 0 ->
  pages st !! b = Some pg -> next pg = 0 ->
  exists st', insert_tail_dq c b st = Ok (tt, st')
    /\ class_list st' c (l ++ [b]) /\ dq_frame c (l ++ [b]) st st'.
Proof.
  intros (h & Hh & Hdl & Htl & Hnd & Hnz) Hnin Hb0 Hpg Hnx.
  destruct Hdl as (Hhd & _ & Hd).
  destruct l as [|x l].
  - cbn [hd] in Hhd. cbn [app].
    rewrite (insert_tail_dq_empty_run c b st h pg Hh Hhd Hpg).
    eexists. split; [reflexivity|]. split.
    + exists (mk_heap b b). sst. split_and!.
      * apply (idx_get_set_eq _ _ _ _ Hh).
      * unfold dlist. cbn [head tail hd List.last dl_from].
        split_and!; try reflexivity.
        exists (set_prev 0 (set_next 0 pg)).
        split_and!; try reflexivity. apply lookup_insert_eq.
      * reflexivity.
      * apply NoDup_singleton.
      * intros y Hy. apply list_elem_of_singleton in Hy. congruence.
    + split_and!; sst.
      * reflexivity.
      * intros c' Hc'. apply (idx_get_set_other _ _ _ _ _ Hh Hc').
      * intros y Hy. apply not_elem_of_cons in Hy as [Hy _].
        rewrite lookup_insert_ne by congruence. reflexivity.
      * intros y. apply (body_insert _ _ _ _ _ Hpg). reflexivity.
  - cbn [hd] in Hhd.
    assert (Hx0 : head h <> 0) by (rewrite Hhd; apply Hnz; ehere).
    assert (Hin : tail h ∈ x :: l) by (rewrite Htl; apply last_elem_of).
    assert (Htb : tail h <> b) by (intros E; apply Hnin; rewrite <- E; exact Hin).
    destruct (dl_from_pages _ _ _ _ Hd Hin) as [tp Htp].
    rewrite (insert_tail_dq_run c b st h pg tp Hh Hx0 Hpg Htb Htp).
    eexists. split; [reflexivity|].
    assert (Hnd' : NoDup ((x :: l) ++ [b])).
    { apply NoDup_app. split_and!; [exact Hnd| |apply NoDup_singleton].
      intros y Hy Hyb. apply list_elem_of_singleton in Hyb. subst y.
      contradiction. }
    split.
    + exists (mk_heap (head h) b). sst. split_and!.
      * apply (idx_get_set_eq _ _ _ _ Hh).
      * unfold dlist. cbn [head tail]. split_and!.
        -- exact Hhd.
        -- intros _. symmetry. apply last_snoc_cons.
        -- rewrite Htl in *.
           apply (dl_from_snoc _ _ _ tp); assumption.
      * symmetry. apply last_snoc_cons.
      * exact Hnd'.
      * intros y Hy. apply elem_of_app in Hy as [Hy|Hy];
          [apply Hnz; exact Hy|].
        apply list_elem_of_singleton in Hy. congruence.
    + split_and!; sst.
      * reflexivity.
      * intros c' Hc'. apply (idx_get_set_other _ _ _ _ _ Hh Hc').
      * intros y Hy. rewrite !lookup_insert_ne; [reflexivity| |].
        -- intros E. apply Hy. apply elem_of_app. left. rewrite <- E.
           exact Hin.
        -- intros E. apply Hy. apply elem_of_app. right. rewrite E. ehere.
      * intros y. rewrite (body_insert _ _ pg) by
          (first [reflexivity
                 |rewrite lookup_insert_ne by congruence; exact Hpg]).
        apply (body_insert _ _ _ _ _ Htp). reflexivity.
Qed.

Lemma remove_front_dq_list st c l :
  class_list st c l ->
  exists st', remove_front_dq c st = Ok (hd 0 l, st')
    /\ class_list st' c (tl l) /\ dq_frame c l st st'
    /\ (l <> [] -> unlinked st' (hd 0 l)).
Proof.
  intros (h & Hh & Hdl & Htl & Hnd & Hnz).
  destruct Hdl as (Hhd & _ & Hd).
  assert (Hempty : forall st0 : state,
    pages st0 = pages st ->
    dlist (pages st0) (mk_heap 0 0) []).
  { intros st0 _. unfold dlist. cbn [head tail hd dl_from].
    split_and!; [reflexivity|intros H; contradiction|exact I]. }
  destruct l as [|b [|n l]].
  - cbn [hd List.last] in *.
    rewrite (remove_front_dq_single_run c st h Hh) by congruence.
    rewrite Hhd. eexists. split; [reflexivity|]. split_and!.
    + exists (mk_heap 0 0). sst. split_and!.
      * apply (idx_get_set_eq _ _ _ _ Hh).
      * apply (Hempty st). reflexivity.
      * reflexivity.
      * apply NoDup_nil_2.
      * intros x Hx. apply elem_of_nil in Hx. contradiction.
    + split_and!; sst; try reflexivity.
      intros c' Hc'. apply (idx_get_set_other _ _ _ _ _ Hh Hc').
    + intros H. contradiction.
  - cbn [hd List.last tl] in *.
    rewrite (remove_front_dq_single_run c st h Hh) by congruence.
    rewrite Hhd. eexists. split; [reflexivity|]. split_and!.
    + exists (mk_heap 0 0). sst. split_and!.
      * apply (idx_get_set_eq _ _ _ _ Hh).
      * apply (Hempty st). reflexivity.
      * reflexivity.
      * apply NoDup_nil_2.
      * intros x Hx. apply elem_of_nil in Hx. contradiction.
    + split_and!; sst; try reflexivity.
      intros c' Hc'. apply (idx_get_set_other _ _ _ _ _ Hh Hc').
    + intros _. cbn [dl_from] in Hd.
      destruct Hd as (pg & Hpg & Hpv & Hnx & _).
      exists pg. sst. split_and!; assumption.
  - change (List.last (b :: n :: l) 0) with (List.last (n :: l) 0) in Htl.
    cbn [hd tl] in *. cbn [dl_from] in Hd.
    destruct Hd as (pg & Hpg & Hpv & Hnx & np & Hnp & Hnpv & Hnnx & Hrest).
    cbn [hd] in Hnx.
    apply NoDup_cons in Hnd as [Hb Hnd].
    assert (Hbn : b <> n).
    { intros ->. apply Hb. ehere. }
    assert (Htb : tail h <> b).
    { intros E. apply Hb. rewrite <- E, Htl. apply last_elem_of. }
    rewrite <- Hhd in Hpg. rewrite <- Hnx in Hnp.
    rewrite (remove_front_dq_run c st h pg np Hh) by
      (first [assumption|congruence]).
    rewrite Hhd, Hnx. eexists. split; [reflexivity|].
    rewrite Hhd in Hpg. rewrite Hnx in Hnp.
    pose proof Hnd as Hnd0. apply NoDup_cons in Hnd0 as [Hn Hnd0].
    split_and!.
    + exists (mk_heap n (tail h)). sst. split_and!.
      * apply (idx_get_set_eq _ _ _ _ Hh).
      * unfold dlist. cbn [head tail hd]. split_and!.
        -- reflexivity.
        -- intros _. exact Htl.
        -- cbn [dl_from]. exists (set_prev 0 np). split_and!; sst.
           ++ rewrite lookup_insert_ne by congruence. apply lookup_insert_eq.
           ++ reflexivity.
           ++ exact Hnnx.
           ++ apply (dl_from_frame (pages st)); [|exact Hrest].
              intros x Hx. rewrite !lookup_insert_ne; [reflexivity| |].
              ** intros ->. contradiction.
              ** intros ->. apply Hb. efurther. exact Hx.
      * exact Htl.
      * exact Hnd.
      * intros x Hx. apply Hnz. efurther. exact Hx.
    + split_and!; sst.
      * reflexivity.
      * intros c' Hc'. apply (idx_get_set_other _ _ _ _ _ Hh Hc').
      * intros x Hx. apply not_elem_of_cons in Hx as [Hxb Hx].
        apply not_elem_of_cons in Hx as [Hxn _].
        rewrite !lookup_insert_ne by congruence. reflexivity.
      * intros x. rewrite (body_insert _ _ pg) by
          (first [reflexivity
                 |rewrite lookup_insert_ne by congruence; exact Hpg]).
        apply (body_insert _ _ _ _ _ Hnp). reflexivity.
    + intros _. exists (set_next 0 pg). sst. split_and!.
      * apply lookup_insert_eq.
      * reflexivity.
      * exact Hpv.
Qed.

Lemma remove_tail_dq_snoc st c l b :
  class_list st c (l ++ [b]) ->
  exists st', remove_tail_dq c st = Ok (b, st')
    /\ class_list st' c l /\ dq_frame c (l ++ [b]) st st'
    /\ unlinked st' b.
Proof.
  intros (h & Hh & Hdl & Htl & Hnd & Hnz).
  destruct Hdl as (Hhd & _ & Hd).
  destruct l as [|x l].
  - cbn [app hd List.last] in *.
    rewrite (remove_tail_dq_single_run c st h Hh) by congruence.
    rewrite Htl. eexists. split; [reflexivity|]. split_and!.
    + exists (mk_heap 0 0). sst. split_and!.
      * apply (idx_get_set_eq _ _ _ _ Hh).
      * unfold dlist. cbn [head tail hd dl_from].
        split_and!; [reflexivity|intros H; contradiction|exact I].
      * reflexivity.
      * apply NoDup_nil_2.
      * intros y Hy. apply elem_of_nil in Hy. contradiction.
    + split_and!; sst; try reflexivity.
      intros c' Hc'. apply (idx_get_set_other _ _ _ _ _ Hh Hc').
    + cbn [dl_from] in Hd. destruct Hd as (pg & Hpg & Hpv & Hnx & _).
      exists pg. sst. split_and!; assumption.
  - rewrite last_snoc_cons in Htl.
    change (hd 0 ((x :: l) ++ [b])) with x in Hhd.
    assert (Hbin : b ∈ (x :: l) ++ [b]).
    { apply elem_of_app. right. ehere. }
    destruct (dl_from_pages _ _ _ _ Hd Hbin) as [pg Hpg].
    destruct (dl_from_remove _ _ [] _ (set_prev 0 pg) _ _ _ Hnd Hd Hpg)
      as (Hpv & Hnx & pp & Hpp & Hd').
    cbn [hd] in Hnx.
    apply NoDup_app in Hnd as (Hnd & Hapart & _).
    assert (Hbl : b ∉ x :: l).
    { intros Hb. apply (Hapart b Hb). ehere. }
    assert (Hlast : List.last (x :: l) 0 ∈ x :: l) by apply last_elem_of.
    assert (Hxb : x <> b).
    { intros ->. apply Hbl. ehere. }
    assert (Hpb : prev pg <> b).
    { intros E. apply Hbl. rewrite <- E, Hpv. exact Hlast. }
    rewrite <- Htl in Hpg.
    rewrite (remove_tail_dq_run c st h pg pp Hh) by
      (first [assumption|congruence]).
    rewrite Htl. eexists. split; [reflexivity|].
    rewrite Htl in Hpg.
    split_and!.
    + exists (mk_heap (head h) (prev pg)). sst. split_and!.
      * apply (idx_get_set_eq _ _ _ _ Hh).
      * unfold dlist. cbn [head tail hd]. split_and!.
        -- exact Hhd.
        -- intros _. exact Hpv.
        -- exact Hd'.
      * exact Hpv.
      * exact Hnd.
      * intros y Hy. apply Hnz. apply elem_of_app. left. exact Hy.
    + split_and!; sst.
      * reflexivity.
      * intros c' Hc'. apply (idx_get_set_other _ _ _ _ _ Hh Hc').
      * intros y Hy. rewrite !lookup_insert_ne; [reflexivity| |].
        -- intros E. apply Hy. apply elem_of_app. left. rewrite <- E, Hpv.
           exact Hlast.
        -- intros E. apply Hy. rewrite <- E. exact Hbin.
      * intros y. rewrite (body_insert _ _ pg) by
          (first [reflexivity
                 |rewrite lookup_insert_ne by congruence; exact Hpg]).
        apply (body_insert _ _ _ _ _ Hpp). reflexivity.
    + exists (set_prev 0 pg). sst. split_and!.
      * apply lookup_insert_eq.
      * exact Hnx.
      * reflexivity.
Qed.

(** The class list after the first allocation of a process, and after its
    block has been taken out. *)
Lemma first_class_list : class_list (after (malloc 10 15) boot) 0 [65536].
Proof.
  exists (mk_heap 65536 65536). split_and!.
  - vm_compute. reflexivity.
  - unfold dlist. cbn [head tail hd List.last dl_from].
    split_and!; try reflexivity.
    exists (mk_page 0 0 8 16 1 63 0 1099511627776).
    split_and!; reflexivity.
  - reflexivity.
  - apply NoDup_singleton.
  - intros b Hb. apply list_elem_of_singleton in Hb. subst b. discriminate.
Qed.

Lemma detached_class_list : class_list detached 0 [].
Proof.
  exists (mk_heap 0 0). split_and!.
  - vm_compute. reflexivity.
  - unfold dlist. cbn [head tail hd dl_from].
    split_and!; [reflexivity|intros H; contradiction|exact I].
  - reflexivity.
  - apply NoDup_nil_2.
  - intros b Hb. apply elem_of_nil in Hb. contradiction.
Qed.

Lemma class_list_ends st c l h :
  class_list st c l ->
  idx_get (private_heap (thread_data st)) c = Some h ->
  head h = hd 0 l /\ tail h = List.last l 0.
Proof.
  intros (h' & Hh' & (Hhd & _) & Htl & _) Hh.
  rewrite Hh in Hh'. injection Hh' as <-. split; assumption.
Qed.

(** ** The whole of a live object *)

Lemma payload_small st g c b p :
  inv st g -> 0 <= c < CLASS_NUM -> b ∈ g_list g c -> p ∈ g_live g b ->
  exists csz,
    class_sizes !! Z.to_nat c = Some csz /\ 16 <= csz <= 2048
    /\ payload_size p st = Ok (csz - 1, st).
Proof.
  intros Hinv Hc Hb Hp.
  destruct (live_small_locate _ _ _ _ _ Hinv Hc Hb Hp)
    as (pg & csz & Hpg & Hcs & Hos & Hcb & Hp0 & _ & Hdec & Hstart & _).
  exists csz. split_and!; try assumption; try lia.
  unfold payload_size. rewrite (bind_Ok _ _ _ _ _ Hdec). cbn [fst snd].
  change (CLASS_SMALL =? CLASS_SMALL) with true. cbv iota.
  rewrite Hstart. rewrite (bind_Ok _ _ _ _ _ (get_page_run _ _ _ Hpg)).
  rewrite Hos. reflexivity.
Qed.

Lemma payload_large st g p :
  inv st g -> p ∈ g_large g ->
  exists n,
    mapped st !! (p - LARGE_HEADER_SIZE) = Some n /\ 0 < n
    /\ payload_size p st = Ok (n * PAGE_SZ - LARGE_HEADER_SIZE, st).
Proof.
  intros Hinv Hp.
  destruct (old_sz_large _ _ _ Hinv Hp) as (n & Hmp & Hn & Hrd & _ & Hdec & _).
  exists n. split_and!; try assumption.
  unfold payload_size. rewrite (bind_Ok _ _ _ _ _ Hdec). cbn [fst snd].
  change (CLASS_LARGE =? CLASS_SMALL) with false.
  change (CLASS_LARGE =? CLASS_LARGE) with true. cbv iota.
  unfold GET_LARGER_ALLOC_SZ, load64, gets.
  unfold bind. rewrite Hrd. reflexivity.
Qed.

(** The capacity of a live object is the same after a call that keeps the
    object in its place. *)
Lemma payload_stable st g st' g' q cap :
  inv st g -> inv st' g' -> places_kept g g' ->
  (forall b n, mapped st !! b = Some n -> mapped st' !! b = Some n) ->
  live_in g q -> payload_size q st = Ok (cap, st) ->
  payload_size q st' = Ok (cap, st').
Proof.
  intros Hinv Hinv' [Pl Ps] Hmp [Hl|(c & b & Hc & Hb & Hq)] Hcap.
  - destruct (payload_large _ _ _ Hinv Hl) as (n & Hn & _ & E).
    rewrite E in Hcap. injection Hcap as <-.
    destruct (payload_large _ _ _ Hinv' (Pl q Hl)) as (n' & Hn' & _ & E').
    rewrite (Hmp _ _ Hn) in Hn'. injection Hn' as <-. exact E'.
  - destruct (payload_small _ _ _ _ _ Hinv Hc Hb Hq) as (csz & Hcs & _ & E).
    rewrite E in Hcap. injection Hcap as <-.
    destruct (Ps c b q Hc Hb Hq) as [Hb' Hq'].
    destruct (payload_small _ _ _ _ _ Hinv' Hc Hb' Hq')
      as (csz' & Hcs' & _ & E').
    rewrite Hcs in Hcs'. injection Hcs' as <-. exact E'.
Qed.

(** Where a live object lies: all of it, in one mapping, with the role of
    that mapping and, for a small object, its slot. *)
Lemma live_extent st g x :
  inv st g -> live_in g x ->
  exists cap old b n r,
    payload_size x st = Ok (cap, st)
    /\ realloc_old_sz x st = Ok (old, st) /\ 0 < old <= cap
    /\ mapped st !! b = Some n /\ g_role g b = Some r
    /\ b + 16 <= x /\ x + cap <= b + n * PAGE_SZ
    /\ ((r = IsLarge /\ x = b + 16 /\ x ∈ g_large g)
        \/ exists c csz i,
             r = InClass c /\ 0 <= c < CLASS_NUM /\ b ∈ g_list g c
             /\ x ∈ g_live g b
             /\ class_sizes !! Z.to_nat c = Some csz /\ 16 <= csz
             /\ cap = csz - 1 /\ 0 <= i
             /\ x = b + FIRST_PAYLOAD + i * csz).
Proof.
  intros Hinv [Hl|(c & b & Hc & Hb & Hx)].
  - destruct (live_large_region _ _ _ Hinv Hl) as (n & Hmp & Hn & Hr & Hold).
    destruct (payload_large _ _ _ Hinv Hl) as (n' & Hmp' & _ & Hcap).
    rewrite Hmp in Hmp'. injection Hmp' as <-.
    exists (n * PAGE_SZ - LARGE_HEADER_SIZE), n, (x - LARGE_HEADER_SIZE), n,
      IsLarge.
    change LARGE_HEADER_SIZE with 16 in *. rewrite PAGE_SZ_val in *.
    split_and!; try assumption; try lia.
    left. split_and!; [reflexivity|lia|exact Hl].
  - destruct (live_small_region _ _ _ _ _ Hinv Hc Hb Hx)
      as (csz & i & Hcs & Hcb & Hmp & Hi & Ep & Hend & Hold).
    destruct (payload_small _ _ _ _ _ Hinv Hc Hb Hx)
      as (csz' & Hcs' & _ & Hcap).
    rewrite Hcs in Hcs'. injection Hcs' as <-.
    destruct (heap_block _ _ _ _ Hinv Hc Hb) as [Hrole _].
    exists (csz - 1), (csz - 1), b, (class_pages c), (InClass c).
    change FIRST_PAYLOAD with 48 in *.
    assert (0 <= i * csz) by nia.
    split_and!; try assumption; try lia.
    right. exists c, csz, i.
    split_and!; try assumption; try reflexivity; lia.
Qed.

(** Two live objects that differ lie apart, with all their capacity and
    with their header bytes. *)
Lemma live_extents_apart st g p q :
  inv st g -> live_in g p -> live_in g q -> p <> q ->
  exists cp cq,
    payload_size p st = Ok (cp, st) /\ payload_size q st = Ok (cq, st)
    /\ (p + cp <= q - 1 \/ q + cq <= p - 1).
Proof.
  intros Hinv Hp Hq Hne.
  destruct (live_extent st g p Hinv Hp)
    as (cp & op & bp & np & rp & Hcp & _ & _ & Hmp & Hrp & Hlo & Hhi & Hkp).
  destruct (live_extent st g q Hinv Hq)
    as (cq & oq & bq & nq & rq & Hcq & _ & _ & Hmq & Hrq & Hlo' & Hhi' & Hkq).
  exists cp, cq. split; [exact Hcp|]. split; [exact Hcq|].
  destruct (decide (bp = bq)) as [E|Hb].
  - subst bq. rewrite Hrp in Hrq. injection Hrq as <-.
    destruct Hkp as [(-> & Ep & _)
                    |(c & csz & i & -> & Hc & Hbl & Hpl & Hcs & Hcb & Ecp & Hi
                      & Ep)].
    + destruct Hkq as [(_ & Eq & _)|(c' & csz' & i' & E & _)];
        [lia|discriminate].
    + destruct Hkq as [(E & _)
                      |(c' & csz' & j & E & Hc' & _ & Hql & Hcs' & _ & Ecq
                        & Hj & Eq)]; [discriminate|].
      injection E as <-. rewrite Hcs in Hcs'. injection Hcs' as <-.
      change FIRST_PAYLOAD with 48 in *.
      destruct (slot_cases i j csz ltac:(lia)) as [E|[E|E]]; [|lia|lia].
      exfalso. apply Hne. rewrite Ep, Eq, E. reflexivity.
  - destruct (inv_os _ _ Hinv) as [_ Hdis].
    destruct (Hdis bp np bq nq Hmp Hmq Hb); lia.
Qed.

(** [malloc] keeps every byte of every object that is live, its header
    byte included, and what the headers say about its size. *)
Lemma malloc_keeps_extent st g fuel sz p st' q :
  inv st g -> 0 <= sz -> live_in g q ->
  malloc fuel sz st = Ok (p, st') ->
  exists cap old,
    payload_size q st = Ok (cap, st) /\ payload_size q st' = Ok (cap, st')
    /\ realloc_old_sz q st = Ok (old, st)
    /\ realloc_old_sz q st' = Ok (old, st')
    /\ 0 < old <= cap
    /\ forall x, q - 1 <= x < q + cap ->
         read8 (mem st') x = read8 (mem st) x.
Proof.
  intros Hinv Hsz Hq H.
  destruct (live_extent st g q Hinv Hq)
    as (cap & old & b & n & r & Hcap & Hold & Hpos & Hmp & _ & Hbq & Hend & _).
  destruct (malloc_delta st g fuel sz p st' Hinv Hsz H) as [Hmaps Hbytes].
  destruct (malloc_places st g fuel sz p st' Hinv Hsz H)
    as (g1 & Hinv1 & Hpl).
  pose proof (old_sz_stable st g st' g1 q old Hinv Hinv1 Hpl Hmaps Hq Hold)
    as Hold'.
  pose proof (payload_stable st g st' g1 q cap Hinv Hinv1 Hpl Hmaps Hq Hcap)
    as Hcap'.
  exists cap, old. split_and!; try assumption; try lia.
  intros x Hx. apply (Hbytes b n x Hmp); [lia|].
  destruct (inv_os _ _ Hinv) as [Hpos_b _].
  destruct (Hpos_b b n Hmp) as (Hb0 & _).
  destruct (Z.eq_dec p 0) as [->|Hp0]; [lia|].
  destruct (malloc_strong st g fuel sz Hinv Hsz)
    as [[Ho _]|(p2 & st2 & g2 & Hrun & Hinv2 & Hkeep & Hnew)].
  { rewrite Ho in H. discriminate. }
  rewrite Hrun in H. injection H as -> ->.
  destruct (Hnew Hp0) as (Hlp & Hfresh & _).
  assert (Hne : p <> q) by (intros ->; contradiction).
  destruct (live_extents_apart st' g2 p q Hinv2 Hlp (Hkeep q Hq) Hne)
    as (cp & cq & Ecp & Ecq & Hap).
  rewrite Hcap' in Ecq. injection Ecq as <-.
  destruct (live_extent st' g2 p Hinv2 Hlp)
    as (cp' & op & _ & _ & _ & Ecp' & _ & Hop & _).
  rewrite Ecp in Ecp'. injection Ecp' as <-.
  lia.
Qed.

(** [free] keeps every byte of every other object that is live, its header
    byte included. *)
Lemma free_keeps_extent st g p q u st' :
  inv st g -> live_in g p -> live_in g q -> p <> q ->
  free p st = Ok (u, st') ->
  exists cap old,
    payload_size q st = Ok (cap, st)
    /\ realloc_old_sz q st = Ok (old, st) /\ 0 < old <= cap
    /\ forall x, q - 1 <= x < q + cap ->
         read8 (mem st') x = read8 (mem st) x.
Proof.
  intros Hinv Hp Hq Hne H.
  destruct (live_extents_apart st g p q Hinv Hp Hq Hne)
    as (cp & cq & Ecp & Ecq & Hap).
  destruct (live_extent st g q Hinv Hq)
    as (cq' & oq & _ & _ & _ & Ecq' & Hoq & Hpos & _).
  rewrite Ecq in Ecq'. injection Ecq' as <-.
  exists cq, oq. split_and!; try assumption; try lia.
  intros x Hx.
  destruct Hp as [Hl|(c & b & Hc & Hb & Hp)].
  - rewrite (free_large_run _ _ _ Hinv Hl) in H.
    pose proof (keeps_large_free_all x p st) as K. rewrite H in K. exact K.
  - destruct (payload_small _ _ _ _ _ Hinv Hc Hb Hp) as (csz & _ & Hcb & E).
    rewrite E in Ecp. injection Ecp as <-.
    apply (free_keeps_out x p st u st'); [lia|exact H].
Qed.

(** ** [calloc] of a product that wraps with the prefix

    The product fits 64 bits, but the sum with the 16-byte prefix in
    [large_alloc] does not: the mapping holds the wrapped sum, and the
    [memset] over the whole product leaves it. *)
Lemma calloc_wrap_faults st g fuel nmemb sz :
  inv st g -> 0 <= nmemb < 2 ^ 64 -> 0 <= sz < 2 ^ 64 ->
  2 ^ 64 - LARGE_HEADER_SIZE <= nmemb * sz < 2 ^ 64 ->
  (walk_bound g <= fuel)%nat ->
  exists p st1,
    malloc fuel (nmemb * sz) st = Ok (p, st1)
    /\ (p = 0 -> calloc fuel nmemb sz st = Ok (0, st1))
    /\ (p <> 0 -> calloc fuel nmemb sz st = Fault).
Proof.
  intros Hinv Hn Hs Hwin Hfuel. change LARGE_HEADER_SIZE with 16 in Hwin.
  destruct (malloc_returns st g (nmemb * sz) fuel Hinv ltac:(lia) Hfuel)
    as (p & st1 & g1 & Hrun & Hinv1 & _ & Hnew).
  exists p, st1. split; [exact Hrun|].
  unfold calloc. rewrite (calloc_guard nmemb sz Hn Hs).
  destruct (Z.leb_spec (2 ^ 64) (nmemb * sz)) as [Hov|_]; [lia|].
  rewrite (u64_small (nmemb * sz)) by lia.
  rewrite (bind_Ok _ _ _ _ _ Hrun).
  split; intros Hp.
  - subst p. reflexivity.
  - destruct (Z.eqb_spec p 0) as [E|_]; [contradiction|]. cbn [negb].
    destruct (Hnew Hp) as [_ Hlive].
    destruct (live_extent st1 g1 p Hinv1 Hlive)
      as (cap & old & b & k & r & _ & _ & Hpos & Hb & _ & Hlo & Hhi & _).
    destruct (inv_os _ _ Hinv1) as [Hreg _].
    destruct (Hreg b k Hb) as (Hb0 & _ & _ & Htop).
    unfold bind.
    rewrite (memset_fault p 0 (nmemb * sz) st1 ADDR_LIMIT); [reflexivity| |].
    + unfold ADDR_LIMIT in *. lia.
    + intros (b' & k' & Hb' & Hx).
      destruct (Hreg b' k' Hb') as (_ & _ & _ & Htop'). lia.
Qed.

(** * The claims *)

(** C4: for every request size [s] in [1, 2047] the decoder computes
    range = floor(log2((s>>8)|1)), subrange = (s - range*512) >> (4+range),
    class index = {0,32,48}[range] + subrange and a page-block of
    2^(range+3) pages; the class it selects is larger than [s], and a class
    lies exactly 16, 32 or 64 bytes (by range) above the class before it. *)
Theorem C4_class_size_decode (s : Z) :
  1 <= s <= 2047 ->
  let r := Z.log2 (Z.lor (Z.shiftr s 8) 1) in
  let sub := Z.shiftr (s - r * 512) (4 + r) in
  0 <= r <= 2 /\
  exists off csz,
    range_offset !! Z.to_nat r = Some off /\
    class_size_decode s = Some (off + sub, 2 ^ (r + 3)) /\
    0 <= off + sub <= 63 /\
    class_sizes !! Z.to_nat (off + sub) = Some csz /\
    s < csz /\
    (0 < off + sub ->
     exists before,
       class_sizes !! Z.to_nat (off + sub - 1) = Some before /\
       csz - before = 16 * 2 ^ r).
Proof.
  intros Hs r sub. pose proof (decode_ok_at s Hs) as H.
  unfold decode_ok in H. fold r sub in H.
  destruct (class_size_decode s) as [[idx pb]|] eqn:Ed; [|discriminate].
  destruct (range_offset !! Z.to_nat r) as [off|] eqn:Eo; [|discriminate].
  repeat (apply andb_prop in H as [H ?]).
  destruct (class_sizes !! Z.to_nat idx) as [csz|] eqn:Ec; [|discriminate].
  match goal with Hx : _ && _ = true |- _ => apply andb_prop in Hx as [Hlt Hstep] end.
  assert (idx = off + sub) by lia. subst idx.
  assert (pb = 2 ^ (r + 3)) by lia. subst pb.
  split; [lia|]. exists off, csz. repeat split; try assumption; try lia.
  intros Hpos.
  destruct (off + sub) as [|p|p] eqn:Ei; [lia| |lia].
  destruct (class_sizes !! Z.to_nat (Z.pos p - 1)) as [before|];
    [|discriminate].
  exists before. split; [reflexivity|].
  apply Z.eqb_eq in Hstep. rewrite Hstep. unfold range_step.
  rewrite Z.shiftl_mul_pow2 by lia. reflexivity.
Qed.

(** C4, at a request of 600 bytes. *)
Lemma C4_class_size_decode_witness :
  1 <= 600 <= 2047 /\ class_size_decode 600 = Some (34, 16).
Proof.
  split; [lia|].
  destruct (C4_class_size_decode 600 ltac:(lia))
    as (_ & off & csz & Ho & Hd & _).
  vm_compute in Ho. inversion Ho. subst off. exact Hd.
Defined.

(** C5: for every class index [c0] in [0, 63], the decoder sends
    [class_sizes[c0] - 1] back to [c0].  So when [malloc] of a small size
    [sz], which it decodes to the class [c], returns an object [p], the
    page-block [b] of [p] has the [object_size] of class [c] and is in the
    list of class [c]; and [free p], in every later state [s] and thread
    that finds the header byte of [p] and the [object_size] of [b] as
    [malloc] left them, decodes the same [c] and hands the list of class
    [c] to [page_internal_free]: a free by a thread that does not own [b]
    and adopts it has linked [b] at the head of that thread's list of
    class [c]. *)
Theorem C5_decode_roundtrip :
  (forall c0, 0 <= c0 <= 63 ->
     exists csz,
       class_sizes !! Z.to_nat c0 = Some csz
       /\ class_size_decode (csz - 1) = Some (c0, class_pages c0))
  /\ forall (tid : Z) (choices : list Z) (st : state) (live : list Z)
        (fuel : nat) (sz c pb p : Z) (st' : state),
      0 <= tid < 2 ^ THREAD_ID_BITS ->
      history (init_state tid choices) st live ->
      0 < sz < SMALL_ALLOCATION_LIMIT ->
      class_size_decode sz = Some (c, pb) ->
      malloc fuel sz st = Ok (p, st') -> p <> 0 ->
      exists off b pg h l,
        object_type_decode p st' = Ok ((CLASS_SMALL, off), st')
        /\ b = GET_PAGE_START p off
        /\ pages st' !! b = Some pg
        /\ class_sizes !! Z.to_nat c = Some (object_size pg)
        /\ idx_get (private_heap (thread_data st')) c = Some h
        /\ dlist (pages st') h l /\ b ∈ l
        /\ forall s pg',
             read8 (mem s) (p - 1) = read8 (mem st') (p - 1) ->
             pages s !! b = Some pg' -> object_size pg' = object_size pg ->
             free p s
             = page_internal_free c b p (thread_id (thread_data s)) s
             /\ forall s2,
                  0 <= thread_id (thread_data s) < 2 ^ THREAD_ID_BITS ->
                  rf_thread_id (sync pg') <> thread_id (thread_data s) ->
                  free p s = Ok (tt, s2) ->
                  exists old new,
                    cas_log s2 = (PageSync b, old, new) :: cas_log s
                    /\ (rf_thread_id old = ORPHAN_ID ->
                        exists h',
                          idx_get (private_heap (thread_data s2)) c
                          = Some h'
                          /\ head h' = b).
Proof.
  split.
  { intros c0 Hc0.
    destruct (class_entry c0 ltac:(change CLASS_NUM with 64; lia))
      as (csz & Hcs & Hcb & _ & Hd & _).
    exists csz. split; [exact Hcs|]. rewrite u64_small in Hd by lia.
    exact Hd. }
  intros tid choices st live fuel sz c pb p st' Htid Hh Hsz Hdsz Hrun Hp.
  destruct (history_inv tid choices st live Htid Hh) as (g & Hinv & _).
  destruct (malloc_strong st g fuel sz Hinv ltac:(lia))
    as [[Ho _]|(p2 & st2 & g2 & Hrun2 & Hinv2 & _ & Hnew)].
  { rewrite Ho in Hrun. discriminate. }
  rewrite Hrun in Hrun2. injection Hrun2 as <- <-.
  destruct (Hnew Hp) as (_ & _ & [(_ & c1 & pb1 & b & Hd1 & Hc & Hb & Hpb)
                                 |(Hbig & _)]); [|lia].
  rewrite Hdsz in Hd1. injection Hd1 as <- <-.
  destruct (live_small_locate _ _ _ _ _ Hinv2 Hc Hb Hpb)
    as (pg & csz & Hpg & Hcs & Hos & Hcb & _ & _ & Hdec & Hstart & Hcls & _).
  destruct (inv_heaps _ _ Hinv2 c Hc) as (h & Hheap & Hdl & _).
  exists ((p - b) / PAGE_SZ), b, pg, h, (g_list g2 c).
  split; [exact Hdec|]. split; [symmetry; exact Hstart|].
  split; [exact Hpg|]. split; [rewrite Hos; exact Hcs|].
  split; [exact Hheap|]. split; [exact Hdl|]. split; [exact Hb|].
  intros s pg' Hhd Hpg' Hsame.
  assert (Hfree : free p s
                  = page_internal_free c b p (thread_id (thread_data s)) s).
  { rewrite (free_by_type p s Hp). cbv zeta. rewrite Hhd.
    rewrite object_type_decode_run in Hdec. injection Hdec as Hty Hoff.
    rewrite Hty, Hoff. change (CLASS_SMALL =? CLASS_SMALL) with true.
    cbv iota. rewrite Hstart.
    rewrite (bind_Ok _ _ _ _ _ (get_page_run _ _ _ Hpg')).
    rewrite Hsame, Hos, Hcls. reflexivity. }
  split; [exact Hfree|]. intros s2 Hts Hown Hs2. rewrite Hfree in Hs2.
  destruct (remote_free_run c b p _ s pg' s2 Hts Hpg' Hown Hs2)
    as (old & new & s1 & Hl1 & Hl2 & _ & _ & _ & Hadopt).
  exists old, new. split; [rewrite Hl2; exact Hl1|].
  intros Ho. destruct (Hadopt Ho) as (_ & _ & Hhead). exact Hhead.
Qed.

(** C5, at the first object of a process: [malloc 15] uses the list of
    class 0; thread 2 then frees the object, finds its block given up by
    the owner, and links it at the head of its own list of class 0. *)
Lemma C5_decode_roundtrip_witness :
  malloc 10 15 boot = Ok (65584, after (malloc 10 15) boot)
  /\ class_size_decode 15 = Some (0, 8)
  /\ exists h',
       idx_get (private_heap
                  (thread_data
                     (after (free 65584)
                        (orphaned (after (malloc 10 15) boot) 65536)))) 0
       = Some h'
       /\ head h' = 65536.
Proof.
  assert (Htid : 0 <= 1 < 2 ^ THREAD_ID_BITS)
    by (change THREAD_ID_BITS with 24; lia).
  assert (H1 : malloc 10 15 boot = Ok (65584, after (malloc 10 15) boot))
    by (vm_compute; reflexivity).
  assert (Hd : class_size_decode 15 = Some (0, 8))
    by (vm_compute; reflexivity).
  split; [exact H1|]. split; [exact Hd|].
  destruct (proj2 C5_decode_roundtrip 1 [65536; 1048576; 2097152] boot []
              10%nat 15 0 8 65584 _ Htid (hist_init boot)
              ltac:(rewrite SMALL_ALLOCATION_LIMIT_val; lia) Hd H1
              ltac:(lia))
    as (off & b & pg & h & l & Hdec & Hb & Hpg & _ & _ & _ & _ & Hfree).
  assert (Eoff : off = 0).
  { vm_compute in Hdec. injection Hdec as <-. reflexivity. }
  subst off.
  assert (Eb : b = 65536) by (rewrite Hb; vm_compute; reflexivity).
  subst b.
  assert (Epg : pg = mk_page 0 0 8 16 1 63 0 1099511627776).
  { vm_compute in Hpg. injection Hpg as <-. reflexivity. }
  subst pg.
  destruct (Hfree (orphaned (after (malloc 10 15) boot) 65536)
              (mk_page 0 0 8 16 1 63 0 18446742974197923840)
              ltac:(vm_compute; reflexivity) ltac:(vm_compute; reflexivity)
              eq_refl) as [_ Hrem].
  destruct (Hrem (after (free 65584)
                    (orphaned (after (malloc 10 15) boot) 65536))
              ltac:(vm_compute; split; [discriminate|reflexivity])
              ltac:(vm_compute; discriminate)
              ltac:(vm_compute; reflexivity))
    as (old & new & Hlog & Hadopt).
  assert (Hl : cas_log (after (free 65584)
                          (orphaned (after (malloc 10 15) boot) 65536))
               = [(PageSync 65536, 18446742974197923840, 2199026401281)])
    by (vm_compute; reflexivity).
  assert (Hl0 : cas_log (orphaned (after (malloc 10 15) boot) 65536) = [])
    by (vm_compute; reflexivity).
  rewrite Hl, Hl0 in Hlog. injection Hlog as Eold Enew.
  apply Hadopt. rewrite <- Eold. vm_compute. reflexivity.
Defined.

(** C8: every successful compare-and-swap that a push or a pop of the
    atomic counting stack performs installs a head whose state field is the
    state field of the head it replaced plus one, modulo 2^12; a push that
    reports success and a pop that returns a block performed exactly one. *)
Theorem C8_state_tag_advances (r : word_ref) (page : Z) (st st' : state)
    (v : Z) :
  stack_insert_atomic r page st = Ok (v, st')
  \/ stack_remove_atomic r st = Ok (v, st') ->
  exists new,
    log_grows new st st' /\
    Forall (fun e => dq_state e.2 = (dq_state e.1.2 + 1) mod 2 ^ 12) new /\
    (v <> 0 -> length new = 1%nat).
Proof.
  intros [H|H].
  - unfold stack_insert_atomic in H.
    apply bind_inv in H as (n & s & Hn & H).
    apply gets_inv in Hn as [-> ->].
    exact (stack_insert_atomic_loop_log _ _ _ _ _ _ H).
  - unfold stack_remove_atomic in H.
    apply bind_inv in H as (n & s & Hn & H).
    apply gets_inv in Hn as [-> ->].
    exact (stack_remove_atomic_loop_log _ _ _ _ _ H).
Qed.

(** C8, at a push of the block at 65536 on the global cache of 8-page
    blocks. *)
Lemma C8_state_tag_advances_witness :
  exists new,
    log_grows new (after (malloc 10 15) boot)
      (after (stack_insert_atomic (GlobalTop 0) 65536)
             (after (malloc 10 15) boot))
    /\ Forall (fun e => dq_state e.2 = (dq_state e.1.2 + 1) mod 2 ^ 12) new
    /\ length new = 1%nat.
Proof.
  destruct (C8_state_tag_advances (GlobalTop 0) 65536
              (after (malloc 10 15) boot)
              (after (stack_insert_atomic (GlobalTop 0) 65536)
                     (after (malloc 10 15) boot)) 1)
    as (new & Hg & Hall & Hlen).
  - left. vm_compute. reflexivity.
  - exists new. split; [exact Hg|]. split; [exact Hall|].
    apply Hlen. lia.
Defined.

(** C6: in every state that a single thread reaches by calls of [malloc]
    and [free], a call of [malloc] returns when its walk has fuel for the
    longest class list, and every pointer that [malloc] returns and that is
    not null has its low four bits zero; this holds for the slots taken
    from the bump area, for those taken from the free LIFO and for large
    objects. *)
Theorem C6_malloc_aligned (tid : Z) (choices : list Z) (st : state)
    (live : list Z) (sz : Z) :
  0 <= tid < 2 ^ THREAD_ID_BITS ->
  reachable (init_state tid choices) st live ->
  0 <= sz < 2 ^ 64 ->
  (exists n, forall fuel, (n <= fuel)%nat ->
     exists p st', malloc fuel sz st = Ok (p, st'))
  /\ forall fuel p st',
       malloc fuel sz st = Ok (p, st') -> p <> 0 -> Z.land p 15 = 0.
Proof.
  intros Htid Hreach Hsz.
  destruct (reachable_inv tid choices st live Htid Hreach) as (g & Hinv & _).
  split.
  - exists (walk_bound g). intros fuel Hfuel.
    destruct (malloc_returns st g sz fuel Hinv ltac:(lia) Hfuel)
      as (p & st' & _ & Hrun & _).
    exists p, st'. exact Hrun.
  - intros fuel p st' Hrun Hp.
    destruct (malloc_cases st g fuel sz Hinv ltac:(lia))
      as [[Ho _]|(p' & st1 & g' & Hrun' & _ & _ & Hnew)].
    { rewrite Ho in Hrun. discriminate. }
    rewrite Hrun' in Hrun. inversion Hrun. subst p' st1.
    destruct (Hnew Hp) as [H16 _].
    rewrite land_15_mod. exact H16.
Qed.

(** C6, at the third call of a history: a slot is taken from the bump
    area, freed, and handed out again from the free LIFO. *)
Lemma C6_malloc_aligned_witness :
  malloc 10 15 (after (free 65584) (after (malloc 10 15) boot))
    = Ok (65584, after (malloc 10 15)
                   (after (free 65584) (after (malloc 10 15) boot)))
  /\ Z.land 65584 15 = 0.
Proof.
  assert (Htid : 0 <= 1 < 2 ^ THREAD_ID_BITS)
    by (change THREAD_ID_BITS with 24; lia).
  assert (H1 : malloc 10 15 boot = Ok (65584, after (malloc 10 15) boot))
    by (vm_compute; reflexivity).
  assert (H2 : free 65584 (after (malloc 10 15) boot)
               = Ok (tt, after (free 65584) (after (malloc 10 15) boot)))
    by (vm_compute; reflexivity).
  assert (H3 : malloc 10 15 (after (free 65584) (after (malloc 10 15) boot))
               = Ok (65584,
                     after (malloc 10 15)
                       (after (free 65584) (after (malloc 10 15) boot))))
    by (vm_compute; reflexivity).
  assert (R1 : reachable boot (after (malloc 10 15) boot) [65584])
    by exact (reach_malloc boot boot [] 10 15 65584 _ (reach_init boot)
                ltac:(lia) H1).
  assert (R2 : reachable boot
                 (after (free 65584) (after (malloc 10 15) boot)) [])
    by exact (reach_free boot _ [65584] 65584 _ R1 ltac:(ehere) H2).
  split; [exact H3|].
  exact (proj2 (C6_malloc_aligned 1 [65536; 1048576; 2097152] _ [] 15
                  Htid R2 ltac:(lia)) 10%nat 65584 _ H3 ltac:(lia)).
Defined.

(** C10: for every pointer [p] that the allocator has returned in a
    history of the program ([malloc], [calloc] or [realloc], with stores
    into the objects in between) and that has not been freed, the old size
    that [realloc] reads for [p] is positive, so [realloc p 0] takes the
    shrink path: it returns [p] and leaves the whole state, the allocation
    included, as it was; [malloc 0] returns null. *)
Theorem C10_realloc_zero (tid : Z) (choices : list Z) (st : state)
    (live : list Z) (p : Z) (fuel : nat) :
  0 <= tid < 2 ^ THREAD_ID_BITS ->
  history (init_state tid choices) st live ->
  p ∈ live ->
  p <> 0
  /\ (exists old, realloc_old_sz p st = Ok (old, st) /\ 0 < old)
  /\ realloc fuel p 0 st = Ok (p, st)
  /\ malloc fuel 0 st = Ok (0, st).
Proof.
  intros Htid Hreach Hp.
  destruct (history_inv tid choices st live Htid Hreach) as (g & Hinv & Hl).
  destruct (old_sz_live st g p Hinv (proj1 (Hl p Hp)))
    as (Hp0 & old & Hold & Hpos).
  split; [exact Hp0|]. split; [exists old; split; assumption|]. split.
  - rewrite (realloc_run fuel p 0 st old Hp0 Hold).
    destruct (Z.gtb_spec old 0) as [_|Hle]; [reflexivity|lia].
  - reflexivity.
Qed.

(** C10, at an object that [calloc] has returned and the program has
    written to. *)
Lemma C10_realloc_zero_witness :
  calloc 10 3 5 boot = Ok (65584, after (calloc 10 3 5) boot)
  /\ realloc 10 65584 0
       (set_mem (write8 (mem (after (calloc 10 3 5) boot)) (65584 + 3) 7)
                (after (calloc 10 3 5) boot))
     = Ok (65584,
           set_mem (write8 (mem (after (calloc 10 3 5) boot)) (65584 + 3) 7)
                   (after (calloc 10 3 5) boot)).
Proof.
  assert (Htid : 0 <= 1 < 2 ^ THREAD_ID_BITS)
    by (change THREAD_ID_BITS with 24; lia).
  assert (H1 : calloc 10 3 5 boot = Ok (65584, after (calloc 10 3 5) boot))
    by (vm_compute; reflexivity).
  assert (R1 : history boot (after (calloc 10 3 5) boot) [65584])
    by exact (hist_calloc boot boot [] 10 3 5 65584 _ (hist_init boot)
                ltac:(lia) ltac:(lia)
                ltac:(left; change LARGE_HEADER_SIZE with 16; lia) H1).
  assert (Hold : realloc_old_sz 65584 (after (calloc 10 3 5) boot)
                 = Ok (15, after (calloc 10 3 5) boot))
    by (vm_compute; reflexivity).
  assert (R2 : history boot
                 (set_mem (write8 (mem (after (calloc 10 3 5) boot))
                                  (65584 + 3) 7)
                          (after (calloc 10 3 5) boot)) [65584])
    by exact (hist_store boot _ [65584] 65584 15 3 7 R1 ltac:(ehere) Hold
                ltac:(lia)).
  split; [exact H1|].
  exact (proj1 (proj2 (proj2
           (C10_realloc_zero 1 [65536; 1048576; 2097152] _ _ 65584 10
              Htid R2 ltac:(ehere))))).
Defined.




(** C1, where the code departs from it, run: [malloc 4096] returns a
    large object in a mapping of two pages, so its capacity, the old size
    of the specification, is 2 * 4096 - 16 = 8176 bytes; [realloc] reads
    the stored number of pages, 2, as the old size in bytes.  A request of
    2 bytes, far below the capacity, moves the object; and a request of
    8192 bytes moves it with its first 2 bytes only: the 7 that the
    program had stored into byte 100 is not in the new object. *)
Theorem C1_realloc_large :
  malloc 10 4096 boot = Ok (65552, after (malloc 10 4096) boot)
  /\ mapped (after (malloc 10 4096) boot) !! 65536 = Some 2
  /\ payload_size 65552 (after (malloc 10 4096) boot)
     = Ok (8176, after (malloc 10 4096) boot)
  /\ realloc_old_sz 65552 (after (malloc 10 4096) boot)
     = Ok (2, after (malloc 10 4096) boot)
  /\ realloc 10 65552 2 (after (malloc 10 4096) boot)
     = Ok (1048624,
           after (realloc 10 65552 2) (after (malloc 10 4096) boot))
  /\ read8 (mem large_written) (65552 + 100) = 7
  /\ realloc 10 65552 8192 large_written
     = Ok (1048592, after (realloc 10 65552 8192) large_written)
  /\ read8 (mem (after (realloc 10 65552 8192) large_written))
           (1048592 + 100) = 0.
Proof. split_and!; vm_compute; reflexivity. Qed.




(** C7: in a history of the program ([malloc], [calloc], [realloc],
    [free] and stores into live objects), the owner frees the last live
    object [p] of one of its page-blocks [b] ([allocated_objects] is 1
    before the call, 0 after it).
    If [b] is not the head of its class list, [free] unlinks it (the list
    afterwards is the list before without [b]) and returns it to the page
    supply: [b] is then on the thread's cache, on the global cache, or
    unmapped.  If [b] is the head, the list is as it was, [b] stays mapped
    with its header, now with no object allocated.  The class lists are
    those of the ghost heaps [g] and [g'] that the invariant ties to the
    states before and after. *)
Theorem C7_empty_block_release (tid : Z) (choices : list Z) (st : state)
    (live : list Z) (p off b : Z) (pg : page_t) (c pn : Z) (h : heap_t) :
  0 <= tid < 2 ^ THREAD_ID_BITS ->
  history (init_state tid choices) st live ->
  p ∈ live ->
  object_type_decode p st = Ok ((CLASS_SMALL, off), st) ->
  b = GET_PAGE_START p off ->
  pages st !! b = Some pg ->
  class_size_decode (u64 (object_size pg - 1)) = Some (c, pn) ->
  idx_get (private_heap (thread_data st)) c = Some h ->
  allocated_objects pg = 1 ->
  exists st' g g',
    free p st = Ok (tt, st') /\ inv st g /\ inv st' g'
    /\ b ∈ g_list g c
    /\ (head h <> b ->
          (forall x, x ∈ g_list g' c <-> x ∈ g_list g c /\ x <> b)
          /\ (b ∈ g_lcache g' (IDX_BY_PAGE_SZ pn)
              \/ b ∈ g_gcache g' (IDX_BY_PAGE_SZ pn)
              \/ mapped st' !! b = None))
    /\ (head h = b ->
          g_list g' = g_list g
          /\ mapped st' !! b = Some pn
          /\ thread_data st' = thread_data st
          /\ exists pg', pages st' !! b = Some pg'
                         /\ allocated_objects pg' = 0).
Proof.
  intros Htid Hreach Hp Hdec Hb Hpg Hcls Hh Hone.
  destruct (history_inv tid choices st live Htid Hreach) as (g & Hinv & Hl).
  destruct (live_small_found st g p off b pg c pn Hinv (proj1 (Hl p Hp))
              Hdec Hb Hpg Hcls) as (Hc & Hbl & Hpl & ->).
  destruct (local_free_inv st g c b p h pg Hinv Hc Hbl Hpl Hh Hpg)
    as (st' & g' & Hrun & Hinv' & _ & Hgone & Hkept).
  exists st', g, g'.
  rewrite (free_small_run st g c b p Hinv Hc Hbl Hpl).
  split; [exact Hrun|]. split; [exact Hinv|]. split; [exact Hinv'|].
  split; [exact Hbl|]. split.
  - intros Hne. apply Hgone. split; assumption.
  - intros Heq. destruct (Hkept (or_intror Heq))
      as (H1 & H2 & H3 & pg' & H4 & H5).
    split_and!; try assumption. exists pg'. split; [exact H4|lia].
Qed.

(** C7, at the last live object of a block that is not the head: after
    sixty-four allocations of the largest class the block at 65536 is
    behind the block at 1048576 in the list, and the call frees the last
    of its sixty-three objects. *)
Lemma C7_empty_block_release_witness :
  exists st' g',
    free 192560 (run_state fill_ops) = Ok (tt, st') /\ inv st' g'
    /\ ~ 65536 ∈ g_list g' 63
    /\ (65536 ∈ g_lcache g' (IDX_BY_PAGE_SZ 32)
        \/ 65536 ∈ g_gcache g' (IDX_BY_PAGE_SZ 32)
        \/ mapped st' !! 65536 = None).
Proof.
  assert (Htid : 0 <= 1 < 2 ^ THREAD_ID_BITS)
    by (change THREAD_ID_BITS with 24; lia).
  assert (Hrun : run fill_ops boot []
                 = Some (run_state fill_ops, [1048624; 192560]))
    by (vm_compute; reflexivity).
  pose proof (reachable_history _ _ _ (run_state_reachable _ _ _ Hrun)) as R.
  assert (Hin : 192560 ∈ [1048624; 192560]) by (efurther; ehere).
  assert (Hdec : object_type_decode 192560 (run_state fill_ops)
                 = Ok ((CLASS_SMALL, 31), run_state fill_ops))
    by (vm_compute; reflexivity).
  assert (Hb : 65536 = GET_PAGE_START 192560 31) by (vm_compute; reflexivity).
  assert (Hpg : pages (run_state fill_ops) !! 65536
                = Some (mk_page 0 1048576 32 2048 1 129071 124976
                                1099511627776))
    by (vm_compute; reflexivity).
  assert (Hcls : class_size_decode
                   (u64 (object_size
                           (mk_page 0 1048576 32 2048 1 129071 124976
                                    1099511627776) - 1)) = Some (63, 32))
    by (vm_compute; reflexivity).
  assert (Hh : idx_get (private_heap (thread_data (run_state fill_ops))) 63
               = Some (mk_heap 1048576 65536))
    by (vm_compute; reflexivity).
  destruct (C7_empty_block_release 1 [65536; 1048576; 2097152]
              (run_state fill_ops) [1048624; 192560] 192560 31 65536
              (mk_page 0 1048576 32 2048 1 129071 124976 1099511627776)
              63 32 (mk_heap 1048576 65536)
              Htid R Hin Hdec Hb Hpg Hcls Hh eq_refl)
    as (st' & g & g' & Hfree & _ & Hinv' & _ & Hgone & _).
  destruct (Hgone ltac:(cbn [head]; lia)) as [Hlist Hsup].
  exists st', g'. split; [exact Hfree|]. split; [exact Hinv'|].
  split; [|exact Hsup].
  intros Hx. apply Hlist in Hx as [_ Hx]. contradiction.
Defined.

(** The other branch, run: the only block of its class is the head of the
    list; after the [free] of its only object it is still the head, and
    mapped. *)
Example head_block_is_kept :
  free 65584 (after (malloc 10 15) boot)
    = Ok (tt, after (free 65584) (after (malloc 10 15) boot))
  /\ idx_get (private_heap
                (thread_data (after (free 65584) (after (malloc 10 15) boot))))
             0 = Some (mk_heap 65536 65536)
  /\ mapped (after (free 65584) (after (malloc 10 15) boot)) !! 65536
     = Some 8.
Proof. split_and!; vm_compute; reflexivity. Qed.

(** C9: a thread [tid] frees the object [obj] of a page-block that it does
    not own, and the call returns.  Then the call has performed exactly one
    successful compare-and-swap on the sync word of the block, from a word
    [old] to a word [new]; [new] has the offset of [obj] as remote-freed
    head and the count of [old] plus one.  If the owner field of [old] is
    [ORPHAN_ID], the same word makes [tid] the owner, and the call then
    runs [insert_front_dq] for the class of the block, which leaves the
    block at the head of the thread's list; otherwise the owner stays and
    nothing else is done. *)
Theorem C9_orphan_adoption (c page obj tid : Z) (st : state) (pg : page_t)
    (st' : state) :
  0 <= tid < 2 ^ THREAD_ID_BITS ->
  pages st !! page = Some pg ->
  rf_thread_id (sync pg) <> tid ->
  page_internal_free c page obj tid st = Ok (tt, st') ->
  exists old new st1,
    cas_log st1 = (PageSync page, old, new) :: cas_log st
    /\ cas_log st' = cas_log st1
    /\ rf_remotely_freed new = u32 (obj - page) mod 2 ^ 24
    /\ rf_count new = (rf_count old + 1) mod 2 ^ 16
    /\ (rf_thread_id old <> ORPHAN_ID ->
          rf_thread_id new = rf_thread_id old /\ st' = st1)
    /\ (rf_thread_id old = ORPHAN_ID ->
          rf_thread_id new = tid
          /\ insert_front_dq c page st1 = Ok (tt, st')
          /\ exists h', idx_get (private_heap (thread_data st')) c = Some h'
                        /\ head h' = page).
Proof. exact (remote_free_run c page obj tid st pg st'). Qed.

(** C9, at a block that its owner has given up: thread 2 frees the object
    at 65584 and adopts the block at 65536. *)
Lemma C9_orphan_adoption_witness :
  exists old new h',
    cas_log (after (page_internal_free 0 65536 65584 2)
               (orphaned (after (malloc 10 15) boot) 65536))
    = [(PageSync 65536, old, new)]
    /\ rf_thread_id old = ORPHAN_ID
    /\ rf_thread_id new = 2
    /\ rf_remotely_freed new = 48
    /\ rf_count new = 1
    /\ idx_get (private_heap
                  (thread_data
                     (after (page_internal_free 0 65536 65584 2)
                        (orphaned (after (malloc 10 15) boot) 65536)))) 0
       = Some h'
    /\ head h' = 65536.
Proof.
  assert (Htid : 0 <= 2 < 2 ^ THREAD_ID_BITS)
    by (change THREAD_ID_BITS with 24; lia).
  assert (Hpg : pages (orphaned (after (malloc 10 15) boot) 65536) !! 65536
                = Some (mk_page 0 0 8 16 1 63 0 18446742974197923840))
    by (vm_compute; reflexivity).
  assert (Hown : rf_thread_id
                   (sync (mk_page 0 0 8 16 1 63 0 18446742974197923840))
                 <> 2)
    by (vm_compute; discriminate).
  assert (Hrun : page_internal_free 0 65536 65584 2
                   (orphaned (after (malloc 10 15) boot) 65536)
                 = Ok (tt, after (page_internal_free 0 65536 65584 2)
                             (orphaned (after (malloc 10 15) boot) 65536)))
    by (vm_compute; reflexivity).
  assert (Hlog : cas_log (after (page_internal_free 0 65536 65584 2)
                            (orphaned (after (malloc 10 15) boot) 65536))
                 = [(PageSync 65536, 18446742974197923840, 2199026401281)])
    by (vm_compute; reflexivity).
  destruct (C9_orphan_adoption 0 65536 65584 2 _ _ _ Htid Hpg Hown Hrun)
    as (old & new & st1 & Hl1 & Hl' & Hoff & Hcnt & _ & Horphan).
  assert (Hst : cas_log (orphaned (after (malloc 10 15) boot) 65536) = [])
    by (vm_compute; reflexivity).
  rewrite Hl', Hl1, Hst in Hlog. injection Hlog as Eold Enew.
  assert (Ho : rf_thread_id old = ORPHAN_ID)
    by (rewrite Eold; vm_compute; reflexivity).
  destruct (Horphan Ho) as (Hnew & _ & h' & Hh' & Hhead).
  exists old, new, h'. rewrite Hl', Hl1, Hst.
  split; [reflexivity|]. split; [exact Ho|]. split; [exact Hnew|].
  split; [rewrite Enew; vm_compute; reflexivity|].
  split; [rewrite Enew; vm_compute; reflexivity|].
  split; assumption.
Defined.

(** * Further properties of the code *)

(** ** Codecs *)

(** X1: a page-aligned address below 2^52 survives the packing into the
    40-bit [nxt] field of a stack word and back, and storing it leaves the
    count and the state tag of the word as they were. *)
Theorem ptr_pack_roundtrip (w b : Z) :
  0 <= b < 2 ^ 52 -> b mod PAGE_SZ = 0 ->
  GET_PTR (dq_nxt (set_dq_nxt w (SET_PTR b))) = b
  /\ dq_count (set_dq_nxt w (SET_PTR b)) = dq_count w
  /\ dq_state (set_dq_nxt w (SET_PTR b)) = dq_state w.
Proof.
  intros Hb Hal. rewrite PAGE_SZ_val in Hal.
  pose proof (SET_PTR_range b Hb) as Hr.
  autorewrite with fields. rewrite Z.mod_small by lia.
  split; [apply GET_PTR_SET_PTR; assumption|]. split; reflexivity.
Qed.

(** X1, at the first block of a fresh process. *)
Lemma ptr_pack_roundtrip_witness :
  GET_PTR (dq_nxt (set_dq_nxt 0 (SET_PTR 65536))) = 65536.
Proof.
  exact (proj1 (ptr_pack_roundtrip 0 65536 ltac:(lia)
                  ltac:(vm_compute; reflexivity))).
Defined.

(** X2: the header that [header_write_small] writes for an object less
    than 32 pages into its page-block decodes as a valid small header, the
    page offset that [object_type_decode] returns leads [GET_PAGE_START]
    back to the page-block, and no byte but the one before the object is
    written. *)
Theorem small_header_roundtrip (page obj : Z) (st : state) :
  0 <= page -> page mod PAGE_SZ = 0 ->
  page < obj -> obj - page < 32 * PAGE_SZ -> obj < 2 ^ 64 ->
  exists st',
    header_write_small page obj st = Ok (tt, st')
    /\ object_type_decode obj st'
       = Ok ((CLASS_SMALL, (obj - page) / PAGE_SZ), st')
    /\ GET_PAGE_START obj ((obj - page) / PAGE_SZ) = page
    /\ forall x, x <> obj - 1 -> read8 (mem st') x = read8 (mem st) x.
Proof.
  intros H0 Hal Hlt Hfar Htop.
  rewrite header_write_small_run, (page_offset_of page obj H0 Hlt Htop).
  eexists. split; [reflexivity|].
  rewrite PAGE_SZ_val in *.
  assert (Hoff : 0 <= (obj - page) / 4096 <= 31).
  { split; [apply Z.div_pos; lia|].
    assert ((obj - page) / 4096 < 32); [|lia].
    apply Z.div_lt_upper_bound; lia. }
  destruct (small_header_decode _ Hoff) as (E1 & E2 & E3).
  split_and!.
  - rewrite object_type_decode_run. sst. rewrite read8_write8.
    destruct (decide (obj - 1 = obj - 1)) as [_|E]; [|contradiction].
    unfold small_header at 1 2 3. rewrite !u8_idem.
    fold (small_header ((obj - page) / 4096)). rewrite E1, E2, E3.
    reflexivity.
  - replace obj with (page + (obj - page)) at 1 by lia.
    apply GET_PAGE_START_eq; lia.
  - intros x Hx. sst. rewrite read8_write8.
    destruct (decide (obj - 1 = x)) as [E|_]; [lia|reflexivity].
Qed.

(** X2, at the last slot of a 32-page block. *)
Lemma small_header_roundtrip_witness :
  exists st',
    header_write_small 65536 192560 boot = Ok (tt, st')
    /\ object_type_decode 192560 st' = Ok ((CLASS_SMALL, 31), st').
Proof.
  destruct (small_header_roundtrip 65536 192560 boot ltac:(lia)
              ltac:(vm_compute; reflexivity) ltac:(lia)
              ltac:(vm_compute; reflexivity) ltac:(lia))
    as (st' & Hw & Hd & _).
  exists st'. split; [exact Hw|exact Hd].
Defined.

(** X3: after [header_write_large] at the start [a] of a mapping, the
    object at [a + 16] decodes as a valid large object, the size word that
    [large_free] and [realloc] read is the number written, the start that
    [large_free] unmaps is [a], and only the 16 bytes of the prefix are
    written. *)
Theorem large_header_roundtrip (a n : Z) (st : state) :
  0 <= n < 2 ^ 64 ->
  exists st' off,
    header_write_large a n st = Ok (tt, st')
    /\ object_type_decode (a + LARGE_HEADER_SIZE) st'
       = Ok ((CLASS_LARGE, off), st')
    /\ GET_LARGER_ALLOC_SZ (a + LARGE_HEADER_SIZE) st' = Ok (n, st')
    /\ GET_LARGER_ALLOC_START (a + LARGE_HEADER_SIZE) = a
    /\ forall x, x < a \/ a + LARGE_HEADER_SIZE <= x ->
         read8 (mem st') x = read8 (mem st) x.
Proof.
  intros Hn. unfold header_write_large, store64, store8, bind, modify.
  change LARGE_HEADER_SIZE with 16. change SIZEOF_HEADER_T with 1.
  eexists _, _. split; [reflexivity|]. sst.
  destruct large_header_decode as [E1 E2].
  assert (Hhd : read8 (write8 (write_le 8 (mem st) a n) (a + 16 - 1)
                              (Z.lor HEADER_LARGE HEADER_VALID))
                      (a + 16 - 1) = large_header).
  { rewrite read8_write8.
    destruct (decide (a + 16 - 1 = a + 16 - 1)) as [_|E]; [|contradiction].
    reflexivity. }
  split_and!.
  - rewrite object_type_decode_run. sst. rewrite Hhd, E1, E2. reflexivity.
  - unfold GET_LARGER_ALLOC_SZ, load64, gets. sst.
    change LARGE_HEADER_SIZE with 16.
    replace (a + 16 - 16) with a by lia.
    rewrite read_le_write8_out by lia. rewrite read_le_write_le_same.
    rewrite Z.mod_small by (change (Z.of_nat 8) with 8; lia). reflexivity.
  - unfold GET_LARGER_ALLOC_START. change LARGE_HEADER_SIZE with 16. lia.
  - intros x Hx. rewrite read8_write8.
    destruct (decide (a + 16 - 1 = x)) as [E|_]; [lia|].
    apply read8_write_le_out. lia.
Qed.

(** X3, at a prefix that records two pages. *)
Lemma large_header_roundtrip_witness :
  exists st',
    header_write_large 65536 2 boot = Ok (tt, st')
    /\ GET_LARGER_ALLOC_SZ 65552 st' = Ok (2, st').
Proof.
  destruct (large_header_roundtrip 65536 2 boot ltac:(lia))
    as (st' & off & Hw & _ & Hsz & _).
  exists st'. split; [exact Hw|exact Hsz].
Defined.

(** ** Counting stacks *)

(** X4: [stack_insert] on a full stack (count [COUNT_MAX]) returns 0 and
    changes nothing; on a stack with room it returns 1, and the
    [stack_remove] that follows returns the block that was inserted and
    leaves the pointer, the count and the state tag of the stack word as
    they were before the insertion. *)
Theorem stack_local_roundtrip (i a : Z) (st : state) (w : Z) (pg : page_t) :
  idx_get (top (thread_data st)) i = Some w ->
  pages st !! a = Some pg ->
  0 < a < 2 ^ 52 -> a mod PAGE_SZ = 0 ->
  (dq_count w = COUNT_MAX -> stack_insert (LocalTop i) a st = Ok (0, st))
  /\ (dq_count w <> COUNT_MAX ->
      exists st1 st2 w',
        stack_insert (LocalTop i) a st = Ok (1, st1)
        /\ stack_remove (LocalTop i) st1 = Ok (a, st2)
        /\ idx_get (top (thread_data st2)) i = Some w'
        /\ dq_nxt w' = dq_nxt w /\ dq_count w' = dq_count w
        /\ dq_state w' = dq_state w).
Proof.
  intros Hw Hpg Ha Hal. rewrite (stack_insert_run i a st w pg Hw Hpg).
  pose proof (dq_count_range w) as Hc. rewrite COUNT_MAX_val.
  destruct (Z.eqb_spec (dq_count w) 4095) as [Hfull|Hroom].
  { split; [reflexivity|]. intros H. contradiction. }
  split; [intros H; contradiction|]. intros _.
  pose proof (SET_PTR_pos a Ha Hal) as Hp.
  set (w1 := set_dq_nxt (set_dq_count w (dq_count w + 1)) (SET_PTR a)).
  assert (Hc1 : dq_count w1 = dq_count w + 1).
  { unfold w1. autorewrite with fields. apply Z.mod_small. lia. }
  assert (Hn1 : dq_nxt w1 = SET_PTR a).
  { unfold w1. autorewrite with fields. apply Z.mod_small. lia. }
  eexists _, _, _. split; [reflexivity|].
  erewrite stack_remove_run; [|sst; apply (idx_get_set_eq _ _ _ _ Hw)].
  fold w1. rewrite Hc1, Hn1.
  destruct (Z.eqb_spec (dq_count w + 1) 0) as [E|_]; [lia|].
  rewrite PAGE_SZ_val in Hal.
  rewrite (GET_PTR_SET_PTR a ltac:(lia) Hal). sst.
  rewrite lookup_insert_eq. sst.
  split; [reflexivity|]. sst. split.
  { eapply idx_get_set_eq. apply (idx_get_set_eq _ _ _ _ Hw). }
  autorewrite with fields.
  rewrite dq_nxt_idem. replace (dq_count w + 1 - 1) with (dq_count w) by lia.
  rewrite dq_count_idem. unfold w1. autorewrite with fields.
  split_and!; reflexivity.
Qed.

(** X4, at the thread cache of 8-page blocks, with the block at 65536. *)
Lemma stack_local_roundtrip_witness :
  exists st1 st2,
    stack_insert (LocalTop 0) 65536 (after (malloc 10 15) boot) = Ok (1, st1)
    /\ stack_remove (LocalTop 0) st1 = Ok (65536, st2).
Proof.
  destruct (stack_local_roundtrip 0 65536 (after (malloc 10 15) boot) 0
              (mk_page 0 0 8 16 1 63 0 1099511627776)
              ltac:(vm_compute; reflexivity) ltac:(vm_compute; reflexivity)
              ltac:(lia) ltac:(vm_compute; reflexivity)) as [_ H].
  destruct (H ltac:(vm_compute; discriminate))
    as (st1 & st2 & w' & H1 & H2 & _).
  exists st1, st2. split; assumption.
Defined.

(** X5: without interference from other threads, [stack_insert_atomic] on
    a full stack returns 0 and changes nothing; on a stack with room it
    returns 1, and the [stack_remove_atomic] that follows returns the block
    that was inserted and restores the pointer and the count of the stack
    word, while its state tag has advanced by two. *)
Theorem stack_atomic_roundtrip (i a : Z) (st : state) (w : Z) (pg : page_t) :
  env st = [] ->
  idx_get (global_freeheap st) i = Some w ->
  pages st !! a = Some pg ->
  0 < a < 2 ^ 52 -> a mod PAGE_SZ = 0 ->
  (dq_count w = COUNT_MAX ->
   stack_insert_atomic (GlobalTop i) a st = Ok (0, st))
  /\ (dq_count w <> COUNT_MAX ->
      exists st1 st2 w',
        stack_insert_atomic (GlobalTop i) a st = Ok (1, st1)
        /\ stack_remove_atomic (GlobalTop i) st1 = Ok (a, st2)
        /\ idx_get (global_freeheap st2) i = Some w'
        /\ dq_nxt w' = dq_nxt w /\ dq_count w' = dq_count w
        /\ dq_state w' = (dq_state w + 2) mod 2 ^ 12).
Proof.
  intros He Hw Hpg Ha Hal.
  rewrite (stack_insert_atomic_run i a st w pg He Hw Hpg).
  pose proof (dq_count_range w) as Hc. rewrite COUNT_MAX_val.
  destruct (Z.eqb_spec (dq_count w) 4095) as [Hfull|Hroom].
  { split; [reflexivity|]. intros H. contradiction. }
  split; [intros H; contradiction|]. intros _. cbv zeta.
  pose proof (SET_PTR_pos a Ha Hal) as Hp.
  set (w1 := set_dq_nxt (set_dq_state (set_dq_count 0 (dq_count w + 1))
                                      (dq_state w + 1)) (SET_PTR a)).
  assert (Hc1 : dq_count w1 = dq_count w + 1).
  { unfold w1. autorewrite with fields. apply Z.mod_small. lia. }
  assert (Hn1 : dq_nxt w1 = SET_PTR a).
  { unfold w1. autorewrite with fields. apply Z.mod_small. lia. }
  assert (Hs1 : dq_state w1 = (dq_state w + 1) mod 2 ^ 12).
  { unfold w1. autorewrite with fields. reflexivity. }
  eexists _, _, _. split; [reflexivity|].
  erewrite stack_remove_atomic_run;
    [|sst; exact He|sst; apply (idx_get_set_eq _ _ _ _ Hw)].
  rewrite Hn1.
  destruct (Z.eqb_spec (SET_PTR a) 0) as [E|_]; [lia|].
  rewrite PAGE_SZ_val in Hal.
  rewrite (GET_PTR_SET_PTR a ltac:(lia) Hal). sst.
  rewrite lookup_insert_eq. sst. cbv zeta.
  split; [reflexivity|]. sst. split.
  { eapply idx_get_set_eq. apply (idx_get_set_eq _ _ _ _ Hw). }
  autorewrite with fields. rewrite Hc1, Hs1.
  rewrite dq_nxt_idem. replace (dq_count w + 1 - 1) with (dq_count w) by lia.
  rewrite dq_count_idem.
  split_and!; try reflexivity.
  rewrite Z.add_mod_idemp_l by lia. f_equal. lia.
Qed.

(** X5, at the global cache of 8-page blocks, with the block at 65536. *)
Lemma stack_atomic_roundtrip_witness :
  exists st1 st2,
    stack_insert_atomic (GlobalTop 0) 65536 (after (malloc 10 15) boot)
      = Ok (1, st1)
    /\ stack_remove_atomic (GlobalTop 0) st1 = Ok (65536, st2).
Proof.
  destruct (stack_atomic_roundtrip 0 65536 (after (malloc 10 15) boot) 0
              (mk_page 0 0 8 16 1 63 0 1099511627776)
              ltac:(vm_compute; reflexivity) ltac:(vm_compute; reflexivity)
              ltac:(vm_compute; reflexivity)
              ltac:(lia) ltac:(vm_compute; reflexivity)) as [_ H].
  destruct (H ltac:(vm_compute; discriminate))
    as (st1 & st2 & w' & H1 & H2 & _).
  exists st1, st2. split; assumption.
Defined.

(** ** [calloc] *)

(** X6: for arguments that fit [size_t]: when the product [nmemb * sz]
    does not fit 64 bits, [calloc] returns null and changes nothing; when
    it fits, a null result of [calloc] is the null result of [malloc] of
    the product (a product of zero, or no memory), in the state that
    [malloc] left. *)
Theorem calloc_overflow_null (fuel : nat) (nmemb sz : Z) (st : state) :
  0 <= nmemb < 2 ^ 64 -> 0 <= sz < 2 ^ 64 ->
  (2 ^ 64 <= nmemb * sz -> calloc fuel nmemb sz st = Ok (0, st))
  /\ (nmemb * sz < 2 ^ 64 ->
      forall st', calloc fuel nmemb sz st = Ok (0, st') ->
                  malloc fuel (nmemb * sz) st = Ok (0, st')).
Proof.
  intros Hn Hs. unfold calloc. rewrite (calloc_guard nmemb sz Hn Hs).
  split; intros H.
  - destruct (Z.leb_spec (2 ^ 64) (nmemb * sz)); [reflexivity|lia].
  - destruct (Z.leb_spec (2 ^ 64) (nmemb * sz)); [lia|].
    rewrite u64_small by nia. intros st' Hrun.
    apply bind_inv in Hrun as (q & st1 & Hm & Hrun).
    apply bind_inv in Hrun as (u & st2 & Hset & Hret).
    apply ret_inv in Hret as [E ->]. subst q.
    change (negb (0 =? 0)) with false in Hset. cbv iota in Hset.
    apply ret_inv in Hset as [_ ->]. exact Hm.
Qed.

(** X6, at a product of 2^64. *)
Lemma calloc_overflow_null_witness :
  calloc 10 (2 ^ 32) (2 ^ 32) boot = Ok (0, boot).
Proof.
  exact (proj1 (calloc_overflow_null 10 (2 ^ 32) (2 ^ 32) boot
                  ltac:(lia) ltac:(lia)) ltac:(lia)).
Defined.

(** X7: when [calloc] returns an object, the product of its arguments
    fits 64 bits, the object is the one [malloc] of the product returns,
    every byte of it reads zero, and no byte outside it differs from what
    [malloc] left. *)
Theorem calloc_zeroed (fuel : nat) (nmemb sz : Z) (st : state) (p : Z)
    (st' : state) :
  0 <= nmemb < 2 ^ 64 -> 0 <= sz < 2 ^ 64 ->
  calloc fuel nmemb sz st = Ok (p, st') -> p <> 0 ->
  nmemb * sz < 2 ^ 64
  /\ exists st1,
       malloc fuel (nmemb * sz) st = Ok (p, st1)
       /\ (forall i, 0 <= i < nmemb * sz -> read8 (mem st') (p + i) = 0)
       /\ (forall x, x < p \/ p + nmemb * sz <= x ->
             read8 (mem st') x = read8 (mem st1) x).
Proof.
  intros Hn Hs Hrun Hp. unfold calloc in Hrun.
  rewrite (calloc_guard nmemb sz Hn Hs) in Hrun.
  destruct (Z.leb_spec (2 ^ 64) (nmemb * sz)) as [Hbig|Hfit].
  { injection Hrun as E _. lia. }
  split; [lia|]. rewrite u64_small in Hrun by nia.
  apply bind_inv in Hrun as (q & st1 & Hm & Hrun).
  apply bind_inv in Hrun as (u & st2 & Hset & Hret).
  apply ret_inv in Hret as [-> ->].
  exists st1. split; [exact Hm|].
  destruct (Z.eqb_spec q 0) as [E|_]; [contradiction|]. cbn [negb] in Hset.
  apply memset_inv in Hset as [-> _]. sst.
  split.
  - intros i Hi. rewrite read8_fill_bytes.
    destruct (decide _) as [_|Hout]; [reflexivity|].
    rewrite Z2Nat.id in Hout by nia. lia.
  - intros x Hx. rewrite read8_fill_bytes.
    destruct (decide _) as [Hin|_]; [|reflexivity].
    rewrite Z2Nat.id in Hin by nia. lia.
Qed.

(** X7, at three elements of five bytes. *)
Lemma calloc_zeroed_witness :
  calloc 10 3 5 boot = Ok (65584, after (calloc 10 3 5) boot)
  /\ read8 (mem (after (calloc 10 3 5) boot)) (65584 + 14) = 0.
Proof.
  assert (H : calloc 10 3 5 boot = Ok (65584, after (calloc 10 3 5) boot))
    by (vm_compute; reflexivity).
  split; [exact H|].
  destruct (calloc_zeroed 10 3 5 boot 65584 _ ltac:(lia) ltac:(lia) H
              ltac:(lia)) as (_ & st1 & _ & Hz & _).
  apply Hz. lia.
Defined.

(** ** Single-threaded histories *)

(** X8: in a single-threaded history, [free] of a pointer that [malloc]
    returned and that has not been freed since returns: it neither faults
    nor aborts nor runs out of fuel. *)
Theorem free_live_returns (tid : Z) (choices : list Z) (st : state)
    (live : list Z) (p : Z) :
  0 <= tid < 2 ^ THREAD_ID_BITS ->
  history (init_state tid choices) st live ->
  p ∈ live ->
  exists st', free p st = Ok (tt, st').
Proof.
  intros Htid Hreach Hp.
  destruct (history_inv tid choices st live Htid Hreach) as (g & Hinv & Hl).
  destruct (free_inv st g p Hinv (proj1 (Hl p Hp))) as (st' & _ & Hrun & _).
  exists st'. exact Hrun.
Qed.

(** X8, at the last object of the first block of the 126-call history. *)
Lemma free_live_returns_witness :
  exists st', free 192560 (run_state fill_ops) = Ok (tt, st').
Proof.
  assert (Htid : 0 <= 1 < 2 ^ THREAD_ID_BITS)
    by (change THREAD_ID_BITS with 24; lia).
  assert (Hrun : run fill_ops boot []
                 = Some (run_state fill_ops, [1048624; 192560]))
    by (vm_compute; reflexivity).
  exact (free_live_returns 1 [65536; 1048576; 2097152] _ _ 192560 Htid
           (reachable_history _ _ _ (run_state_reachable _ _ _ Hrun)) ltac:(efurther; ehere)).
Defined.

(** X9: in a single-threaded history, a pointer that [malloc] returns and
    that is not null is none of the pointers that are live at the call. *)
Theorem malloc_fresh (tid : Z) (choices : list Z) (st : state)
    (live : list Z) (fuel : nat) (sz p : Z) (st' : state) :
  0 <= tid < 2 ^ THREAD_ID_BITS ->
  history (init_state tid choices) st live ->
  0 <= sz < 2 ^ 64 ->
  malloc fuel sz st = Ok (p, st') -> p <> 0 ->
  ~ p ∈ live.
Proof.
  intros Htid Hreach Hsz Hrun Hp Hin.
  destruct (history_inv tid choices st live Htid Hreach) as (g & Hinv & Hl).
  destruct (malloc_strong st g fuel sz Hinv ltac:(lia))
    as [[Ho _]|(p' & st1 & g' & Hrun' & _ & _ & Hnew)].
  { rewrite Ho in Hrun. discriminate. }
  rewrite Hrun' in Hrun. injection Hrun as -> ->.
  destruct (Hnew Hp) as (_ & Hfresh & _).
  exact (Hfresh (proj1 (Hl p Hin))).
Qed.

(** X9, at the second allocation of a process. *)
Lemma malloc_fresh_witness :
  malloc 10 15 (after (malloc 10 15) boot)
    = Ok (65600, after (malloc 10 15) (after (malloc 10 15) boot))
  /\ ~ 65600 ∈ [65584].
Proof.
  assert (Htid : 0 <= 1 < 2 ^ THREAD_ID_BITS)
    by (change THREAD_ID_BITS with 24; lia).
  assert (H1 : malloc 10 15 boot = Ok (65584, after (malloc 10 15) boot))
    by (vm_compute; reflexivity).
  assert (R1 : history boot (after (malloc 10 15) boot) [65584])
    by exact (hist_malloc boot boot [] 10 15 65584 _ (hist_init boot)
                ltac:(lia) H1).
  assert (H2 : malloc 10 15 (after (malloc 10 15) boot)
               = Ok (65600, after (malloc 10 15) (after (malloc 10 15) boot)))
    by (vm_compute; reflexivity).
  split; [exact H2|].
  exact (malloc_fresh 1 [65536; 1048576; 2097152] _ _ 10 15 65600 _ Htid R1
           ltac:(lia) H2 ltac:(lia)).
Defined.

(** X10: every live pointer of a single-threaded history lies inside a
    mapping, behind its start, and so do all the bytes from the pointer up
    to the old size that [realloc] reads for it: the [memcpy] of [realloc]
    reads mapped memory only. *)
Theorem live_object_in_bounds (tid : Z) (choices : list Z) (st : state)
    (live : list Z) (p : Z) :
  0 <= tid < 2 ^ THREAD_ID_BITS ->
  history (init_state tid choices) st live ->
  p ∈ live ->
  exists old b n,
    realloc_old_sz p st = Ok (old, st) /\ 0 < old
    /\ mapped st !! b = Some n /\ b < p /\ p + old <= b + n * PAGE_SZ.
Proof.
  intros Htid Hreach Hp.
  destruct (history_inv tid choices st live Htid Hreach) as (g & Hinv & Hl).
  exact (live_in_bounds st g p Hinv (proj1 (Hl p Hp))).
Qed.

(** X10, at the last slot of a 32-page block. *)
Lemma live_object_in_bounds_witness :
  exists old b n,
    realloc_old_sz 192560 (run_state fill_ops)
      = Ok (old, run_state fill_ops)
    /\ mapped (run_state fill_ops) !! b = Some n
    /\ 192560 + old <= b + n * PAGE_SZ.
Proof.
  assert (Htid : 0 <= 1 < 2 ^ THREAD_ID_BITS)
    by (change THREAD_ID_BITS with 24; lia).
  assert (Hrun : run fill_ops boot []
                 = Some (run_state fill_ops, [1048624; 192560]))
    by (vm_compute; reflexivity).
  destruct (live_object_in_bounds 1 [65536; 1048576; 2097152] _ _ 192560
              Htid (reachable_history _ _ _ (run_state_reachable _ _ _ Hrun)) ltac:(efurther; ehere))
    as (old & b & n & H1 & _ & H2 & _ & H3).
  exists old, b, n. split_and!; assumption.
Defined.

(** X11: two live pointers of a single-threaded history that differ do
    not overlap: the bytes of one, from the pointer up to the old size that
    [realloc] reads for it, end before the header byte of the other. *)
Theorem live_objects_apart (tid : Z) (choices : list Z) (st : state)
    (live : list Z) (p q : Z) :
  0 <= tid < 2 ^ THREAD_ID_BITS ->
  history (init_state tid choices) st live ->
  p ∈ live -> q ∈ live -> p <> q ->
  exists op oq,
    realloc_old_sz p st = Ok (op, st) /\ realloc_old_sz q st = Ok (oq, st)
    /\ (p + op < q \/ q + oq < p).
Proof.
  intros Htid Hreach Hp Hq Hne.
  destruct (history_inv tid choices st live Htid Hreach) as (g & Hinv & Hl).
  exact (live_apart st g p q Hinv (proj1 (Hl p Hp)) (proj1 (Hl q Hq)) Hne).
Qed.

(** X11, at the two live objects of the 126-call history. *)
Lemma live_objects_apart_witness :
  exists op oq,
    realloc_old_sz 1048624 (run_state fill_ops)
      = Ok (op, run_state fill_ops)
    /\ realloc_old_sz 192560 (run_state fill_ops)
       = Ok (oq, run_state fill_ops)
    /\ (1048624 + op < 192560 \/ 192560 + oq < 1048624).
Proof.
  assert (Htid : 0 <= 1 < 2 ^ THREAD_ID_BITS)
    by (change THREAD_ID_BITS with 24; lia).
  assert (Hrun : run fill_ops boot []
                 = Some (run_state fill_ops, [1048624; 192560]))
    by (vm_compute; reflexivity).
  exact (live_objects_apart 1 [65536; 1048576; 2097152] _ _ 1048624 192560
           Htid (reachable_history _ _ _ (run_state_reachable _ _ _ Hrun)) ltac:(ehere)
           ltac:(efurther; ehere) ltac:(lia)).
Defined.

(** X12: in a single-threaded history, the object that [malloc] returns
    for a request of [sz] bytes has room for them.  For a small request
    the old size that [realloc] reads for the object (the slot without its
    header byte) is at least [sz]; for a large request whose size plus the
    16-byte prefix fits 64 bits, the mapping that starts 16 bytes before
    the object holds the prefix and [sz] bytes. *)
Theorem malloc_fits (tid : Z) (choices : list Z) (st : state)
    (live : list Z) (fuel : nat) (sz p : Z) (st' : state) :
  0 <= tid < 2 ^ THREAD_ID_BITS ->
  history (init_state tid choices) st live ->
  0 <= sz < 2 ^ 64 ->
  malloc fuel sz st = Ok (p, st') -> p <> 0 ->
  (sz < SMALL_ALLOCATION_LIMIT ->
   exists old, realloc_old_sz p st' = Ok (old, st') /\ sz <= old)
  /\ (SMALL_ALLOCATION_LIMIT <= sz -> sz + LARGE_HEADER_SIZE < 2 ^ 64 ->
      exists n, mapped st' !! (p - LARGE_HEADER_SIZE) = Some n
                /\ sz + LARGE_HEADER_SIZE <= n * PAGE_SZ).
Proof.
  intros Htid Hreach Hsz Hrun Hp.
  destruct (history_inv tid choices st live Htid Hreach) as (g & Hinv & Hl).
  destruct (malloc_strong st g fuel sz Hinv ltac:(lia))
    as [[Ho _]|(p' & st1 & g' & Hrun' & Hinv' & _ & Hnew)].
  { rewrite Ho in Hrun. discriminate. }
  rewrite Hrun' in Hrun. injection Hrun as -> ->.
  destruct (Hnew Hp) as (_ & _ & Hkind).
  rewrite SMALL_ALLOCATION_LIMIT_val in *.
  split.
  - intros Hsmall.
    destruct Hkind as [(_ & c & pb & b & Hdec & Hc & Hb & Hpl)|[Hbig _]];
      [|lia].
    destruct (live_small_region _ _ _ _ _ Hinv' Hc Hb Hpl)
      as (csz & i & Hcs & _ & _ & _ & _ & _ & Hold).
    assert (Hs0 : sz <> 0).
    { intros ->. unfold malloc in Hrun'. cbn [Z.eqb] in Hrun'.
      apply ret_inv in Hrun' as [E _]. congruence. }
    pose proof (class_size_fits sz c pb csz ltac:(lia) Hdec Hcs).
    exists (csz - 1). split; [exact Hold|lia].
  - intros Hbig Hfit.
    destruct Hkind as [(Hsmall & _)|(_ & _ & Hmp)]; [lia|].
    eexists. split; [exact Hmp|].
    change LARGE_HEADER_SIZE with 16 in *.
    rewrite u64_small by lia.
    pose proof (GET_PAGE_NUM_covers (sz + 16) ltac:(lia)). lia.
Qed.

(** X12, at a request of 600 bytes. *)
Lemma malloc_fits_witness :
  exists p st' old,
    malloc 10 600 boot = Ok (p, st')
    /\ realloc_old_sz p st' = Ok (old, st') /\ 600 <= old.
Proof.
  assert (Htid : 0 <= 1 < 2 ^ THREAD_ID_BITS)
    by (change THREAD_ID_BITS with 24; lia).
  assert (H1 : malloc 10 600 boot = Ok (65584, after (malloc 10 600) boot))
    by (vm_compute; reflexivity).
  destruct (malloc_fits 1 [65536; 1048576; 2097152] boot [] 10 600 65584 _
              Htid (hist_init _) ltac:(lia) H1 ltac:(lia)) as [Hs _].
  destruct (Hs ltac:(vm_compute; reflexivity)) as (old & Hold & Hle).
  exists 65584, (after (malloc 10 600) boot), old.
  split_and!; assumption.
Defined.

(** X13: a request within 15 bytes of the largest [size_t] makes the sum
    with the 16-byte prefix wrap around: [malloc] then asks the kernel for
    one page, and what it returns, if not null, points 16 bytes into a
    mapping of a single page. *)
Theorem malloc_size_wraps (fuel : nat) (sz : Z) (st : state) (p : Z)
    (st' : state) :
  2 ^ 64 - LARGE_HEADER_SIZE < sz < 2 ^ 64 ->
  malloc fuel sz st = Ok (p, st') -> p <> 0 ->
  mapped st' !! (p - LARGE_HEADER_SIZE) = Some 1.
Proof.
  intros Hsz Hrun Hp. change LARGE_HEADER_SIZE with 16 in Hsz.
  rewrite malloc_large_run in Hrun
    by (rewrite SMALL_ALLOCATION_LIMIT_val; lia).
  destruct (large_alloc_mapped sz st p st' Hrun Hp) as [_ Hmp].
  rewrite GET_PAGE_NUM_wrapped in Hmp
    by (change LARGE_HEADER_SIZE with 16; lia).
  rewrite Hmp. apply lookup_insert_eq.
Qed.

(** X13, at the largest request. *)
Lemma malloc_size_wraps_witness :
  malloc 10 (2 ^ 64 - 1) boot
    = Ok (65552, after (malloc 10 (2 ^ 64 - 1)) boot)
  /\ mapped (after (malloc 10 (2 ^ 64 - 1)) boot) !! (65552 - 16) = Some 1.
Proof.
  assert (H : malloc 10 (2 ^ 64 - 1) boot
              = Ok (65552, after (malloc 10 (2 ^ 64 - 1)) boot))
    by (vm_compute; reflexivity).
  split; [exact H|].
  exact (malloc_size_wraps 10 (2 ^ 64 - 1) boot 65552 _
           ltac:(change LARGE_HEADER_SIZE with 16; lia) H ltac:(lia)).
Defined.

(** X14: in a single-threaded history, a large object that [malloc]
    returns can be freed at once, and after the [free] the kernel's table
    of mappings is what it was before the [malloc]; the thread's lists and
    caches and the global cache are not touched by the two calls. *)
Theorem large_malloc_free_roundtrip (tid : Z) (choices : list Z)
    (st : state) (live : list Z) (fuel : nat) (sz p : Z) (st1 : state) :
  0 <= tid < 2 ^ THREAD_ID_BITS ->
  history (init_state tid choices) st live ->
  SMALL_ALLOCATION_LIMIT <= sz < 2 ^ 64 ->
  malloc fuel sz st = Ok (p, st1) -> p <> 0 ->
  exists st2,
    free p st1 = Ok (tt, st2)
    /\ mapped st2 = mapped st
    /\ thread_data st2 = thread_data st
    /\ global_freeheap st2 = global_freeheap st.
Proof.
  intros Htid Hreach Hsz Hrun Hp.
  destruct (history_inv tid choices st live Htid Hreach) as (g & Hinv & Hl).
  pose proof Hsz as Hsz'. rewrite SMALL_ALLOCATION_LIMIT_val in Hsz'.
  destruct (malloc_strong st g fuel sz Hinv ltac:(lia))
    as [[Ho _]|(p' & st' & g' & Hrun' & Hinv' & _ & Hnew)].
  { rewrite Ho in Hrun. discriminate. }
  rewrite Hrun' in Hrun. injection Hrun as -> ->.
  destruct (Hnew Hp) as (_ & _ & [(Hsmall & _)|(_ & Hlg & _)]);
    [rewrite SMALL_ALLOCATION_LIMIT_val in Hsmall; lia|].
  rewrite malloc_large_run in Hrun' by lia.
  destruct (large_alloc_mapped sz st p st1 Hrun' Hp) as [Hok Hmp].
  destruct (large_alloc_rest sz st p st1 Hrun') as (Htd & Hgf & _).
  destruct (large_free_inv st1 g' p Hinv' Hlg) as (st2 & g2 & Hfree & _).
  exists st2. rewrite (free_large_run st1 g' p Hinv' Hlg).
  split; [exact Hfree|].
  unfold large_free, GET_LARGER_ALLOC_SZ, load64, bind, gets in Hfree.
  apply munmap_wrap_state in Hfree as (Hm2 & _ & _ & Htd2 & Hgf2).
  unfold GET_LARGER_ALLOC_START in Hm2.
  rewrite Hm2, Hmp, Htd2, Hgf2, Htd, Hgf.
  split; [|split; reflexivity].
  apply delete_insert_id.
  exact (region_ok_fresh _ _ _ (inv_os _ _ Hinv) Hok).
Qed.

(** X14, at a request of 4096 bytes. *)
Lemma large_malloc_free_roundtrip_witness :
  exists st2,
    free 65552 (after (malloc 10 4096) boot) = Ok (tt, st2)
    /\ mapped st2 = mapped boot.
Proof.
  assert (Htid : 0 <= 1 < 2 ^ THREAD_ID_BITS)
    by (change THREAD_ID_BITS with 24; lia).
  assert (H1 : malloc 10 4096 boot = Ok (65552, after (malloc 10 4096) boot))
    by (vm_compute; reflexivity).
  destruct (large_malloc_free_roundtrip 1 [65536; 1048576; 2097152] boot []
              10 4096 65552 _ Htid (hist_init _)
              ltac:(rewrite SMALL_ALLOCATION_LIMIT_val; lia) H1 ltac:(lia))
    as (st2 & Hf & Hm & _).
  exists st2. split; assumption.
Defined.

(** X15: in a single-threaded history, when the live small object [p]
    lies in the block [b] at the head of its class list, [free p] followed
    by [malloc] of a size of the same class returns [p] again: the slot
    freed last is the first to be reused.  The header of [b], the thread's
    lists and caches, and the mappings are then what they were before the
    two calls. *)
Theorem free_malloc_reuse (tid : Z) (choices : list Z) (st : state)
    (live : list Z) (p off b : Z) (pg : page_t) (c pn : Z) (h : heap_t)
    (fuel : nat) (sz pb : Z) :
  0 <= tid < 2 ^ THREAD_ID_BITS ->
  history (init_state tid choices) st live ->
  p ∈ live ->
  object_type_decode p st = Ok ((CLASS_SMALL, off), st) ->
  b = GET_PAGE_START p off ->
  pages st !! b = Some pg ->
  class_size_decode (u64 (object_size pg - 1)) = Some (c, pn) ->
  idx_get (private_heap (thread_data st)) c = Some h ->
  head h = b ->
  1 <= sz <= 2047 -> class_size_decode sz = Some (c, pb) ->
  exists st1 st2,
    free p st = Ok (tt, st1)
    /\ malloc (S fuel) sz st1 = Ok (p, st2)
    /\ pages st2 !! b = Some pg
    /\ thread_data st2 = thread_data st
    /\ mapped st2 = mapped st.
Proof.
  intros Htid Hreach Hp Hdec Hb Hpg Hcls Hh Hhd Hsz Hdsz.
  destruct (history_inv tid choices st live Htid Hreach) as (g & Hinv & Hl).
  destruct (live_small_found st g p off b pg c pn Hinv (proj1 (Hl p Hp))
              Hdec Hb Hpg Hcls) as (Hc & Hbl & Hpl & _).
  exact (free_then_alloc st g c b p h pg fuel sz pb Hinv Hc Hbl Hpl Hh Hhd
           Hpg Hsz Hdsz).
Qed.

(** X15, at the first object of a process, with a request of another size
    of the same class. *)
Lemma free_malloc_reuse_witness :
  exists st1 st2,
    free 65584 (after (malloc 10 15) boot) = Ok (tt, st1)
    /\ malloc 10 10 st1 = Ok (65584, st2)
    /\ mapped st2 = mapped (after (malloc 10 15) boot).
Proof.
  assert (Htid : 0 <= 1 < 2 ^ THREAD_ID_BITS)
    by (change THREAD_ID_BITS with 24; lia).
  assert (H1 : malloc 10 15 boot = Ok (65584, after (malloc 10 15) boot))
    by (vm_compute; reflexivity).
  assert (R1 : history boot (after (malloc 10 15) boot) [65584])
    by exact (hist_malloc boot boot [] 10 15 65584 _ (hist_init boot)
                ltac:(lia) H1).
  assert (Hdec : object_type_decode 65584 (after (malloc 10 15) boot)
                 = Ok ((CLASS_SMALL, 0), after (malloc 10 15) boot))
    by (vm_compute; reflexivity).
  assert (Hb : 65536 = GET_PAGE_START 65584 0) by (vm_compute; reflexivity).
  assert (Hpg : pages (after (malloc 10 15) boot) !! 65536
                = Some (mk_page 0 0 8 16 1 63 0 1099511627776))
    by (vm_compute; reflexivity).
  assert (Hcls : class_size_decode
                   (u64 (object_size
                           (mk_page 0 0 8 16 1 63 0 1099511627776) - 1))
                 = Some (0, 8))
    by (vm_compute; reflexivity).
  assert (Hh : idx_get (private_heap (thread_data (after (malloc 10 15) boot)))
                 0 = Some (mk_heap 65536 65536))
    by (vm_compute; reflexivity).
  assert (Hdsz : class_size_decode 10 = Some (0, 8))
    by (vm_compute; reflexivity).
  destruct (free_malloc_reuse 1 [65536; 1048576; 2097152] _ _ 65584 0 65536
              (mk_page 0 0 8 16 1 63 0 1099511627776) 0 8
              (mk_heap 65536 65536) 9 10 8
              Htid R1 ltac:(ehere) Hdec Hb Hpg Hcls Hh eq_refl ltac:(lia)
              Hdsz) as (st1 & st2 & F & M & _ & _ & Hmp).
  exists st1, st2. split_and!; assumption.
Defined.

(** X16: in a single-threaded history, [malloc] changes no byte of an
    object that is live at the call: not its header byte and none of the
    bytes of its payload capacity (the slot of a small object, the whole
    mapping behind the prefix of a large one); the capacity and the old
    size that [realloc] reads for that object are the same after the call
    as before. *)
Theorem malloc_keeps_live (tid : Z) (choices : list Z) (st : state)
    (live : list Z) (fuel : nat) (sz p : Z) (st' : state) (q : Z) :
  0 <= tid < 2 ^ THREAD_ID_BITS ->
  history (init_state tid choices) st live ->
  0 <= sz < 2 ^ 64 ->
  q ∈ live ->
  malloc fuel sz st = Ok (p, st') ->
  exists cap old,
    payload_size q st = Ok (cap, st)
    /\ payload_size q st' = Ok (cap, st')
    /\ realloc_old_sz q st = Ok (old, st)
    /\ realloc_old_sz q st' = Ok (old, st')
    /\ 0 < old <= cap
    /\ forall x, q - 1 <= x < q + cap ->
         read8 (mem st') x = read8 (mem st) x.
Proof.
  intros Htid Hreach Hsz Hq Hrun.
  destruct (history_inv tid choices st live Htid Hreach) as (g & Hinv & Hl).
  exact (malloc_keeps_extent st g fuel sz p st' q Hinv ltac:(lia)
           (proj1 (Hl q Hq)) Hrun).
Qed.

(** X16, at byte 100 of a large object of 4096 bytes, which holds a 7,
    when a small object is allocated. *)
Lemma malloc_keeps_live_witness :
  payload_size 65552 large_written = Ok (8176, large_written)
  /\ read8 (mem (after (malloc 10 15) large_written)) (65552 + 100) = 7.
Proof.
  assert (Htid : 0 <= 1 < 2 ^ THREAD_ID_BITS)
    by (change THREAD_ID_BITS with 24; lia).
  assert (H1 : malloc 10 4096 boot = Ok (65552, after (malloc 10 4096) boot))
    by (vm_compute; reflexivity).
  assert (R1 : history boot (after (malloc 10 4096) boot) [65552])
    by exact (hist_malloc boot boot [] 10 4096 65552 _ (hist_init boot)
                ltac:(lia) H1).
  assert (Hmp : mapped (after (malloc 10 4096) boot)
                  !! (65552 - LARGE_HEADER_SIZE) = Some 2)
    by (vm_compute; reflexivity).
  assert (R2 : history boot large_written [65552])
    by exact (hist_store_large boot _ [65552] 65552 2 100 7 R1 ltac:(ehere)
                Hmp ltac:(vm_compute; split; [discriminate|reflexivity])).
  assert (H2 : malloc 10 15 large_written
               = Ok (1048624, after (malloc 10 15) large_written))
    by (vm_compute; reflexivity).
  assert (Hcap : payload_size 65552 large_written = Ok (8176, large_written))
    by (vm_compute; reflexivity).
  assert (H7 : read8 (mem large_written) (65552 + 100) = 7)
    by (vm_compute; reflexivity).
  split; [exact Hcap|]. rewrite <- H7.
  destruct (malloc_keeps_live 1 [65536; 1048576; 2097152] _ _ 10 15 1048624 _
              65552 Htid R2 ltac:(lia) ltac:(ehere) H2)
    as (cap & old & E & _ & _ & _ & _ & Hkeep).
  rewrite Hcap in E. apply Ok_inj in E as [<- _]. apply Hkeep. lia.
Defined.

(** X17: in a single-threaded history, [free] of a live object changes no
    byte of any other live object: not its header byte and none of the
    bytes of its payload capacity. *)
Theorem free_keeps_others (tid : Z) (choices : list Z) (st : state)
    (live : list Z) (p q : Z) (st' : state) :
  0 <= tid < 2 ^ THREAD_ID_BITS ->
  history (init_state tid choices) st live ->
  p ∈ live -> q ∈ live -> p <> q ->
  free p st = Ok (tt, st') ->
  exists cap old,
    payload_size q st = Ok (cap, st)
    /\ realloc_old_sz q st = Ok (old, st) /\ 0 < old <= cap
    /\ forall x, q - 1 <= x < q + cap ->
         read8 (mem st') x = read8 (mem st) x.
Proof.
  intros Htid Hreach Hp Hq Hne Hrun.
  destruct (history_inv tid choices st live Htid Hreach) as (g & Hinv & Hl).
  exact (free_keeps_extent st g p q tt st' Hinv (proj1 (Hl p Hp))
           (proj1 (Hl q Hq)) Hne Hrun).
Qed.

(** X17, at byte 100 of a large object of 4096 bytes, which holds a 7,
    when the small object beside it is freed. *)
Lemma free_keeps_others_witness :
  payload_size 65552 (after (malloc 10 15) large_written)
    = Ok (8176, after (malloc 10 15) large_written)
  /\ read8 (mem (after (free 1048624) (after (malloc 10 15) large_written)))
           (65552 + 100) = 7.
Proof.
  assert (Htid : 0 <= 1 < 2 ^ THREAD_ID_BITS)
    by (change THREAD_ID_BITS with 24; lia).
  assert (H1 : malloc 10 4096 boot = Ok (65552, after (malloc 10 4096) boot))
    by (vm_compute; reflexivity).
  assert (R1 : history boot (after (malloc 10 4096) boot) [65552])
    by exact (hist_malloc boot boot [] 10 4096 65552 _ (hist_init boot)
                ltac:(lia) H1).
  assert (Hmp : mapped (after (malloc 10 4096) boot)
                  !! (65552 - LARGE_HEADER_SIZE) = Some 2)
    by (vm_compute; reflexivity).
  assert (R2 : history boot large_written [65552])
    by exact (hist_store_large boot _ [65552] 65552 2 100 7 R1 ltac:(ehere)
                Hmp ltac:(vm_compute; split; [discriminate|reflexivity])).
  assert (H2 : malloc 10 15 large_written
               = Ok (1048624, after (malloc 10 15) large_written))
    by (vm_compute; reflexivity).
  assert (R3 : history boot (after (malloc 10 15) large_written)
                 [1048624; 65552])
    by exact (hist_malloc boot _ [65552] 10 15 1048624 _ R2 ltac:(lia) H2).
  assert (H3 : free 1048624 (after (malloc 10 15) large_written)
               = Ok (tt, after (free 1048624)
                           (after (malloc 10 15) large_written)))
    by (vm_compute; reflexivity).
  assert (Hcap : payload_size 65552 (after (malloc 10 15) large_written)
                 = Ok (8176, after (malloc 10 15) large_written))
    by (vm_compute; reflexivity).
  assert (H7 : read8 (mem (after (malloc 10 15) large_written)) (65552 + 100)
               = 7)
    by (vm_compute; reflexivity).
  split; [exact Hcap|]. rewrite <- H7.
  destruct (free_keeps_others 1 [65536; 1048576; 2097152] _ _ 1048624 65552
              _ Htid R3 ltac:(ehere) ltac:(efurther; ehere) ltac:(lia) H3)
    as (cap & old & E & _ & _ & Hkeep).
  rewrite Hcap in E. apply Ok_inj in E as [<- _]. apply Hkeep. lia.
Defined.

(** X18: in a single-threaded history, when [realloc] of a live object [p]
    takes the allocate-copy-free path (the old size it reads is not above
    the request) and returns an object, that object is not [p] and begins
    with the bytes that [p] held at the call, as many as the old size; the
    request plus the 16-byte prefix of a large object must fit [size_t]. *)
Theorem realloc_moves_contents (tid : Z) (choices : list Z) (st : state)
    (live : list Z) (fuel : nat) (p sz old r : Z) (st' : state) :
  0 <= tid < 2 ^ THREAD_ID_BITS ->
  history (init_state tid choices) st live ->
  p ∈ live ->
  0 <= sz -> sz + LARGE_HEADER_SIZE < 2 ^ 64 ->
  realloc_old_sz p st = Ok (old, st) -> old <= sz ->
  realloc fuel p sz st = Ok (r, st') -> r <> 0 ->
  r <> p
  /\ forall i, 0 <= i < old ->
       read8 (mem st') (r + i) = read8 (mem st) (p + i).
Proof.
  intros Htid Hreach Hp Hsz Hwrap Hold Hle Hrun Hr.
  destruct (history_inv tid choices st live Htid Hreach) as (g & Hinv & Hl).
  destruct (Hl p Hp) as [Hlive Hal].
  destruct (realloc_contents_inv st g fuel p sz old r st' Hinv Hlive Hal Hsz
              Hwrap Hold Hle Hrun Hr) as [Hne Hcopy].
  split; [exact Hne|]. intros i Hi. rewrite (Hcopy i Hi).
  apply byte_cells_u8. exact (history_cells tid choices st live Hreach).
Qed.

(** X18, at the first object of a process, with 7 stored into its fourth
    byte, moved by a request of its own old size. *)
Lemma realloc_moves_contents_witness :
  realloc 10 65584 15 written
    = Ok (65600, after (realloc 10 65584 15) written)
  /\ read8 (mem (after (realloc 10 65584 15) written)) (65600 + 3) = 7.
Proof.
  assert (Htid : 0 <= 1 < 2 ^ THREAD_ID_BITS)
    by (change THREAD_ID_BITS with 24; lia).
  assert (H1 : malloc 10 15 boot = Ok (65584, after (malloc 10 15) boot))
    by (vm_compute; reflexivity).
  assert (R1 : history boot (after (malloc 10 15) boot) [65584])
    by exact (hist_malloc boot boot [] 10 15 65584 _ (hist_init boot)
                ltac:(lia) H1).
  assert (Hold1 : realloc_old_sz 65584 (after (malloc 10 15) boot)
                  = Ok (15, after (malloc 10 15) boot))
    by (vm_compute; reflexivity).
  assert (R2 : history boot written [65584])
    by exact (hist_store boot _ [65584] 65584 15 3 7 R1 ltac:(ehere) Hold1
                ltac:(lia)).
  assert (Hold : realloc_old_sz 65584 written = Ok (15, written))
    by (vm_compute; reflexivity).
  assert (H2 : realloc 10 65584 15 written
               = Ok (65600, after (realloc 10 65584 15) written))
    by (vm_compute; reflexivity).
  assert (H7 : read8 (mem written) (65584 + 3) = 7)
    by (vm_compute; reflexivity).
  split; [exact H2|]. rewrite <- H7.
  apply (realloc_moves_contents 1 [65536; 1048576; 2097152] _ _ 10 65584 15
           15 65600 _ Htid R2 ltac:(ehere) ltac:(lia)
           ltac:(change LARGE_HEADER_SIZE with 16; lia) Hold ltac:(lia) H2
           ltac:(lia)).
  lia.
Defined.

(** X19: in a single-threaded history, once the fuel covers the longest
    class list of the thread, [calloc] returns when the product of its
    arguments does not fit 64 bits or, with the 16-byte prefix of a large
    object, fits [size_t], and [realloc] of a live pointer returns when
    the request with that prefix fits [size_t]: they neither fault nor
    abort.  In particular the [memset] of [calloc] and the [memcpy] of
    [realloc] stay inside mapped memory. *)
Theorem calloc_realloc_return (tid : Z) (choices : list Z) (st : state)
    (live : list Z) :
  0 <= tid < 2 ^ THREAD_ID_BITS ->
  history (init_state tid choices) st live ->
  exists n, forall fuel, (n <= fuel)%nat ->
    (forall nmemb sz, 0 <= nmemb < 2 ^ 64 -> 0 <= sz < 2 ^ 64 ->
       nmemb * sz + LARGE_HEADER_SIZE < 2 ^ 64 \/ 2 ^ 64 <= nmemb * sz ->
       exists p st', calloc fuel nmemb sz st = Ok (p, st'))
    /\ (forall p sz, p ∈ live -> 0 <= sz ->
          sz + LARGE_HEADER_SIZE < 2 ^ 64 ->
          exists r st', realloc fuel p sz st = Ok (r, st')).
Proof.
  intros Htid Hh.
  destruct (history_inv tid choices st live Htid Hh) as (g & Hinv & Hl).
  exists (walk_bound g). intros fuel Hfuel. split.
  - intros nmemb sz Hn Hs Hfit.
    exact (calloc_returns st g fuel nmemb sz Hinv Hn Hs Hfit Hfuel).
  - intros p sz Hp Hsz Hwrap.
    exact (realloc_returns st g fuel p sz Hinv (proj1 (Hl p Hp)) Hsz Hwrap
             Hfuel).
Qed.

(** X19, at the first object of a process: a [realloc] to 100 bytes and a
    [calloc] of 300 elements of 16 bytes. *)
Lemma calloc_realloc_return_witness :
  exists n r st1 q st2,
    realloc n 65584 100 (after (malloc 10 15) boot) = Ok (r, st1)
    /\ calloc n 300 16 (after (malloc 10 15) boot) = Ok (q, st2).
Proof.
  assert (Htid : 0 <= 1 < 2 ^ THREAD_ID_BITS)
    by (change THREAD_ID_BITS with 24; lia).
  assert (H1 : malloc 10 15 boot = Ok (65584, after (malloc 10 15) boot))
    by (vm_compute; reflexivity).
  assert (R1 : history boot (after (malloc 10 15) boot) [65584])
    by exact (hist_malloc boot boot [] 10 15 65584 _ (hist_init boot)
                ltac:(lia) H1).
  destruct (calloc_realloc_return 1 [65536; 1048576; 2097152] _ _ Htid R1)
    as (n & Hn).
  destruct (Hn n (Nat.le_refl n)) as [Hca Hre].
  destruct (Hre 65584 100 ltac:(ehere) ltac:(lia)
              ltac:(change LARGE_HEADER_SIZE with 16; lia))
    as (r & st1 & Hrun).
  destruct (Hca 300 16 ltac:(lia) ltac:(lia)
              ltac:(left; change LARGE_HEADER_SIZE with 16; lia))
    as (q & st2 & Hrun2).
  exists n, r, st1, q, st2. split; assumption.
Defined.

(** X20: a live small object [p] of thread [tid], in the block [b] at the
    head of its class list, is freed by another thread (private data
    [td2]), with no third thread at work.  That [free] returns; it leaves
    the block with its owner, pushes [p] on the remote LIFO of the block
    (head [p - b], count 1) and stores the sync word it replaced into [p];
    the number of allocated objects is not touched.  The next [malloc] of
    the owner for a size of the same class empties the remote LIFO and
    returns [p]; block header, lists and mappings of the owner are then
    what they were before the two calls. *)
Theorem remote_free_then_malloc (tid : Z) (choices : list Z) (st : state)
    (live : list Z) (p off b : Z) (pg : page_t) (c pn : Z) (h : heap_t)
    (td2 : thread_private_t) (fuel : nat) (sz pb : Z) :
  0 <= tid < 2 ^ THREAD_ID_BITS ->
  history (init_state tid choices) st live ->
  p ∈ live ->
  object_type_decode p st = Ok ((CLASS_SMALL, off), st) ->
  b = GET_PAGE_START p off ->
  pages st !! b = Some pg ->
  class_size_decode (u64 (object_size pg - 1)) = Some (c, pn) ->
  idx_get (private_heap (thread_data st)) c = Some h ->
  head h = b ->
  thread_id (thread_data st) <> ORPHAN_ID ->
  thread_id td2 <> thread_id (thread_data st) ->
  1 <= sz <= 2047 -> class_size_decode sz = Some (c, pb) ->
  exists st1 st2 pg1,
    free p (set_thread_data td2 st) = Ok (tt, st1)
    /\ thread_data st1 = td2
    /\ pages st1 !! b = Some pg1
    /\ rf_count (sync pg1) = 1
    /\ rf_remotely_freed (sync pg1) = p - b
    /\ rf_thread_id (sync pg1) = thread_id (thread_data st)
    /\ allocated_objects pg1 = allocated_objects pg
    /\ read_le 8 (mem st1) p = sync pg
    /\ malloc (S fuel) sz (set_thread_data (thread_data st) st1) = Ok (p, st2)
    /\ pages st2 !! b = Some pg
    /\ thread_data st2 = thread_data st
    /\ mapped st2 = mapped st.
Proof.
  intros Htid Hh Hp Hdec Hb Hpg Hcls Hheap Hhd Horph Hother Hsz Hdsz.
  destruct (history_inv tid choices st live Htid Hh) as (g & Hinv & Hl).
  destruct (live_small_found st g p off b pg c pn Hinv (proj1 (Hl p Hp))
              Hdec Hb Hpg Hcls) as (Hc & Hbl & Hpl & _).
  exact (remote_free_then_alloc st g c b p h pg td2 fuel sz pb Hinv Hc Hbl
           Hpl Hheap Hhd Hpg Horph Hother Hsz Hdsz).
Qed.

(** X20, at the first object of a process, freed by a thread 2 that has
    just started. *)
Lemma remote_free_then_malloc_witness :
  exists st1 st2 pg1,
    free 65584 (set_thread_data (init_thread 2) (after (malloc 10 15) boot))
      = Ok (tt, st1)
    /\ pages st1 !! 65536 = Some pg1
    /\ rf_count (sync pg1) = 1
    /\ rf_remotely_freed (sync pg1) = 65584 - 65536
    /\ malloc 10 10
         (set_thread_data (thread_data (after (malloc 10 15) boot)) st1)
       = Ok (65584, st2).
Proof.
  assert (Htid : 0 <= 1 < 2 ^ THREAD_ID_BITS)
    by (change THREAD_ID_BITS with 24; lia).
  assert (H1 : malloc 10 15 boot = Ok (65584, after (malloc 10 15) boot))
    by (vm_compute; reflexivity).
  assert (R1 : history boot (after (malloc 10 15) boot) [65584])
    by exact (hist_malloc boot boot [] 10 15 65584 _ (hist_init boot)
                ltac:(lia) H1).
  assert (Hdec : object_type_decode 65584 (after (malloc 10 15) boot)
                 = Ok ((CLASS_SMALL, 0), after (malloc 10 15) boot))
    by (vm_compute; reflexivity).
  assert (Hb : 65536 = GET_PAGE_START 65584 0) by (vm_compute; reflexivity).
  assert (Hpg : pages (after (malloc 10 15) boot) !! 65536
                = Some (mk_page 0 0 8 16 1 63 0 1099511627776))
    by (vm_compute; reflexivity).
  assert (Hcls : class_size_decode
                   (u64 (object_size
                           (mk_page 0 0 8 16 1 63 0 1099511627776) - 1))
                 = Some (0, 8))
    by (vm_compute; reflexivity).
  assert (Hh : idx_get (private_heap (thread_data (after (malloc 10 15) boot)))
                 0 = Some (mk_heap 65536 65536))
    by (vm_compute; reflexivity).
  assert (Ho : thread_id (thread_data (after (malloc 10 15) boot))
               <> ORPHAN_ID)
    by (vm_compute; discriminate).
  assert (H2 : thread_id (init_thread 2)
               <> thread_id (thread_data (after (malloc 10 15) boot)))
    by (vm_compute; discriminate).
  assert (Hdsz : class_size_decode 10 = Some (0, 8))
    by (vm_compute; reflexivity).
  destruct (remote_free_then_malloc 1 [65536; 1048576; 2097152] _ _ 65584 0
              65536 (mk_page 0 0 8 16 1 63 0 1099511627776) 0 8
              (mk_heap 65536 65536) (init_thread 2) 9 10 8
              Htid R1 ltac:(ehere) Hdec Hb Hpg Hcls Hh eq_refl Ho H2
              ltac:(lia) Hdsz)
    as (st1 & st2 & pg1 & F & _ & P1 & K1 & R & _ & _ & _ & M & _).
  exists st1, st2, pg1. split_and!; assumption.
Defined.

(** X21: the end of a thread, after a single-threaded history and with no
    other thread at work.  With fuel for the longest class list and the
    longest cache, the destructor returns; it writes no byte of memory,
    leaves the thread's caches empty, keeps the mapping of every live
    object, and leaves the page-block of every live small object with the
    header it had, except that the owner field of its sync word is
    [ORPHAN_ID]. *)
Theorem thread_exit_orphans (tid : Z) (choices : list Z) (st : state)
    (live : list Z) :
  0 <= tid < 2 ^ THREAD_ID_BITS ->
  history (init_state tid choices) st live ->
  exists n, forall fuel, (n <= fuel)%nat ->
    exists st',
      thread_data_struct_dtor fuel st = Ok (tt, st')
      /\ mem st' = mem st
      /\ (forall i, 0 <= i < CLASS_PAGES_NUM ->
            exists w, idx_get (top (thread_data st')) i = Some w
                      /\ dq_count w = 0)
      /\ (forall p b k, p ∈ live -> mapped st !! b = Some k ->
            b <= p < b + k * PAGE_SZ -> mapped st' !! b = Some k)
      /\ (forall p off pg, p ∈ live ->
            object_type_decode p st = Ok ((CLASS_SMALL, off), st) ->
            pages st !! GET_PAGE_START p off = Some pg ->
            pages st' !! GET_PAGE_START p off = Some (orphan pg)).
Proof.
  intros Htid Hh.
  destruct (history_inv tid choices st live Htid Hh) as (g & Hinv & Hl).
  exists (exit_bound g). intros fuel Hfuel.
  destruct (dtor_live st g fuel Hinv Hfuel)
    as (st' & Hrun & Hmem & _ & Hz & Hmap & Horph).
  exists st'. split; [exact Hrun|]. split; [exact Hmem|].
  split; [exact Hz|]. split.
  - intros p b k Hp. exact (Hmap p b k (proj1 (Hl p Hp))).
  - intros p off pg Hp Hdec Hpg.
    destruct (proj1 (Hl p Hp)) as [Hlg|(c & b & Hc & Hb & Hpb)].
    { destruct (old_sz_large _ _ _ Hinv Hlg) as (n & _ & _ & _ & _ & Hd & _).
      rewrite Hd in Hdec. discriminate. }
    destruct (live_small_locate _ _ _ _ _ Hinv Hc Hb Hpb)
      as (pg0 & csz & _ & _ & _ & _ & _ & _ & Hdec0 & Hstart & _).
    rewrite Hdec0 in Hdec. injection Hdec as <-.
    rewrite Hstart in *. exact (Horph c b p pg Hc Hb Hpb Hpg).
Qed.

(** X21, at a thread that ends while it holds one object. *)
Lemma thread_exit_orphans_witness :
  exists n st',
    thread_data_struct_dtor n (after (malloc 10 15) boot) = Ok (tt, st')
    /\ pages st' !! GET_PAGE_START 65584 0
       = Some (orphan (mk_page 0 0 8 16 1 63 0 1099511627776)).
Proof.
  assert (Htid : 0 <= 1 < 2 ^ THREAD_ID_BITS)
    by (change THREAD_ID_BITS with 24; lia).
  assert (H1 : malloc 10 15 boot = Ok (65584, after (malloc 10 15) boot))
    by (vm_compute; reflexivity).
  assert (R1 : history boot (after (malloc 10 15) boot) [65584])
    by exact (hist_malloc boot boot [] 10 15 65584 _ (hist_init boot)
                ltac:(lia) H1).
  assert (Hdec : object_type_decode 65584 (after (malloc 10 15) boot)
                 = Ok ((CLASS_SMALL, 0), after (malloc 10 15) boot))
    by (vm_compute; reflexivity).
  assert (Hpg : pages (after (malloc 10 15) boot) !! GET_PAGE_START 65584 0
                = Some (mk_page 0 0 8 16 1 63 0 1099511627776))
    by (vm_compute; reflexivity).
  destruct (thread_exit_orphans 1 [65536; 1048576; 2097152] _ _ Htid R1)
    as (n & Hn).
  destruct (Hn n (Nat.le_refl n)) as (st' & Hrun & _ & _ & _ & Horph).
  exists n, st'. split; [exact Hrun|].
  exact (Horph 65584 0 _ ltac:(ehere) Hdec Hpg).
Defined.

(** X22: the life of an orphan.  A thread ends while the small object [p]
    is live (block [b], class [c]); then a thread with no block of class
    [c] (private data [td2], an identifier other than [ORPHAN_ID]) frees
    [p], with no third thread at work.  The [free] returns and makes that
    thread the owner of [b], which now heads its list for class [c], with
    [p] on the remote LIFO (head [p - b], count 1); its next [malloc] of a
    size of class [c] returns [p], and the sync word of [b] is then that
    of an owner nobody has freed into. *)
Theorem orphan_lifecycle (tid : Z) (choices : list Z) (st : state)
    (live : list Z) (p off b : Z) (pg : page_t) (c pn : Z)
    (td2 : thread_private_t) (h2 : heap_t) (sz pb : Z) :
  0 <= tid < 2 ^ THREAD_ID_BITS ->
  history (init_state tid choices) st live ->
  p ∈ live ->
  object_type_decode p st = Ok ((CLASS_SMALL, off), st) ->
  b = GET_PAGE_START p off ->
  pages st !! b = Some pg ->
  class_size_decode (u64 (object_size pg - 1)) = Some (c, pn) ->
  0 <= thread_id td2 < 2 ^ THREAD_ID_BITS -> thread_id td2 <> ORPHAN_ID ->
  idx_get (private_heap td2) c = Some h2 -> head h2 = 0 ->
  1 <= sz <= 2047 -> class_size_decode sz = Some (c, pb) ->
  exists n, forall fuel fuel2, (n <= fuel)%nat ->
    exists st' st1 st2 pg1 h1,
      thread_data_struct_dtor fuel st = Ok (tt, st')
      /\ pages st' !! b = Some (orphan pg)
      /\ free p (set_thread_data td2 st') = Ok (tt, st1)
      /\ idx_get (private_heap (thread_data st1)) c = Some h1 /\ head h1 = b
      /\ pages st1 !! b = Some pg1
      /\ rf_thread_id (sync pg1) = thread_id td2
      /\ rf_count (sync pg1) = 1
      /\ rf_remotely_freed (sync pg1) = p - b
      /\ malloc (S fuel2) sz st1 = Ok (p, st2)
      /\ pages st2 !! b
         = Some (set_sync (owner_word (thread_id td2))
                   (set_prev 0 (set_next 0 pg))).
Proof.
  intros Htid Hh Hp Hdec Hb Hpg Hcls Htid2 Hno Hh2 Hhd2 Hsz Hdsz.
  destruct (history_inv tid choices st live Htid Hh) as (g & Hinv & Hl).
  destruct (live_small_found st g p off b pg c pn Hinv (proj1 (Hl p Hp))
              Hdec Hb Hpg Hcls) as (Hc & Hbl & Hpl & _).
  exists (exit_bound g). intros fuel fuel2 Hfuel.
  exact (exit_adopt_reuse st g c b p pg td2 h2 fuel fuel2 sz pb Hinv Hc Hbl
           Hpl Hpg Hfuel Htid2 Hno Hh2 Hhd2 Hsz Hdsz).
Qed.

(** X22, at a thread that ends while it holds one object, which a thread
    2 that has just started then frees and allocates again. *)
Lemma orphan_lifecycle_witness :
  exists n st' st1 st2,
    thread_data_struct_dtor n (after (malloc 10 15) boot) = Ok (tt, st')
    /\ free 65584 (set_thread_data (init_thread 2) st') = Ok (tt, st1)
    /\ malloc 1 10 st1 = Ok (65584, st2).
Proof.
  assert (Htid : 0 <= 1 < 2 ^ THREAD_ID_BITS)
    by (change THREAD_ID_BITS with 24; lia).
  assert (H1 : malloc 10 15 boot = Ok (65584, after (malloc 10 15) boot))
    by (vm_compute; reflexivity).
  assert (R1 : history boot (after (malloc 10 15) boot) [65584])
    by exact (hist_malloc boot boot [] 10 15 65584 _ (hist_init boot)
                ltac:(lia) H1).
  assert (Hdec : object_type_decode 65584 (after (malloc 10 15) boot)
                 = Ok ((CLASS_SMALL, 0), after (malloc 10 15) boot))
    by (vm_compute; reflexivity).
  assert (Hb : 65536 = GET_PAGE_START 65584 0) by (vm_compute; reflexivity).
  assert (Hpg : pages (after (malloc 10 15) boot) !! 65536
                = Some (mk_page 0 0 8 16 1 63 0 1099511627776))
    by (vm_compute; reflexivity).
  assert (Hcls : class_size_decode
                   (u64 (object_size
                           (mk_page 0 0 8 16 1 63 0 1099511627776) - 1))
                 = Some (0, 8))
    by (vm_compute; reflexivity).
  assert (Ht2 : 0 <= thread_id (init_thread 2) < 2 ^ THREAD_ID_BITS)
    by (change THREAD_ID_BITS with 24; cbn; lia).
  assert (Hno : thread_id (init_thread 2) <> ORPHAN_ID)
    by (vm_compute; discriminate).
  assert (Hh2 : idx_get (private_heap (init_thread 2)) 0
                = Some (mk_heap 0 0))
    by (vm_compute; reflexivity).
  assert (Hdsz : class_size_decode 10 = Some (0, 8))
    by (vm_compute; reflexivity).
  destruct (orphan_lifecycle 1 [65536; 1048576; 2097152] _ _ 65584 0 65536
              (mk_page 0 0 8 16 1 63 0 1099511627776) 0 8
              (init_thread 2) (mk_heap 0 0) 10 8
              Htid R1 ltac:(ehere) Hdec Hb Hpg Hcls Ht2 Hno Hh2 eq_refl
              ltac:(lia) Hdsz) as (n & Hn).
  destruct (Hn n 0%nat (Nat.le_refl n))
    as (st' & st1 & st2 & pg1 & h1 & D & _ & F & _ & _ & _ & _ & _ & _ & M
        & _).
  exists n, st', st1, st2. split_and!; assumption.
Defined.

(** X23: [insert_front_dq] of a block [b] that is not null, not in the
    list and whose [prev] link is null makes the list of class [c], which
    held the blocks [l], hold [b :: l]; it changes no memory, no other
    class list, no header of a block outside [b :: l], and in the headers
    nothing but the links. *)
Theorem insert_front_prepends (st : state) (c : Z) (l : list Z) (b : Z)
    (pg : page_t) :
  class_list st c l ->
  b ∉ l -> b <> 0 ->
  pages st !! b = Some pg -> prev pg = 0 ->
  exists st',
    insert_front_dq c b st = Ok (tt, st')
    /\ class_list st' c (b :: l)
    /\ dq_frame c (b :: l) st st'.
Proof.
  intros Hl Hnin Hb Hpg Hpv.
  exact (insert_front_dq_list st c l b pg Hl Hnin Hb Hpg Hpv).
Qed.

(** X23, at the first block of a process, taken out of its list and put
    back in front. *)
Lemma insert_front_prepends_witness :
  exists st' h,
    insert_front_dq 0 65536 detached = Ok (tt, st')
    /\ idx_get (private_heap (thread_data st')) 0 = Some h
    /\ head h = 65536 /\ tail h = 65536.
Proof.
  destruct (insert_front_prepends detached 0 [] 65536
              (mk_page 0 0 8 16 1 63 0 1099511627776)
              detached_class_list ltac:(apply not_elem_of_nil)
              ltac:(discriminate) ltac:(vm_compute; reflexivity) eq_refl)
    as (st' & Hrun & Hl & _).
  destruct Hl as (h & Hh & (Hhd & _) & Htl & _).
  exists st', h. split_and!; assumption.
Defined.

(** X24: [insert_tail_dq] of a block [b] that is not null, not in the list
    and whose [next] link is null makes the list of class [c], which held
    the blocks [l], hold [l ++ [b]]; it changes no memory, no other class
    list, no header of a block outside [l ++ [b]], and in the headers
    nothing but the links. *)
Theorem insert_tail_appends (st : state) (c : Z) (l : list Z) (b : Z)
    (pg : page_t) :
  class_list st c l ->
  b ∉ l -> b <> 0 ->
  pages st !! b = Some pg -> next pg = 0 ->
  exists st',
    insert_tail_dq c b st = Ok (tt, st')
    /\ class_list st' c (l ++ [b])
    /\ dq_frame c (l ++ [b]) st st'.
Proof.
  intros Hl Hnin Hb Hpg Hnx.
  exact (insert_tail_dq_list st c l b pg Hl Hnin Hb Hpg Hnx).
Qed.

(** X24, at the first block of a process, taken out of its list and put
    back at the end. *)
Lemma insert_tail_appends_witness :
  exists st' h,
    insert_tail_dq 0 65536 detached = Ok (tt, st')
    /\ idx_get (private_heap (thread_data st')) 0 = Some h
    /\ head h = 65536 /\ tail h = 65536.
Proof.
  destruct (insert_tail_appends detached 0 [] 65536
              (mk_page 0 0 8 16 1 63 0 1099511627776)
              detached_class_list ltac:(apply not_elem_of_nil)
              ltac:(discriminate) ltac:(vm_compute; reflexivity) eq_refl)
    as (st' & Hrun & Hl & _).
  destruct Hl as (h & Hh & (Hhd & _) & Htl & _).
  exists st', h. split_and!; assumption.
Defined.

(** X25: [remove_front_dq] on the list of class [c] that holds the blocks
    [l] returns the first of them (null when the list is empty) and leaves
    the rest in the list, in order; the block it returns has both links
    null, and nothing but the links of the blocks of [l] and the list of
    class [c] has changed. *)
Theorem remove_front_pops (st : state) (c : Z) (l : list Z) :
  class_list st c l ->
  exists st',
    remove_front_dq c st = Ok (hd 0 l, st')
    /\ class_list st' c (tl l)
    /\ dq_frame c l st st'
    /\ (l <> [] -> unlinked st' (hd 0 l)).
Proof.
  intros Hl. exact (remove_front_dq_list st c l Hl).
Qed.

(** X25, at the class list after the first allocation of a process. *)
Lemma remove_front_pops_witness :
  exists st',
    remove_front_dq 0 (after (malloc 10 15) boot) = Ok (65536, st')
    /\ unlinked st' 65536.
Proof.
  destruct (remove_front_pops (after (malloc 10 15) boot) 0 [65536]
              first_class_list) as (st' & Hrun & _ & _ & Hu).
  exists st'. split; [exact Hrun|]. apply Hu. discriminate.
Defined.

(** X26: [remove_tail_dq] on the list of class [c] that holds the blocks
    [l] returns the last of them (null when the list is empty) and leaves
    the others in the list, in order; the block it returns has both links
    null, and nothing but the links of the blocks of [l] and the list of
    class [c] has changed. *)
Theorem remove_tail_pops (st : state) (c : Z) (l : list Z) :
  class_list st c l ->
  exists st',
    remove_tail_dq c st = Ok (List.last l 0, st')
    /\ class_list st' c (removelast l)
    /\ dq_frame c l st st'
    /\ (l <> [] -> unlinked st' (List.last l 0)).
Proof.
  intros Hl. destruct l as [|b l _] using rev_ind.
  - destruct Hl as (h & Hh & Hdl & Htl & Hnd & Hnz).
    destruct Hdl as (Hhd & _ & _). cbn [hd List.last removelast] in *.
    rewrite (remove_tail_dq_single_run c st h Hh) by congruence.
    rewrite Htl. eexists. split; [reflexivity|]. split_and!.
    + exists (mk_heap 0 0). sst. split_and!.
      * apply (idx_get_set_eq _ _ _ _ Hh).
      * unfold dlist. cbn [head tail hd dl_from].
        split_and!; [reflexivity|intros H; contradiction|exact I].
      * reflexivity.
      * apply NoDup_nil_2.
      * intros y Hy. apply elem_of_nil in Hy. contradiction.
    + split_and!; sst; try reflexivity.
      intros c' Hc'. apply (idx_get_set_other _ _ _ _ _ Hh Hc').
    + intros H. contradiction.
  - rewrite List.last_last, List.removelast_last.
    destruct (remove_tail_dq_snoc st c l b Hl) as (st' & Hrun & H1 & H2 & H3).
    exists st'. split_and!; try assumption. intros _. exact H3.
Qed.

(** X26, at the class list after the first allocation of a process. *)
Lemma remove_tail_pops_witness :
  exists st',
    remove_tail_dq 0 (after (malloc 10 15) boot) = Ok (65536, st')
    /\ unlinked st' 65536.
Proof.
  destruct (remove_tail_pops (after (malloc 10 15) boot) 0 [65536]
              first_class_list) as (st' & Hrun & _ & _ & Hu).
  exists st'. split; [exact Hrun|]. apply Hu. discriminate.
Defined.

(** ** A product that wraps with the prefix *)

(** X27: in a single-threaded history, take a [calloc] whose product fits
    64 bits but, with the 16-byte prefix of a large object, does not fit
    [size_t].  With fuel for the longest class list, [malloc] of the
    product returns; if it returns null, so does [calloc]; if it returns
    an object (in a mapping for the wrapped sum), the [memset] of
    [calloc] runs over the whole product and leaves mapped memory: the
    call ends in a fault, it never returns the object. *)
Theorem calloc_wrap_fault (tid : Z) (choices : list Z) (st : state)
    (live : list Z) (nmemb sz : Z) :
  0 <= tid < 2 ^ THREAD_ID_BITS ->
  history (init_state tid choices) st live ->
  0 <= nmemb < 2 ^ 64 -> 0 <= sz < 2 ^ 64 ->
  2 ^ 64 - LARGE_HEADER_SIZE <= nmemb * sz < 2 ^ 64 ->
  exists n, forall fuel, (n <= fuel)%nat ->
    exists p st1,
      malloc fuel (nmemb * sz) st = Ok (p, st1)
      /\ (p = 0 -> calloc fuel nmemb sz st = Ok (0, st1))
      /\ (p <> 0 -> calloc fuel nmemb sz st = Fault).
Proof.
  intros Htid Hh Hn Hs Hwin.
  destruct (history_inv tid choices st live Htid Hh) as (g & Hinv & _).
  exists (walk_bound g). intros fuel Hfuel.
  exact (calloc_wrap_faults st g fuel nmemb sz Hinv Hn Hs Hwin Hfuel).
Qed.

(** X27, at one element of the largest size, in a fresh process. *)
Lemma calloc_wrap_fault_witness :
  exists n,
    malloc n (2 ^ 64 - 1) boot = Ok (65552, after (malloc n (2 ^ 64 - 1)) boot)
    /\ calloc n 1 (2 ^ 64 - 1) boot = Fault.
Proof.
  assert (Htid : 0 <= 1 < 2 ^ THREAD_ID_BITS)
    by (change THREAD_ID_BITS with 24; lia).
  destruct (calloc_wrap_fault 1 [65536; 1048576; 2097152] boot [] 1
              (2 ^ 64 - 1) Htid (hist_init boot) ltac:(lia) ltac:(lia)
              ltac:(change LARGE_HEADER_SIZE with 16; lia)) as (n & Hn).
  destruct (Hn n (Nat.le_refl n)) as (p & st1 & Hm & _ & Hf).
  exists n.
  assert (Hl : malloc n (2 ^ 64 - 1) boot = large_alloc (2 ^ 64 - 1) boot)
    by (apply malloc_large_run; rewrite SMALL_ALLOCATION_LIMIT_val; lia).
  assert (Hr : large_alloc (2 ^ 64 - 1) boot
               = Ok (65552, after (large_alloc (2 ^ 64 - 1)) boot))
    by (vm_compute; reflexivity).
  change (1 * (2 ^ 64 - 1)) with (2 ^ 64 - 1) in Hm.
  assert (Ea : after (malloc n (2 ^ 64 - 1)) boot
               = after (large_alloc (2 ^ 64 - 1)) boot)
    by (unfold after; rewrite Hl; reflexivity).
  rewrite Ea. rewrite Hl in Hm |- *. split; [exact Hr|].
  apply Hf. rewrite Hr in Hm. apply Ok_inj in Hm as [<- _]. lia.
Defined.
